(* ===== verification/_CoqProject ===== *)
-Q . S2P
Prelude.v
MoneyUtil.v
IdGenerator.v
JsonValue.v
Result.v
RequestId.v
BeijingTime.v
SignUtil.v
Models.v
Database.v
Logger.v
Transaction.v
Daos.v
Locks.v
Interleaving.v
Invariant.v
RelyGuarantee.v
Server.v
OrderService.v
PaymentService.v
PaymentOutcome.v
Books.v
Reconcile.v
ReconcileService.v
ReconcileOutcome.v
MqClient.v
ThreadPool.v
PeriodicTask.v
MessageRelay.v
NotifyConsumer.v
ConsumerLoop.v
Controllers.v
Endpoints.v
Routes.v
ReconcileTask.v
System.v
EndToEnd.v
Concurrency.v
Backoffice.v
Jobs.v
Frontdoor.v
Workload.v
Progress.v
Alone.v
Agents.v
Site.v
SiteSafety.v
SiteRecords.v
SiteProgress.v
SiteAnswers.v
Recovery.v
Lost.v
Startup.v
