(* ===== verification/Prelude.v ===== *)
(** * trade-reconcile-system: a verification library

    The repository is a C++17 server on the drogon framework that takes orders,
    settles them on the callbacks of a payment channel, publishes each payment
    through an outbox table to a message queue, notifies the merchant from that
    queue, and compares its books with the channel's bill every day.  This library
    models it file by file and proves what makes it correct.

    ** The parts and how they interact

    An HTTP request meets the filter ([common/RequestIdFilter.cc]) and a handler
    ([controllers]), which checks its fields and submits a task to the thread pool
    ([utils/ThreadPool.cc]).  The task runs a service ([services]) in one database
    transaction ([utils/DbUtil.h]), through the data access objects ([dao]).  A
    payment leaves a row in [t_local_message]; a timer ([tasks/MessageRelayTask.cc])
    publishes the rows with publisher confirms ([utils/MqClient.cc]); a consumer
    thread ([consumer/NotifyConsumer.cc]) records each message and calls the
    merchant.  Another timer ([tasks/ReconcileTask.cc]) runs the reconciliation.

    ** The files

    - [Prelude]: machine integers, characters, decimal printing, lists; the shared
      lemmas, tactics and the hint database [trade].
    - [MoneyUtil], [IdGenerator], [BeijingTime], [SignUtil], [RequestId], [Result]:
      the leaves, [utils] and [common], each with its functional specification
      (grammar and bounds of amounts, uniqueness of identifiers, the calendar, the
      signature, the log whitelist and the filter, the response type).  [Result] has
      the classes of [detail::toJsonValue]: a type is written by its own [toJson] when it
      has one ([HasToJson]; the instances are in [Models]), else by a constructor of
      [Json::Value].
    - [JsonValue]: jsoncpp as a class with the laws of its documentation, and a
      concrete instance [Tree] for the witnesses.
    - [Models]: the structs of [models].
    - [Logger]: the life of the logger, from [init] to [shutdown].
    - [Database]: the tables of [sql/schema.sql] as lists of rows, MySQL as a class
      ([MySql], [MySqlLaws]), the statements as functions on tables, and the monad
      [M] of the services: a program is the tree of the commands it sends (clock,
      identifier, statement with the keys it locks, begin, commit) and of its
      continuations on their answers.  [run_alone] interprets it for one request:
      the committed database, the open transaction, the oracles [Env] (does a
      statement fail, what does the clock say, what became of a commit).
    - [Transaction]: a weakest-precondition calculus for [run_alone]; every proof
      about a service alone goes through its rules.
    - [Daos]: every SQL statement of [dao], with an inversion lemma each.
    - [Invariant]: what the schema promises ([db_wf]).
    - [Locks]: what each statement of [Daos] reads and changes under its locks
      ([local]; [framed] for a statement that also reads what it did not lock).
    - [Interleaving]: the same programs as threads on one server: row locks held to
      the end of a transaction, snapshots under REPEATABLE READ and READ COMMITTED,
      failures and deadlock errors at any statement, commits with a fate, requests
      that arrive at any time.
    - [RelyGuarantee]: the verification condition [safe] of a program among others,
      its rules, and its soundness for every interleaving.
    - [Server]: a concrete MySQL, fault-free oracles and a small shop, on which the
      witnesses evaluate.
    - [OrderService], [PaymentService], [Reconcile], [ReconcileService]: the
      services.  Each states the abstract effect of an operation on the database
      ([order_effect], [payment_effect], [batch_effect], [handle_effect]) and
      proves that the code refines it: exactly that effect, or nothing.
    - [PaymentOutcome], [ReconcileOutcome]: what the callback, the daily run and the
      handling of a difference answer when nothing fails, as functions of the rows and
      of the bill, branch by branch.
    - [MqClient], [MessageRelay], [NotifyConsumer]: the outbox, the broker and the
      consumer.
    - [ConsumerLoop]: the consumer's thread over any sequence of deliveries.
    - [ThreadPool], [PeriodicTask]: the concurrent parts, as interleaved steps.
    - [Controllers]: the endpoints, composed of filter, handler, pool and service.
    - [Endpoints]: what a body carries, stated on its JSON value alone, and what a
      client gets of each endpoint: the filter's answer, the handler's complaint, 503,
      or the answer to one call of the service on what the body carries; a program of
      the services hangs only in the generator of identifiers ([hang_spins]).
    - [Routes]: the routing tables in front of them; [handle_request] is the whole way
      of a request.
    - [ReconcileTask], [Startup]: the daily round; the command line and [main].
    - [Books]: stock, money and ledger, and what an order, a payment and everything
      else do to them.
    - [System]: all entry points as one step relation, one at a time; the
      invariants of every reachable state.
    - [EndToEnd]: the chain from the payment to the merchant.
    - [Concurrency], [Backoffice]: [createOrder] and [handleCallback], [run] and
      [handleDiff] are [safe] among others.
    - [Jobs], [Frontdoor], [Workload]: the jobs of the services, the statements of the
      relay and of the consumer, and HTTP requests with their routes, filter and
      handlers ([handle_request]), all in any interleaving.
    - [Progress]: the order in which the services take their locks; no deadlock, and
      an end to every request.
    - [Alone]: a thread that has the server for itself does what [run_alone] does.
    - [Agents]: the relay and the consumer as programs of jobs, publishes and posts, so
      that anything may happen between two of their calls; [asafe], the condition
      under which such a program is safe among others.
    - [Site]: the whole installation in motion - the threads, the relay, the consumer,
      the broker and the merchant, and crashes of the process - and its invariant.
    - [SiteSafety], [SiteProgress]: what the installation never does, and that it keeps
      moving.
    - [SiteRecords], [SiteAnswers]: what the installation remembers - the tables that
      grow together, orders with their records of idempotency and batches with their
      differences - and that what it has answered stands.
    - [Recovery], [Lost]: what a restart with healthy surroundings mends, and what
      nothing mends any more.

    A definition has the name of the C++ function it models where there is one.  C++
    exceptions are [Throw] of an [exn]; a dereferenced empty optional is
    [Undefined]; a thread that never leaves the identifier generator is [Hang].

    ** What the theorems show

    - All or nothing: [OrderService.createOrder_spec],
      [PaymentService.handleCallback_spec], [ReconcileService.run_spec],
      [ReconcileService.handleDiff_spec], [NotifyConsumer.process_spec],
      [MessageRelay.relay_spec] hold for every oracle: any statement may fail, any
      commit may be refused or applied with its reply lost, the clock may go back.
    - The installation ([SiteSafety]): from the first day on, for every arrival, every
      interleaving of requests, relay, consumer and timers, at both isolation levels,
      with every failure and with crashes anywhere: the tables stay well-formed
      ([site_wf]), stock, money and orders are kept ([site_books]), an order is paid
      at most once and its payment, flow and message agree ([site_paid_once]), only
      paid orders are published and only confirmed messages are marked
      ([site_outbox]), and the merchant is told the truth, each order by one request
      that is sent at most three times ([site_merchant]).  [SiteRecords]: every order
      has the one record with the bytes of its response ([site_ordered_once]), so a
      client or the channel that has missed its answer may ask again at any time
      ([site_retry], [site_callback_again]); every batch has all of its differences
      ([site_batches]).  [SiteAnswers.site_durable]: a success that was answered is in
      the database from then on: the order with the numbers of the request, the
      payment, the handled difference, the batch, each under the endpoint that answered.
      [SiteProgress.site_live]: it does not stop in the middle.
      [Recovery.site_recovers]: whatever has happened, after a restart the relay can get
      every pending message to the broker and the consumer every confirmed one to the
      merchant, all but those given up, or recorded without being told; and of those
      the merchant never hears ([Lost.recorded_never_told]).
    - Requests side by side ([Workload.concurrent_replies], [Workload.served_once]):
      what each request may be answered, and exactly-once for overlapping repetitions;
      [SiteProgress.happens_runs] makes the process of the installation one of these
      runs.  [Workload.duplicate_callback_snapshot]: where the isolation level matters -
      any repeated callback that has read its order before the first one commits, and
      goes on after, is refused under REPEATABLE READ and recognised otherwise.
    - Checks of the model itself, which say nothing of the code that the other theorems
      do not: [Alone.alone_agrees] (a thread alone and [run_alone]),
      [Agents.agents_agree] (the relay and the consumer cut at their calls, and in one
      piece), [Workload.transactions_isolated] (a transaction's locked statements can be
      replayed at its commit), [SiteProgress.site_settles] (programs are finite).
    - One operation at a time, from any database and any client of the broker: [System]
      and [EndToEnd.merchant_told].
    - Functional correctness without faults: [OrderService.createOrder_outcome],
      [PaymentOutcome.callback_outcome], [ReconcileOutcome.run_outcome],
      [ReconcileOutcome.handleDiff_outcome], [MessageRelay.relay_delivers], the reconciliation ([Reconcile.classify_spec],
      [Reconcile.classify_totals], [ReconcileService.reconcile_batch_consistent]).
    - Idempotency of single requests: [Controllers.order_endpoint_replay] (byte for
      byte), [PaymentService.callback_replayed], [ReconcileService.run_again_refused], [ReconcileService.handleDiff_once],
      [NotifyConsumer.process_redelivery], [ConsumerLoop.consumer_notifies_once].
    - Contracts between components: [NotifyConsumer.message_contract],
      [Routes.notification_routed], [MqClient.publish_attribution].
    - Endpoints: what a client may receive, and when nobody answers
      ([Endpoints.order_endpoint_spec], [Endpoints.callback_endpoint_spec],
      [Endpoints.admin_endpoints_answer]), and that nothing unidentified changes
      the database ([Routes.changes_are_identified]).
    - Threads and termination: [ThreadPool.pool_serves_queue],
      [ThreadPool.pool_shutdown], [PeriodicTask.round_end_decides],
      [IdGenerator.nextId_terminates].
    - The process: [Startup.main_spec], [Logger.logger_in_use],
      [Logger.logger_after_shutdown].
    - Amounts: [MoneyUtil.yuanStringToFen_spec] gives the grammar of the code and the
      texts on which it departs from its header; the parser is written over the
      signed operations as a parameter ([Signed]), so that
      [MoneyUtil.yuanStringToFen_bounds] can say that none overflows.
    - Round trips and bounds of the other leaves; identifiers increase
      ([IdGenerator.nextId_unique]).

    ** Bounds and fuel

    [dec] uses the binary length of its argument, which is more than the decimal one
    ([dec_fuel_enough]).  [waitNextMs] is given [spin_fuel] readings of the clock: a
    parameter of [Env], with [IdGenerator.nextId_terminates] saying when it is
    enough; running out is the outcome [Hang], never a result.  The consumer's loop
    is given one step per allowed attempt, and [NotifyConsumer.notify_loop_eq]
    shows that it never runs out; [ConsumerLoop.runLoop] is looked at for any number
    of turns.  Threads and agents need no fuel: their programs are finite trees
    ([Progress.requests_end], [SiteProgress.site_settles]).  [Invariant.price_limit] (ten thousand billion
    yuan) keeps the int64 products of an order exact and in range of DECIMAL(18,2);
    it is a hypothesis on the products of the shop.

    ** What is not modelled

    drogon, spdlog, OpenSSL, jsoncpp, rabbitmq-c, MySQL and RabbitMQ are parameters,
    with the documented behaviour the theorems use as laws.  Row locks and snapshots
    are those of InnoDB's documentation, at the grain of rows: a lock on a key also
    protects its absence, the locks of the gaps between other keys are not modelled,
    and the deadlocks they could cause are among the failures that any statement may
    meet.  The AUTO_INCREMENT counter of the differences is locked to the end of the
    transaction that inserts them and rolled back with it, so two batches number
    their differences one after the other; InnoDB hands out the numbers at once and
    leaves gaps.  Nothing reads the numbers back within the transaction.  In
    [Workload] the relay and the consumer are present with their statements, in
    [Site] with their whole code.  There a publish and a request to the merchant are
    one move with its answer; nobody else publishes to the queue; what was handed to
    the broker it may deliver at any time, so acknowledgements of deliveries are not
    recorded, and messages in the dead-letter queue have no further life.  An
    exception of the consumer ends the process: its slot is stuck until a [Crash], and
    other threads may still move in between, which only adds behaviours.  After a
    crash the generator of identifiers is any other.  A task refused by the stopped pool is a flag of the request; how many workers run tasks is not
    limited there ([ThreadPool] is about the workers).  Printing and rotation of log
    lines, the ticking of timers, the passing of time in waits and sleeps, and the
    static registration of controllers are input and output or library calls only.
    The timestamps [created_at] and [updated_at] are columns nothing reads and are
    left out. *)

From Stdlib Require Export ZArith Lia Ascii.
From stdpp Require Export base tactics decidable option numbers strings list.

#[export] Set Default Goal Selector "!".

Declare Scope trade_scope.
Delimit Scope trade_scope with trade.

Create HintDb trade.

#[global] Open Scope Z_scope.

#[global] Arguments String.append !_ _ / : simpl nomatch.

(** ** Machine integers *)

(** [std::int64_t] arithmetic, with the wrap-around of two's complement. *)
Definition wrap64 (z : Z) : Z := (z + 2 ^ 63) mod 2 ^ 64 - 2 ^ 63.

(** A conversion to [std::uint64_t]. *)
Definition u64 (z : Z) : Z := z mod 2 ^ 64.

Definition in_i64 (z : Z) : Prop := - 2 ^ 63 <= z < 2 ^ 63.

(** ** Characters *)

(** The value of a [char]: signed, as on the x86-64 targets of the build. *)
Definition schar (c : ascii) : Z :=
  let n := Z.of_nat (nat_of_ascii c) in if n <? 128 then n else n - 256.

Definition is_digit (c : ascii) : bool := (48 <=? schar c) && (schar c <=? 57).

(** Printable ASCII. *)
Definition printable (c : ascii) : bool := (32 <=? schar c) && (schar c <=? 126).

(** The decimal digit [d], for [0 <= d <= 9]. *)
Definition digit (d : Z) : ascii := ascii_of_nat (Z.to_nat (48 + d)).

Fixpoint str_all (p : ascii -> bool) (s : string) : bool :=
  match s with
  | EmptyString => true
  | String c rest => p c && str_all p rest
  end.

(** ** Decimal printing, as [std::to_string] *)

Fixpoint dec_aux (fuel : nat) (n : Z) (acc : string) : string :=
  match fuel with
  | O => acc
  | S f =>
      let acc' := String (digit (n mod 10)) acc in
      if n <? 10 then acc' else dec_aux f (n / 10) acc'
  end.

(** [log2 n + 1] binary digits are at least as many as the decimal ones. *)
Definition dec (n : Z) : string := dec_aux (S (Z.to_nat (Z.log2 n))) n "".

Definition to_string (z : Z) : string :=
  if z <? 0 then "-" +:+ dec (- z) else dec z.

(** The value of a string of digits read from the left, from [acc] on. *)
Fixpoint dec_val_from (acc : Z) (s : string) : Z :=
  match s with
  | EmptyString => acc
  | String c rest => dec_val_from (acc * 10 + (schar c - 48)) rest
  end.

Definition dec_val (s : string) : Z := dec_val_from 0 s.

#[global] Arguments wrap64 : simpl never.
#[global] Arguments u64 : simpl never.
#[global] Arguments schar : simpl never.
#[global] Arguments is_digit : simpl never.
#[global] Arguments printable : simpl never.
#[global] Arguments dec : simpl never.
#[global] Arguments to_string : simpl never.
#[global] Arguments dec_val : simpl never.

(** ** Lemmas on machine integers *)

Lemma wrap64_small z : in_i64 z -> wrap64 z = z.
Proof. unfold in_i64, wrap64. intros H. rewrite Z.mod_small; lia. Qed.

Lemma u64_small z : 0 <= z < 2 ^ 64 -> u64 z = z.
Proof. intros H. unfold u64. by rewrite Z.mod_small. Qed.

Lemma wrap64_range z : in_i64 (wrap64 z).
Proof. unfold in_i64, wrap64. pose proof (Z.mod_pos_bound (z + 2 ^ 63) (2 ^ 64)). lia. Qed.

(** ** Lemmas on strings *)

Lemma str_app_nil_r (s : string) : s +:+ "" = s.
Proof. induction s as [|c s IH]; simpl; [done | by rewrite IH]. Qed.

Lemma str_app_assoc (a b c : string) : (a +:+ b) +:+ c = a +:+ (b +:+ c).
Proof. induction a as [|x a IH]; simpl; [done | by rewrite IH]. Qed.

Lemma str_length_app (a b : string) :
  String.length (a +:+ b) = (String.length a + String.length b)%nat.
Proof. induction a as [|x a IH]; simpl; [done | by rewrite IH]. Qed.

Lemma str_all_app p (a b : string) : str_all p (a +:+ b) = str_all p a && str_all p b.
Proof. induction a as [|x a IH]; simpl; [done | by rewrite IH, andb_assoc]. Qed.

Lemma str_all_impl (p q : ascii -> bool) s :
  (forall c, p c = true -> q c = true) -> str_all p s = true -> str_all q s = true.
Proof.
  intros Hpq. induction s as [|c s IH]; simpl; [done |].
  rewrite !andb_true_iff. intros [Hc Hs]. auto.
Qed.

(** ** Lemmas on decimal printing *)

Lemma schar_digit d : 0 <= d <= 9 -> schar (digit d) = 48 + d.
Proof.
  intros H. assert (Hd : d ∈ [0; 1; 2; 3; 4; 5; 6; 7; 8; 9]) by (rewrite !elem_of_cons; lia).
  repeat (apply elem_of_cons in Hd as [-> | Hd]; [reflexivity |]). by apply elem_of_nil in Hd.
Qed.

Lemma is_digit_digit d : 0 <= d <= 9 -> is_digit (digit d) = true.
Proof. intros H. unfold is_digit. rewrite schar_digit by done. lia. Qed.

Lemma dec_val_from_app acc a b :
  dec_val_from acc (a +:+ b) = dec_val_from (dec_val_from acc a) b.
Proof. revert acc. induction a as [|c a IH]; intros acc; simpl; [done | apply IH]. Qed.

(** What [dec_aux] prints, with enough fuel: the one fact all others follow from. *)
Lemma dec_aux_spec fuel : forall n acc,
  0 <= n < 10 ^ Z.of_nat fuel -> (0 < fuel)%nat ->
  exists s, dec_aux fuel n acc = s +:+ acc
    /\ str_all is_digit s = true
    /\ (forall a, dec_val_from a s = a * 10 ^ Z.of_nat (String.length s) + n)
    /\ (0 < String.length s)%nat
    /\ n < 10 ^ Z.of_nat (String.length s)
    /\ (10 ^ (Z.of_nat (String.length s) - 1) <= n \/ String.length s = 1%nat).
Proof.
  induction fuel as [|fuel IH]; intros n acc Hn Hf; [lia |].
  assert (Hm : 0 <= n mod 10 <= 9) by (pose proof (Z.mod_pos_bound n 10); lia).
  cbn [dec_aux]. destruct (Z.ltb_spec n 10) as [Hlt | Hge].
  - exists (String (digit (n mod 10)) ""). rewrite Z.mod_small by lia. simpl.
    rewrite is_digit_digit by lia. repeat split; try lia; try done.
    intros a. rewrite schar_digit by lia. lia.
  - assert (Hq : 0 <= n / 10 < 10 ^ Z.of_nat fuel).
    { split; [apply Z.div_pos; lia |]. apply Z.div_lt_upper_bound; [lia |].
      rewrite <- Z.pow_succ_r by lia. rewrite <- Nat2Z.inj_succ. lia. }
    destruct fuel as [|fuel']; [simpl in Hq; lia |].
    destruct (IH (n / 10) (String (digit (n mod 10)) acc) Hq ltac:(lia))
      as (s & -> & Hs & Hv & Hl & Hub & Hlb).
    exists (s +:+ String (digit (n mod 10)) "").
    rewrite str_app_assoc, str_all_app, str_length_app, Hs. simpl.
    rewrite is_digit_digit by lia.
    replace (Z.of_nat (String.length s + 1)) with (Z.succ (Z.of_nat (String.length s))) by lia.
    rewrite Z.pow_succ_r by lia.
    pose proof (Z.div_mod n 10 ltac:(lia)) as Hdm.
    repeat split; try done; try lia.
    + intros a. rewrite dec_val_from_app, Hv. simpl. rewrite schar_digit by lia. nia.
    + left. replace (Z.succ (Z.of_nat (String.length s)) - 1)
        with (Z.succ (Z.of_nat (String.length s) - 1)) by lia.
      destruct Hlb as [Hlb | Hone].
      * rewrite Z.pow_succ_r by lia. lia.
      * rewrite Hone. simpl. lia.
Qed.

Lemma dec_fuel_enough n : 0 <= n -> n < 10 ^ Z.of_nat (S (Z.to_nat (Z.log2 n))).
Proof.
  intros H. pose proof (Z.log2_nonneg n).
  rewrite Nat2Z.inj_succ, Z2Nat.id by done.
  destruct (Z.eq_dec n 0) as [-> | Hnz]; [apply Z.pow_pos_nonneg; lia |].
  apply Z.lt_le_trans with (2 ^ Z.succ (Z.log2 n)); [apply Z.log2_spec; lia |].
  apply Z.pow_le_mono_l. lia.
Qed.

Lemma dec_spec n : 0 <= n ->
  str_all is_digit (dec n) = true
  /\ (forall a, dec_val_from a (dec n) = a * 10 ^ Z.of_nat (String.length (dec n)) + n)
  /\ (0 < String.length (dec n))%nat
  /\ n < 10 ^ Z.of_nat (String.length (dec n))
  /\ (10 ^ (Z.of_nat (String.length (dec n)) - 1) <= n \/ String.length (dec n) = 1%nat).
Proof.
  intros H. unfold dec.
  destruct (dec_aux_spec (S (Z.to_nat (Z.log2 n))) n "") as (s & -> & Hs); [|lia|].
  - split; [done | by apply dec_fuel_enough].
  - by rewrite str_app_nil_r.
Qed.

Lemma dec_digits n : 0 <= n -> str_all is_digit (dec n) = true.
Proof. apply dec_spec. Qed.

Lemma dec_val_dec n : 0 <= n -> dec_val (dec n) = n.
Proof. intros H. unfold dec_val. destruct (dec_spec n H) as (_ & -> & _). lia. Qed.

Lemma dec_inj a b : 0 <= a -> 0 <= b -> dec a = dec b -> a = b.
Proof. intros Ha Hb H. rewrite <- (dec_val_dec a), <- (dec_val_dec b), H; done. Qed.

Lemma dec_nonempty n : 0 <= n -> (0 < String.length (dec n))%nat.
Proof. apply dec_spec. Qed.

Lemma dec_length_le n k : 0 <= n < 10 ^ Z.of_nat k -> (0 < k)%nat -> (String.length (dec n) <= k)%nat.
Proof.
  intros [H0 Hk] Hpos. destruct (dec_spec n H0) as (_ & _ & _ & _ & [Hlb | Hone]); [|lia].
  destruct (decide (String.length (dec n) <= k)%nat) as [|Hgt]; [done | exfalso].
  assert (10 ^ Z.of_nat k <= 10 ^ (Z.of_nat (String.length (dec n)) - 1)); [|lia].
  apply Z.pow_le_mono_r; lia.
Qed.

Lemma dec_length_ge n k : 10 ^ Z.of_nat k <= n -> (k < String.length (dec n))%nat.
Proof.
  intros Hk. assert (0 <= n) by (pose proof (Z.pow_pos_nonneg 10 (Z.of_nat k)); lia).
  destruct (dec_spec n) as (_ & _ & _ & Hub & _); [done |].
  destruct (decide (k < String.length (dec n))%nat) as [|Hle]; [done | exfalso].
  assert (10 ^ Z.of_nat (String.length (dec n)) <= 10 ^ Z.of_nat k); [|lia].
  apply Z.pow_le_mono_r; lia.
Qed.

Lemma to_string_nonneg n : 0 <= n -> to_string n = dec n.
Proof. intros H. unfold to_string. by destruct (Z.ltb_spec n 0); [lia |]. Qed.

(** Two digit strings of the same length and value are the same string. *)
Lemma dec_val_from_bound s a :
  str_all is_digit s = true ->
  a * 10 ^ Z.of_nat (String.length s) <= dec_val_from a s
    < (a + 1) * 10 ^ Z.of_nat (String.length s).
Proof.
  revert a. induction s as [|c s IH]; intros a Hs; [simpl; lia |].
  simpl in Hs. apply andb_true_iff in Hs as [Hc Hs]. unfold is_digit in Hc.
  cbn [dec_val_from String.length]. rewrite Nat2Z.inj_succ, Z.pow_succ_r by lia.
  specialize (IH (a * 10 + (schar c - 48)) Hs).
  pose proof (Z.pow_pos_nonneg 10 (Z.of_nat (String.length s))). nia.
Qed.

Lemma digit_printable c : is_digit c = true -> printable c = true.
Proof. unfold is_digit, printable. rewrite !andb_true_iff, !Z.leb_le. lia. Qed.

#[export] Hint Resolve dec_digits dec_nonempty wrap64_range : trade.

(** ** Lemmas on lists *)

Lemma Forall2_impl_In {A B} (P Q : A -> B -> Prop) l k :
  Forall2 P l k -> (forall x y, In x l -> P x y -> Q x y) -> Forall2 Q l k.
Proof.
  induction 1 as [|x y l k Hxy H IH]; intros HPQ; constructor; [apply HPQ; [by left | done] |].
  apply IH. intros x' y' Hx. apply HPQ. by right.
Qed.

Lemma Forall2_compose {A B C} (P : A -> B -> Prop) (Q : B -> C -> Prop) (R : A -> C -> Prop) l k m :
  (forall x y z, P x y -> Q y z -> R x z) -> Forall2 P l k -> Forall2 Q k m -> Forall2 R l m.
Proof.
  intros HR H. revert m. induction H as [|x y l k Hxy H IH]; intros m Hm; inversion Hm; subst; constructor; eauto.
Qed.

(** [NoDup] of a concrete list, by evaluation. *)
Ltac vm_nodup :=
  match goal with |- NoDup ?l => refine (proj1 (bool_decide_eq_true (NoDup l)) _); vm_compute; reflexivity end.
