(* ===== verification/MoneyUtil.v ===== *)
(** * MoneyUtil: amounts in fen and their decimal yuan strings

    [src/utils/MoneyUtil.{h,cc}].  Amounts are [std::int64_t] numbers of fen
    (cents); the conversions to and from the decimal string in yuan are the only
    place where the program crosses the boundary to DECIMAL(18,2). *)

From S2P Require Import Prelude.

(** ** The code *)

(** [fenToYuanString]: the absolute value is taken in [std::uint64_t], so that
    INT64_MIN does not overflow. *)
Definition fenToYuanString (fen : Z) : string :=
  let negative := fen <? 0 in
  let abs := if negative then u64 (u64 (wrap64 (- wrap64 (fen + 1))) + 1) else u64 fen in
  let yuan := abs / 100 in
  let rem := abs mod 100 in
  (if negative then "-" else "") +:+ to_string yuan +:+ "." +:+
    (if rem <? 10 then "0" else "") +:+ to_string rem.

(** The signed operations of the parser, on [std::int64_t] and on [int]; [None] where
    the operation has no result. *)
Class Signed := {
  op64 : Z -> option Z;
  op32 : Z -> option Z
}.

Definition in_i32 (z : Z) : Prop := - 2 ^ 31 <= z < 2 ^ 31.
Definition wrap32 (z : Z) : Z := (z + 2 ^ 31) mod 2 ^ 32 - 2 ^ 31.

(** What the machine does: the result is taken modulo 2^64 (2^32). *)
Definition wrapping : Signed := {| op64 z := Some (wrap64 z); op32 z := Some (wrap32 z) |}.

(** What the language defines: a result out of range does not exist. *)
Definition checked : Signed := {|
  op64 z := if (- 2 ^ 63 <=? z) && (z <? 2 ^ 63) then Some z else None;
  op32 z := if (- 2 ^ 31 <=? z) && (z <? 2 ^ 31) then Some z else None
|}.

(** The locals of the loop of [yuanStringToFen]. *)
Record parse_state := ParseState {
  yuan : Z;
  frac : Z;
  fracDigits : Z;
  seenDot : bool;
  seenDigit : bool
}.

Definition init_state : parse_state := ParseState 0 0 0 false false.

Section Parser.
Context {M : Signed}.

(** [x = x * 10 + d]. *)
Definition push_digit (x d : Z) : option Z := y ← op64 (x * 10); op64 (y + d).

(** The loop: [None] when an operation has no result, [Some None] is a
    [return std::nullopt] from inside it. *)
Fixpoint parse_loop (raw : string) (st : parse_state) : option (option parse_state) :=
  match raw with
  | EmptyString => Some (Some st)
  | String c rest =>
      if schar c =? 46 (* '.' *) then
        if seenDot st then Some None
        else parse_loop rest
               (ParseState (yuan st) (frac st) (fracDigits st) true (seenDigit st))
      else if (schar c <? 48) || (57 <? schar c) then Some None
      else
        d ← op32 (schar c - 48);
        if negb (seenDot st) then
          if 100000000 <? yuan st then Some None
          else yuan' ← push_digit (yuan st) d;
               parse_loop rest (ParseState yuan' (frac st) (fracDigits st) (seenDot st) true)
        else
          fracDigits' ← op32 (fracDigits st + 1);
          if 2 <? fracDigits' then Some None
          else frac' ← push_digit (frac st) d;
               parse_loop rest (ParseState (yuan st) frac' fracDigits' (seenDot st) true)
  end.

(** What follows the loop. *)
Definition parse_finish (negative : bool) (st : parse_state) : option (option Z) :=
  if negb (seenDigit st) then Some None
  else
    frac' ← (if fracDigits st =? 1 then op64 (frac st * 10) else Some (frac st));
    yuan' ← op64 (yuan st * 100);
    fen ← op64 (yuan' + frac');
    if negative then Some <$> op64 (- fen) else Some (Some fen).

(** The body of [yuanStringToFen]. *)
Definition parse_amount (raw : string) : option (option Z) :=
  match raw with
  | EmptyString => Some None
  | String c rest =>
      if (20 <? String.length raw)%nat then Some None
      else
        let '(negative, body) :=
          if (schar c =? 43) || (schar c =? 45) then (schar c =? 45, rest)
          else (false, raw) in
        r ← parse_loop body init_state;
        match r with
        | None => Some None
        | Some st => parse_finish negative st
        end
  end.
End Parser.

(** [yuanStringToFen], as the machine runs it. *)
Definition yuanStringToFen (raw : string) : option Z := default None (parse_amount (M := wrapping) raw).

(** The largest amount [yuanStringToFen] returns: 1 000 000 009.99 yuan. *)
Definition max_parsed_fen : Z := 100000000999.

(** ** The abstract syntax of an amount *)

(** An amount: an optional sign, the digits of the yuan, and at most two digits of
    fraction after a dot. *)
Record yuan_literal := YuanLiteral {
  lit_sign : option bool;  (* [Some true] is "-", [Some false] is "+" *)
  lit_int : string;
  lit_frac : option string
}.

Definition lit_frac_digits (l : yuan_literal) : string := default "" (lit_frac l).

Definition lit_well_formed (l : yuan_literal) : bool :=
  str_all is_digit (lit_int l) && str_all is_digit (lit_frac_digits l)
  && (String.length (lit_frac_digits l) <=? 2)%nat
  && (1 <=? String.length (lit_int l) + String.length (lit_frac_digits l))%nat.

Definition sign_string (o : option bool) : string :=
  match o with Some true => "-" | Some false => "+" | None => "" end.

Definition frac_string (o : option string) : string :=
  match o with Some f => "." +:+ f | None => "" end.

Definition lit_string (l : yuan_literal) : string :=
  sign_string (lit_sign l) +:+ lit_int l +:+ frac_string (lit_frac l).

(** The value in fen: the fraction counts tenths when it has one digit. *)
Definition lit_fen (l : yuan_literal) : Z :=
  let f := lit_frac_digits l in
  let cents := dec_val f * 10 ^ (2 - Z.of_nat (String.length f)) in
  let abs := dec_val (lit_int l) * 100 + (if decide (f = "") then 0 else cents) in
  match lit_sign l with Some true => - abs | _ => abs end.

(** The text is an amount of so many fen. *)
Definition in_grammar (raw : string) (fen : Z) : Prop :=
  exists l, lit_well_formed l = true /\ lit_string l = raw /\ lit_fen l = fen.

(** What [MoneyUtil.h] promises: the value of an amount of at most 10^9 yuan (10^11
    fen), [std::nullopt] for anything else.  The header gives the forms of an amount by
    examples; what it leaves open (a plus sign, no digit on one side of the dot) is
    read as the code reads it. *)
Definition header_limit : Z := 100000000000.

Definition documented (raw : string) (r : option Z) : Prop :=
  match r with
  | Some fen => in_grammar raw fen /\ Z.abs fen <= header_limit
  | None => ~ exists fen, in_grammar raw fen /\ Z.abs fen <= header_limit
  end.

(** The two kinds of text on which the code does something else: an amount that the
    header accepts, in more than 20 characters; an amount above the header's limit
    by less than ten yuan. *)
Definition overlong (raw : string) : Prop :=
  (20 < String.length raw)%nat /\ exists fen, in_grammar raw fen /\ Z.abs fen <= header_limit.

Definition oversized (raw : string) : Prop :=
  (String.length raw <= 20)%nat /\ exists fen, in_grammar raw fen /\ header_limit < Z.abs fen <= max_parsed_fen.

(** ** Lemmas *)

(** Operations that are exact in range: the machine's and the language's are. *)
Class Exact (M : Signed) : Prop := {
  op64_exact z : in_i64 z -> op64 z = Some z;
  op32_exact z : in_i32 z -> op32 z = Some z
}.

#[local] Instance wrapping_exact : Exact wrapping.
Proof.
  split; intros z Hz; cbn.
  - by rewrite wrap64_small.
  - unfold in_i32, wrap32 in *. f_equal. rewrite Z.mod_small; lia.
Qed.

#[local] Instance checked_exact : Exact checked.
Proof.
  split; intros z Hz; cbn [op64 op32 checked]; unfold in_i64, in_i32 in Hz.
  - destruct (Z.leb_spec (- 2 ^ 63) z), (Z.ltb_spec z (2 ^ 63)); lia || done.
  - destruct (Z.leb_spec (- 2 ^ 31) z), (Z.ltb_spec z (2 ^ 31)); lia || done.
Qed.

(** The decimal rendering of a fen amount, without machine integers. *)
Lemma fenToYuanString_eq fen : in_i64 fen ->
  fenToYuanString fen =
    (if fen <? 0 then "-" else "") +:+ dec (Z.abs fen / 100) +:+ "." +:+
      (if Z.abs fen mod 100 <? 10 then "0" else "") +:+ dec (Z.abs fen mod 100).
Proof.
  unfold in_i64. intros Hr. unfold fenToYuanString.
  assert ((if fen <? 0 then u64 (u64 (wrap64 (- wrap64 (fen + 1))) + 1) else u64 fen)
          = Z.abs fen) as ->.
  { destruct (Z.ltb_spec fen 0) as [Hn | Hn].
    - rewrite (wrap64_small (fen + 1)) by (unfold in_i64; lia).
      rewrite wrap64_small by (unfold in_i64; lia).
      rewrite (u64_small (- (fen + 1))) by lia. rewrite u64_small; lia.
    - rewrite u64_small; lia. }
  pose proof (Z.mod_pos_bound (Z.abs fen) 100).
  rewrite !to_string_nonneg; [done | lia | apply Z.div_pos; lia].
Qed.

Lemma str_all_digit_not_dot c : is_digit c = true -> (schar c =? 46) = false.
Proof. unfold is_digit. lia. Qed.

(** The code's rejection test is the complement of [is_digit]. *)
Lemma reject_test c : (schar c <? 48) || (57 <? schar c) = negb (is_digit c).
Proof.
  unfold is_digit.
  destruct (Z.ltb_spec (schar c) 48), (Z.ltb_spec 57 (schar c)),
    (Z.leb_spec 48 (schar c)), (Z.leb_spec (schar c) 57); done || lia.
Qed.

Lemma is_digit_bounds c : is_digit c = true -> 0 <= schar c - 48 <= 9.
Proof. unfold is_digit. rewrite andb_true_iff, !Z.leb_le. lia. Qed.

Section Exact.
Context {M : Signed} {X : Exact M}.

Lemma push_digit_exact x d : 0 <= x <= 10 ^ 15 -> 0 <= d <= 9 -> push_digit x d = Some (x * 10 + d).
Proof.
  intros Hx Hd. unfold push_digit. rewrite op64_exact by (unfold in_i64; lia). cbn.
  apply op64_exact. unfold in_i64. lia.
Qed.

(** After the dot, the loop accepts exactly the digits that still fit. *)
Lemma parse_loop_frac s y f k sd :
  0 <= k <= 2 -> 0 <= f < 10 ^ k ->
  parse_loop s (ParseState y f k true sd) =
    if str_all is_digit s && (k + Z.of_nat (String.length s) <=? 2)
    then Some (Some (ParseState y (dec_val_from f s) (k + Z.of_nat (String.length s)) true
                       (sd || negb (String.length s =? 0)%nat)))
    else Some None.
Proof.
  revert f k sd. induction s as [|c s IH]; intros f k sd Hk Hf; cbn -[Z.of_nat];
    rewrite ?Nat2Z.inj_succ.
  { rewrite Z.add_0_r, orb_false_r. destruct (Z.leb_spec k 2); [done | lia]. }
  rewrite reject_test. destruct (is_digit c) eqn:Hc; cycle 1.
  { by destruct (schar c =? 46). }
  rewrite (str_all_digit_not_dot c Hc). apply is_digit_bounds in Hc. cbn [negb andb].
  rewrite !op32_exact by (unfold in_i32; lia). cbn [mbind option_bind].
  destruct (Z.ltb_spec 2 (k + 1)) as [Hover | Hok].
  { destruct (Z.leb_spec (k + Z.succ (Z.of_nat (String.length s))) 2); [lia |].
    by rewrite andb_false_r. }
  assert (Hfb : 0 <= f * 10 + (schar c - 48) < 10 ^ (k + 1)).
  { rewrite Z.pow_add_r by lia. lia. }
  assert (10 ^ (k + 1) <= 10 ^ 2) by (apply Z.pow_le_mono_r; lia).
  rewrite push_digit_exact by lia. cbn [mbind option_bind].
  rewrite IH by lia. rewrite orb_true_r. cbn [orb].
  replace (k + 1 + Z.of_nat (String.length s))
    with (k + Z.succ (Z.of_nat (String.length s))) by lia.
  done.
Qed.

(** The prefix before the first dot, and what follows that dot. *)
Fixpoint split_dot (s : string) : string * option string :=
  match s with
  | EmptyString => ("", None)
  | String c rest =>
      if schar c =? 46 then ("", Some rest)
      else let '(a, b) := split_dot rest in (String c a, b)
  end.

Lemma split_dot_string s : s = (split_dot s).1 +:+ frac_string (split_dot s).2.
Proof.
  induction s as [|c s IH]; [done |]. simpl. destruct (Z.eqb_spec (schar c) 46) as [Hd | Hd].
  - simpl. f_equal. destruct c as [[] [] [] [] [] [] [] []]; vm_compute in Hd; congruence.
  - destruct (split_dot s) as [a b]. simpl in *. by rewrite IH at 1.
Qed.

Lemma split_dot_digits a o : str_all is_digit a = true ->
  split_dot (a +:+ frac_string o) = (a, o).
Proof.
  induction a as [|c a IH]; simpl.
  - by destruct o.
  - rewrite andb_true_iff. intros [Hc Ha]. rewrite str_all_digit_not_dot, IH by done. done.
Qed.

(** Before the dot: digits are accumulated while the value so far is at most
    10^8, which is the same as bounding the final value by 10^9 + 9. *)
Lemma parse_loop_int s y sd : 0 <= y <= 1000000009 ->
  parse_loop s (ParseState y 0 0 false sd) =
    let '(a, o) := split_dot s in
    if str_all is_digit a && (dec_val_from y a <=? 1000000009) then
      let sd' := sd || negb (String.length a =? 0)%nat in
      match o with
      | None => Some (Some (ParseState (dec_val_from y a) 0 0 false sd'))
      | Some f => parse_loop f (ParseState (dec_val_from y a) 0 0 true sd')
      end
    else Some None.
Proof.
  revert y sd. induction s as [|c s IH]; intros y sd Hy; cbn.
  { destruct (Z.leb_spec y 1000000009); [|lia]. by rewrite orb_false_r. }
  destruct (Z.eqb_spec (schar c) 46) as [Hd | Hd]; cbn.
  { destruct (Z.leb_spec y 1000000009); [|lia]. by rewrite orb_false_r. }
  destruct (split_dot s) as [a o] eqn:Hs. cbn. rewrite reject_test.
  destruct (is_digit c) eqn:Hc; [apply is_digit_bounds in Hc | done].
  cbn [negb andb]. rewrite op32_exact by (unfold in_i32; lia). cbn [mbind option_bind]. rewrite orb_true_r.
  destruct (Z.ltb_spec 100000000 y) as [Hbig | Hok].
  - destruct (str_all is_digit a) eqn:Ha; [cbn [andb] | done].
    pose proof (dec_val_from_bound a (y * 10 + (schar c - 48)) Ha).
    pose proof (Z.pow_pos_nonneg 10 (Z.of_nat (String.length a)) ltac:(lia) ltac:(lia)).
    destruct (Z.leb_spec (dec_val_from (y * 10 + (schar c - 48)) a) 1000000009); [nia | done].
  - rewrite push_digit_exact by lia. cbn [mbind option_bind]. rewrite IH by lia. done.
Qed.

(** The unsigned part of a literal whose digits are [a] and [o]. *)
Definition body_ok (a : string) (o : option string) : bool :=
  str_all is_digit a && (dec_val a <=? 1000000009) && str_all is_digit (default "" o)
  && (String.length (default "" o) <=? 2)%nat
  && (1 <=? String.length a + String.length (default "" o))%nat.

Lemma parse_finish_eq negative y f k dot :
  0 <= y <= 1000000009 -> 0 <= k <= 2 -> 0 <= f < 10 ^ k ->
  parse_finish negative (ParseState y f k dot true) =
    let abs := y * 100 + f * (if k =? 1 then 10 else 1) in
    Some (Some (if negative then - abs else abs)).
Proof.
  intros Hy Hk Hf. unfold parse_finish. cbn.
  assert (f <= 99) by (assert (10 ^ k <= 10 ^ 2) by (apply Z.pow_le_mono_r; lia); lia).
  destruct (Z.eqb_spec k 1); rewrite ?(op64_exact (f * 10)) by (unfold in_i64; lia); cbn [mbind option_bind];
    rewrite (op64_exact (y * 100)) by (unfold in_i64; lia); cbn [mbind option_bind];
    rewrite (op64_exact (y * 100 + _)) by (unfold in_i64; lia); cbn [mbind option_bind];
    destruct negative; rewrite ?op64_exact by (unfold in_i64; lia); cbn [fmap option_fmap option_map];
    do 3 f_equal; lia.
Qed.

Lemma dec_val_nonneg a : str_all is_digit a = true -> 0 <= dec_val a.
Proof. intros Ha. pose proof (dec_val_from_bound a 0 Ha). unfold dec_val. lia. Qed.

(** The loop and what follows it, on a body without its sign. *)
Lemma parse_body_eq negative b :
  (r ← parse_loop b init_state; match r with None => Some None | Some st => parse_finish negative st end) =
    let '(a, o) := split_dot b in
    if body_ok a o
    then Some (Some (lit_fen (YuanLiteral (if negative then Some true else None) a o)))
    else Some None.
Proof.
  unfold init_state. rewrite parse_loop_int by lia.
  destruct (split_dot b) as [a o]. fold (dec_val a).
  unfold body_ok, lit_fen, lit_frac_digits; cbn [lit_int lit_frac lit_sign].
  destruct (str_all is_digit a) eqn:Ha; [|done]. pose proof (dec_val_nonneg a Ha).
  destruct (Z.leb_spec (dec_val a) 1000000009); [cbn [andb] | done].
  destruct o as [f|]; cbn [default from_option id].
  - rewrite parse_loop_frac by lia. fold (dec_val f). rewrite Z.add_0_l. cbn [andb orb].
    destruct (str_all is_digit f) eqn:Hf; [cbn [andb] | done].
    destruct (Nat.leb_spec (String.length f) 2), (Z.leb_spec (Z.of_nat (String.length f)) 2);
      try lia; [cbn [andb mbind option_bind] | done].
    destruct (Nat.leb_spec 1 (String.length a + String.length f)) as [Hpos | Hnone].
    + replace (negb (String.length a =? 0)%nat || negb (String.length f =? 0)%nat) with true
        by (destruct (String.length a), (String.length f); done || (simpl in Hpos; lia)).
      pose proof (dec_val_from_bound f 0 Hf) as Hfb. fold (dec_val f) in Hfb.
      rewrite parse_finish_eq by lia. cbn. f_equal.
      assert (dec_val f * (if Z.of_nat (String.length f) =? 1 then 10 else 1) =
              (if decide (f = "") then 0
               else dec_val f * 10 ^ (2 - Z.of_nat (String.length f)))) as ->.
      { destruct f as [|c [|d [|e f]]]; [reflexivity | reflexivity | reflexivity |].
        simpl in *. lia. }
      by destruct negative.
    + destruct a, f; simpl in Hnone; try lia. done.
  - cbn. destruct a as [|c a]; [done |].
    rewrite parse_finish_eq by lia. cbn. f_equal.
    rewrite decide_True by done. by destruct negative.
Qed.

(** The amount of a text, without machine integers. *)
Definition body_amount (negative : bool) (b : string) : option Z :=
  let '(a, o) := split_dot b in
  if body_ok a o then Some (lit_fen (YuanLiteral (if negative then Some true else None) a o)) else None.

Definition amount_of (raw : string) : option Z :=
  match raw with
  | EmptyString => None
  | String c rest =>
      if (20 <? String.length raw)%nat then None
      else if (schar c =? 43) || (schar c =? 45) then body_amount (schar c =? 45) rest
      else body_amount false raw
  end.

Lemma parse_amount_eq raw : parse_amount raw = Some (amount_of raw).
Proof.
  unfold parse_amount, amount_of, body_amount. destruct raw as [|c rest]; [done |].
  destruct (20 <? _)%nat; [done |].
  destruct (_ || _); rewrite parse_body_eq; destruct (split_dot _) as [a o]; by destruct (body_ok a o).
Qed.
End Exact.

Lemma yuanStringToFen_eq raw : yuanStringToFen raw = amount_of raw.
Proof. unfold yuanStringToFen. by rewrite parse_amount_eq. Qed.

Lemma body_ok_bound a o sg : body_ok a o = true ->
  0 <= Z.abs (lit_fen (YuanLiteral sg a o)) <= max_parsed_fen.
Proof.
  unfold body_ok, lit_fen, lit_frac_digits, max_parsed_fen. cbn.
  rewrite !andb_true_iff, Z.leb_le, !Nat.leb_le. intros [[[[Ha Hb] Hf] Hl] _].
  pose proof (dec_val_nonneg a Ha). pose proof (dec_val_from_bound (default "" o) 0 Hf) as Hfb.
  fold (dec_val (default "" o)) in Hfb.
  destruct (decide (default "" o = "")) as [E | E]; [destruct sg as [[]|]; lia |].
  remember (default "" o) as f eqn:Ef. clear Ef.
  assert (String.length f = 1%nat \/ String.length f = 2%nat) as [Hn | Hn].
  { destruct f; [done |]. simpl in *. lia. }
  all: rewrite Hn in *; simpl in *; destruct sg as [[]|]; lia.
Qed.

(** ** From the loop to the literal *)

Lemma body_ok_iff sg a o :
  body_ok a o = true <->
  lit_well_formed (YuanLiteral sg a o) = true /\ dec_val a <= 1000000009.
Proof.
  unfold body_ok, lit_well_formed, lit_frac_digits. cbn.
  rewrite !andb_true_iff, Z.leb_le. tauto.
Qed.

Lemma schar_plus c : schar c = 43 -> c = "+"%char.
Proof. destruct c as [[] [] [] [] [] [] [] []]; vm_compute; congruence. Qed.

Lemma schar_minus c : schar c = 45 -> c = "-"%char.
Proof. destruct c as [[] [] [] [] [] [] [] []]; vm_compute; congruence. Qed.

Lemma yuanStringToFen_inv raw fen :
  yuanStringToFen raw = Some fen ->
  (String.length raw <= 20)%nat /\
  exists sg a o, raw = lit_string (YuanLiteral sg a o)
    /\ body_ok a o = true /\ lit_fen (YuanLiteral sg a o) = fen.
Proof.
  rewrite yuanStringToFen_eq. unfold amount_of. destruct raw as [|c rest]; [done |].
  destruct (Nat.ltb_spec 20 (String.length (String c rest))) as [| Hlen]; [done |].
  intros H. split; [done |].
  assert (Hgen : forall negative b, body_amount negative b = Some fen ->
    body_ok (split_dot b).1 (split_dot b).2 = true /\
    lit_fen (YuanLiteral (if negative then Some true else None) (split_dot b).1 (split_dot b).2)
      = fen /\ b = (split_dot b).1 +:+ frac_string (split_dot b).2).
  { intros negative b Hb. unfold body_amount in Hb.
    pose proof (split_dot_string b). destruct (split_dot b) as [a o].
    destruct (body_ok a o) eqn:Hok; [| done]. by simplify_eq. }
  destruct (Z.eqb_spec (schar c) 43) as [Hp | _]; [| destruct (Z.eqb_spec (schar c) 45) as [Hm | _]];
    cbn [orb] in H; apply Hgen in H as (Hok & Hv & Hs).
  - rewrite (schar_plus c Hp) in *. cbn in Hv. eexists (Some false), _, _.
    unfold lit_string. cbn. rewrite <- Hs. done.
  - rewrite (schar_minus c Hm). eexists (Some true), _, _.
    unfold lit_string. cbn. rewrite <- Hs. done.
  - eexists None, _, _. unfold lit_string. cbn. rewrite <- Hs. done.
Qed.

(** The first character of an unsigned body is a digit or the dot. *)
Lemma body_first_char a o c rest : body_ok a o = true ->
  a +:+ frac_string o = String c rest -> (schar c =? 43) || (schar c =? 45) = false.
Proof.
  unfold body_ok. rewrite !andb_true_iff. intros [[[[Ha _] _] _] Hne].
  destruct a as [|c' a]; simpl; [destruct o as [f|]; simpl; [|done] |]; intros [= <- _].
  - done.
  - simpl in Ha. apply andb_true_iff in Ha as [Hc _]. apply is_digit_bounds in Hc.
    destruct (Z.eqb_spec (schar c') 43), (Z.eqb_spec (schar c') 45); done || lia.
Qed.

Lemma yuanStringToFen_literal sg a o : body_ok a o = true ->
  (String.length (lit_string (YuanLiteral sg a o)) <= 20)%nat ->
  yuanStringToFen (lit_string (YuanLiteral sg a o)) = Some (lit_fen (YuanLiteral sg a o)).
Proof.
  intros Hok Hlen.
  assert (Hdig : str_all is_digit a = true).
  { unfold body_ok in Hok. rewrite !andb_true_iff in Hok. tauto. }
  assert (Hbody : forall negative, body_amount negative (a +:+ frac_string o)
    = Some (lit_fen (YuanLiteral (if negative then Some true else None) a o))).
  { intros negative. unfold body_amount. rewrite split_dot_digits by done. by rewrite Hok. }
  rewrite yuanStringToFen_eq. unfold amount_of, lit_string in *. cbn [lit_sign lit_int lit_frac] in *.
  destruct sg as [[]|]; cbn [sign_string] in *.
  - cbn [String.append] in *. destruct (Nat.ltb_spec 20 (String.length (String "-" (a +:+ frac_string o)))); [lia |].
    cbn. apply (Hbody true).
  - cbn [String.append] in *. destruct (Nat.ltb_spec 20 (String.length (String "+" (a +:+ frac_string o)))); [lia |].
    cbn. apply (Hbody false).
  - cbn [String.append] in *. destruct (a +:+ frac_string o) as [|c rest] eqn:E.
    + unfold body_ok in Hok. destruct a, o; done.
    + destruct (Nat.ltb_spec 20 (String.length (String c rest))); [lia |].
      rewrite (body_first_char a o c rest Hok E). apply (Hbody false).
Qed.

(** What [fenToYuanString] prints is a literal with a two-digit fraction. *)
Lemma fenToYuanString_literal fen : in_i64 fen ->
  exists l, fenToYuanString fen = lit_string l /\ lit_fen l = fen
    /\ lit_int l = dec (Z.abs fen / 100) /\ lit_well_formed l = true.
Proof.
  intros Hr. rewrite fenToYuanString_eq by done.
  pose proof (Z.mod_pos_bound (Z.abs fen) 100 ltac:(lia)) as Hm.
  assert (Hq : 0 <= Z.abs fen / 100) by (apply Z.div_pos; lia).
  set (f := (if Z.abs fen mod 100 <? 10 then "0" else "") +:+ dec (Z.abs fen mod 100)).
  assert (Hf : String.length f = 2%nat /\ dec_val f = Z.abs fen mod 100 /\ str_all is_digit f = true).
  { assert (Hall : forallb (fun n => let f := (if n <? 10 then "0" else "") +:+ dec n in
        (String.length f =? 2)%nat && (dec_val f =? n) && str_all is_digit f)
        (map Z.of_nat (seq 0 100)) = true) by (vm_compute; reflexivity).
    rewrite forallb_forall in Hall. specialize (Hall (Z.abs fen mod 100)).
    rewrite !andb_true_iff, Nat.eqb_eq, Z.eqb_eq in Hall.
    destruct Hall as [[? ?] ?]; [| done]. apply in_map_iff.
    exists (Z.to_nat (Z.abs fen mod 100)). rewrite in_seq. split; lia. }
  destruct Hf as (Hl & Hv & Hd).
  exists (YuanLiteral (if fen <? 0 then Some true else None) (dec (Z.abs fen / 100)) (Some f)).
  repeat split.
  - unfold lit_string. cbn. by destruct (fen <? 0).
  - unfold lit_fen, lit_frac_digits. cbn. rewrite Hl, Hv, dec_val_dec by done.
    rewrite decide_False by (intros E; by rewrite E in Hl).
    pose proof (Z.div_mod (Z.abs fen) 100). cbn.
    destruct (Z.ltb_spec fen 0); lia.
  - unfold lit_well_formed, lit_frac_digits. cbn. rewrite Hl, Hd, dec_digits by done.
    by rewrite Nat.add_comm.
Qed.

Lemma fenToYuanString_printable fen : in_i64 fen -> str_all printable (fenToYuanString fen) = true.
Proof.
  intros H. rewrite fenToYuanString_eq by done. rewrite !str_all_app.
  pose proof (Z.mod_pos_bound (Z.abs fen) 100 ltac:(lia)).
  rewrite !(str_all_impl _ _ (dec _) digit_printable) by (apply dec_digits; first [lia | apply Z.div_pos; lia]).
  by destruct (fen <? 0), (Z.abs fen mod 100 <? 10).
Qed.

Lemma fenToYuanString_length fen :
  Z.abs fen <= max_parsed_fen -> (String.length (fenToYuanString fen) <= 20)%nat.
Proof.
  unfold max_parsed_fen. intros H. rewrite fenToYuanString_eq by (unfold in_i64; lia).
  rewrite !str_length_app.
  pose proof (Z.mod_pos_bound (Z.abs fen) 100 ltac:(lia)).
  assert (0 <= Z.abs fen / 100 < 10 ^ Z.of_nat 10).
  { split; [apply Z.div_pos; lia |]. apply Z.div_lt_upper_bound; simpl; lia. }
  pose proof (dec_length_le (Z.abs fen / 100) 10 ltac:(lia) ltac:(lia)).
  pose proof (dec_length_le (Z.abs fen mod 100) 2 ltac:(simpl; lia) ltac:(lia)).
  destruct (fen <? 0), (Z.abs fen mod 100 <? 10); simpl; lia.
Qed.

Lemma yuanStringToFen_abs raw fen : yuanStringToFen raw = Some fen -> Z.abs fen <= max_parsed_fen.
Proof.
  intros H. apply yuanStringToFen_inv in H as (_ & sg & a & o & _ & Hok & <-).
  apply (body_ok_bound a o sg Hok).
Qed.

Lemma yuanStringToFen_iff raw fen :
  yuanStringToFen raw = Some fen <->
  (String.length raw <= 20)%nat /\
  exists l, lit_well_formed l = true /\ lit_string l = raw
    /\ dec_val (lit_int l) <= 1000000009 /\ lit_fen l = fen.
Proof.
  split.
  - intros (Hlen & sg & a & o & -> & Hok & <-)%yuanStringToFen_inv.
    split; [done |]. exists (YuanLiteral sg a o). by apply (body_ok_iff sg) in Hok as [Hwf Hv].
  - intros (Hlen & [sg a o] & Hwf & <- & Hv & <-). apply yuanStringToFen_literal; [| done].
    by apply (body_ok_iff sg).
Qed.

Lemma lit_fen_bound l : lit_well_formed l = true ->
  dec_val (lit_int l) <= 1000000009 <-> Z.abs (lit_fen l) <= max_parsed_fen.
Proof.
  intros Hwf. destruct l as [sg a o]. split.
  - intros Hv. apply (body_ok_bound a o sg). by apply (body_ok_iff sg).
  - unfold lit_well_formed, lit_fen, lit_frac_digits, max_parsed_fen in *. cbn in *.
    rewrite !andb_true_iff in Hwf. destruct Hwf as [[[Ha Hf] Hlen] _]. apply Nat.leb_le in Hlen.
    pose proof (dec_val_nonneg a Ha). pose proof (dec_val_nonneg _ Hf).
    pose proof (Z.pow_pos_nonneg 10 (2 - Z.of_nat (String.length (default "" o))) ltac:(lia) ltac:(lia)).
    destruct (decide _), sg as [[]|]; nia.
Qed.

Lemma yuanStringToFen_accepts raw fen : yuanStringToFen raw = Some fen <->
  (String.length raw <= 20)%nat /\ in_grammar raw fen /\ Z.abs fen <= max_parsed_fen.
Proof.
  rewrite yuanStringToFen_iff. split.
  - intros (Hlen & l & Hwf & Hs & Hv & <-). split; [done |]. split; [by exists l | by apply lit_fen_bound].
  - intros (Hlen & (l & Hwf & Hs & <-) & Hb). split; [done |]. exists l. by apply lit_fen_bound in Hb.
Qed.

Lemma fen_yuan_round fen :
  Z.abs fen <= max_parsed_fen -> yuanStringToFen (fenToYuanString fen) = Some fen.
Proof.
  unfold max_parsed_fen. intros H.
  assert (Hq : 0 <= Z.abs fen / 100 <= 1000000009).
  { split; [apply Z.div_pos; lia |]. apply Z.lt_succ_r, Z.div_lt_upper_bound; lia. }
  destruct (fenToYuanString_literal fen) as (l & Hs & Hv & Hi & Hwf); [unfold in_i64; lia |].
  rewrite Hs, <- Hv. apply yuanStringToFen_iff. split.
  - rewrite <- Hs. by apply fenToYuanString_length.
  - exists l. rewrite Hi, dec_val_dec by lia. repeat split; done || lia.
Qed.

(** ** Properties *)

(** C37. [yuanStringToFen] against its grammar and against its header.  It accepts
    exactly the texts of at most 20 characters that are an amount (optional sign,
    digits, optional dot with at most two digits, at least one digit) of at most
    1 000 000 009.99 yuan, and returns the amount in fen; everything else is
    [nullopt].  The header promises the same with a limit of 10^9 yuan and none on
    the length: the code does what the header says exactly on the texts that are
    neither an amount below the header's limit in more than 20 characters, which it
    refuses, nor an amount above that limit by less than ten yuan, which it accepts. *)
Theorem yuanStringToFen_spec raw :
  (forall fen, yuanStringToFen raw = Some fen <->
     (String.length raw <= 20)%nat /\ in_grammar raw fen /\ Z.abs fen <= max_parsed_fen)
  /\ (documented raw (yuanStringToFen raw) <-> ~ overlong raw /\ ~ oversized raw).
Proof.
  assert (Hacc : forall fen, yuanStringToFen raw = Some fen <->
    (String.length raw <= 20)%nat /\ in_grammar raw fen /\ Z.abs fen <= max_parsed_fen)
    by apply yuanStringToFen_accepts.
  split; [exact Hacc |]. split.
  - intros Hdoc. split.
    + intros (Hlen & fen & Hg & Hle). destruct (yuanStringToFen raw) as [fen'|] eqn:E.
      * destruct (proj1 (Hacc fen') eq_refl) as [? _]. lia.
      * apply Hdoc. by exists fen.
    + intros (Hlen & fen & Hg & Hlt & Hmax).
      assert (yuanStringToFen raw = Some fen) as E by by apply Hacc.
      rewrite E in Hdoc. destruct Hdoc as [_ Hle]. lia.
  - intros [Hlong Hbig]. destruct (yuanStringToFen raw) as [fen|] eqn:E; cbn.
    + destruct (proj1 (Hacc fen) eq_refl) as (Hlen & Hg & Hmax). split; [done |].
      destruct (Z.le_gt_cases (Z.abs fen) header_limit) as [|Hgt]; [done |]. destruct Hbig. split; [done |].
      exists fen. split; [done |]. lia.
    + intros (fen & Hg & Hle). destruct (Nat.le_gt_cases (String.length raw) 20) as [Hs | Hs].
      * enough (None = Some fen) by done. apply Hacc. unfold header_limit, max_parsed_fen in *. split_and!; [done | done | lia].
      * destruct Hlong. split; [done |]. by exists fen.
Qed.

Example yuan_literal_399_5 : yuanStringToFen "+0399.5" = Some 39950.
Proof. reflexivity. Qed.

(** The two divergences, on concrete texts. *)
Example above_the_header_limit : oversized "1000000009.99" /\ yuanStringToFen "1000000009.99" = Some 100000000999.
Proof.
  assert (E : yuanStringToFen "1000000009.99" = Some 100000000999) by reflexivity.
  split; [| exact E]. apply yuanStringToFen_accepts in E as (Hl & Hg & Hb). split; [exact Hl |].
  exists 100000000999. split; [exact Hg |]. by split.
Qed.

Example longer_than_the_code_reads :
  overlong "0000000000000000000399.5" /\ yuanStringToFen "0000000000000000000399.5" = None.
Proof.
  split; [| reflexivity]. split; [cbn; lia |]. exists 39950. split; [| by vm_compute].
  by exists (YuanLiteral None "0000000000000000000399" (Some "5")).
Qed.

(** C38. No overflow.  Run with operations that have no result when the mathematical
    one is out of range - of [std::int64_t] for the yuan, the fraction and the fen,
    of [int] for the digit and the count of digits - the parser gets through every
    text and returns what the machine's returns: whatever the caller sends, rejected
    or accepted, no signed operation overflows.  And an amount accepted is at most
    1 000 000 009.99 yuan in absolute value (the header says 10^9 yuan). *)
Theorem yuanStringToFen_bounds raw :
  parse_amount (M := checked) raw = Some (yuanStringToFen raw)
  /\ Forall (fun fen => Z.abs fen <= max_parsed_fen) (option_list (yuanStringToFen raw)).
Proof.
  split; [by rewrite parse_amount_eq, yuanStringToFen_eq |].
  destruct (yuanStringToFen raw) as [fen|] eqn:E; repeat constructor. by apply (yuanStringToFen_abs raw).
Qed.

(** Round trip: an amount printed by [fenToYuanString] is read back
    unchanged by [yuanStringToFen], for every amount within the limit of the
    parser, negative ones included. *)
Theorem fen_yuan_roundtrip fen :
  Z.abs fen <= max_parsed_fen -> yuanStringToFen (fenToYuanString fen) = Some fen.
Proof. apply fen_yuan_round. Qed.

Lemma fen_yuan_roundtrip_witness :
  Z.abs (-1250) <= max_parsed_fen
  /\ yuanStringToFen (fenToYuanString (-1250)) = Some (-1250).
Proof. split; [vm_compute; congruence |]. apply fen_yuan_roundtrip. vm_compute. congruence. Defined.
