(* ===== verification/IdGenerator.v ===== *)
(** * IdGenerator: snowflake identifiers

    [src/utils/IdGenerator.cc].  The system clock is an oracle, [clock n] being
    the [n]-th reading of [currentTimeMs]; the generator's state is the pair of
    globals [gLastTimestampMs] and [gSequence].  [nextId] runs under a mutex, so
    concurrent callers are a sequence of calls. *)

From Stdlib Require Import Sorting.Sorted.
From S2P Require Import Prelude.

(** ** The code *)

Definition kEpochMs : Z := 1704067200000.  (* 2024-01-01 00:00:00 UTC *)
Definition kDatacenterIdBits : Z := 5.
Definition kWorkerIdBits : Z := 5.
Definition kSequenceBits : Z := 12.
Definition kMaxSequence : Z := Z.shiftl 1 kSequenceBits - 1.
Definition kTimestampShift : Z := kDatacenterIdBits + kWorkerIdBits + kSequenceBits.
Definition kDatacenterShift : Z := kWorkerIdBits + kSequenceBits.
Definition kWorkerShift : Z := kSequenceBits.
Definition kDatacenterId : Z := 1.
Definition kWorkerId : Z := 1.

Record id_state := IdState {
  gLastTimestampMs : Z;
  gSequence : Z
}.

Definition id_init : id_state := IdState (-1) 0.

(** The three ways a call ends, for the readings it is given. *)
Inductive id_result :=
  | IdOk (id : string)      (* the identifier is returned *)
  | IdClockBackwards        (* [std::runtime_error] is thrown *)
  | IdSpinning.             (* still in [waitNextMs] when the fuel ran out *)

(** The 64-bit layout: timestamp, datacenter, worker, sequence. *)
Definition compose_id (nowMs seq : Z) : Z :=
  Z.lor (Z.lor (Z.lor (wrap64 (Z.shiftl (nowMs - kEpochMs) kTimestampShift))
                      (Z.shiftl kDatacenterId kDatacenterShift))
               (Z.shiftl kWorkerId kWorkerShift))
        seq.

(** The spin: [fuel] bounds the number of readings the model looks at. *)
Fixpoint waitNextMs (clock : nat -> Z) (fuel n : nat) (lastMs : Z) : option (Z * nat) :=
  match fuel with
  | O => None
  | S fuel' =>
      let ts := clock n in
      if ts <=? lastMs then waitNextMs clock fuel' (S n) lastMs else Some (ts, S n)
  end.

(** [IdGenerator::nextId]; [n] is the number of readings made so far. *)
Definition nextId (clock : nat -> Z) (fuel n : nat) (st : id_state) : id_result * id_state * nat :=
  let nowMs := clock n in
  if nowMs <? gLastTimestampMs st then (IdClockBackwards, st, S n)
  else if nowMs =? gLastTimestampMs st then
    let seq := Z.land (gSequence st + 1) kMaxSequence in
    if seq =? 0 then
      match waitNextMs clock fuel (S n) (gLastTimestampMs st) with
      | None => (IdSpinning, IdState (gLastTimestampMs st) seq, (S n + fuel)%nat)
      | Some (ts, n') => (IdOk (to_string (compose_id ts seq)), IdState ts seq, n')
      end
    else (IdOk (to_string (compose_id nowMs seq)), IdState nowMs seq, S n)
  else (IdOk (to_string (compose_id nowMs 0)), IdState nowMs 0, S n).

(** Any number of calls one after the other, with the identifiers returned.  A
    call that spins holds the mutex: there is no call after it. *)
Fixpoint nextIds (clock : nat -> Z) (fuel calls n : nat) (st : id_state) : list string :=
  match calls with
  | O => []
  | S calls' =>
      let '(r, st', n') := nextId clock fuel n st in
      match r with
      | IdOk id => id :: nextIds clock fuel calls' n' st'
      | IdClockBackwards => nextIds clock fuel calls' n' st'
      | IdSpinning => []
      end
  end.

(** ** Invariant and order *)

Definition id_inv (st : id_state) : Prop := 0 <= gSequence st <= kMaxSequence.

(** The range of clock readings for which the 41 bits of the timestamp suffice
    (until 2093) and no left shift of a negative number occurs. *)
Definition ms_in_range (ms : Z) : Prop := 0 <= ms - kEpochMs < 2 ^ 41.

Definition clock_in_range (clock : nat -> Z) : Prop := forall n, ms_in_range (clock n).

(** The identifier of the state's globals: the last one issued, once
    [gLastTimestampMs] has been set; [-1] before. *)
Definition id_key (st : id_state) : Z :=
  if gLastTimestampMs st =? -1 then -1 else compose_id (gLastTimestampMs st) (gSequence st).

Definition id_wf (st : id_state) : Prop :=
  id_inv st /\ (gLastTimestampMs st = -1 \/ ms_in_range (gLastTimestampMs st)).

(** ** Lemmas *)

Lemma lor_shiftl_add a b n : 0 <= n -> 0 <= b < 2 ^ n ->
  Z.lor (Z.shiftl a n) b = a * 2 ^ n + b.
Proof.
  intros Hn Hb. rewrite <- Z.shiftl_mul_pow2 by done.
  assert (Hland : Z.land (Z.shiftl a n) b = 0).
  { apply Z.bits_inj'. intros i Hi. rewrite Z.land_spec, Z.bits_0.
    destruct (Z.lt_ge_cases i n) as [Hlt | Hge].
    - by rewrite Z.shiftl_spec_low.
    - rewrite <- (Z.mod_small b (2 ^ n)) by done.
      by rewrite Z.mod_pow2_bits_high, andb_false_r by lia. }
  by rewrite Z.add_nocarry_lxor, Z.lxor_lor.
Qed.

(** The layout as arithmetic: the four fields do not overlap. *)
Lemma compose_id_eq ms seq : ms_in_range ms -> 0 <= seq <= kMaxSequence ->
  compose_id ms seq = (ms - kEpochMs) * 2 ^ 22 + 2 ^ 17 + 2 ^ 12 + seq.
Proof.
  intros Hms Hseq. unfold compose_id. red in Hms. change kMaxSequence with 4095 in Hseq.
  rewrite wrap64_small; cycle 1.
  { unfold in_i64. rewrite Z.shiftl_mul_pow2 by (vm_compute; congruence).
    change (2 ^ kTimestampShift) with 4194304. lia. }
  change (Z.shiftl kDatacenterId kDatacenterShift) with (2 ^ 17).
  change (Z.shiftl kWorkerId kWorkerShift) with (2 ^ 12). change kTimestampShift with 22.
  rewrite <- !Z.lor_assoc. rewrite (Z.lor_assoc (2 ^ 17)).
  change (Z.lor (2 ^ 17) (2 ^ 12)) with (Z.shiftl 33 12).
  rewrite (lor_shiftl_add 33 seq 12) by lia.
  rewrite lor_shiftl_add by lia. lia.
Qed.

Lemma compose_id_bounds ms seq : ms_in_range ms -> 0 <= seq <= kMaxSequence ->
  0 <= compose_id ms seq < 2 ^ 63.
Proof.
  intros Hms Hseq. rewrite compose_id_eq by done. red in Hms.
  change kMaxSequence with 4095 in Hseq. lia.
Qed.

(** Lexicographic order on (timestamp, sequence) is the order of identifiers. *)
Lemma compose_id_lt ms seq ms' seq' :
  ms_in_range ms -> ms_in_range ms' ->
  0 <= seq <= kMaxSequence -> 0 <= seq' <= kMaxSequence ->
  ms < ms' \/ (ms = ms' /\ seq < seq') -> compose_id ms seq < compose_id ms' seq'.
Proof.
  intros Hm Hm' Hs Hs' Hlt. rewrite !compose_id_eq by done. red in Hm, Hm'.
  change kMaxSequence with 4095 in *. lia.
Qed.

Lemma next_sequence seq : 0 <= seq <= kMaxSequence ->
  Z.land (seq + 1) kMaxSequence = if seq =? kMaxSequence then 0 else seq + 1.
Proof.
  change kMaxSequence with (Z.ones 12) at 2. rewrite Z.land_ones by lia.
  change kMaxSequence with 4095. intros H.
  destruct (Z.eqb_spec seq 4095) as [-> |]; [done |]. apply Z.mod_small. lia.
Qed.

Lemma waitNextMs_later clock fuel n lastMs ts n' :
  waitNextMs clock fuel n lastMs = Some (ts, n') ->
  lastMs < ts /\ (n < n')%nat /\ clock (pred n') = ts.
Proof.
  revert n. induction fuel as [|fuel IH]; intros n; simpl; [done |].
  destruct (Z.leb_spec (clock n) lastMs).
  - intros (? & ? & ?)%IH. repeat split; try done; lia.
  - intros [= <- <-]. repeat split; try done; lia.
Qed.

Lemma waitNextMs_terminates clock fuel n lastMs k :
  (k < fuel)%nat -> lastMs < clock (n + k)%nat ->
  is_Some (waitNextMs clock fuel n lastMs).
Proof.
  revert n k. induction fuel as [|fuel IH]; intros n k Hk Hlt; [lia |]. simpl.
  destruct (Z.leb_spec (clock n) lastMs); [| by eexists].
  destruct k as [|k]; [rewrite Nat.add_0_r in Hlt; lia |].
  apply (IH (S n) k); [lia |]. by replace (S n + k)%nat with (n + S k)%nat by lia.
Qed.

(** Issuing the identifier of a lexicographically larger pair. *)
Lemma id_issued st (n n' : nat) ms seq :
  id_wf st -> ms_in_range ms -> ms <> -1 -> 0 <= seq <= kMaxSequence -> (n < n')%nat ->
  gLastTimestampMs st < ms \/ (gLastTimestampMs st = ms /\ gSequence st < seq) ->
  id_wf (IdState ms seq) /\ (n < n')%nat /\
  to_string (compose_id ms seq) = to_string (id_key (IdState ms seq)) /\
  id_key st < id_key (IdState ms seq) /\
  0 <= id_key (IdState ms seq) < 2 ^ 63 /\ ms_in_range ms.
Proof.
  intros [Hinv Hms] Hr Hne Hs Hn Hlt. unfold id_key at 1 3 4 5. cbn.
  replace (ms =? -1) with false by (symmetry; by apply Z.eqb_neq).
  pose proof (compose_id_bounds ms seq Hr Hs) as Hb. split_and!; try done || lia.
  - split; [done | by right].
  - unfold id_key. destruct (Z.eqb_spec (gLastTimestampMs st) (-1)) as [| Hst]; [lia |].
    destruct Hms as [|Hms]; [done |]. by apply compose_id_lt.
Qed.

(** One call, whatever the clock does: the globals stay well formed, and an
    identifier returned is that of the new globals and exceeds the previous. *)
Lemma nextId_step clock fuel n st r st' n' :
  clock_in_range clock -> id_wf st -> nextId clock fuel n st = (r, st', n') ->
  id_wf st' /\ (n < n')%nat /\
  match r with
  | IdOk id => id = to_string (id_key st') /\ id_key st < id_key st' /\
      0 <= id_key st' < 2 ^ 63 /\ ms_in_range (gLastTimestampMs st')
  | IdClockBackwards => st' = st
  | IdSpinning => gLastTimestampMs st' = gLastTimestampMs st
  end.
Proof.
  intros Hck [Hinv Hms] H. unfold nextId in H. pose proof (Hck n) as Hn. red in Hinv.
  assert (Hnz : forall k, clock k <> -1).
  { intros k E. pose proof (Hck k) as Hk. rewrite E in Hk. red in Hk. vm_compute in Hk. by destruct Hk. }
  destruct (Z.ltb_spec (clock n) (gLastTimestampMs st)) as [Hb | Hge].
  { simplify_eq. repeat split; try done; lia. }
  destruct (Z.eqb_spec (clock n) (gLastTimestampMs st)) as [He | Hne].
  - rewrite next_sequence in H by done.
    destruct (Z.eqb_spec (gSequence st) kMaxSequence) as [Hmax | Hmax]; cbn [Z.eqb] in H.
    + destruct (waitNextMs clock fuel (S n) (gLastTimestampMs st)) as [[ts m]|] eqn:Hw; simplify_eq.
      * apply waitNextMs_later in Hw as (Hlt & Hm & Hts). pose proof (Hck (pred n')) as Hr.
        rewrite Hts in Hr.
        apply id_issued; try done; try lia; cbn.
        -- rewrite <- Hts. apply Hnz.
        -- left. lia.
      * repeat split; try done; simpl; lia.
    + assert ((gSequence st + 1 =? 0) = false) as Hz by (apply Z.eqb_neq; lia).
      rewrite Hz in H. simplify_eq.
      apply id_issued; try done; try lia; cbn; [apply Hnz | right; lia].
  - simplify_eq. apply id_issued; try done; try lia; cbn; [apply Hnz | left; lia].
Qed.


(** Every identifier of a run exceeds the state the run starts from. *)
Lemma nextIds_sorted clock fuel calls : forall n st,
  clock_in_range clock -> id_wf st ->
  exists keys, nextIds clock fuel calls n st = map to_string keys
    /\ Forall (fun k => id_key st < k < 2 ^ 63 /\ 0 <= k) keys /\ StronglySorted Z.lt keys.
Proof.
  induction calls as [|calls IH]; intros n st Hck Hwf; simpl.
  { exists []. repeat constructor. }
  destruct (nextId clock fuel n st) as [[r st'] n'] eqn:Hcall.
  destruct (nextId_step _ _ _ _ _ _ _ Hck Hwf Hcall) as (Hwf' & _ & Hr).
  destruct (IH n' st' Hck Hwf') as (keys & Heq & Hall & Hsorted).
  destruct r as [id| |].
  - destruct Hr as (-> & Hlt & Hb & _). exists (id_key st' :: keys). rewrite Heq.
    split_and!; [done | | by constructor; [| eapply Forall_impl; [exact Hall |]; simpl; intros; lia]].
    constructor; [lia |]. eapply Forall_impl; [exact Hall |]. simpl. intros. lia.
  - subst st'. by exists keys.
  - exists []. repeat constructor.
Qed.

Lemma sorted_map_dec_NoDup keys :
  Forall (fun k => 0 <= k) keys -> StronglySorted Z.lt keys -> NoDup (map to_string keys).
Proof.
  intros Hpos Hs. induction Hs as [|k keys Hs IH Hall]; [constructor |].
  apply Forall_cons in Hpos as [Hk Hpos]. constructor; [| by apply IH].
  intros Hin. apply list_elem_of_In, in_map_iff in Hin as (k' & He & Hin).
  rewrite Forall_forall in Hall, Hpos. rewrite <- list_elem_of_In in Hin.
  specialize (Hall k' Hin). specialize (Hpos k' Hin).
  rewrite !to_string_nonneg in He by done. apply dec_inj in He; lia.
Qed.

(** ** Properties *)

(** C39. Uniqueness and order: whatever the system clock does (stand still, jump
    forward or backward), the identifiers returned by any number of calls in a row
    are the decimal texts of strictly increasing numbers that fit a signed 64-bit
    integer; so no two of them are the same text. *)
Theorem nextId_unique clock fuel calls n : clock_in_range clock ->
  NoDup (nextIds clock fuel calls n id_init)
  /\ exists keys, nextIds clock fuel calls n id_init = map to_string keys
       /\ StronglySorted Z.lt keys /\ Forall (fun k => 0 <= k < 2 ^ 63) keys.
Proof.
  intros Hck. destruct (nextIds_sorted clock fuel calls n id_init Hck) as (keys & -> & Hall & Hs).
  { split; [by vm_compute | by left]. }
  assert (Hb : Forall (fun k => 0 <= k < 2 ^ 63) keys) by (eapply Forall_impl; [exact Hall |]; simpl; lia).
  split; [| by exists keys].
  apply sorted_map_dec_NoDup; [| done]. eapply Forall_impl; [exact Hb |]. simpl. lia.
Qed.

(** A clock that stands still for three readings, then advances, and is set
    back once every 2^20 milliseconds. *)
Definition sample_clock (n : nat) : Z := kEpochMs + 86400000 * 365 + (Z.of_nat n / 3) mod 2 ^ 20.

Lemma sample_clock_in_range : clock_in_range sample_clock.
Proof.
  intros n. unfold ms_in_range, sample_clock.
  pose proof (Z.mod_pos_bound (Z.of_nat n / 3) (2 ^ 20)). lia.
Qed.

Lemma nextId_unique_witness :
  clock_in_range sample_clock
  /\ (NoDup (nextIds sample_clock 5 4 0 id_init)
      /\ exists keys, nextIds sample_clock 5 4 0 id_init = map to_string keys
           /\ StronglySorted Z.lt keys /\ Forall (fun k => 0 <= k < 2 ^ 63) keys)
  /\ nextIds sample_clock 5 4 0 id_init =
       ["132271570944135168"; "132271570944135169"; "132271570944135170"; "132271570948329472"].
Proof.
  split; [apply sample_clock_in_range |].
  split; [apply (nextId_unique sample_clock 5 4 0), sample_clock_in_range | vm_compute; reflexivity].
Defined.

(** One call on every branch: it returns the identifier composed of the
    timestamp and sequence it leaves in the globals, and that pair is the
    lexicographic successor of the previous one (same millisecond and next
    sequence number, or a later millisecond and sequence 0); when the clock has
    moved backwards it throws and changes nothing. *)
Theorem nextId_spec clock fuel n st r st' n' :
  id_inv st -> nextId clock fuel n st = (r, st', n') ->
  match r with
  | IdOk id =>
      id = to_string (compose_id (gLastTimestampMs st') (gSequence st')) /\
      (gLastTimestampMs st' = gLastTimestampMs st /\ gSequence st' = gSequence st + 1 /\ gSequence st < kMaxSequence
       \/ gLastTimestampMs st < gLastTimestampMs st' /\ gSequence st' = 0)
  | IdClockBackwards => st' = st /\ clock n < gLastTimestampMs st
  | IdSpinning => gSequence st = kMaxSequence /\
      forall k, (k < fuel)%nat -> clock (S n + k)%nat <= gLastTimestampMs st
  end.
Proof.
  intros Hinv H. unfold nextId in H.
  destruct (Z.ltb_spec (clock n) (gLastTimestampMs st)) as [|Hge]; [by simplify_eq |].
  destruct (Z.eqb_spec (clock n) (gLastTimestampMs st)) as [He | Hne]; cycle 1.
  { simplify_eq. split; [done |]. right. cbn. lia. }
  rewrite next_sequence in H by done. red in Hinv.
  destruct (Z.eqb_spec (gSequence st) kMaxSequence) as [Hmax | Hmax]; cbn [Z.eqb] in H.
  - destruct (waitNextMs clock fuel (S n) (gLastTimestampMs st)) as [[ts m]|] eqn:Hw; simplify_eq.
    + apply waitNextMs_later in Hw as (Hlt & _). split; [done |]. right. cbn. lia.
    + split; [done |]. intros k Hk.
      destruct (Z.le_gt_cases (clock (S n + k)%nat) (gLastTimestampMs st)) as [|Hgt]; [done |].
      destruct (waitNextMs_terminates clock fuel (S n) (gLastTimestampMs st) k Hk) as [x Hx]; [lia |].
      congruence.
  - replace (gSequence st + 1 =? 0) with false in H by (symmetry; apply Z.eqb_neq; lia).
    simplify_eq. split; [done |]. left. cbn. lia.
Qed.

Lemma nextId_spec_witness :
  let st := IdState (sample_clock 1) 4095 in
  id_inv st /\ nextId sample_clock 5 1 st = (IdOk "132271570948329472", IdState (sample_clock 3) 0, 4%nat)
  /\ exists st', st' = IdState (sample_clock 3) 0 /\
    "132271570948329472" = to_string (compose_id (gLastTimestampMs st') (gSequence st')) /\
    (gLastTimestampMs st' = sample_clock 1 /\ gSequence st' = 4095 + 1 /\ 4095 < kMaxSequence
     \/ sample_clock 1 < gLastTimestampMs st' /\ gSequence st' = 0).
Proof.
  intros st. assert (Hinv : id_inv st) by (vm_compute; split; congruence).
  assert (E : nextId sample_clock 5 1 st
              = (IdOk "132271570948329472", IdState (sample_clock 3) 0, 4%nat)) by (vm_compute; reflexivity).
  split; [done |]. split; [done |]. exists (IdState (sample_clock 3) 0). split; [done |].
  exact (nextId_spec sample_clock 5 1 st _ _ _ Hinv E).
Defined.

(** Termination: a call never spins for good when the clock, within [fuel]
    readings, passes the last timestamp used. *)
Theorem nextId_terminates clock fuel n st :
  (exists k, (k < fuel)%nat /\ gLastTimestampMs st < clock (S n + k)%nat) ->
  forall r st' n', nextId clock fuel n st = (r, st', n') -> r <> IdSpinning.
Proof.
  intros (k & Hk & Hlt) r st' n' H. unfold nextId in H.
  destruct (_ <? _); [by simplify_eq |]. destruct (_ =? _); [| by simplify_eq].
  destruct (_ =? 0); [| by simplify_eq].
  destruct (waitNextMs_terminates clock fuel (S n) _ k Hk Hlt) as [[ts m] Hw].
  rewrite Hw in H. by simplify_eq.
Qed.

Lemma nextId_terminates_witness :
  (exists k, (k < 5)%nat /\ sample_clock 0 < sample_clock (1 + k)%nat)
  /\ (nextId sample_clock 5 0 (IdState (sample_clock 0) 4095)).1.1 <> IdSpinning.
Proof.
  assert (H : exists k, (k < 5)%nat /\ sample_clock 0 < sample_clock (1 + k)%nat).
  { exists 2%nat. split; [lia | reflexivity]. }
  split; [done |]. destruct (nextId _ _ _ _) as [[r st'] n'] eqn:E.
  exact (nextId_terminates sample_clock 5 0 (IdState (sample_clock 0) 4095) H r st' n' E).
Defined.
