(* ===== verification/JsonValue.v ===== *)
(** * JsonValue: the interface of jsoncpp the program relies on

    jsoncpp is a third-party library, so its values and operations are a class;
    [JsonCppLaws] states the documented behaviour the theorems use.  An operation
    that throws ([Json::LogicError]) returns [None].  A concrete instance, used by
    the witnesses only, closes the file. *)

From stdpp Require Import countable.
From S2P Require Import Prelude.

(** ** The interface *)

Class JsonCpp := {
  jvalue : Type;
  jnull : jvalue;                                (* Json::Value() *)
  jstring : string -> jvalue;
  jint : Z -> jvalue;                            (* from int, Int64, UInt64 *)
  jarray : list jvalue -> jvalue;                (* arrayValue, then append *)
  jset : jvalue -> string -> jvalue -> jvalue;   (* v[key] = x *)
  jisMember : jvalue -> string -> option bool;
  jget : jvalue -> string -> option jvalue;      (* v[key] *)
  jisString : jvalue -> bool;
  jisNumeric : jvalue -> bool;
  jasString : jvalue -> option string;
  jasInt : jvalue -> option Z;                   (* asInt *)
  jasInt64 : jvalue -> option Z;
  jasBool : jvalue -> option bool;
  jwriteCompact : jvalue -> string;              (* writeString, indentation "" *)
  jtoStyledString : jvalue -> string;
  jparse : string -> option jvalue;              (* parseFromStream *)
  jhttpBody : jvalue -> string                   (* body of newHttpJsonResponse *)
}.

(** An object with scalar fields, as the code builds it: assignments to the
    members of a fresh [Json::Value], in order. *)
Inductive scalar := SString (s : string) | SInt (z : Z).

Section Objects.
Context {J : JsonCpp}.

Definition jscalar (x : scalar) : jvalue :=
  match x with SString s => jstring s | SInt z => jint z end.

Definition jobject (fields : list (string * jvalue)) : jvalue :=
  fold_left (fun v '(k, x) => jset v k x) fields jnull.

(** The value last assigned to a member. *)
Definition field (fields : list (string * jvalue)) (k : string) : option jvalue :=
  fold_left (fun o '(k', x) => if decide (k' = k) then Some x else o) fields None.
End Objects.

(** Scalars of printable ASCII: they survive every JSON writer and reader. *)
Definition scalar_printable (x : scalar) : bool :=
  match x with SString s => str_all printable s | SInt z => (- 2 ^ 63 <=? z) && (z <? 2 ^ 63) end.

Class JsonCppLaws {J : JsonCpp} : Prop := {
  jobject_isMember fields k :
    jisMember (jobject fields) k = Some (bool_decide (is_Some (field fields k)));
  jobject_get fields k x : field fields k = Some x -> jget (jobject fields) k = Some x;
  jasString_string s : jasString (jstring s) = Some s;
  jasInt64_int z : - 2 ^ 63 <= z < 2 ^ 63 -> jasInt64 (jint z) = Some z;
  (** drogon serialises a JSON response compactly, as the code's comment says *)
  jhttpBody_compact v : jhttpBody v = jwriteCompact v;
  (** an object with printable scalar fields is read back with the same members *)
  jparse_styled (fields : list (string * scalar)) :
    forallb (fun '(k, x) => str_all printable k && scalar_printable x) fields = true ->
    jparse (jtoStyledString (jobject (map (fun '(k, x) => (k, jscalar x)) fields)))
    = Some (jobject (map (fun '(k, x) => (k, jscalar x)) fields))
}.

(** ** A concrete instance *)

Module Tree.

#[warnings="-register-all"]
Inductive json :=
  | JNull
  | JBool (b : bool)
  | JInt (z : Z)
  | JReal (m e : Z)  (* m * 2^e *)
  | JStr (s : string)
  | JArr (l : list json)
  | JObj (o : list (string * json)).

(** Members by key, the last assignment winning. *)
Definition members (v : json) : option (list (string * json)) :=
  match v with JNull => Some [] | JObj o => Some o | _ => None end.

Definition lookup_field (o : list (string * json)) (k : string) : option json :=
  fold_left (fun r '(k', x) => if decide (k' = k) then Some x else r) o None.

Definition set (v : json) (k : string) (x : json) : json :=
  match members v with Some o => JObj (o ++ [(k, x)]) | None => v end.

Definition asString (v : json) : option string :=
  match v with
  | JNull => Some ""
  | JBool b => Some (if b then "true" else "false")
  | JInt z => Some (to_string z)
  | JStr s => Some s
  | _ => None
  end.

(** A real is truncated towards zero; out of range throws. *)
Definition asInt64 (v : json) : option Z :=
  match v with
  | JNull => Some 0
  | JBool b => Some (if b then 1 else 0)
  | JInt z => if (- 2 ^ 63 <=? z) && (z <? 2 ^ 63) then Some z else None
  | JReal m e =>
      let z := if e <? 0 then Z.quot m (2 ^ (- e)) else m * 2 ^ e in
      if (- 2 ^ 63 <=? z) && (z <? 2 ^ 63) then Some z else None
  | _ => None
  end.

(** An injective text: a nested token list, written one token after another. *)
Fixpoint to_gen (v : json) : gen_tree (bool + Z + (Z * Z) + string) :=
  match v with
  | JNull => GenNode 0 []
  | JBool b => GenLeaf (inl (inl (inl b)))
  | JInt z => GenLeaf (inl (inl (inr z)))
  | JReal m e => GenLeaf (inl (inr (m, e)))
  | JStr s => GenLeaf (inr s)
  | JArr l => GenNode 1 (map to_gen l)
  | JObj o => GenNode 2 (concat (map (fun '(k, x) => [GenLeaf (inr k); to_gen x]) o))
  end.

Fixpoint of_gen (t : gen_tree (bool + Z + (Z * Z) + string)) : json :=
  match t with
  | GenLeaf (inl (inl (inl b))) => JBool b
  | GenLeaf (inl (inl (inr z))) => JInt z
  | GenLeaf (inl (inr (m, e))) => JReal m e
  | GenLeaf (inr s) => JStr s
  | GenNode 0 _ => JNull
  | GenNode 1 l => JArr (map of_gen l)
  | GenNode _ l =>
      JObj ((fix pairs l := match l with
                            | GenLeaf (inr k) :: x :: l' => (k, of_gen x) :: pairs l'
                            | _ => []
                            end) l)
  end.

Fixpoint pos_bits (p : positive) : string :=
  match p with xH => "" | xO q => String "0" (pos_bits q) | xI q => String "1" (pos_bits q) end.

Fixpoint bits_pos (s : string) : positive :=
  match s with
  | "" => xH
  | String c r => if Ascii.eqb c "0" then xO (bits_pos r) else xI (bits_pos r)
  end.

Definition to_text (v : json) : string := pos_bits (encode (to_gen v)).
Definition of_text (s : string) : option json := of_gen <$> decode (bits_pos s).

(** A compact JSON text. *)
Definition quote (s : string) : string := String "034" (s +:+ String "034" "").

Fixpoint join (l : list string) : string :=
  match l with [] => "" | [s] => s | s :: l' => s +:+ "," +:+ join l' end.

Fixpoint compact (v : json) : string :=
  match v with
  | JNull => "null"
  | JBool b => if b then "true" else "false"
  | JInt z => to_string z
  | JReal m e => to_string m +:+ "*2^" +:+ to_string e
  | JStr s => quote s
  | JArr l => "[" +:+ join (map compact l) +:+ "]"
  | JObj o => "{" +:+ join (map (fun '(k, x) => quote k +:+ ":" +:+ compact x) o) +:+ "}"
  end.

Definition lib : JsonCpp := {|
  jvalue := json;
  jnull := JNull;
  jstring := JStr;
  jint := JInt;
  jarray := JArr;
  jset := set;
  jisMember v k := (fun o => bool_decide (is_Some (lookup_field o k))) <$> members v;
  jget v k := (fun o => default JNull (lookup_field o k)) <$> members v;
  jisString v := match v with JStr _ => true | _ => false end;
  jisNumeric v := match v with JInt _ | JReal _ _ => true | _ => false end;
  jasString := asString;
  jasInt v := z ← asInt64 v; if (- 2 ^ 31 <=? z) && (z <? 2 ^ 31) then Some z else None;
  jasInt64 := asInt64;
  jasBool v := match v with JBool b => Some b | JNull => Some false
                          | JInt z => Some (negb (z =? 0)) | _ => None end;
  jwriteCompact := compact;
  jtoStyledString := to_text;
  jparse := of_text;
  jhttpBody := compact
|}.

Lemma bits_pos_bits p : bits_pos (pos_bits p) = p.
Proof. induction p as [p IH | p IH |]; simpl; by rewrite ?IH. Qed.

Lemma members_jobject (fields : list (string * json)) :
  members (jobject (J := lib) fields) = Some fields.
Proof.
  unfold jobject. cbn [jnull lib jvalue].
  assert (H : forall v o, members v = Some o ->
    members (fold_left (fun v '(k, x) => jset (JsonCpp := lib) v k x) fields v) = Some (o ++ fields)).
  { induction fields as [|[k x] fields IH]; intros v o Hv; simpl; [by rewrite app_nil_r |].
    cbn [jset lib]. unfold set. rewrite Hv. rewrite (IH _ (o ++ [(k, x)])) by done.
    by rewrite <- app_assoc. }
  by apply (H JNull []).
Qed.

Lemma of_to_gen_flat (fields : list (string * scalar)) :
  let o := map (fun '(k, x) => (k, jscalar (J := lib) x)) fields in
  of_gen (to_gen (JObj o)) = JObj o.
Proof.
  intros o. subst o. simpl. f_equal.
  induction fields as [|[k x] fields IH]; [done |]. simpl. rewrite <- IH at 2.
  destruct x; reflexivity.
Qed.

Lemma of_to_gen_members (v : json) (fields : list (string * scalar)) :
  members v = Some (map (fun '(k, x) => (k, jscalar (J := lib) x)) fields) ->
  of_gen (to_gen v) = v.
Proof.
  destruct v as [| | | | | |o]; simpl; intros Hm; try done.
  injection Hm as ->. apply of_to_gen_flat.
Qed.

#[export] Instance lib_laws : JsonCppLaws (J := lib).
Proof.
  constructor.
  - intros fields k. cbn [jisMember lib]. rewrite members_jobject. done.
  - intros fields k x Hx. cbn [jget lib]. rewrite members_jobject. simpl.
    change (lookup_field fields k) with (field (J := lib) fields k). by rewrite Hx.
  - done.
  - intros z Hz. cbn. destruct (Z.leb_spec (- 2 ^ 63) z), (Z.ltb_spec z (2 ^ 63)); done || lia.
  - done.
  - intros fields _. cbn [jparse jtoStyledString lib]. unfold of_text, to_text.
    rewrite bits_pos_bits, decode_encode. simpl. f_equal.
    apply (of_to_gen_members _ fields), members_jobject.
Qed.
End Tree.
