(* ===== verification/Result.v ===== *)
(** * Result: error codes, exceptions and the uniform response

    [src/common/ErrorCode.h], [src/common/BizException.h] and
    [src/models/Result.h]. *)

From S2P Require Import Prelude JsonValue.

(** ** Error codes *)

Inductive ErrCode :=
  | kSuccess
  | kParamInvalid | kMissingRequestId | kDuplicateRequest | kNotFound
  | kAccountNotFound | kBalanceNotEnough
  | kProductNotFound | kStockNotEnough
  | kOrderNotFound | kOrderStatusInvalid
  | kSignVerifyFailed | kAmountMismatch | kChannelTradeConflict | kUnsupportedChannel
  | kReconcileBatchNotFound | kReconcileBatchStatusInvalid
  | kReconcileDiffAlreadyHandled | kReconcileBillParseFailed
  | kDbError | kInternalError.

#[export] Instance ErrCode_eq_dec : EqDecision ErrCode.
Proof. solve_decision. Defined.

(** [static_cast<int>(code)]. *)
Definition intCode (c : ErrCode) : Z :=
  match c with
  | kSuccess => 0
  | kParamInvalid => 10001
  | kMissingRequestId => 10002
  | kDuplicateRequest => 10003
  | kNotFound => 10004
  | kAccountNotFound => 20001
  | kBalanceNotEnough => 20002
  | kProductNotFound => 30001
  | kStockNotEnough => 30002
  | kOrderNotFound => 40001
  | kOrderStatusInvalid => 40002
  | kSignVerifyFailed => 50001
  | kAmountMismatch => 50002
  | kChannelTradeConflict => 50003
  | kUnsupportedChannel => 50004
  | kReconcileBatchNotFound => 70001
  | kReconcileBatchStatusInvalid => 70002
  | kReconcileDiffAlreadyHandled => 70003
  | kReconcileBillParseFailed => 70004
  | kDbError => 90001
  | kInternalError => 90003
  end.

(** The enumerators have a [case] each; the [default] is reached by none of them. *)
Definition toMessage (c : ErrCode) : string :=
  match c with
  | kSuccess => "成功"
  | kParamInvalid => "参数校验失败"
  | kMissingRequestId => "缺少或非法的 X-Request-Id"
  | kDuplicateRequest => "重复请求，请稍后重试"
  | kNotFound => "资源不存在"
  | kAccountNotFound => "账户不存在"
  | kBalanceNotEnough => "余额不足"
  | kProductNotFound => "商品不存在"
  | kStockNotEnough => "库存不足"
  | kOrderNotFound => "订单不存在"
  | kOrderStatusInvalid => "订单状态不允许此操作"
  | kSignVerifyFailed => "签名校验失败"
  | kAmountMismatch => "支付金额与订单金额不一致"
  | kChannelTradeConflict => "渠道交易号已绑定其他订单"
  | kUnsupportedChannel => "不支持的支付渠道"
  | kReconcileBatchNotFound => "对账批次不存在"
  | kReconcileBatchStatusInvalid => "该日期已对账或批次状态不允许此操作"
  | kReconcileDiffAlreadyHandled => "差异记录已处理过"
  | kReconcileBillParseFailed => "账单文件不存在或解析失败"
  | kDbError => "系统繁忙，请稍后重试"
  | kInternalError => "系统内部错误"
  end.

Definition isSuccess (c : ErrCode) : bool := bool_decide (c = kSuccess).

(** ** Exceptions *)

(** What a [catch] of a service distinguishes: [common::BizException],
    [drogon::orm::DrogonDbException], any other [std::exception]. *)
Inductive exn :=
  | BizException (code : ErrCode) (message : string)
  | DbException
  | StdException.

(** ** Values as JSON *)

Section ToJson.
Context {J : JsonCpp}.

(** [detail::has_to_json]: the types with a member [toJson]; the domain models have
    an instance each. *)
Class HasToJson (T : Type) := own_toJson : T -> jvalue.

(** The types [Json::Value] has a constructor for: among those the code uses, [int]
    and [Json::Value] itself. *)
Class JsonConstructible (T : Type) := Json_Value : T -> jvalue.

#[export] Instance int_constructible : JsonConstructible Z := jint.
#[export] Instance value_constructible : JsonConstructible jvalue := id.

(** [detail::toJsonValue]: the type's own [toJson] where it has one, else the
    constructor; the branch that is not taken is not instantiated. *)
Class ToJsonValue (T : Type) := toJsonValue : T -> jvalue.

#[export] Instance toJsonValue_own `{HasToJson T} : ToJsonValue T | 0 := own_toJson.
#[export] Instance toJsonValue_constructed `{JsonConstructible T} : ToJsonValue T | 1 := Json_Value.
End ToJson.

(** ** The response *)

Record Result (T : Type) := mkResult {
  code : Z;
  message : string;
  data : option T;
  requestId : string
}.
Arguments mkResult {T} _ _ _ _.
Arguments code {T} _.
Arguments message {T} _.
Arguments data {T} _.
Arguments requestId {T} _.

Section Result.
Context {T : Type}.

Definition makeOk (value : T) (rid : string) : Result T :=
  mkResult (intCode kSuccess) (toMessage kSuccess) (Some value) rid.

Definition ok (value : T) (rid : string) : Result T := makeOk value rid.

Definition fail (c : ErrCode) (msg rid : string) : Result T :=
  mkResult (intCode c) msg None rid.

Definition isOk (r : Result T) : bool := code r =? intCode kSuccess.

(** [Result::toJson]. *)
Definition result_fields {J : JsonCpp} `{!ToJsonValue T} (r : Result T) : list (string * jvalue) :=
  [("code", jint (code r)); ("message", jstring (message r));
   ("requestId", jstring (requestId r));
   ("data", match data r with Some v => toJsonValue v | None => jnull end)].

Definition toJson {J : JsonCpp} `{!ToJsonValue T} (r : Result T) : jvalue := jobject (result_fields r).
End Result.

(** The response of a caught exception: the business message, or the generic one. *)
Definition catch_result {T} (e : exn) (rid : string) : Result T :=
  match e with
  | BizException c msg => fail c msg rid
  | DbException => fail kDbError (toMessage kDbError) rid
  | StdException => fail kInternalError (toMessage kInternalError) rid
  end.

(** ** Properties *)

Lemma intCode_inj c c' : intCode c = intCode c' -> c = c'.
Proof. destruct c, c'; simpl; intros H; done || lia. Qed.

Lemma isOk_fail {T} c msg rid : c <> kSuccess -> isOk (T := T) (fail c msg rid) = false.
Proof. by destruct c. Qed.

(** Every response has the same shape: the members [code], [message],
    [requestId] and [data] are present whatever the outcome, [data] is null
    exactly when the result carries no value, and [code] is 0 exactly when the
    result is a success. *)
Theorem result_toJson_shape {T} {J : JsonCpp} {L : JsonCppLaws (J := J)} `{!ToJsonValue T} (r : Result T) :
  Forall (fun k => jisMember (toJson r) k = Some true) ["code"; "message"; "requestId"; "data"]
  /\ jget (toJson r) "data" = Some (match data r with Some v => toJsonValue v | None => jnull end)
  /\ jget (toJson r) "code" = Some (jint (if isOk r then 0 else code r)).
Proof.
  unfold toJson. split_and!.
  - repeat constructor; rewrite jobject_isMember; done.
  - by apply jobject_get.
  - rewrite (jobject_get _ _ (jint (code r))) by done. unfold isOk. simpl.
    by destruct (Z.eqb_spec (code r) 0) as [->|].
Qed.

Lemma result_toJson_shape_witness :
  JsonCppLaws (J := Tree.lib) /\
  jget (JsonCpp := Tree.lib) (toJson (J := Tree.lib) (fail (T := Z) kStockNotEnough "x" "r")) "data"
  = Some Tree.JNull.
Proof.
  split; [apply Tree.lib_laws |].
  exact (proj1 (proj2 (result_toJson_shape (J := Tree.lib) (L := Tree.lib_laws)
    (fail (T := Z) kStockNotEnough "x" "r")))).
Defined.
