(* ===== verification/RequestId.v ===== *)
(** * RequestId: the request identifier at the door and in the log

    [src/common/RequestIdFilter.cc], and [Logger::sanitizeRequestId] of
    [src/common/Logger.cc]. *)

From S2P Require Import Prelude JsonValue Result IdGenerator.

(** ** The code *)

Definition kMaxRequestIdLen : nat := 64.

Definition hex_char (c : ascii) : bool :=
  ((48 <=? schar c) && (schar c <=? 57)) || ((97 <=? schar c) && (schar c <=? 102))
  || ((65 <=? schar c) && (schar c <=? 70)).

(** [isValidRequestId]; the loop returns at the first character that is neither
    hexadecimal nor a hyphen. *)
Fixpoint valid_chars (rid : string) : bool :=
  match rid with
  | "" => true
  | String c rest => if negb (hex_char c) && negb (schar c =? 45) then false else valid_chars rest
  end.

Definition isValidRequestId (rid : string) : bool :=
  if (String.length rid <? 16)%nat || (64 <? String.length rid)%nat then false
  else valid_chars rid.

Definition log_char (c : ascii) : bool :=
  ((48 <=? schar c) && (schar c <=? 57)) || ((97 <=? schar c) && (schar c <=? 122))
  || ((65 <=? schar c) && (schar c <=? 90)) || (schar c =? 45) || (schar c =? 95).

(** [Logger::sanitizeRequestId]; [out] is the string built so far, and an
    illegal character drops the whole of it. *)
Fixpoint sanitize_loop (raw out : string) : string :=
  match raw with
  | "" => out
  | String c rest => if negb (log_char c) then "" else sanitize_loop rest (out +:+ String c "")
  end.

Definition sanitizeRequestId (raw : string) : string :=
  if (String.length raw =? 0)%nat || (kMaxRequestIdLen <? String.length raw)%nat then ""
  else sanitize_loop raw "".

(** ** The filter *)

Inductive http_method := Get | Head | Options | Post | Put | Delete | Patch.

#[export] Instance http_method_eq_dec : EqDecision http_method.
Proof. solve_decision. Defined.

Section Filter.
Context {J : JsonCpp}.

(** What the handlers read of a request: [header_rid] is the X-Request-Id
    header ("" when absent), [attr_rid] the attribute the filter sets. *)
Record HttpRequest := mkRequest {
  method : http_method;
  header_rid : string;
  attr_rid : option string;
  jsonObject : option jvalue;  (* getJsonObject() *)
  req_body : string;
  parameters : string -> string
}.

Record HttpResponse := mkResponse {
  statusCode : Z;
  resp_body : string
}.

Definition newHttpJsonResponse (v : jvalue) : HttpResponse := mkResponse 200 (jhttpBody v).

Definition setStatusCode (s : Z) (r : HttpResponse) : HttpResponse := mkResponse s (resp_body r).

(** [RequestIdFilter::doFilter]: either the chain goes on with the request as the
    filter leaves it, or the filter answers. *)
Inductive filter_outcome :=
  | Pass (req : HttpRequest)
  | Answer (resp : HttpResponse).

Definition set_attr (rid : string) (req : HttpRequest) : HttpRequest :=
  mkRequest (method req) (header_rid req) (Some rid) (jsonObject req) (req_body req)
    (parameters req).

Definition doFilter (req : HttpRequest) : filter_outcome :=
  if bool_decide (method req = Get) || bool_decide (method req = Head)
     || bool_decide (method req = Options) then Pass req
  else
    let rid := header_rid req in
    if isValidRequestId rid then Pass (set_attr rid req)
    else
      let body : Result Z := fail kMissingRequestId (toMessage kMissingRequestId) rid in
      Answer (setStatusCode 400 (newHttpJsonResponse (toJson body))).

(** [requestIdOf]: the attribute if the filter ran, else the raw header. *)
Definition requestIdOf (req : HttpRequest) : string :=
  match attr_rid req with Some rid => rid | None => header_rid req end.
End Filter.

(** ** Lemmas *)

Lemma valid_chars_all rid :
  valid_chars rid = str_all (fun c => hex_char c || (schar c =? 45)) rid.
Proof.
  induction rid as [|c rid IH]; simpl; [done |]. rewrite IH.
  by destruct (hex_char c), (schar c =? 45).
Qed.

Lemma sanitize_loop_eq raw out :
  sanitize_loop raw out = if str_all log_char raw then out +:+ raw else "".
Proof.
  revert out. induction raw as [|c raw IH]; intros out; simpl; [by rewrite str_app_nil_r |].
  destruct (log_char c); simpl; [| done]. by rewrite IH, str_app_assoc.
Qed.

Lemma sanitizeRequestId_eq raw :
  sanitizeRequestId raw =
    if (String.length raw <=? 64)%nat && str_all log_char raw then raw else "".
Proof.
  unfold sanitizeRequestId, kMaxRequestIdLen. rewrite sanitize_loop_eq.
  destruct raw as [|c raw]; [done |]. cbn [String.length Nat.eqb orb].
  by destruct (Nat.ltb_spec 64 (S (String.length raw))),
    (Nat.leb_spec (S (String.length raw)) 64); try lia.
Qed.

Lemma hex_log_char c : hex_char c || (schar c =? 45) = true -> log_char c = true.
Proof.
  unfold hex_char, log_char. rewrite !orb_true_iff, !andb_true_iff, !Z.leb_le, !Z.eqb_eq. lia.
Qed.

Lemma digit_hex_char c : is_digit c = true -> hex_char c || (schar c =? 45) = true.
Proof. unfold is_digit, hex_char. intros ->. done. Qed.

Lemma isValidRequestId_iff rid :
  isValidRequestId rid = true <->
  (16 <= String.length rid <= 64)%nat
  /\ str_all (fun c => hex_char c || (schar c =? 45)) rid = true.
Proof.
  unfold isValidRequestId. rewrite <- valid_chars_all.
  destruct (Nat.ltb_spec (String.length rid) 16), (Nat.ltb_spec 64 (String.length rid));
    simpl;
    (split; [intros E | intros [Hl E]]); try done; try lia; split; (lia || done).
Qed.

Lemma valid_sanitized rid : isValidRequestId rid = true -> sanitizeRequestId rid = rid.
Proof.
  rewrite isValidRequestId_iff. intros [Hlen Hall]. rewrite sanitizeRequestId_eq.
  replace (String.length rid <=? 64)%nat with true by (symmetry; apply Nat.leb_le; lia).
  by rewrite (str_all_impl _ log_char rid hex_log_char Hall).
Qed.

(** An identifier issued from the fourth day of 2024 on has 16 to 19 digits. *)
Lemma issued_id_length ms seq :
  ms_in_range ms -> 0 <= seq <= kMaxSequence -> kEpochMs + 3 * 86400000 <= ms ->
  (16 <= String.length (to_string (compose_id ms seq)) <= 19)%nat.
Proof.
  intros Hms Hseq Hday. pose proof (compose_id_bounds ms seq Hms Hseq) as Hb.
  rewrite to_string_nonneg by lia. rewrite compose_id_eq in * by done.
  change kMaxSequence with 4095 in Hseq. split.
  - apply dec_length_ge. simpl. lia.
  - apply dec_length_le; [simpl; lia | lia].
Qed.

(** ** Properties *)

(** The filter lets a write request through exactly when its header is a
    valid identifier, and the handlers behind it then see that very identifier;
    otherwise it answers 400 itself, with code 10002. *)
Theorem doFilter_spec {J : JsonCpp} (req : HttpRequest) :
  method req <> Get -> method req <> Head -> method req <> Options ->
  match doFilter req with
  | Pass req' =>
      isValidRequestId (header_rid req) = true /\ requestIdOf req' = header_rid req
      /\ jsonObject req' = jsonObject req /\ req_body req' = req_body req
  | Answer resp =>
      isValidRequestId (header_rid req) = false /\ statusCode resp = 400
      /\ resp_body resp = jhttpBody (toJson (T := Z)
           (mkResult 10002 (toMessage kMissingRequestId) None (header_rid req)))
  end.
Proof.
  intros Hg Hh Ho. unfold doFilter. rewrite !bool_decide_eq_false_2 by done. cbn [orb].
  by destruct (isValidRequestId (header_rid req)).
Qed.

Lemma doFilter_spec_witness :
  let req := mkRequest (J := Tree.lib) Post "bad id" None None "" (fun _ => "") in
  doFilter req = Answer (mkResponse 400 (jhttpBody (JsonCpp := Tree.lib) (toJson (T := Z)
    (mkResult 10002 (toMessage kMissingRequestId) None "bad id"))))
  /\ isValidRequestId "bad id" = false.
Proof.
  intros req. split; [reflexivity |].
  exact (proj1 (doFilter_spec (J := Tree.lib) req ltac:(discriminate) ltac:(discriminate)
    ltac:(discriminate))).
Defined.

(** The consumer sends a notification's snowflake number as its
    X-Request-Id: every identifier issued from 2024-01-04 on passes the filter. *)
Lemma issued_id_valid ms seq :
  ms_in_range ms -> 0 <= seq <= kMaxSequence -> kEpochMs + 3 * 86400000 <= ms ->
  isValidRequestId (to_string (compose_id ms seq)) = true.
Proof.
  intros Hms Hseq Hday. apply isValidRequestId_iff. split.
  - pose proof (issued_id_length ms seq Hms Hseq Hday). lia.
  - pose proof (compose_id_bounds ms seq Hms Hseq).
    rewrite to_string_nonneg by lia. apply (str_all_impl is_digit); [exact digit_hex_char |].
    apply dec_digits. lia.
Qed.
