(* ===== verification/BeijingTime.v ===== *)
(** * BeijingTime: wall-clock strings in UTC+8

    The three conversions of the program, [dbTimeAfter] (OrderService.cc),
    [epochToBeijing] (PaymentService.cc) and [todayBeijing] (ReconcileTask.cc),
    over models of the C library's [gmtime_r], [strftime] and of [std::stoll]. *)

From S2P Require Import Prelude.

(** ** The C library *)

(** [std::tm], with the year and month as printed (no offsets). *)
Record tm := mkTm {
  tm_year : Z; tm_mon : Z; tm_mday : Z; tm_hour : Z; tm_min : Z; tm_sec : Z
}.

(** The proleptic Gregorian calendar, from the number of days since 1970-01-01. *)
Definition civil_from_days (days : Z) : Z * Z * Z :=
  let z := days + 719468 in
  let era := z / 146097 in
  let doe := z mod 146097 in
  let yoe := (doe - doe / 1460 + doe / 36524 - doe / 146096) / 365 in
  let doy := doe - (365 * yoe + yoe / 4 - yoe / 100) in
  let mp := (5 * doy + 2) / 153 in
  let d := doy - (153 * mp + 2) / 5 + 1 in
  let m := if mp <? 10 then mp + 3 else mp - 9 in
  (yoe + era * 400 + (if m <=? 2 then 1 else 0), m, d).

(** [gmtime_r]: null when the year does not fit [int]. *)
Definition gmtime_r (t : Z) : option tm :=
  let '(y, m, d) := civil_from_days (t / 86400) in
  let s := t mod 86400 in
  if (- 2 ^ 31 <=? y - 1900) && (y - 1900 <? 2 ^ 31)
  then Some (mkTm y m d (s / 3600) (s mod 3600 / 60) (s mod 60)) else None.

(** The buffer [std::tm tmBuf{}] when [gmtime_r] fails: all fields zero. *)
Definition tm_zero : tm := mkTm 1900 1 0 0 0 0.

Definition tm_or_zero (o : option tm) : tm := default tm_zero o.

Definition pad2 (n : Z) : string := (if n <? 10 then "0" else "") +:+ to_string n.

(** [strftime] with "%Y-%m-%d" and "%Y-%m-%d %H:%M:%S". *)
Definition strftime_date (t : tm) : string :=
  to_string (tm_year t) +:+ "-" +:+ pad2 (tm_mon t) +:+ "-" +:+ pad2 (tm_mday t).

Definition strftime_datetime (t : tm) : string :=
  strftime_date t +:+ " " +:+ pad2 (tm_hour t) +:+ ":" +:+ pad2 (tm_min t) +:+ ":" +:+ pad2 (tm_sec t).

(** [std::stoll]: leading white space, a sign, then digits up to the first
    character that is not one; [None] is [invalid_argument] or [out_of_range]. *)
Definition is_space (c : ascii) : bool := (schar c =? 32) || ((9 <=? schar c) && (schar c <=? 13)).

Fixpoint skip_spaces (s : string) : string :=
  match s with String c r => if is_space c then skip_spaces r else s | "" => "" end.

Fixpoint take_digits (s : string) : string :=
  match s with String c r => if is_digit c then String c (take_digits r) else "" | "" => "" end.

Definition stoll (s : string) : option Z :=
  let '(negative, body) :=
    match skip_spaces s with
    | String c r => if schar c =? 45 then (true, r) else if schar c =? 43 then (false, r)
                    else (false, String c r)
    | "" => (false, "")
    end in
  let ds := take_digits body in
  if (String.length ds =? 0)%nat then None
  else
    let v := if negative then - dec_val ds else dec_val ds in
    if (- 2 ^ 63 <=? v) && (v <? 2 ^ 63) then Some v else None.

(** ** The code *)

(** [dbTimeAfter minutes], for the clock reading [nowMs]. *)
Definition dbTimeAfter (nowMs minutes : Z) : string :=
  let t := (nowMs + minutes * 60000 + 8 * 3600000) / 1000 in
  strftime_datetime (tm_or_zero (gmtime_r t)).

(** [epochToBeijing]; [None] is the exception of [std::stoll]. *)
Definition epochToBeijing (epochSeconds : string) : option string :=
  e ← stoll epochSeconds;
  let t := wrap64 (e + 8 * 3600) in
  Some (strftime_datetime (tm_or_zero (gmtime_r t))).

Definition todayBeijing (nowMs : Z) : string :=
  let t := (nowMs + 8 * 3600000) / 1000 in
  strftime_date (tm_or_zero (gmtime_r t)).

(** ** The calendar read backwards *)

Definition days_from_civil (y m d : Z) : Z :=
  let y' := if m <=? 2 then y - 1 else y in
  let era := y' / 400 in
  let yoe := y' mod 400 in
  let doy := (153 * (if 2 <? m then m - 3 else m + 9) + 2) / 5 + d - 1 in
  let doe := yoe * 365 + yoe / 4 - yoe / 100 + doy in
  era * 146097 + doe - 719468.

(** Seconds of the date and time that a [tm] shows. *)
Definition tm_seconds (t : tm) : Z :=
  days_from_civil (tm_year t) (tm_mon t) (tm_mday t) * 86400
  + tm_hour t * 3600 + tm_min t * 60 + tm_sec t.

(** The canonical string of a second count, and the range on which it is used:
    the years 1970 to 9999. *)
Definition format_datetime (t : Z) : string := strftime_datetime (tm_or_zero (gmtime_r t)).
Definition format_date (day : Z) : string := strftime_date (tm_or_zero (gmtime_r (day * 86400))).
Definition time_in_range (t : Z) : Prop := 0 <= t < 253402300800.

(** ** Lemmas *)

Lemma civil_fields days :
  let '(y, m, d) := civil_from_days days in
  1 <= m <= 12 /\ 1 <= d <= 31 /\ days_from_civil y m d = days.
Proof.
  unfold civil_from_days.
  assert (Hz : 0 <= (days + 719468) mod 146097 < 146097) by (apply Z.mod_pos_bound; lia).
  pose proof (Z.div_mod (days + 719468) 146097 ltac:(lia)) as Hdm.
  remember ((days + 719468) mod 146097) as doe eqn:Ed. clear Ed.
  remember ((days + 719468) / 146097) as era eqn:Ee. clear Ee.
  remember ((doe - doe / 1460 + doe / 36524 - doe / 146096) / 365) as yoe eqn:Ey.
  assert (Hyoe : 0 <= yoe < 400) by (subst yoe; Z.to_euclidean_division_equations; lia).
  assert (Hdoy : 0 <= doe - (365 * yoe + yoe / 4 - yoe / 100) <= 365)
    by (subst yoe; Z.to_euclidean_division_equations; lia).
  clear Ey. remember (doe - (365 * yoe + yoe / 4 - yoe / 100)) as doy eqn:Edoy.
  remember ((5 * doy + 2) / 153) as mp eqn:Emp.
  assert (Hmp : 0 <= mp <= 11) by (subst mp; Z.to_euclidean_division_equations; lia).
  assert (Hd : 0 <= doy - (153 * mp + 2) / 5 <= 30)
    by (subst mp; Z.to_euclidean_division_equations; lia).
  assert (Hyear : forall k, (yoe + k * 400) / 400 = k /\ (yoe + k * 400) mod 400 = yoe).
  { intros k. rewrite Z.div_add, Z.mod_add, Z.div_small, Z.mod_small by lia. lia. }
  destruct (Hyear era) as [Hq Hr].
  unfold days_from_civil. destruct (Z.ltb_spec mp 10) as [Hlt | Hge].
  - replace (mp + 3 <=? 2) with false by (symmetry; apply Z.leb_gt; lia).
    replace (2 <? mp + 3) with true by (symmetry; apply Z.ltb_lt; lia).
    rewrite Z.add_0_r, Hq, Hr. split_and!; try lia.
    replace (mp + 3 - 3) with mp by lia. lia.
  - replace (mp - 9 <=? 2) with true by (symmetry; apply Z.leb_le; lia).
    replace (2 <? mp - 9) with false by (symmetry; apply Z.ltb_ge; lia).
    replace (yoe + era * 400 + 1 - 1) with (yoe + era * 400) by lia.
    rewrite Hq, Hr. split_and!; try lia.
    replace (mp - 9 + 9) with mp by lia. lia.
Qed.

Lemma civil_year_bounds days : 0 <= days < 2932897 ->
  let '(y, m, d) := civil_from_days days in 1970 <= y <= 9999.
Proof.
  intros Hr. unfold civil_from_days.
  pose proof (Z.div_mod (days + 719468) 146097 ltac:(lia)) as Hdm.
  assert (Hz : 0 <= (days + 719468) mod 146097 < 146097) by (apply Z.mod_pos_bound; lia).
  remember ((days + 719468) mod 146097) as doe eqn:Ed. clear Ed.
  remember ((days + 719468) / 146097) as era eqn:Ee. clear Ee.
  remember ((doe - doe / 1460 + doe / 36524 - doe / 146096) / 365) as yoe eqn:Ey.
  assert (Hyoe : 0 <= yoe < 400) by (subst yoe; Z.to_euclidean_division_equations; lia).
  remember (doe - (365 * yoe + yoe / 4 - yoe / 100)) as doy eqn:Edoy.
  assert (Hdoy : 0 <= doy <= 365) by (subst doy yoe; Z.to_euclidean_division_equations; lia).
  clear Ey. remember ((5 * doy + 2) / 153) as mp eqn:Emp.
  destruct (Z.ltb_spec mp 10).
  - replace (mp + 3 <=? 2) with false by (symmetry; apply Z.leb_gt; subst mp; Z.to_euclidean_division_equations; lia).
    subst doy mp. Z.to_euclidean_division_equations; lia.
  - assert (mp <= 11) by (subst mp; Z.to_euclidean_division_equations; lia).
    replace (mp - 9 <=? 2) with true by (symmetry; apply Z.leb_le; lia).
    subst doy mp. Z.to_euclidean_division_equations; lia.
Qed.

Record tm_valid (t : tm) : Prop := {
  tm_year_ok : 1970 <= tm_year t <= 9999;
  tm_mon_ok : 1 <= tm_mon t <= 12;
  tm_mday_ok : 1 <= tm_mday t <= 31;
  tm_hour_ok : 0 <= tm_hour t <= 23;
  tm_min_ok : 0 <= tm_min t <= 59;
  tm_sec_ok : 0 <= tm_sec t <= 59
}.

Lemma gmtime_in_range t : time_in_range t ->
  exists b, gmtime_r t = Some b /\ tm_valid b /\ tm_seconds b = t.
Proof.
  intros Ht. red in Ht. unfold gmtime_r.
  assert (Hd : 0 <= t / 86400 < 2932897)
    by (split; [apply Z.div_pos; lia | apply Z.div_lt_upper_bound; lia]).
  pose proof (civil_fields (t / 86400)) as Hf. pose proof (civil_year_bounds (t / 86400) Hd) as Hy.
  destruct (civil_from_days (t / 86400)) as [[y m] d]. destruct Hf as (Hm & Hmd & Hback).
  replace (- 2 ^ 31 <=? y - 1900) with true by (symmetry; apply Z.leb_le; lia).
  replace (y - 1900 <? 2 ^ 31) with true by (symmetry; apply Z.ltb_lt; lia).
  eexists. split; [done |].
  pose proof (Z.mod_pos_bound t 86400 ltac:(lia)). pose proof (Z.div_mod t 86400 ltac:(lia)).
  remember (t mod 86400) as s eqn:Es.
  assert (Hs : 0 <= s / 3600 <= 23 /\ 0 <= s mod 3600 / 60 <= 59 /\ 0 <= s mod 60 <= 59
               /\ s = s / 3600 * 3600 + s mod 3600 / 60 * 60 + s mod 60)
    by (clear Es Hback; Z.to_euclidean_division_equations; lia).
  split; [constructor; simpl; lia |]. unfold tm_seconds. simpl. rewrite Hback. lia.
Qed.

Lemma pad2_spec n : 0 <= n <= 99 ->
  String.length (pad2 n) = 2%nat /\ dec_val (pad2 n) = n /\ str_all is_digit (pad2 n) = true.
Proof.
  intros Hn.
  assert (Hall : forallb (fun n => (String.length (pad2 n) =? 2)%nat && (dec_val (pad2 n) =? n)
                                   && str_all is_digit (pad2 n))
                   (map Z.of_nat (seq 0 100)) = true) by (vm_compute; reflexivity).
  rewrite forallb_forall in Hall. specialize (Hall n).
  rewrite !andb_true_iff, Nat.eqb_eq, Z.eqb_eq in Hall.
  assert (In n (map Z.of_nat (seq 0 100))) as Hin; [| specialize (Hall Hin); tauto].
  apply in_map_iff. exists (Z.to_nat n). rewrite in_seq. lia.
Qed.

Lemma year_string y : 1970 <= y <= 9999 ->
  String.length (to_string y) = 4%nat /\ dec_val (to_string y) = y.
Proof.
  intros Hy. rewrite to_string_nonneg by lia. split; [| apply dec_val_dec; lia].
  pose proof (dec_length_le y 4 ltac:(simpl; lia) ltac:(lia)).
  pose proof (dec_length_ge y 3 ltac:(simpl; lia)). lia.
Qed.

Lemma take_digits_all s : str_all is_digit s = true -> take_digits s = s.
Proof.
  induction s as [|c s IH]; simpl; [done |]. rewrite andb_true_iff. intros [-> Hs]. by rewrite IH.
Qed.

(** [std::stoll] reads back what [std::to_string] wrote. *)
Lemma stoll_to_string z : 0 <= z < 2 ^ 63 -> stoll (to_string z) = Some z.
Proof.
  intros Hz. rewrite to_string_nonneg by lia. pose proof (dec_digits z ltac:(lia)) as Hd.
  pose proof (dec_nonempty z ltac:(lia)) as Hne. unfold stoll.
  assert (skip_spaces (dec z) = dec z) as ->.
  { destruct (dec z) as [|c r]; [done |]. simpl in *. apply andb_true_iff in Hd as [Hc _].
    unfold is_digit, is_space in *. rewrite andb_true_iff, !Z.leb_le in Hc.
    destruct (Z.eqb_spec (schar c) 32), (Z.leb_spec 9 (schar c)), (Z.leb_spec (schar c) 13);
      done || lia. }
  assert (Hsign : match dec z with
    | String c r => if schar c =? 45 then (true, r) else if schar c =? 43 then (false, r)
                    else (false, String c r)
    | "" => (false, "") end = (false, dec z)).
  { destruct (dec z) as [|c r]; [done |]. simpl in Hd. apply andb_true_iff in Hd as [Hc _].
    unfold is_digit in Hc. rewrite andb_true_iff, !Z.leb_le in Hc.
    destruct (Z.eqb_spec (schar c) 45), (Z.eqb_spec (schar c) 43); done || lia. }
  rewrite Hsign, take_digits_all by done.
  destruct (Nat.eqb_spec (String.length (dec z)) 0); [lia |].
  rewrite dec_val_dec by lia.
  replace (- 2 ^ 63 <=? z) with true by (symmetry; apply Z.leb_le; lia).
  by replace (z <? 2 ^ 63) with true by (symmetry; apply Z.ltb_lt; lia).
Qed.

(** ** Properties *)

(** The channel's timestamp becomes Beijing time exactly: for every epoch
    second up to the year 9999, the string stored as callback time shows a valid
    civil date and time which, read back through the Gregorian calendar, is the
    instant eight hours after the timestamp. *)
Theorem epochToBeijing_correct e : 0 <= e -> time_in_range (e + 28800) ->
  exists b, epochToBeijing (to_string e) = Some (strftime_datetime b)
    /\ tm_valid b /\ tm_seconds b = e + 28800.
Proof.
  intros He Hr. unfold epochToBeijing. pose proof Hr as Hr'. red in Hr'.
  rewrite stoll_to_string by lia. cbn [mbind option_bind].
  rewrite wrap64_small by (unfold in_i64; lia).
  destruct (gmtime_in_range _ Hr) as (b & Hb & Hv & Hs). exists b.
  change (8 * 3600) with 28800. by rewrite Hb.
Qed.

Lemma epochToBeijing_correct_witness :
  time_in_range (1789275496 + 28800) /\
  epochToBeijing (to_string 1789275496) = Some "2026-09-13 12:58:16" /\
  exists b, epochToBeijing (to_string 1789275496) = Some (strftime_datetime b)
    /\ tm_valid b /\ tm_seconds b = 1789275496 + 28800.
Proof.
  assert (Hr : time_in_range (1789275496 + 28800)) by (vm_compute; split; congruence).
  split; [done |]. split; [vm_compute; reflexivity |].
  apply epochToBeijing_correct; [vm_compute; congruence | done].
Defined.
