(* ===== verification/SignUtil.v ===== *)
(** * SignUtil: the signature of a channel callback

    [src/utils/SignUtil.cc] and [sha256Hex] of
    [src/controllers/OrderController.cc].  OpenSSL is a third-party library: its
    digests and its comparison are a class. *)

From S2P Require Import Prelude.

Class OpenSsl := {
  HMAC_sha256 : string -> string -> list Z;      (* key, data: the digest's bytes *)
  EVP_sha256 : string -> list Z;
  CRYPTO_memcmp : string -> string -> nat -> Z
}.

Class OpenSslLaws {O : OpenSsl} : Prop := {
  HMAC_bytes key data : Forall (fun b => 0 <= b < 256) (HMAC_sha256 key data);
  EVP_bytes data : Forall (fun b => 0 <= b < 256) (EVP_sha256 data);
  CRYPTO_memcmp_zero a b :
    String.length a = String.length b -> CRYPTO_memcmp a b (String.length a) = 0 <-> a = b
}.

Section SignUtil.
Context {O : OpenSsl}.

(** ** The code *)

(** [kHex[i]] of the table "0123456789abcdef". *)
Definition kHex (i : Z) : ascii :=
  match String.get (Z.to_nat i) "0123456789abcdef" with Some c => c | None => zero end.

(** The loop that appends two characters per byte of the digest. *)
Fixpoint hex_loop (md : list Z) (out : string) : string :=
  match md with
  | [] => out
  | b :: md' =>
      hex_loop md'
        (out +:+ String (kHex (Z.shiftr b 4)) "" +:+ String (kHex (Z.land b 15)) "")
  end.

Definition hmacSha256Hex (key data : string) : string := hex_loop (HMAC_sha256 key data) "".

Definition sha256Hex (data : string) : string := hex_loop (EVP_sha256 data) "".

Definition canonical (orderNo channelTradeNo amount timestamp : string) : string :=
  orderNo +:+ "|" +:+ channelTradeNo +:+ "|" +:+ amount +:+ "|" +:+ timestamp.

Definition verifyMockSign (secret orderNo channelTradeNo amount timestamp sign : string) : bool :=
  let expected := hmacSha256Hex secret (canonical orderNo channelTradeNo amount timestamp) in
  if negb (String.length expected =? String.length sign)%nat then false
  else CRYPTO_memcmp expected sign (String.length expected) =? 0.

(** ** Lemmas *)

Definition no_bar (s : string) : bool := str_all (fun c => negb (schar c =? 124)) s.

Lemma hex_loop_app md out : hex_loop md out = out +:+ hex_loop md "".
Proof.
  revert out. induction md as [|b md IH]; intros out; simpl; [by rewrite str_app_nil_r |].
  rewrite IH, (IH (String _ _)), !str_app_assoc. done.
Qed.

Lemma hex_loop_length md : String.length (hex_loop md "") = (2 * length md)%nat.
Proof.
  induction md as [|b md IH]; [done |]. simpl. rewrite hex_loop_app, str_length_app, IH.
  simpl. lia.
Qed.

Definition lower_hex (c : ascii) : bool :=
  ((48 <=? schar c) && (schar c <=? 57)) || ((97 <=? schar c) && (schar c <=? 102)).

Lemma byte_hex b : 0 <= b < 256 ->
  lower_hex (kHex (Z.shiftr b 4)) && lower_hex (kHex (Z.land b 15)) = true.
Proof.
  intros Hb.
  assert (Hall : forallb (fun b => lower_hex (kHex (Z.shiftr b 4)) && lower_hex (kHex (Z.land b 15)))
                   (map Z.of_nat (seq 0 256)) = true) by (vm_compute; reflexivity).
  rewrite forallb_forall in Hall. apply Hall, in_map_iff.
  exists (Z.to_nat b). rewrite in_seq. lia.
Qed.

Lemma hex_loop_lower md : Forall (fun b => 0 <= b < 256) md ->
  str_all lower_hex (hex_loop md "") = true.
Proof.
  induction 1 as [|b md Hb Hmd IH]; [done |]. simpl.
  pose proof (byte_hex b Hb) as Hhex. apply andb_true_iff in Hhex as [H1 H2].
  rewrite hex_loop_app, str_all_app, IH. simpl. by rewrite H1, H2.
Qed.

(** Two strings that end their first field at the same separator. *)
Lemma bar_split_inj a b x y :
  no_bar a = true -> no_bar b = true -> a +:+ "|" +:+ x = b +:+ "|" +:+ y -> a = b /\ x = y.
Proof.
  revert b. unfold no_bar. induction a as [|c a IH]; intros [|d b]; simpl.
  - intros _ _ [=]. done.
  - intros _ Hb [= <- _]. done.
  - intros Ha _ [= -> _]. done.
  - rewrite !andb_true_iff. intros [_ Ha] [_ Hb] [= -> He].
    destruct (IH b Ha Hb He) as [-> ->]. done.
Qed.

Lemma canonical_inj o t a ts o' t' a' ts' :
  no_bar o = true -> no_bar t = true -> no_bar a = true ->
  no_bar o' = true -> no_bar t' = true -> no_bar a' = true ->
  canonical o t a ts = canonical o' t' a' ts' -> (o, t, a, ts) = (o', t', a', ts').
Proof.
  unfold canonical. intros Ho Ht Ha Ho' Ht' Ha' H.
  apply bar_split_inj in H as [-> H]; [| done..].
  apply bar_split_inj in H as [-> H]; [| done..].
  by apply bar_split_inj in H as [-> ->].
Qed.

Lemma verifyMockSign_iff {L : OpenSslLaws} secret o t a ts sign :
  verifyMockSign secret o t a ts sign = true <-> sign = hmacSha256Hex secret (canonical o t a ts).
Proof.
  unfold verifyMockSign. destruct (Nat.eqb_spec
    (String.length (hmacSha256Hex secret (canonical o t a ts))) (String.length sign)) as [He | Hne].
  - simpl. rewrite Z.eqb_eq, CRYPTO_memcmp_zero by done. split; congruence.
  - simpl. split; [done | intros ->; done].
Qed.

(** ** Properties *)

(** C40. Verification accepts exactly one signature per message, the lowercase
    hexadecimal HMAC of the four fields: two characters per byte of the digest. *)
Theorem verifyMockSign_spec {L : OpenSslLaws} secret o t a ts sign :
  (verifyMockSign secret o t a ts sign = true <->
     sign = hmacSha256Hex secret (canonical o t a ts))
  /\ str_all lower_hex (hmacSha256Hex secret (canonical o t a ts)) = true
  /\ String.length (hmacSha256Hex secret (canonical o t a ts))
     = (2 * length (HMAC_sha256 secret (canonical o t a ts)))%nat.
Proof.
  split_and!; [apply verifyMockSign_iff | apply hex_loop_lower, HMAC_bytes | apply hex_loop_length].
Qed.

(** Tampering is detected: if a signature verifies for two messages whose
    order number, trade number and amount contain no separator, and the HMAC
    does not collide on the two canonical strings, then the messages agree in
    all four fields. *)
Theorem verifyMockSign_tamper {L : OpenSslLaws} secret sign o t a ts o' t' a' ts' :
  verifyMockSign secret o t a ts sign = true ->
  verifyMockSign secret o' t' a' ts' sign = true ->
  Forall (fun s => no_bar s = true) [o; t; a; o'; t'; a'] ->
  (hmacSha256Hex secret (canonical o t a ts) = hmacSha256Hex secret (canonical o' t' a' ts') ->
     canonical o t a ts = canonical o' t' a' ts') ->
  (o, t, a, ts) = (o', t', a', ts').
Proof.
  rewrite !verifyMockSign_iff. intros H1 H2 Hbars Hcol.
  repeat (apply Forall_cons in Hbars as [? Hbars]).
  apply canonical_inj; try done. apply Hcol. congruence.
Qed.

(** Without that restriction the canonical string is ambiguous: a separator
    moved between the order number and the trade number keeps the signature. *)
Lemma canonical_ambiguous secret a ts sign :
  verifyMockSign secret "A" "B|C" a ts sign = verifyMockSign secret "A|B" "C" a ts sign.
Proof. reflexivity. Qed.
End SignUtil.

(** ** A concrete instance: the digest is the data itself, keyed by its length *)

Module Plain.

Definition bytes (s : string) : list Z := map (fun c => Z.of_nat (nat_of_ascii c)) (String.list_ascii_of_string s).

Definition lib : OpenSsl := {|
  HMAC_sha256 key data := bytes (key +:+ data);
  EVP_sha256 data := bytes data;
  CRYPTO_memcmp a b _ := if bool_decide (a = b) then 0 else 1
|}.

Lemma bytes_range s : Forall (fun b => 0 <= b < 256) (bytes s).
Proof.
  unfold bytes. apply Forall_forall. intros b Hb. apply list_elem_of_In, in_map_iff in Hb as (c & <- & _).
  pose proof (nat_ascii_bounded c). lia.
Qed.

#[export] Instance lib_laws : OpenSslLaws (O := lib).
Proof.
  constructor; intros; try apply bytes_range. simpl.
  case_bool_decide; split; done || congruence.
Qed.
End Plain.

Lemma verifyMockSign_spec_witness :
  OpenSslLaws (O := Plain.lib) /\
  (verifyMockSign (O := Plain.lib) "k" "1" "T" "5.00" "9" "6b317c547c352e30307c39" = true <->
   "6b317c547c352e30307c39" = hmacSha256Hex (O := Plain.lib) "k" (canonical "1" "T" "5.00" "9"))
  /\ "6b317c547c352e30307c39" = hmacSha256Hex (O := Plain.lib) "k" (canonical "1" "T" "5.00" "9").
Proof.
  split; [apply Plain.lib_laws |].
  split; [| reflexivity].
  exact (proj1 (verifyMockSign_spec (L := Plain.lib_laws) "k" "1" "T" "5.00" "9" "6b317c547c352e30307c39")).
Defined.

Lemma verifyMockSign_tamper_witness :
  verifyMockSign (O := Plain.lib) "k" "1" "T" "5.00" "9" "6b317c547c352e30307c39" = true
  /\ ("1", "T", "5.00", "9") = ("1", "T", "5.00", "9").
Proof.
  assert (H : verifyMockSign (O := Plain.lib) "k" "1" "T" "5.00" "9" "6b317c547c352e30307c39" = true)
    by reflexivity.
  split; [done |].
  apply (verifyMockSign_tamper (L := Plain.lib_laws) "k" "6b317c547c352e30307c39"); try done.
  by repeat constructor.
Defined.
