(* ===== verification/Models.v ===== *)
(** * Models: the plain data of the domain

    [src/models/*.h]: records with the fields of the structs (prefixed, since
    projections share one name space), enumerations, and the [toJson] members. *)

From S2P Require Import Prelude MoneyUtil JsonValue Result.

(** ** Order.h *)

Inductive OrderStatus := kPendingPayment | kPaid | kCompleted | kCancelled | kRefunded.

#[export] Instance OrderStatus_eq_dec : EqDecision OrderStatus.
Proof. solve_decision. Defined.

Definition order_status_int (s : OrderStatus) : Z :=
  match s with
  | kPendingPayment => 0 | kPaid => 1 | kCompleted => 2 | kCancelled => 3 | kRefunded => 4
  end.

Record Order := mkOrder {
  o_orderNo : string;
  o_requestId : string;
  o_userId : Z;
  o_productId : Z;
  o_quantity : Z;
  o_unitPriceFen : Z;
  o_totalAmountFen : Z;
  o_status : OrderStatus;
  o_expireTime : string;
  o_paidAt : string
}.

Record CreateOrderReq := mkCreateOrderReq {
  cr_requestId : string;
  cr_requestHash : string;
  cr_userId : Z;
  cr_productId : Z;
  cr_quantity : Z
}.

(** ** Product.h *)

Record Product := mkProduct {
  p_id : Z;
  p_productNo : string;
  p_name : string;
  p_priceFen : Z;
  p_stock : Z;
  p_status : Z  (* 0 off the shelf, 1 on sale *)
}.

Definition onSale (p : Product) : bool := p_status p =? 1.

(** ** Account.h *)

Record Account := mkAccount {
  a_accountNo : string;
  a_userId : Z;
  a_balanceFen : Z;
  a_frozenAmountFen : Z;
  a_status : Z
}.

Inductive FlowBizType := kRecharge | kPayment | kRefund | kFreeze | kUnfreeze.
Inductive FlowDirection := kIn | kOut.

#[export] Instance FlowBizType_eq_dec : EqDecision FlowBizType.
Proof. solve_decision. Defined.
#[export] Instance FlowDirection_eq_dec : EqDecision FlowDirection.
Proof. solve_decision. Defined.

Record AccountFlow := mkAccountFlow {
  f_accountNo : string;
  f_bizType : FlowBizType;
  f_direction : FlowDirection;
  f_amountFen : Z;
  f_beforeFen : Z;
  f_afterFen : Z;
  f_orderNo : string;
  f_requestId : string
}.

(** ** Payment.h *)

Inductive PaymentStatus := kPayPending | kPaySuccess | kPayFailed.

#[export] Instance PaymentStatus_eq_dec : EqDecision PaymentStatus.
Proof. solve_decision. Defined.

Record Payment := mkPayment {
  pay_paymentNo : string;
  pay_orderNo : string;
  pay_channel : string;
  pay_channelTradeNo : string;
  pay_amountFen : Z;
  pay_status : PaymentStatus;
  pay_callbackTime : string;
  pay_rawBody : string
}.

Record PaymentCallbackReq := mkPaymentCallbackReq {
  cb_requestId : string;
  cb_orderNo : string;
  cb_channel : string;
  cb_channelTradeNo : string;
  cb_amount : string;
  cb_timestamp : string;
  cb_sign : string
}.

(** ** Idempotent.h *)

Inductive IdempotentStatus := kIdemProcessing | kIdemSuccess | kIdemFailed.

#[export] Instance IdempotentStatus_eq_dec : EqDecision IdempotentStatus.
Proof. solve_decision. Defined.

Record Idempotent := mkIdempotent {
  i_requestId : string;
  i_userId : Z;
  i_apiPath : string;
  i_requestHash : string;
  i_responseBody : string;
  i_status : IdempotentStatus;
  i_expireTime : string
}.

(** ** LocalMessage.h *)

Inductive MessageStatus := kMsgPending | kMsgSent | kMsgAcked | kMsgFailed.

#[export] Instance MessageStatus_eq_dec : EqDecision MessageStatus.
Proof. solve_decision. Defined.

Record LocalMessage := mkLocalMessage {
  m_messageId : string;
  m_bizType : string;
  m_bizId : string;
  m_exchange : string;
  m_routingKey : string;
  m_payload : string;
  m_status : MessageStatus;
  m_retryCount : Z;
  m_nextRetryTime : string
}.

(** ** Reconcile.h *)

Inductive ReconcileDiffType := kLocalOnly | kChannelOnly | kDiffAmountMismatch.

#[export] Instance ReconcileDiffType_eq_dec : EqDecision ReconcileDiffType.
Proof. solve_decision. Defined.

Definition diff_type_int (t : ReconcileDiffType) : Z :=
  match t with kLocalOnly => 1 | kChannelOnly => 2 | kDiffAmountMismatch => 3 end.

Record ReconcileSideRow := mkSideRow {
  r_channelTradeNo : string;
  r_orderNo : string;
  r_amountFen : Z
}.

Inductive HandleStatus := kHandlePending | kHandleVerified | kHandleIgnored.

#[export] Instance HandleStatus_eq_dec : EqDecision HandleStatus.
Proof. solve_decision. Defined.

Definition handle_status_int (s : HandleStatus) : Z :=
  match s with kHandlePending => 0 | kHandleVerified => 1 | kHandleIgnored => 2 end.

Record ReconcileDiff := mkReconcileDiff {
  d_batchNo : string;
  d_orderNo : string;
  d_channelTradeNo : string;
  d_localAmountFen : Z;
  d_channelAmountFen : Z;
  d_diffType : ReconcileDiffType;
  d_diffAmountFen : Z;
  d_handleStatus : HandleStatus;
  d_handleRemark : string;
  d_handledAt : string
}.

Inductive BatchStatus := kBatchProcessing | kBalanced | kHasDiff | kBatchFailed.

#[export] Instance BatchStatus_eq_dec : EqDecision BatchStatus.
Proof. solve_decision. Defined.

Definition batch_status_int (s : BatchStatus) : Z :=
  match s with kBatchProcessing => 0 | kBalanced => 1 | kHasDiff => 2 | kBatchFailed => 3 end.

Record ReconcileBatch := mkReconcileBatch {
  b_batchNo : string;
  b_billDate : string;
  b_channel : string;
  b_totalCount : Z;
  b_totalAmountFen : Z;
  b_channelCount : Z;
  b_channelAmountFen : Z;
  b_diffCount : Z;
  b_status : BatchStatus
}.

(** ** The [toJson] members *)

Section ToJson.
Context {J : JsonCpp}.

Definition order_toJson (o : Order) : jvalue :=
  jobject [("orderNo", jstring (o_orderNo o));
           ("userId", jint (o_userId o));
           ("productId", jint (o_productId o));
           ("quantity", jint (o_quantity o));
           ("unitPrice", jstring (fenToYuanString (o_unitPriceFen o)));
           ("totalAmount", jstring (fenToYuanString (o_totalAmountFen o)));
           ("status", jint (order_status_int (o_status o)));
           ("expireTime", jstring (o_expireTime o))].

Definition product_toJson (p : Product) : jvalue :=
  jobject [("productId", jint (p_id p));
           ("productNo", jstring (p_productNo p));
           ("name", jstring (p_name p));
           ("price", jstring (fenToYuanString (p_priceFen p)));
           ("stock", jint (p_stock p));
           ("status", jint (p_status p))].

Definition diff_toJson (d : ReconcileDiff) : jvalue :=
  jobject [("batchNo", jstring (d_batchNo d));
           ("orderNo", jstring (d_orderNo d));
           ("channelTradeNo", jstring (d_channelTradeNo d));
           ("localAmount", jstring (fenToYuanString (d_localAmountFen d)));
           ("channelAmount", jstring (fenToYuanString (d_channelAmountFen d)));
           ("diffType", jint (diff_type_int (d_diffType d)));
           ("diffAmount", jstring (fenToYuanString (d_diffAmountFen d)));
           ("handleStatus", jint (handle_status_int (d_handleStatus d)));
           ("handleRemark", jstring (d_handleRemark d));
           ("handledAt", jstring (d_handledAt d))].

Definition batch_toJson (b : ReconcileBatch) : jvalue :=
  jobject [("batchNo", jstring (b_batchNo b));
           ("billDate", jstring (b_billDate b));
           ("channel", jstring (b_channel b));
           ("totalCount", jint (b_totalCount b));
           ("totalAmount", jstring (fenToYuanString (b_totalAmountFen b)));
           ("channelCount", jint (b_channelCount b));
           ("channelAmount", jstring (fenToYuanString (b_channelAmountFen b)));
           ("diffCount", jint (b_diffCount b));
           ("status", jint (batch_status_int (b_status b)))].

#[export] Instance Order_toJson : HasToJson Order := order_toJson.
#[export] Instance Product_toJson : HasToJson Product := product_toJson.
#[export] Instance ReconcileDiff_toJson : HasToJson ReconcileDiff := diff_toJson.
#[export] Instance ReconcileBatch_toJson : HasToJson ReconcileBatch := batch_toJson.
End ToJson.
