(* ===== verification/Database.v ===== *)
(** * Database: tables, statements and transactions

    The ten tables of [sql/schema.sql], the fragment of SQL that the DAOs use,
    and the state and exception monad in which the services run, with
    [TransactionGuard] ([src/utils/DbUtil.h]).

    A table is the list of its rows in the order of the primary key.  The MySQL
    server and its driver are third-party code: string comparison (the collation
    utf8mb4_0900_ai_ci), the conversion of bound strings to DECIMAL and DATETIME,
    and the lengths a column accepts are the class [MySql]; whether a statement
    executes at all is an oracle, as are the clocks. *)

From S2P Require Import Prelude MoneyUtil IdGenerator BeijingTime Result Models.

(** ** The server *)

Class MySql := {
  weight : string -> string;                 (* collation weight: [=] compares weights *)
  varchar_ok : nat -> string -> bool;        (* a VARCHAR(n) column holds the string *)
  text_ok : string -> bool;                  (* a TEXT column holds the string *)
  cast_decimal : string -> option Z;         (* CAST(s AS DECIMAL(18,2)), in hundredths *)
  parse_datetime : string -> option Z;       (* a DATETIME value, in seconds *)
  parse_date : string -> option Z            (* a DATE value, in days *)
}.

(** The largest absolute value of a DECIMAL(18,2), in hundredths. *)
Definition decimal_limit : Z := 10 ^ 18.

Class MySqlLaws {D : MySql} : Prop := {
  weight_digits a b :
    str_all is_digit a = true -> str_all is_digit b = true -> weight a = weight b -> a = b;
  varchar_ascii n s :
    str_all printable s = true -> (String.length s <= n)%nat -> varchar_ok n s = true;
  cast_decimal_fen f : Z.abs f < decimal_limit -> cast_decimal (fenToYuanString f) = Some f;
  parse_datetime_format t : time_in_range t -> parse_datetime (format_datetime t) = Some t;
  parse_date_format d : time_in_range (d * 86400) -> parse_date (format_date d) = Some d
}.

(** ** The rows *)

Record ProductRow := mkProductRow {
  pr_id : Z; pr_product_no : string; pr_name : string; pr_price : Z;
  pr_stock : Z; pr_version : Z; pr_status : Z
}.

Record OrderRow := mkOrderRow {
  or_order_no : string; or_request_id : string; or_user_id : Z; or_product_id : Z;
  or_quantity : Z; or_unit_price : Z; or_total_amount : Z; or_status : OrderStatus;
  or_expire_time : Z; or_paid_at : option Z
}.

Record AccountRow := mkAccountRow {
  ar_account_no : string; ar_user_id : Z; ar_balance : Z; ar_frozen_amount : Z;
  ar_version : Z; ar_status : Z
}.

Record FlowRow := mkFlowRow {
  fr_account_no : string; fr_biz_type : FlowBizType; fr_direction : FlowDirection;
  fr_amount : Z; fr_before_balance : Z; fr_after_balance : Z; fr_order_no : string;
  fr_request_id : string
}.

Record PaymentRow := mkPaymentRow {
  py_payment_no : string; py_order_no : string; py_channel : string;
  py_channel_trade_no : string; py_amount : Z; py_status : PaymentStatus;
  py_callback_time : Z; py_raw_body : string
}.

Record IdempotentRow := mkIdempotentRow {
  id_request_id : string; id_user_id : Z; id_api_path : string; id_request_hash : string;
  id_response_body : option string; id_status : IdempotentStatus; id_expire_time : Z
}.

Record MessageRow := mkMessageRow {
  mr_message_id : string; mr_biz_type : string; mr_biz_id : string; mr_exchange : string;
  mr_routing_key : string; mr_payload : string; mr_status : MessageStatus;
  mr_retry_count : Z; mr_next_retry_time : Z
}.

(** [t_notify_record]; the status is 0 pending, 1 success, 2 failed. *)
Record NotifyRow := mkNotifyRow {
  nr_notify_no : string; nr_order_no : string; nr_target_url : string;
  nr_response_body : option string; nr_status : Z; nr_retry_count : Z; nr_message_id : string
}.

Record BatchRow := mkBatchRow {
  br_batch_no : string; br_bill_date : Z; br_channel : string; br_total_count : Z;
  br_total_amount : Z; br_channel_count : Z; br_channel_amount : Z; br_diff_count : Z;
  br_status : BatchStatus
}.

Record DiffRow := mkDiffRow {
  dr_id : Z; dr_batch_no : string; dr_order_no : string; dr_channel_trade_no : string;
  dr_local_amount : Z; dr_channel_amount : Z; dr_diff_type : ReconcileDiffType;
  dr_diff_amount : Z; dr_handle_status : HandleStatus; dr_handle_remark : option string;
  dr_handled_at : option Z
}.

(** [t_reconcile_diff_auto] is the AUTO_INCREMENT counter of the one table whose
    generated key the program reads back. *)
Record Db := mkDb {
  t_account : list AccountRow;
  t_account_flow : list FlowRow;
  t_product : list ProductRow;
  t_order : list OrderRow;
  t_payment : list PaymentRow;
  t_idempotent : list IdempotentRow;
  t_local_message : list MessageRow;
  t_notify_record : list NotifyRow;
  t_reconcile_batch : list BatchRow;
  t_reconcile_diff : list DiffRow;
  t_reconcile_diff_auto : Z
}.

Definition set_account t (d : Db) : Db :=
  mkDb t (t_account_flow d) (t_product d) (t_order d) (t_payment d) (t_idempotent d)
    (t_local_message d) (t_notify_record d) (t_reconcile_batch d) (t_reconcile_diff d)
    (t_reconcile_diff_auto d).
Definition set_account_flow t (d : Db) : Db :=
  mkDb (t_account d) t (t_product d) (t_order d) (t_payment d) (t_idempotent d)
    (t_local_message d) (t_notify_record d) (t_reconcile_batch d) (t_reconcile_diff d)
    (t_reconcile_diff_auto d).
Definition set_product t (d : Db) : Db :=
  mkDb (t_account d) (t_account_flow d) t (t_order d) (t_payment d) (t_idempotent d)
    (t_local_message d) (t_notify_record d) (t_reconcile_batch d) (t_reconcile_diff d)
    (t_reconcile_diff_auto d).
Definition set_order t (d : Db) : Db :=
  mkDb (t_account d) (t_account_flow d) (t_product d) t (t_payment d) (t_idempotent d)
    (t_local_message d) (t_notify_record d) (t_reconcile_batch d) (t_reconcile_diff d)
    (t_reconcile_diff_auto d).
Definition set_payment t (d : Db) : Db :=
  mkDb (t_account d) (t_account_flow d) (t_product d) (t_order d) t (t_idempotent d)
    (t_local_message d) (t_notify_record d) (t_reconcile_batch d) (t_reconcile_diff d)
    (t_reconcile_diff_auto d).
Definition set_idempotent t (d : Db) : Db :=
  mkDb (t_account d) (t_account_flow d) (t_product d) (t_order d) (t_payment d) t
    (t_local_message d) (t_notify_record d) (t_reconcile_batch d) (t_reconcile_diff d)
    (t_reconcile_diff_auto d).
Definition set_local_message t (d : Db) : Db :=
  mkDb (t_account d) (t_account_flow d) (t_product d) (t_order d) (t_payment d) (t_idempotent d)
    t (t_notify_record d) (t_reconcile_batch d) (t_reconcile_diff d) (t_reconcile_diff_auto d).
Definition set_notify_record t (d : Db) : Db :=
  mkDb (t_account d) (t_account_flow d) (t_product d) (t_order d) (t_payment d) (t_idempotent d)
    (t_local_message d) t (t_reconcile_batch d) (t_reconcile_diff d) (t_reconcile_diff_auto d).
Definition set_reconcile_batch t (d : Db) : Db :=
  mkDb (t_account d) (t_account_flow d) (t_product d) (t_order d) (t_payment d) (t_idempotent d)
    (t_local_message d) (t_notify_record d) t (t_reconcile_diff d) (t_reconcile_diff_auto d).
Definition set_reconcile_diff t auto (d : Db) : Db :=
  mkDb (t_account d) (t_account_flow d) (t_product d) (t_order d) (t_payment d) (t_idempotent d)
    (t_local_message d) (t_notify_record d) (t_reconcile_batch d) t auto.

(** ** Statements over one table *)

Section Sql.
Context {R : Type}.

(** SELECT ... WHERE p, in primary key order. *)
Definition sql_select (p : R -> bool) (t : list R) : list R := List.filter p t.

(** UPDATE ... SET f WHERE p: [f] is [None] when the new row violates a column's
    range or a CHECK, which fails the whole statement.  The affected rows are the
    matched ones: every UPDATE of the program changes each row it matches (a
    version is incremented, or a status that the WHERE clause fixes is changed). *)
Fixpoint sql_set (p : R -> bool) (f : R -> option R) (t : list R) : option (list R) :=
  match t with
  | [] => Some []
  | r :: t' =>
      r' ← (if p r then f r else Some r);
      rest ← sql_set p f t';
      Some (r' :: rest)
  end.

Definition sql_update (p : R -> bool) (f : R -> option R) (t : list R) : option (list R * nat) :=
  t' ← sql_set p f t;
  Some (t', length (sql_select p t)).

(** INSERT: [conflict] tells the rows that share a unique key with [r]. *)
Definition sql_insert (conflict : R -> bool) (r : R) (t : list R) : option (list R) :=
  if existsb conflict t then None else Some (t ++ [r]).

(** INSERT ... ON DUPLICATE KEY UPDATE k = k: 1 affected row when inserted, 0
    when the no-op update ran. *)
Definition sql_insert_noop (conflict : R -> bool) (r : R) (t : list R) : list R * nat :=
  if existsb conflict t then (t, 0%nat) else (t ++ [r], 1%nat).
End Sql.

(** String equality in SQL. *)
Definition sql_eq {D : MySql} (a b : string) : bool := bool_decide (weight a = weight b).

(** INT UNSIGNED. *)
Definition uint_ok (z : Z) : bool := (0 <=? z) && (z <? 2 ^ 32).

(** DECIMAL(18,2), in hundredths. *)
Definition decimal_ok (z : Z) : bool := (- decimal_limit <? z) && (z <? decimal_limit).

(** ** The monad of the services *)

(** The fate of an explicit [commit]: applied, refused, or applied although the
    client sees an error (the reply is lost). *)
Inductive commit_fate := CommitApplied | CommitRefused | CommitInDoubt.

(** The oracles.  Statements are numbered in the order they are sent; [stmt_ok]
    covers every failure of the server or of the connection. *)
Class Env := {
  db_configured : bool;          (* the "default" DbClient exists *)
  system_clock : nat -> Z;       (* milliseconds since the epoch *)
  spin_fuel : nat;               (* readings allowed to one [waitNextMs] *)
  db_now : nat -> Z;             (* NOW() of a statement, in +8:00 seconds *)
  stmt_ok : nat -> bool;
  fate : nat -> commit_fate
}.

(** The transaction of a guard as its thread sees it: open, with a state [V];
    committed; or rolled back by the server or the driver after an error. *)
Inductive TxState (V : Type) := NoTx | TxOpen (v : V) | TxFinished | TxAborted.
Arguments NoTx {V}.
Arguments TxOpen {V} _.
Arguments TxFinished {V}.
Arguments TxAborted {V}.

Record St := mkSt {
  committed : Db;                (* what other connections see *)
  tx : TxState Db;               (* the view of the running guard's transaction *)
  stmts : nat;                   (* statements sent so far *)
  readings : nat;                (* clock readings so far *)
  ids : id_state                 (* the globals of IdGenerator *)
}.

Inductive outcome (A : Type) :=
  | Ret (a : A)
  | Throw (e : exn)
  | Hang                         (* the thread is still in [waitNextMs] *)
  | Undefined.                   (* undefined behaviour: an empty optional is dereferenced *)
Arguments Ret {A} _.
Arguments Throw {A} _.
Arguments Hang {A}.
Arguments Undefined {A}.

(** The rows that a statement can lock, by the collation weights of their unique
    keys.  A lock protects the absence of the row as well (the gap of an index). *)
Inductive row_key :=
  | KProduct (id : Z)
  | KAccount (w : string)
  | KOrderNo (w : string) | KOrderRequest (w : string)
  | KFlow (w : string) (t : FlowBizType)
  | KIdempotent (w : string)
  | KPaymentNo (w : string) | KTrade (channel w : string)
  | KMessage (w : string)
  | KNotifyNo (w : string) | KNotifyMessage (w : string)
  | KBatchNo (w : string) | KBatchDay (day : Z) (w : string)
  | KDiff (id : Z) | KDiffAuto.

#[export] Instance row_key_eq_dec : EqDecision row_key.
Proof. solve_decision. Defined.

(** A program of the services: a tree of the commands it sends to its
    surroundings, branching on their answers.  [None] answers a statement that
    raised a database exception; [Begin] and [Commit] are answered by the exception
    they raise, if any. *)
Inductive M (A : Type) : Type :=
  | Done (r : outcome A)
  | ReadClock (k : Z -> M A)
  | NextId (k : id_result -> M A)
  | Exec {X : Type} (locks : list row_key) (f : Z -> Db -> option (Db * X)) (k : option X -> M A)
  | Query {X : Type} (g : Db -> option X) (k : option X -> M A)
  | Client {X : Type} (locks : list row_key) (f : Z -> Db -> option (Db * X)) (k : option X -> M A)
  | Begin (k : option exn -> M A)
  | Commit (k : option exn -> M A)
  | Close (k : M A).
Arguments Done {A} _.
Arguments ReadClock {A} _.
Arguments NextId {A} _.
Arguments Exec {A X} _ _ _.
Arguments Query {A X} _ _.
Arguments Client {A X} _ _ _.
Arguments Begin {A} _.
Arguments Commit {A} _.
Arguments Close {A} _.

(** [graft h m]: [h] takes over where [m] ends. *)
Fixpoint graft {A B} (h : outcome A -> M B) (m : M A) : M B :=
  match m with
  | Done r => h r
  | ReadClock k => ReadClock (fun z => graft h (k z))
  | NextId k => NextId (fun r => graft h (k r))
  | Exec L f k => Exec L f (fun x => graft h (k x))
  | Query g k => Query g (fun x => graft h (k x))
  | Client L f k => Client L f (fun x => graft h (k x))
  | Begin k => Begin (fun e => graft h (k e))
  | Commit k => Commit (fun e => graft h (k e))
  | Close k => Close (graft h k)
  end.

#[export] Instance M_ret : MRet M := fun A a => Done (Ret a).
#[export] Instance M_bind : MBind M := fun A B k => graft (fun r =>
  match r with
  | Ret a => k a
  | Throw e => Done (Throw e)
  | Hang => Done Hang
  | Undefined => Done Undefined
  end).

Definition throw {A} (e : exn) : M A := Done (Throw e).

(** A call that throws a standard exception when it has no result. *)
Definition or_throw {A} (o : option A) : M A :=
  match o with Some a => mret a | None => throw StdException end.

(** [*o] of an optional that the code does not test. *)
Definition deref {A} (o : option A) : M A :=
  match o with Some a => mret a | None => Done Undefined end.

(** [try { m } catch (...) { h }]. *)
Definition try_catch {A} (m : M A) (h : exn -> M A) : M A :=
  graft (fun r => match r with Throw e => h e | _ => Done r end) m.

(** One reading of the system clock. *)
Definition read_clock : M Z := ReadClock mret.

(** [utils::IdGenerator::nextId()]. *)
Definition next_id : M string := NextId (fun r =>
  match r with
  | IdOk id => mret id
  | IdClockBackwards => throw StdException
  | IdSpinning => Done Hang
  end).

Definition answer {X} (x : option X) : M X :=
  match x with Some a => mret a | None => throw DbException end.

(** [tx->execSqlSync(...)]: a statement that locks the rows it reads and changes. *)
Definition exec {X} (locks : list row_key) (f : Z -> Db -> option (Db * X)) : M X :=
  Exec locks f answer.

(** [tx->execSqlSync("SELECT ...")]: a consistent read, without locks. *)
Definition query {X} (g : Db -> option X) : M X := Query g answer.

(** [drogon::app().getDbClient()->execSqlSync(...)]: autocommit, on another
    connection. *)
Definition exec_client {X} (locks : list row_key) (f : Z -> Db -> option (Db * X)) : M X :=
  Client locks f answer.

Definition raised (e : option exn) : M unit :=
  match e with Some e => throw e | None => mret tt end.

(** [TransactionGuard::commit]. *)
Definition guard_commit : M unit := Commit raised.

(** [utils::beginTransaction]. *)
Definition beginTransaction : M unit := Begin raised.

(** The scope of a [TransactionGuard] constructed from [beginTransaction()]:
    whether the scope returns or throws, the destructor rolls back a transaction
    that was not committed, and the transaction is gone.  A hanging thread never
    reaches the destructor. *)
Definition with_guard {A} (body : M A) : M A :=
  beginTransaction;;
  graft (fun r => match r with Ret _ | Throw _ => Close (Done r) | _ => Done r end) body.

(** SELECT leaves the database as it is. *)
Definition read {A} (f : Db -> option A) (now : Z) (d : Db) : option (Db * A) :=
  a ← f d; Some (d, a).

(** ** The program alone: no other connection writes *)

Definition sent (st : St) : St :=
  mkSt (committed st) (tx st) (S (stmts st)) (readings st) (ids st).

Definition set_tx (t : TxState Db) (st : St) : St :=
  mkSt (committed st) t (stmts st) (readings st) (ids st).

Definition set_committed (d : Db) (st : St) : St :=
  mkSt d (tx st) (stmts st) (readings st) (ids st).

Section Run.
Context {E : Env}.

Definition run_clock (st : St) : Z * St :=
  (system_clock (readings st),
   mkSt (committed st) (tx st) (stmts st) (S (readings st)) (ids st)).

Definition run_id (st : St) : id_result * St :=
  let '(r, ids', n') := nextId system_clock spin_fuel (readings st) (ids st) in
  (r, mkSt (committed st) (tx st) (stmts st) n' ids').

(** A statement on the view of the open transaction; an error rolls the
    transaction back. *)
Definition run_exec {X} (f : Z -> Db -> option (Db * X)) (st : St) : option X * St :=
  match tx st with
  | TxOpen d =>
      match (if stmt_ok (stmts st) then f (db_now (stmts st)) d else None) with
      | Some (d', x) => (Some x, set_tx (TxOpen d') (sent st))
      | None => (None, set_tx TxAborted (sent st))
      end
  | _ => (None, sent st)
  end.

(** The commit of an autocommitted statement has a fate of its own. *)
Definition run_client {X} (f : Z -> Db -> option (Db * X)) (st : St) : option X * St :=
  match (if stmt_ok (stmts st) then f (db_now (stmts st)) (committed st) else None) with
  | Some (d', x) =>
      match fate (stmts st) with
      | CommitApplied => (Some x, set_committed d' (sent st))
      | CommitRefused => (None, sent st)
      | CommitInDoubt => (None, set_committed d' (sent st))
      end
  | None => (None, sent st)
  end.

(** [std::runtime_error] without a client, a database exception when no
    transaction can be opened. *)
Definition run_begin (st : St) : option exn * St :=
  if negb db_configured then (Some StdException, st)
  else if stmt_ok (stmts st) then (None, set_tx (TxOpen (committed st)) (sent st))
  else (Some DbException, sent st).

(** A commit is refused with a [std::logic_error] on a guard that is finished. *)
Definition run_commit (st : St) : option exn * St :=
  match tx st with
  | NoTx | TxFinished => (Some StdException, st)
  | TxAborted => (Some DbException, sent st)
  | TxOpen d =>
      match fate (stmts st) with
      | CommitApplied => (None, set_tx TxFinished (set_committed d (sent st)))
      | CommitRefused => (Some DbException, set_tx TxAborted (sent st))
      | CommitInDoubt => (Some DbException, set_tx TxAborted (set_committed d (sent st)))
      end
  end.

Fixpoint run_alone {A} (m : M A) (st : St) : outcome A * St :=
  match m with
  | Done r => (r, st)
  | ReadClock k => let '(z, st') := run_clock st in run_alone (k z) st'
  | NextId k => let '(r, st') := run_id st in run_alone (k r) st'
  | Exec _ f k => let '(x, st') := run_exec f st in run_alone (k x) st'
  | Query g k => let '(x, st') := run_exec (read g) st in run_alone (k x) st'
  | Client _ f k => let '(x, st') := run_client f st in run_alone (k x) st'
  | Begin k => let '(e, st') := run_begin st in run_alone (k e) st'
  | Commit k => let '(e, st') := run_commit st in run_alone (k e) st'
  | Close k => run_alone k (set_tx NoTx st)
  end.
End Run.

(** ** Lemmas on tables *)

Section SqlLemmas.
Context {R : Type}.
Implicit Types (t : list R) (p : R -> bool).

(** An UPDATE that matches nothing changes nothing. *)
Lemma sql_set_none p f t : existsb p t = false -> sql_set p f t = Some t.
Proof.
  induction t as [|r t IH]; simpl; [done |]. rewrite orb_false_iff. intros [-> Ht].
  by rewrite IH.
Qed.

Lemma sql_insert_inv conflict r t t' :
  sql_insert conflict r t = Some t' -> t' = t ++ [r] /\ existsb conflict t = false.
Proof. unfold sql_insert. destruct (existsb conflict t); [done | by intros [= <-]]. Qed.

Lemma existsb_false p t : existsb p t = false <-> Forall (fun r => p r = false) t.
Proof.
  induction t as [|r t IH]; simpl; [split; [constructor | done] |].
  by rewrite orb_false_iff, Forall_cons, IH.
Qed.

Lemma sql_select_In p t r : In r (sql_select p t) <-> In r t /\ p r = true.
Proof. apply filter_In. Qed.

Lemma sql_select_none p t : existsb p t = false -> sql_select p t = [].
Proof.
  induction t as [|r t IH]; simpl; [done |]. rewrite orb_false_iff. intros [-> Ht]. auto.
Qed.

(** A condition that fixes a unique key matches no row, or one row. *)
Lemma sql_key_cases {K : Type} (key : R -> K) k p t :
  (forall r, p r = true -> key r = k) -> NoDup (map key t) ->
  existsb p t = false
  \/ exists t1 r t2, t = t1 ++ r :: t2 /\ p r = true
       /\ existsb p t1 = false /\ existsb p t2 = false.
Proof.
  intros Hkey. induction t as [|r t IH]; [by left |]. cbn [map existsb].
  rewrite NoDup_cons. intros [Hnew Hnd]. destruct (p r) eqn:Hp; simpl.
  - right. exists [], r, t. repeat split; try done. apply existsb_false, Forall_forall.
    intros r' Hin. destruct (p r') eqn:Hp'; [| done]. exfalso. apply Hnew.
    apply list_elem_of_fmap. exists r'. by rewrite (Hkey r), (Hkey r').
  - destruct (IH Hnd) as [? | (t1 & r0 & t2 & -> & Hr & Ht1 & Ht2)]; [by left | right].
    exists (r :: t1), r0, t2. simpl. by rewrite Hp, Ht1.
Qed.

Lemma sql_select_sublist p t : sql_select p t `sublist_of` t.
Proof.
  unfold sql_select. induction t as [|r t IH]; simpl; [done |].
  destruct (p r); [by apply sublist_skip | by apply sublist_cons].
Qed.

Lemma sql_select_split p t1 r t2 :
  p r = true -> existsb p t1 = false -> existsb p t2 = false ->
  sql_select p (t1 ++ r :: t2) = [r].
Proof.
  intros Hr H1 H2. unfold sql_select. rewrite List.filter_app. simpl. rewrite Hr.
  fold (sql_select p t1) (sql_select p t2). by rewrite !sql_select_none.
Qed.

Lemma sql_set_split p f t1 r t2 :
  p r = true -> existsb p t1 = false -> existsb p t2 = false ->
  sql_set p f (t1 ++ r :: t2) = r' ← f r; Some (t1 ++ r' :: t2).
Proof.
  intros Hr H1 H2. induction t1 as [|x t1 IH]; cbn [app sql_set].
  - rewrite Hr. destruct (f r); simpl; [| done]. by rewrite (sql_set_none _ _ t2).
  - simpl in H1. apply orb_false_iff in H1 as [Hx H1]. rewrite Hx, (IH H1). simpl.
    by destruct (f r).
Qed.

(** An UPDATE by a unique key. *)
Lemma sql_update_key {K : Type} (key : R -> K) k p f t :
  (forall r, p r = true -> key r = k) -> NoDup (map key t) ->
  (existsb p t = false /\ sql_update p f t = Some (t, 0%nat))
  \/ exists t1 r t2, t = t1 ++ r :: t2 /\ p r = true /\ existsb p t1 = false /\ existsb p t2 = false
       /\ sql_update p f t = r' ← f r; Some (t1 ++ r' :: t2, 1%nat).
Proof.
  intros Hkey Hnd. destruct (sql_key_cases key k p t Hkey Hnd)
    as [Hn | (t1 & r & t2 & -> & Hr & H1 & H2)]; unfold sql_update.
  - left. by rewrite sql_set_none, sql_select_none.
  - right. exists t1, r, t2. rewrite sql_set_split, sql_select_split by done.
    repeat split; try done. by destruct (f r).
Qed.

(** A SELECT by a unique key. *)
Lemma sql_head_key {K : Type} (key : R -> K) k p t :
  (forall r, p r = true -> key r = k) -> NoDup (map key t) ->
  (existsb p t = false /\ head (sql_select p t) = None)
  \/ exists t1 r t2, t = t1 ++ r :: t2 /\ p r = true /\ head (sql_select p t) = Some r.
Proof.
  intros Hkey Hnd. destruct (sql_key_cases key k p t Hkey Hnd)
    as [Hn | (t1 & r & t2 & -> & Hr & H1 & H2)].
  - left. by rewrite sql_select_none.
  - right. exists t1, r, t2. by rewrite sql_select_split.
Qed.

Lemma sql_head_unique {K : Type} (key : R -> K) k p t x :
  (forall r, p r = true -> key r = k) -> NoDup (map key t) -> In x t -> p x = true ->
  head (sql_select p t) = Some x.
Proof.
  intros Hkey Hnd Hin Hx. destruct (sql_key_cases key k p t Hkey Hnd)
    as [Hn%existsb_false | (t1 & r & t2 & -> & Hr & H1%existsb_false & H2%existsb_false)].
  - rewrite Forall_forall in Hn. apply list_elem_of_In, Hn in Hin. congruence.
  - rewrite sql_select_split by (done || by apply existsb_false).
    rewrite Forall_forall in H1, H2. apply in_app_iff in Hin as [Hin | [-> | Hin]]; [| done |];
      apply list_elem_of_In in Hin; [apply H1 in Hin | apply H2 in Hin]; congruence.
Qed.

(** The new row of an INSERT that no unique key rejects has a new key. *)
Lemma insert_NoDup {K : Type} (key : R -> K) conflict r t :
  (forall x, key x = key r -> conflict x = true) -> existsb conflict t = false ->
  NoDup (map key t) -> NoDup (map key (t ++ [r])).
Proof.
  intros Hc Hn Hnd. rewrite List.map_app. apply NoDup_app. split_and!; [done | |].
  - intros k Hin Hk. apply list_elem_of_singleton in Hk as ->.
    apply list_elem_of_fmap in Hin as (x & Hx & Hin).
    apply existsb_false in Hn. rewrite Forall_forall in Hn.
    specialize (Hn x Hin). by rewrite (Hc x) in Hn.
  - apply NoDup_singleton.
Qed.

Lemma sql_insert_noop_inv conflict r t t' n :
  sql_insert_noop conflict r t = (t', n) ->
  (existsb conflict t = true /\ t' = t /\ n = 0%nat)
  \/ (existsb conflict t = false /\ t' = t ++ [r] /\ n = 1%nat).
Proof.
  unfold sql_insert_noop. destruct (existsb conflict t); intros [= <- <-]; [left | right]; done.
Qed.
End SqlLemmas.

(** The first row selected. *)
Lemma find_head {A} (f : A -> bool) l : head (sql_select f l) = find f l.
Proof. induction l as [|x l IH]; [done |]. cbn. by destruct (f x). Qed.

Lemma sql_eq_iff {D : MySql} a b : sql_eq a b = true <-> weight a = weight b.
Proof. unfold sql_eq. apply bool_decide_eq_true. Qed.

Lemma sql_eq_refl {D : MySql} a : sql_eq a a = true.
Proof. by apply sql_eq_iff. Qed.

#[export] Hint Resolve sql_eq_refl : trade.
