(* ===== verification/Logger.v ===== *)
(** * Logger: the life of the process's logger

    [src/common/Logger.cc].  The state is the static members of [Logger], the
    [once_flag] of [init], and what the calls leave in spdlog's registry.  spdlog
    itself is third-party: a logger is the record of the settings it is given, and
    whether the rotating file can be opened is a parameter of [doInit].  The pointers
    that [get] and [withRequestId] return are options; a member call through a null
    pointer is [Undefined]. *)

From S2P Require Import Prelude MoneyUtil IdGenerator BeijingTime JsonValue Result Models Database RequestId.

(** ** The state *)

Inductive level := LTrace | LDebug | LInfo | LWarn | LErr | LCritical | LOff.

Inductive sink := ConsoleSink | FileSink (path : string) (max_size max_files : Z).

Inductive overflow_policy := Block | OverrunOldest.

(** A [spdlog::details::thread_pool]: the length of its queue, its threads. *)
Record log_pool := mkLogPool { lp_queue : Z; lp_threads : Z }.

Record logger := mkLogger {
  lg_name : string;
  lg_sinks : list sink;
  lg_pool : option log_pool;
  lg_policy : overflow_policy;
  lg_pattern : string;
  lg_level : level;
  lg_flush_on : level
}.

Record log_state := mkLogState {
  logger_ : option logger;
  pool_ : option log_pool;
  sinks_ : list sink;
  shutdownFlag_ : bool;
  initFlag : bool;               (* [doInit] has run *)
  registered : bool;             (* [logger_] is in the registry, as the default logger *)
  global_level : option level;   (* [spdlog::set_level] *)
  flush_every : option Z         (* the seconds of the flushing thread *)
}.

Definition log_init : log_state := mkLogState None None [] false false false None None.

(** ** The code *)

Definition kBasePattern : string := "[%Y-%m-%d %H:%M:%S.%e][%l][-] %v".
Definition kLoggerName : string := "trade".
Definition kLogFile : string := "logs/trade_server.log".
Definition kQueueSize : Z := 8192.
Definition kMaxFileSize : Z := 64 * 1024 * 1024.
Definition kMaxFiles : Z := 5.

Definition set_level (l : level) (g : logger) : logger :=
  mkLogger (lg_name g) (lg_sinks g) (lg_pool g) (lg_policy g) (lg_pattern g) l (lg_flush_on g).

Section Logger.
(** The rotating file sink can be built. *)
Context (file_ok : bool).

(** The console, and the file when it can be opened. *)
Definition build_sinks : list sink :=
  ConsoleSink :: (if file_ok then [FileSink kLogFile kMaxFileSize kMaxFiles] else []).

Definition doInit (l : level) (s : log_state) : log_state :=
  let sinks := build_sinks in
  let pool := mkLogPool kQueueSize 1 in
  let g := mkLogger kLoggerName sinks (Some pool) Block kBasePattern l LErr in
  mkLogState (Some g) (Some pool) sinks (shutdownFlag_ s) true true (Some l) (Some 3).

(** [Logger::init]: the sinks once, the level each time. *)
Definition init (l : level) (s : log_state) : log_state :=
  let s1 := if initFlag s then s else doInit l s in
  mkLogState (set_level l <$> logger_ s1) (pool_ s1) (sinks_ s1) (shutdownFlag_ s1) (initFlag s1)
    (registered s1) (Some l) (flush_every s1).

Definition ensureInitialized (s : log_state) : log_state :=
  if shutdownFlag_ s then s else init LDebug s.

Definition get (s : log_state) : option logger * log_state :=
  let s' := ensureInitialized s in (logger_ s', s').

(** [Logger::withRequestId]. *)
Definition request_pattern (safe : string) : string := "[%Y-%m-%d %H:%M:%S.%e][%l][" +:+ safe +:+ "] %v".

Definition withRequestId (requestId : string) (s : log_state) : outcome (option logger) * log_state :=
  let s' := ensureInitialized s in
  let safe := sanitizeRequestId requestId in
  if (String.length safe =? 0)%nat then
    if negb (String.length requestId =? 0)%nat then
      match logger_ s' with            (* logger_->warn(...) *)
      | Some g => (Ret (Some g), s')
      | None => (Undefined, s')
      end
    else (Ret (logger_ s'), s')
  else
    match logger_ s' with              (* logger_->level() *)
    | Some g =>
        (Ret (Some (mkLogger (kLoggerName +:+ "." +:+ safe) (sinks_ s') (pool_ s') Block
                      (request_pattern safe) (lg_level g) LErr)), s')
    | None => (Undefined, s')
    end.

Definition shutdown (s : log_state) : log_state :=
  mkLogState None None [] true (initFlag s) false (global_level s) None.

(** ** Calls from any threads, one after the other *)

Inductive log_call := CallInit (l : level) | CallGet | CallWithRequestId (rid : string) | CallShutdown.

Definition call (c : log_call) (s : log_state) : log_state :=
  match c with
  | CallInit l => init l s
  | CallGet => (get s).2
  | CallWithRequestId rid => (withRequestId rid s).2
  | CallShutdown => shutdown s
  end.

Definition calls (cs : list log_call) : log_state := fold_left (fun s c => call c s) cs log_init.

(** ** Lemmas *)

(** The logger is as [doInit] made it, but for its level. *)
Definition complete (s : log_state) : Prop :=
  exists l, logger_ s = Some (mkLogger kLoggerName build_sinks (Some (mkLogPool kQueueSize 1)) Block kBasePattern l LErr)
    /\ pool_ s = Some (mkLogPool kQueueSize 1) /\ sinks_ s = build_sinks /\ registered s = true
    /\ flush_every s = Some 3.

(** Nothing is left of it. *)
Definition released (s : log_state) : Prop :=
  logger_ s = None /\ pool_ s = None /\ sinks_ s = [] /\ registered s = false /\ flush_every s = None.

(** Not yet initialised, in use, or shut down; a first [init] that comes after
    [shutdown] builds the logger all the same. *)
Definition log_inv (s : log_state) : Prop :=
  if initFlag s then complete s \/ (released s /\ shutdownFlag_ s = true) else released s.

Lemma init_complete l s : log_inv s -> (initFlag s = true -> shutdownFlag_ s = false) -> complete (init l s).
Proof.
  unfold log_inv, init. destruct (initFlag s); intros H Hs; [| by exists l].
  destruct H as [(l0 & -> & -> & -> & -> & ->) | [_ H]]; [by exists l | by rewrite Hs in H].
Qed.

Lemma init_flag l s : initFlag (init l s) = true.
Proof. unfold init. by destruct (initFlag s) eqn:H. Qed.

Lemma init_shutdownFlag l s : shutdownFlag_ (init l s) = shutdownFlag_ s.
Proof. unfold init. by destruct (initFlag s). Qed.

Lemma init_inv l s : log_inv s -> log_inv (init l s).
Proof.
  intros H. unfold log_inv. rewrite init_flag.
  destruct (initFlag s && shutdownFlag_ s) eqn:Hf.
  - apply andb_true_iff in Hf as [Hi Hs]. unfold log_inv, init in *. rewrite Hi in *.
    destruct H as [(l0 & H1 & H2 & H3 & H4 & H5) | [(H1 & H2 & H3 & H4 & H5) _]].
    + left. exists l. cbn. by rewrite H1.
    + right. split; [| done]. unfold released. cbn. by rewrite H1.
  - left. apply init_complete; [done |]. intros Hi. by rewrite Hi in Hf.
Qed.

Lemma ensure_inv s : log_inv s -> log_inv (ensureInitialized s).
Proof. unfold ensureInitialized. destruct (shutdownFlag_ s); [done | apply init_inv]. Qed.

Lemma withRequestId_state rid s : (withRequestId rid s).2 = ensureInitialized s.
Proof. unfold withRequestId. by repeat case_match. Qed.

Lemma call_inv c s : log_inv s -> log_inv (call c s).
Proof.
  destruct c as [l | | rid |]; cbn [call].
  - apply init_inv.
  - apply ensure_inv.
  - rewrite withRequestId_state. apply ensure_inv.
  - unfold log_inv. cbn. by destruct (initFlag s); [right |].
Qed.

Lemma calls_inv cs : log_inv (calls cs).
Proof.
  unfold calls. assert (H0 : log_inv log_init) by done. revert H0. generalize log_init.
  induction cs as [|c cs IH]; intros s Hs; [done |]. cbn. by apply IH, call_inv.
Qed.

Lemma ensure_in_use s : log_inv s -> shutdownFlag_ s = false ->
  complete (ensureInitialized s) /\ lg_level <$> logger_ (ensureInitialized s) = Some LDebug.
Proof.
  intros H Hs. unfold ensureInitialized. rewrite Hs.
  pose proof (init_complete LDebug s H (fun _ => Hs)) as Hc. split; [done |].
  destruct Hc as (l & Hl & _). unfold init in *. cbn [logger_] in *.
  by destruct (logger_ (if initFlag s then s else doInit LDebug s)).
Qed.

(** After the shutdown of an initialised logger. *)
Definition dead (s : log_state) : Prop := released s /\ shutdownFlag_ s = true /\ initFlag s = true.

Lemma dead_call c s : dead s -> dead (call c s).
Proof.
  intros [(H1 & H2 & H3 & H4 & H5) [Hs Hi]].
  assert (He : ensureInitialized s = s) by (unfold ensureInitialized; by rewrite Hs).
  destruct c as [l | | rid |]; cbn [call].
  - unfold init. rewrite Hi. split; [| done]. unfold released. cbn. by rewrite H1.
  - unfold get. by rewrite He.
  - by rewrite withRequestId_state, He.
  - done.
Qed.

Lemma calls_app cs cs' : calls (cs ++ cs') = fold_left (fun s c => call c s) cs' (calls cs).
Proof. apply fold_left_app. Qed.

Lemma dead_calls cs s : dead s -> dead (fold_left (fun s c => call c s) cs s).
Proof. revert s. induction cs as [|c cs IH]; intros s Hs; [done |]. cbn. by apply IH, dead_call. Qed.

Lemma dead_get s : dead s -> get s = (None, s).
Proof. intros [(Hl & _) [Hs _]]. unfold get, ensureInitialized. by rewrite Hs, Hl. Qed.

Lemma dead_withRequestId rid s : dead s -> rid <> "" -> withRequestId rid s = (Undefined, s).
Proof.
  intros [(Hl & _) [Hs _]] Hrid. unfold withRequestId, ensureInitialized. rewrite Hs, Hl.
  destruct rid; [done |]. by destruct (_ =? 0)%nat.
Qed.

Lemma initFlag_calls cs s : initFlag s = true -> initFlag (fold_left (fun s c => call c s) cs s) = true.
Proof.
  revert s. induction cs as [|c cs IH]; intros s Hs; [done |]. cbn. apply IH.
  assert (He : initFlag (ensureInitialized s) = true).
  { unfold ensureInitialized. destruct (shutdownFlag_ s); [done | apply init_flag]. }
  destruct c; cbn [call]; [apply init_flag | done | by rewrite withRequestId_state | done].
Qed.

(** ** The properties *)

(** The global logger, as everyone sees it. *)
Definition global_logger : logger :=
  mkLogger kLoggerName build_sinks (Some (mkLogPool kQueueSize 1)) Block kBasePattern LDebug LErr.

(** C33. Until [shutdown], whatever calls were made, [get] returns the one global
    logger, complete and at level debug whatever level [init] was given, and
    [withRequestId] returns it too or, for an identifier of at most 64 letters,
    digits, hyphens and underscores, a logger on the same sinks and thread whose
    pattern has exactly that identifier: no line can be forged and no pattern
    rewritten. *)
Theorem logger_in_use cs rid : shutdownFlag_ (calls cs) = false ->
  (get (calls cs)).1 = Some global_logger
  /\ (withRequestId rid (calls cs)).1
     = Ret (Some (if (1 <=? String.length rid)%nat && (String.length rid <=? 64)%nat && str_all log_char rid
                  then mkLogger ("trade." +:+ rid) build_sinks (Some (mkLogPool kQueueSize 1)) Block
                         (request_pattern rid) LDebug LErr
                  else global_logger)).
Proof.
  intros Hs. destruct (ensure_in_use _ (calls_inv cs) Hs) as [(l & Hl & Hp & Hk & _) Hdebug].
  rewrite Hl in Hdebug. injection Hdebug as ->. cbn [get fst]. split; [exact Hl |].
  unfold withRequestId. rewrite Hl, Hp, Hk, sanitizeRequestId_eq.
  destruct (String.length rid <=? 64)%nat; cbn [andb]; [| rewrite andb_false_r; by destruct rid].
  destruct (str_all log_char rid); cbn [andb]; [by destruct rid |]. rewrite andb_false_r.
  by destruct rid.
Qed.

(** After [shutdown] of a logger that was in use, whatever calls follow, [get]
    returns null and touches nothing, but [withRequestId] calls through the null
    pointer for every identifier that is not empty. *)
Theorem logger_after_shutdown cs cs' rid : initFlag (calls cs) = true -> rid <> "" ->
  let s := calls (cs ++ CallShutdown :: cs') in
  get s = (None, s) /\ withRequestId "" s = (Ret None, s) /\ withRequestId rid s = (Undefined, s).
Proof.
  intros Hi Hrid s. assert (Hd : dead s).
  { unfold s. rewrite calls_app. cbn [fold_left]. apply dead_calls. by split. }
  split; [by apply dead_get |]. split; [| by apply dead_withRequestId].
  destruct Hd as [(Hl & _) [Hs _]]. unfold withRequestId, ensureInitialized. by rewrite Hs, Hl.
Qed.
End Logger.

(** ** Witnesses *)

Lemma logger_in_use_witness :
  (get true (calls true [CallInit LInfo; CallWithRequestId "00ff"])).1 = Some (global_logger true)
  /\ (withRequestId true "%v]" (calls true [CallInit LInfo])).1 = Ret (Some (global_logger true)).
Proof.
  split.
  - exact (proj1 (logger_in_use true [CallInit LInfo; CallWithRequestId "00ff"] "" eq_refl)).
  - exact (proj2 (logger_in_use true [CallInit LInfo] "%v]" eq_refl)).
Defined.

Lemma logger_after_shutdown_witness :
  (withRequestId false "00ff" (calls false [CallInit LInfo; CallShutdown; CallGet])).1 = Undefined.
Proof.
  destruct (logger_after_shutdown false [CallInit LInfo] [CallGet] "00ff" eq_refl ltac:(discriminate)) as (_ & _ & H).
  exact (f_equal fst H).
Defined.
