(* ===== verification/Transaction.v ===== *)
(** * Transaction: reasoning about the services' monad

    A weakest-precondition calculus for a program that runs alone: one rule per command of
    [Database], and the rules of a [TransactionGuard] scope.  A rule for a
    statement has two branches, the one in which it executes and the one in which
    a database exception is thrown; the second says why it was thrown. *)

From S2P Require Import Prelude MoneyUtil IdGenerator BeijingTime Result Models Database.

(** [Q] holds of the outcome of [m] and of the state it leaves. *)
Definition wp {E : Env} {A} (m : M A) (Q : outcome A -> St -> Prop) (st : St) : Prop :=
  Q (run_alone m st).1 (run_alone m st).2.

(** The state of an open transaction whose view is [d]. *)
Definition view (d : Db) (st : St) : Prop := tx st = TxOpen d.

(** The failures that the oracles decide. *)
Definition fault {E : Env} : Prop :=
  db_configured = false \/ (exists n, stmt_ok n = false) \/ (exists n, fate n <> CommitApplied).

Definition no_fault {E : Env} : Prop :=
  db_configured = true /\ (forall n, stmt_ok n = true) /\ (forall n, fate n = CommitApplied).

Lemma no_fault_fault {E : Env} : no_fault -> fault -> False.
Proof. intros (H1 & H2 & H3) [Hf | [[n Hf] | [n Hf]]]; [congruence | by rewrite H2 in Hf | by rewrite H3 in Hf]. Qed.

(** The value of NOW() in some statement. *)
Definition is_now {E : Env} (t : Z) : Prop := exists n, t = db_now n.

(** What no primitive but [exec_client], [guard_commit] changes, and what no
    primitive but the clock and the generator changes. *)
Definition same_db (st st' : St) : Prop := committed st' = committed st.
Definition same_gen (st st' : St) : Prop := ids st' = ids st /\ readings st' = readings st.

#[export] Instance same_db_equiv : PreOrder same_db.
Proof. split; [by intros st | intros a b c; unfold same_db; congruence]. Qed.

#[export] Instance same_gen_equiv : PreOrder same_gen.
Proof. split; [by intros st | intros a b c [? ?] [? ?]; split; congruence]. Qed.

Section Rules.
Context {E : Env}.

Lemma wp_elim {A} (m : M A) Q st r st' : wp m Q st -> run_alone m st = (r, st') -> Q r st'.
Proof. unfold wp. intros H Hm. by rewrite Hm in H. Qed.

Lemma wp_intro {A} (m : M A) (Q : outcome A -> St -> Prop) st :
  (forall r st', run_alone m st = (r, st') -> Q r st') -> wp m Q st.
Proof. unfold wp. intros H. apply H. by destruct (run_alone m st). Qed.

Lemma wp_mono {A} (m : M A) (Q Q' : outcome A -> St -> Prop) st :
  wp m Q st -> (forall r st', Q r st' -> Q' r st') -> wp m Q' st.
Proof. unfold wp. auto. Qed.

Lemma wp_done {A} (r : outcome A) (Q : outcome A -> St -> Prop) st : Q r st -> wp (Done r) Q st.
Proof. done. Qed.

Lemma wp_ret {A} (a : A) (Q : outcome A -> St -> Prop) st : Q (Ret a) st -> wp (mret a) Q st.
Proof. done. Qed.

Lemma wp_throw {A} e (Q : outcome A -> St -> Prop) st : Q (Throw e) st -> wp (throw e) Q st.
Proof. done. Qed.

Lemma wp_or_throw {A} (o : option A) (Q : outcome A -> St -> Prop) st :
  (forall a, o = Some a -> Q (Ret a) st) -> (o = None -> Q (Throw StdException) st) ->
  wp (or_throw o) Q st.
Proof. destruct o; intros H1 H2; [by apply H1 | by apply H2]. Qed.

Lemma wp_deref {A} (o : option A) (Q : outcome A -> St -> Prop) st :
  (exists a, o = Some a /\ Q (Ret a) st) -> wp (deref o) Q st.
Proof. intros (a & -> & H). exact H. Qed.

(** Sequencing: the second program starts where the first one ends. *)
Lemma run_graft {A B} (h : outcome A -> M B) (m : M A) : forall st,
  run_alone (graft h m) st = let '(r, st') := run_alone m st in run_alone (h r) st'.
Proof.
  induction m as [r | k IH | k IH | X L f k IH | X g k IH | X L f k IH | k IH | k IH | k IH];
    intros st; cbn [graft run_alone]; [done | | | | | | | |].
  - destruct (run_clock st) as [z st']. apply IH.
  - destruct (run_id st) as [r st']. apply IH.
  - destruct (run_exec f st) as [x st']. apply IH.
  - destruct (run_exec (read g) st) as [x st']. apply IH.
  - destruct (run_client f st) as [x st']. apply IH.
  - destruct (run_begin st) as [e st']. apply IH.
  - destruct (run_commit st) as [e st']. apply IH.
  - apply IH.
Qed.

Lemma wp_graft {A B} (h : outcome A -> M B) (m : M A) Q st :
  wp m (fun r st' => wp (h r) Q st') st -> wp (graft h m) Q st.
Proof. unfold wp. rewrite run_graft. by destruct (run_alone m st) as [r st']. Qed.

Lemma wp_bind {A B} (m : M A) (k : A -> M B) Q st :
  wp m (fun r st' => match r with
                     | Ret a => wp (k a) Q st'
                     | Throw e => Q (Throw e) st'
                     | Hang => Q Hang st'
                     | Undefined => Q Undefined st'
                     end) st -> wp (m ≫= k) Q st.
Proof. intros H. apply wp_graft. eapply wp_mono; [exact H |]. by intros []. Qed.

Lemma wp_try_catch {A} (m : M A) h (Q : outcome A -> St -> Prop) st :
  wp m (fun r st' => match r with
                     | Ret a => Q (Ret a) st'
                     | Throw e => wp (h e) Q st'
                     | Hang => Q Hang st'
                     | Undefined => Q Undefined st'
                     end) st -> wp (try_catch m h) Q st.
Proof. intros H. apply wp_graft. eapply wp_mono; [exact H |]. by intros []. Qed.

Lemma run_mret {A} (a : A) st : run_alone (mret a) st = (Ret a, st).
Proof. done. Qed.

Lemma run_bind {A B} (m : M A) (k : A -> M B) st :
  run_alone (m ≫= k) st = match run_alone m st with
                    | (Ret a, st') => run_alone (k a) st'
                    | (Throw e, st') => (Throw e, st')
                    | (Hang, st') => (Hang, st')
                    | (Undefined, st') => (Undefined, st')
                    end.
Proof.
  unfold mbind, M_bind. rewrite run_graft. by destruct (run_alone m st) as [[] ?].
Qed.

Lemma wp_read_clock (Q : outcome Z -> St -> Prop) st d : view d st ->
  (forall st', view d st' -> same_db st st' -> ids st' = ids st -> readings st' = S (readings st) ->
     Q (Ret (system_clock (readings st))) st') ->
  wp read_clock Q st.
Proof. intros Hv H. by apply H. Qed.

(** The generator returns an identifier, throws when the clock has gone back, or
    the thread hangs in the spin. *)
Lemma wp_next_id (Q : outcome string -> St -> Prop) st d : view d st ->
  (forall id st', view d st' -> same_db st st' ->
     nextId system_clock spin_fuel (readings st) (ids st) = (IdOk id, ids st', readings st') ->
     Q (Ret id) st') ->
  (forall st', same_db st st' -> system_clock (readings st) < gLastTimestampMs (ids st) ->
     Q (Throw StdException) st') ->
  (forall st', same_db st st' -> Q Hang st') ->
  wp next_id Q st.
Proof.
  intros Hv Hok Hback Hspin. unfold wp, next_id. cbn [run_alone]. unfold run_id.
  destruct (nextId system_clock spin_fuel (readings st) (ids st)) as [[r ids'] n'] eqn:Hid.
  destruct r as [id | |]; cbn [run_alone mret M_ret throw fst snd].
  - by apply Hok.
  - apply Hback; [done |]. unfold nextId in Hid.
    destruct (Z.ltb_spec (system_clock (readings st)) (gLastTimestampMs (ids st))); [done |].
    repeat (case_match; simplify_eq).
  - by apply Hspin.
Qed.

(** A statement of the transaction. *)
Lemma wp_exec {A} L f d (Q : outcome A -> St -> Prop) st : view d st ->
  (forall st', same_db st st' -> (fault \/ exists now, is_now now /\ f now d = None) ->
     Q (Throw DbException) st') ->
  (forall now st' d' a, f now d = Some (d', a) -> is_now now -> view d' st' ->
     same_db st st' -> same_gen st st' -> Q (Ret a) st') ->
  wp (exec L f) Q st.
Proof.
  intros Hv Hbad Hok. unfold wp, exec. cbn [run_alone]. unfold run_exec. rewrite Hv.
  destruct (stmt_ok (stmts st)) eqn:Hst.
  - destruct (f (db_now (stmts st)) d) as [[d' a]|] eqn:Hf; cbn [run_alone answer mret M_ret throw fst snd].
    + by eapply (Hok (db_now (stmts st))); first [done | by eexists].
    + apply Hbad; [done |]. right. eexists. split; [by eexists | done].
  - apply Hbad; [done |]. left. right. left. by eexists.
Qed.

(** A query of the transaction. *)
Lemma wp_query {A} (g : Db -> option A) d (Q : outcome A -> St -> Prop) st : view d st ->
  (forall st', same_db st st' -> (fault \/ g d = None) -> Q (Throw DbException) st') ->
  (forall st' a, g d = Some a -> view d st' -> same_db st st' -> same_gen st st' -> Q (Ret a) st') ->
  wp (query g) Q st.
Proof.
  intros Hv Hbad Hok. apply (wp_exec [] (read g) d Q st Hv); unfold read.
  - intros st' Hs [Hf | (now & _ & Hn)]; apply Hbad; [done | by left | done |]. right.
    by destruct (g d).
  - intros now st' d' a Hg _. destruct (g d) as [x|] eqn:Hx; simpl in Hg; [| done].
    injection Hg as <- <-. by apply Hok.
Qed.

(** The same rules when the outcome is known. *)
Lemma wp_next_id_ok (Q : outcome string -> St -> Prop) st d id ids' n' : view d st ->
  nextId system_clock spin_fuel (readings st) (ids st) = (IdOk id, ids', n') ->
  (forall st', view d st' -> same_db st st' -> ids st' = ids' -> readings st' = n' -> Q (Ret id) st') ->
  wp next_id Q st.
Proof.
  intros Hv Hid H. unfold wp, next_id. cbn [run_alone]. unfold run_id. rewrite Hid. by apply H.
Qed.

Lemma wp_exec_total {A} L f d (Q : outcome A -> St -> Prop) st : no_fault -> view d st ->
  (forall now, is_Some (f now d)) ->
  (forall now st' d' a, f now d = Some (d', a) -> is_now now -> view d' st' ->
     same_db st st' -> same_gen st st' -> Q (Ret a) st') ->
  wp (exec L f) Q st.
Proof.
  intros Hnf Hv Htot Hok. eapply wp_exec; [exact Hv | | done].
  intros st' _ [Hf | (now & _ & Hn)]; [by destruct (no_fault_fault Hnf Hf) |].
  destruct (Htot now) as [x Hx]. congruence.
Qed.

Lemma wp_query_total {A} (g : Db -> option A) d (Q : outcome A -> St -> Prop) st a : no_fault -> view d st ->
  g d = Some a ->
  (forall st', view d st' -> same_db st st' -> same_gen st st' -> Q (Ret a) st') ->
  wp (query g) Q st.
Proof.
  intros Hnf Hv Hg Hok. eapply wp_query; [exact Hv | |].
  - intros st' _ [Hf | Hn]; [by destruct (no_fault_fault Hnf Hf) | congruence].
  - intros st' x Hx. replace x with a by congruence. apply Hok.
Qed.

(** A statement of another connection that may write; the reply can be lost. *)
Lemma wp_exec_client {A} L (f : Z -> Db -> option (Db * A)) (Q : outcome A -> St -> Prop) st :
  (forall st', same_db st st' -> tx st' = tx st ->
     (fault \/ exists now, is_now now /\ f now (committed st) = None) -> Q (Throw DbException) st') ->
  (forall now st' d' a, f now (committed st) = Some (d', a) -> is_now now -> committed st' = d' ->
     tx st' = tx st -> fault -> Q (Throw DbException) st') ->
  (forall now st' d' a, f now (committed st) = Some (d', a) -> is_now now -> committed st' = d' ->
     tx st' = tx st -> same_gen st st' -> Q (Ret a) st') ->
  wp (exec_client L f) Q st.
Proof.
  intros Hbad Hdoubt Hok. unfold wp, exec_client. cbn [run_alone]. unfold run_client.
  destruct (stmt_ok (stmts st)) eqn:Hst.
  - destruct (f (db_now (stmts st)) (committed st)) as [[d' a]|] eqn:Hf.
    + destruct (fate (stmts st)) eqn:Hfate; cbn [run_alone answer mret M_ret throw fst snd].
      * by eapply (Hok (db_now (stmts st))); first [done | by eexists].
      * apply Hbad; [done | done |]. left. right. right. exists (stmts st). congruence.
      * eapply (Hdoubt (db_now (stmts st))); [done | by eexists | done | done |].
        right. right. exists (stmts st). congruence.
    + apply Hbad; [done | done |]. right. eexists. split; [by eexists | done].
  - apply Hbad; [done | done |]. left. right. left. by eexists.
Qed.

(** A statement of another connection that only reads. *)
Lemma wp_exec_client_read {A} L (f : Z -> Db -> option (Db * A)) (Q : outcome A -> St -> Prop) st :
  (forall now d d' a, f now d = Some (d', a) -> d' = d) ->
  (forall st', same_db st st' -> tx st' = tx st ->
     (fault \/ exists now, is_now now /\ f now (committed st) = None) -> Q (Throw DbException) st') ->
  (forall now st' a, f now (committed st) = Some (committed st, a) -> is_now now ->
     tx st' = tx st -> same_db st st' -> same_gen st st' -> Q (Ret a) st') ->
  wp (exec_client L f) Q st.
Proof.
  intros Hread Hbad Hok. apply wp_exec_client; [done | |].
  - intros now st' d' a Hf Hnow Hc Ht Hflt. pose proof (Hread _ _ _ _ Hf) as ->.
    apply Hbad; [done | done | by left].
  - intros now st' d' a Hf Hnow Hc Ht Hg. pose proof (Hread _ _ _ _ Hf) as ->. by eapply Hok.
Qed.

(** The explicit commit: applied; refused; or applied with the reply lost. *)
Lemma wp_guard_commit d (Q : outcome unit -> St -> Prop) st : view d st ->
  (forall st', committed st' = d -> same_gen st st' -> Q (Ret tt) st') ->
  (forall st', same_db st st' -> fault -> Q (Throw DbException) st') ->
  (forall st', committed st' = d -> fault -> Q (Throw DbException) st') ->
  wp guard_commit Q st.
Proof.
  intros Hv Hok Hrefused Hdoubt. unfold wp, guard_commit. cbn [run_alone]. unfold run_commit. rewrite Hv.
  destruct (fate (stmts st)) eqn:Hf; cbn [run_alone raised mret M_ret throw fst snd].
  - by apply Hok.
  - apply Hrefused; [done |]. right. right. exists (stmts st). congruence.
  - apply Hdoubt; [done |]. right. right. exists (stmts st). congruence.
Qed.

(** The state in which a scope that ends with [r] leaves its thread. *)
Definition closed {A} (r : outcome A) (st : St) : St :=
  match r with Ret _ | Throw _ => set_tx NoTx st | _ => st end.

(** The scope of a guard: the body starts on a view equal to the committed
    database; the destructor does not touch what is committed. *)
Lemma wp_with_guard {A} (body : M A) (Q : outcome A -> St -> Prop) st :
  (forall st' e, same_db st st' -> fault -> (e = StdException \/ e = DbException) -> Q (Throw e) st') ->
  (forall st', view (committed st) st' -> same_db st st' -> same_gen st st' ->
     wp body (fun r st'' => Q r (closed r st'')) st') ->
  wp (with_guard body) Q st.
Proof.
  intros Hbad Hbody. unfold with_guard. apply wp_bind.
  unfold wp at 1, beginTransaction. cbn [run_alone]. unfold run_begin.
  destruct db_configured eqn:Hc; cbn [negb].
  - destruct (stmt_ok (stmts st)) eqn:Hst; cbn [run_alone raised mret M_ret throw fst snd].
    + apply wp_graft. eapply wp_mono; [by apply Hbody |]. by intros [].
    + apply Hbad; [done | | by right]. right. left. by eexists.
  - apply Hbad; [done | by left | by left].
Qed.

Lemma wp_guard_commit_total d (Q : outcome unit -> St -> Prop) st : no_fault -> view d st ->
  (forall st', committed st' = d -> same_gen st st' -> Q (Ret tt) st') -> wp guard_commit Q st.
Proof.
  intros Hnf Hv H. eapply wp_guard_commit; [exact Hv | done | |];
    intros st' _ Hf; by destruct (no_fault_fault Hnf Hf).
Qed.

Lemma wp_with_guard_total {A} (body : M A) (Q : outcome A -> St -> Prop) st : no_fault ->
  (forall st', view (committed st) st' -> same_db st st' -> same_gen st st' ->
     wp body (fun r st'' => Q r (closed r st'')) st') ->
  wp (with_guard body) Q st.
Proof.
  intros Hnf H. apply wp_with_guard; [| done].
  intros st' e _ Hf. by destruct (no_fault_fault Hnf Hf).
Qed.
End Rules.

(** Steps over a bind to the rule of its first command; solves the branches that
    only say that the committed database did not change. *)
Ltac wp_bind := apply wp_bind.

Ltac same_db_tac :=
  unfold same_db in *; cbn [committed set_tx closed] in *; congruence.

#[export] Hint Extern 2 (same_db _ _) => same_db_tac : trade.
