(* ===== verification/Daos.v ===== *)
(** * Daos: one module per class of [src/dao/]

    Every DAO method is one SQL statement (or two).  Each statement is a function
    of NOW() and of the database, [None] when the server rejects it (a value that
    its column cannot hold, a CHECK, a unique key); the method sends it through
    the transaction ([exec]) or through the default client ([exec_client]). *)

From S2P Require Import Prelude MoneyUtil IdGenerator BeijingTime Result Models Database.

(** A statement that needs the condition [b] to be accepted. *)
Definition require (b : bool) : option unit := if b then Some tt else None.

(** BIGINT UNSIGNED, given a [long long]. *)
Definition ubigint_ok (z : Z) : bool := 0 <=? z.

Section Daos.
Context {D : MySql}.

(** ** ProductDao *)

Definition deductStock_row (quantity : Z) (r : ProductRow) : option ProductRow :=
  let stock := pr_stock r - quantity in
  _ ← require (uint_ok stock && uint_ok (pr_version r + 1));
  Some (mkProductRow (pr_id r) (pr_product_no r) (pr_name r) (pr_price r) stock
          (pr_version r + 1) (pr_status r)).

Definition deductStock_where (productId quantity : Z) (r : ProductRow) : bool :=
  (pr_id r =? wrap64 productId) && (quantity <=? pr_stock r) && (pr_status r =? 1).

Definition deductStock_sql (productId quantity now : Z) (d : Db) : option (Db * nat) :=
  '(t, n) ← sql_update (deductStock_where productId quantity) (deductStock_row quantity) (t_product d);
  Some (set_product t d, n).

(** [ProductDao::deductStock], the affected rows. *)
Definition deductStock (productId quantity : Z) : M nat :=
  exec [KProduct (wrap64 productId)] (deductStock_sql productId quantity).

Definition product_of_row (r : ProductRow) : Product :=
  mkProduct (pr_id r) (pr_product_no r) (pr_name r) (pr_price r) (pr_stock r) (pr_status r).

Definition getById_sql (productId : Z) (d : Db) : option (option Product) :=
  Some (product_of_row <$> head (sql_select (fun r => pr_id r =? wrap64 productId) (t_product d))).

(** [ProductDao::getById]. *)
Definition getById (productId : Z) : M (option Product) := query (getById_sql productId).

(** ** OrderDao *)

(** The row that INSERT INTO t_order stores. *)
Definition order_row (o : Order) : option OrderRow :=
  unit_price ← cast_decimal (fenToYuanString (o_unitPriceFen o));
  total ← cast_decimal (fenToYuanString (o_totalAmountFen o));
  expire ← parse_datetime (o_expireTime o);
  _ ← require (varchar_ok 32 (o_orderNo o) && varchar_ok 64 (o_requestId o)
               && ubigint_ok (wrap64 (o_userId o)) && ubigint_ok (wrap64 (o_productId o))
               && uint_ok (o_quantity o)
               && (0 <? o_quantity o)   (* chk_order_quantity *)
               && (0 <=? total));       (* chk_order_amount *)
  Some (mkOrderRow (o_orderNo o) (o_requestId o) (wrap64 (o_userId o)) (wrap64 (o_productId o))
          (o_quantity o) unit_price total (o_status o) expire None).

(** uk_order_no, uk_request_id. *)
Definition order_conflict (n r : OrderRow) : bool :=
  sql_eq (or_order_no r) (or_order_no n) || sql_eq (or_request_id r) (or_request_id n).

Definition order_insert_sql (o : Order) (now : Z) (d : Db) : option (Db * unit) :=
  r ← order_row o;
  t ← sql_insert (order_conflict r) r (t_order d);
  Some (set_order t d, tt).

(** [OrderDao::insert]. *)
Definition order_insert (o : Order) : M unit :=
  exec [KOrderNo (weight (o_orderNo o)); KOrderRequest (weight (o_requestId o))] (order_insert_sql o).

Definition order_of_row (r : OrderRow) : Order :=
  mkOrder (or_order_no r) (or_request_id r) (u64 (or_user_id r)) (u64 (or_product_id r))
    (or_quantity r) (or_unit_price r) (or_total_amount r) (or_status r)
    (format_datetime (or_expire_time r))
    (match or_paid_at r with Some t => format_datetime t | None => "" end).

Definition getByOrderNo_sql (orderNo : string) (d : Db) : option (option Order) :=
  Some (order_of_row <$> head (sql_select (fun r => sql_eq (or_order_no r) orderNo) (t_order d))).

(** [OrderDao::getByOrderNo]. *)
Definition getByOrderNo (orderNo : string) : M (option Order) := query (getByOrderNo_sql orderNo).

Definition paid_row (now : Z) (r : OrderRow) : OrderRow :=
  mkOrderRow (or_order_no r) (or_request_id r) (or_user_id r) (or_product_id r) (or_quantity r)
    (or_unit_price r) (or_total_amount r) kPaid (or_expire_time r) (Some now).

Definition markPaid_where (orderNo : string) (r : OrderRow) : bool :=
  sql_eq (or_order_no r) orderNo && bool_decide (or_status r = kPendingPayment).

Definition markPaid_sql (orderNo : string) (now : Z) (d : Db) : option (Db * nat) :=
  '(t, n) ← sql_update (markPaid_where orderNo) (fun r => Some (paid_row now r)) (t_order d);
  Some (set_order t d, n).

(** [OrderDao::markPaid], the affected rows. *)
Definition markPaid (orderNo : string) : M nat :=
  exec [KOrderNo (weight orderNo)] (markPaid_sql orderNo).

(** ** AccountDao *)

Definition account_of_row (r : AccountRow) : Account :=
  mkAccount (ar_account_no r) (u64 (ar_user_id r)) (ar_balance r) (ar_frozen_amount r) (ar_status r).

Definition getByUserId_sql (userId : Z) (d : Db) : option (option Account) :=
  Some (account_of_row <$> head (sql_select (fun r => ar_user_id r =? wrap64 userId) (t_account d))).

(** [AccountDao::getByUserId]. *)
Definition getByUserId (userId : Z) : M (option Account) := query (getByUserId_sql userId).

Definition deduct_row (amount : Z) (r : AccountRow) : option AccountRow :=
  let balance := ar_balance r - amount in
  _ ← require (decimal_ok balance && uint_ok (ar_version r + 1)
               && (0 <=? balance));  (* chk_account_balance *)
  Some (mkAccountRow (ar_account_no r) (ar_user_id r) balance (ar_frozen_amount r)
          (ar_version r + 1) (ar_status r)).

Definition deduct_where (accountNo : string) (amount : Z) (r : AccountRow) : bool :=
  sql_eq (ar_account_no r) accountNo && (ar_status r =? 0) && (amount <=? ar_balance r).

Definition deduct_sql (accountNo : string) (amountFen now : Z) (d : Db) : option (Db * nat) :=
  amount ← cast_decimal (fenToYuanString amountFen);
  '(t, n) ← sql_update (deduct_where accountNo amount) (deduct_row amount) (t_account d);
  Some (set_account t d, n).

(** [AccountDao::deduct], the affected rows. *)
Definition deduct (accountNo : string) (amountFen : Z) : M nat :=
  exec [KAccount (weight accountNo)] (deduct_sql accountNo amountFen).

Definition flow_row (f : AccountFlow) : option FlowRow :=
  amount ← cast_decimal (fenToYuanString (f_amountFen f));
  before ← cast_decimal (fenToYuanString (f_beforeFen f));
  after ← cast_decimal (fenToYuanString (f_afterFen f));
  _ ← require (varchar_ok 32 (f_accountNo f) && varchar_ok 32 (f_orderNo f)
               && varchar_ok 64 (f_requestId f)
               && (0 <? amount));  (* chk_flow_amount *)
  Some (mkFlowRow (f_accountNo f) (f_bizType f) (f_direction f) amount before after
          (f_orderNo f) (f_requestId f)).

(** uk_request_biz. *)
Definition flow_conflict (n r : FlowRow) : bool :=
  sql_eq (fr_request_id r) (fr_request_id n) && bool_decide (fr_biz_type r = fr_biz_type n).

Definition insertFlow_sql (f : AccountFlow) (now : Z) (d : Db) : option (Db * unit) :=
  r ← flow_row f;
  t ← sql_insert (flow_conflict r) r (t_account_flow d);
  Some (set_account_flow t d, tt).

(** [AccountDao::insertFlow]. *)
Definition insertFlow (f : AccountFlow) : M unit :=
  exec [KFlow (weight (f_requestId f)) (f_bizType f)] (insertFlow_sql f).

(** ** IdempotentDao *)

Inductive IdempotentOutcome := kAcquired | kProcessing | kCachedSuccess (cachedResponseBody : string).

Definition idempotent_row (i : Idempotent) : option IdempotentRow :=
  expire ← parse_datetime (i_expireTime i);
  _ ← require (varchar_ok 64 (i_requestId i) && ubigint_ok (wrap64 (i_userId i))
               && varchar_ok 128 (i_apiPath i) && varchar_ok 64 (i_requestHash i));
  Some (mkIdempotentRow (i_requestId i) (wrap64 (i_userId i)) (i_apiPath i) (i_requestHash i)
          None kIdemProcessing expire).

Definition acquire_sql (i : Idempotent) (now : Z) (d : Db) : option (Db * nat) :=
  r ← idempotent_row i;
  let '(t, n) := sql_insert_noop (fun x => sql_eq (id_request_id x) (id_request_id r)) r (t_idempotent d) in
  Some (set_idempotent t d, n).

Definition find_idempotent (requestId : string) (d : Db) : option (option IdempotentRow) :=
  Some (head (sql_select (fun x => sql_eq (id_request_id x) requestId) (t_idempotent d))).

(** [IdempotentDao::tryAcquire]. *)
Definition tryAcquire (i : Idempotent) : M IdempotentOutcome :=
  n ← exec [KIdempotent (weight (i_requestId i))] (acquire_sql i);
  if (n =? 1)%nat then mret kAcquired
  else
    found ← query (find_idempotent (i_requestId i));
    match found with
    | None => mret kProcessing
    | Some row =>
        if bool_decide (id_status row = kIdemSuccess)
        then mret (kCachedSuccess (default "" (id_response_body row)))
        else mret kProcessing
    end.

Definition success_row (body : string) (r : IdempotentRow) : option IdempotentRow :=
  _ ← require (text_ok body);
  Some (mkIdempotentRow (id_request_id r) (id_user_id r) (id_api_path r) (id_request_hash r)
          (Some body) kIdemSuccess (id_expire_time r)).

Definition idem_markSuccess_sql (requestId body : string) (now : Z) (d : Db) : option (Db * unit) :=
  '(t, _) ← sql_update
    (fun r => sql_eq (id_request_id r) requestId && bool_decide (id_status r = kIdemProcessing))
    (success_row body) (t_idempotent d);
  Some (set_idempotent t d, tt).

(** [IdempotentDao::markSuccess]. *)
Definition idem_markSuccess (requestId body : string) : M unit :=
  exec [KIdempotent (weight requestId)] (idem_markSuccess_sql requestId body).

(** ** PaymentDao *)

Inductive PaymentInsertOutcome := kInserted | kDuplicate.

Definition payment_row (p : Payment) : option PaymentRow :=
  amount ← cast_decimal (fenToYuanString (pay_amountFen p));
  callback ← parse_datetime (pay_callbackTime p);
  _ ← require (varchar_ok 32 (pay_paymentNo p) && varchar_ok 32 (pay_orderNo p)
               && varchar_ok 16 (pay_channel p) && varchar_ok 64 (pay_channelTradeNo p)
               && text_ok (pay_rawBody p));
  Some (mkPaymentRow (pay_paymentNo p) (pay_orderNo p) (pay_channel p) (pay_channelTradeNo p)
          amount kPaySuccess callback (pay_rawBody p)).

(** uk_payment_no, uk_channel_trade. *)
Definition payment_conflict (n r : PaymentRow) : bool :=
  sql_eq (py_payment_no r) (py_payment_no n)
  || (sql_eq (py_channel r) (py_channel n) && sql_eq (py_channel_trade_no r) (py_channel_trade_no n)).

Definition payment_insert_sql (p : Payment) (now : Z) (d : Db) : option (Db * nat) :=
  r ← payment_row p;
  let '(t, n) := sql_insert_noop (payment_conflict r) r (t_payment d) in
  Some (set_payment t d, n).

(** [PaymentDao::insertWithDedup]. *)
Definition payment_insertWithDedup (p : Payment) : M PaymentInsertOutcome :=
  n ← exec [KPaymentNo (weight (pay_paymentNo p));
            KTrade (weight (pay_channel p)) (weight (pay_channelTradeNo p))] (payment_insert_sql p);
  mret (if (n =? 1)%nat then kInserted else kDuplicate).

(** The columns that the SELECT names; the others keep their defaults. *)
Definition payment_of_row (r : PaymentRow) : Payment :=
  mkPayment (py_payment_no r) (py_order_no r) (py_channel r) (py_channel_trade_no r) (py_amount r)
    (py_status r) "" "".

Definition getByChannelTradeNo_sql (channel tradeNo : string) (d : Db) : option (option Payment) :=
  Some (payment_of_row <$>
    head (sql_select (fun r => sql_eq (py_channel r) channel && sql_eq (py_channel_trade_no r) tradeNo)
            (t_payment d))).

(** [PaymentDao::getByChannelTradeNo]. *)
Definition getByChannelTradeNo (channel tradeNo : string) : M (option Payment) :=
  query (getByChannelTradeNo_sql channel tradeNo).

(** ** LocalMessageDao *)

Definition message_row (m : LocalMessage) (now : Z) : option MessageRow :=
  _ ← require (varchar_ok 64 (m_messageId m) && varchar_ok 32 (m_bizType m) && varchar_ok 64 (m_bizId m)
               && varchar_ok 128 (m_exchange m) && varchar_ok 128 (m_routingKey m)
               && text_ok (m_payload m));
  Some (mkMessageRow (m_messageId m) (m_bizType m) (m_bizId m) (m_exchange m) (m_routingKey m)
          (m_payload m) kMsgPending 0 now).

Definition message_insert_sql (m : LocalMessage) (now : Z) (d : Db) : option (Db * unit) :=
  r ← message_row m now;
  t ← sql_insert (fun x => sql_eq (mr_message_id x) (mr_message_id r)) r (t_local_message d);
  Some (set_local_message t d, tt).

(** [LocalMessageDao::insert]. *)
Definition message_insert (m : LocalMessage) : M unit :=
  exec [KMessage (weight (m_messageId m))] (message_insert_sql m).

(** The columns that the SELECT names; the others keep their defaults. *)
Definition message_of_row (r : MessageRow) : LocalMessage :=
  mkLocalMessage (mr_message_id r) (mr_biz_type r) (mr_biz_id r) (mr_exchange r) (mr_routing_key r)
    (mr_payload r) kMsgPending (mr_retry_count r) "".

Definition message_due (now : Z) (r : MessageRow) : bool :=
  bool_decide (mr_status r = kMsgPending) && (mr_next_retry_time r <=? now).

Definition scanPending_sql (limit : nat) (now : Z) (d : Db) : option (Db * list LocalMessage) :=
  Some (d, map message_of_row (take limit (sql_select (message_due now) (t_local_message d)))).

(** [LocalMessageDao::scanPending]. *)
Definition scanPending (limit : nat) : M (list LocalMessage) := exec_client [] (scanPending_sql limit).

Definition with_status (s : MessageStatus) (r : MessageRow) : MessageRow :=
  mkMessageRow (mr_message_id r) (mr_biz_type r) (mr_biz_id r) (mr_exchange r) (mr_routing_key r)
    (mr_payload r) s (mr_retry_count r) (mr_next_retry_time r).

Definition with_retry (count next : Z) (r : MessageRow) : option MessageRow :=
  _ ← require (uint_ok count);
  Some (mkMessageRow (mr_message_id r) (mr_biz_type r) (mr_biz_id r) (mr_exchange r)
          (mr_routing_key r) (mr_payload r) (mr_status r) count next).

Definition update_messages (p : MessageRow -> bool) (f : MessageRow -> option MessageRow) (d : Db)
  : option (Db * unit) :=
  '(t, _) ← sql_update p f (t_local_message d);
  Some (set_local_message t d, tt).

(** [LocalMessageDao::markAcked]. *)
Definition markAcked_sql (messageId : string) (now : Z) : Db -> option (Db * unit) :=
  update_messages (fun r => sql_eq (mr_message_id r) messageId && bool_decide (mr_status r = kMsgPending))
    (fun r => Some (with_status kMsgAcked r)).
Definition markAcked (messageId : string) : M unit :=
  exec_client [KMessage (weight messageId)] (markAcked_sql messageId).

(** [LocalMessageDao::markFailed]. *)
Definition msg_markFailed_sql (messageId : string) (retryCount backoffSeconds now : Z)
  : Db -> option (Db * unit) :=
  update_messages (fun r => sql_eq (mr_message_id r) messageId)
    (with_retry retryCount (now + backoffSeconds)).
Definition msg_markFailed (messageId : string) (retryCount backoffSeconds : Z) : M unit :=
  exec_client [KMessage (weight messageId)] (msg_markFailed_sql messageId retryCount backoffSeconds).

(** [LocalMessageDao::markGiveUp]. *)
Definition markGiveUp_sql (messageId : string) (now : Z) : Db -> option (Db * unit) :=
  update_messages (fun r => sql_eq (mr_message_id r) messageId)
    (fun r => Some (with_status kMsgFailed r)).
Definition markGiveUp (messageId : string) : M unit :=
  exec_client [KMessage (weight messageId)] (markGiveUp_sql messageId).

(** ** NotifyDao *)

Definition notify_row (notifyNo orderNo targetUrl messageId : string) : option NotifyRow :=
  _ ← require (varchar_ok 32 notifyNo && varchar_ok 32 orderNo && varchar_ok 255 targetUrl
               && varchar_ok 64 messageId);
  Some (mkNotifyRow notifyNo orderNo targetUrl None 0 0 messageId).

(** uk_notify_no, uk_message_id. *)
Definition notify_conflict (n r : NotifyRow) : bool :=
  sql_eq (nr_notify_no r) (nr_notify_no n) || sql_eq (nr_message_id r) (nr_message_id n).

Definition notify_insert_sql (notifyNo orderNo targetUrl messageId : string) (now : Z) (d : Db)
  : option (Db * nat) :=
  r ← notify_row notifyNo orderNo targetUrl messageId;
  let '(t, n) := sql_insert_noop (notify_conflict r) r (t_notify_record d) in
  Some (set_notify_record t d, n).

(** A result has its number when it says [kInserted]. *)
Inductive NotifyInsertResult := kNotifyInserted (notifyNo : string) | kNotifyDuplicate.

(** [NotifyDao::insertWithDedup]. *)
Definition notify_insertWithDedup (messageId orderNo targetUrl : string) : M NotifyInsertResult :=
  notifyNo ← next_id;
  n ← exec_client [KNotifyNo (weight notifyNo); KNotifyMessage (weight messageId)]
         (notify_insert_sql notifyNo orderNo targetUrl messageId);
  mret (if (n =? 1)%nat then kNotifyInserted notifyNo else kNotifyDuplicate).

Definition update_notify (notifyNo : string) (f : NotifyRow -> option NotifyRow) (d : Db)
  : option (Db * unit) :=
  '(t, _) ← sql_update (fun r => sql_eq (nr_notify_no r) notifyNo) f (t_notify_record d);
  Some (set_notify_record t d, tt).

Definition notify_done (status retryCount : Z) (body : string) (r : NotifyRow) : option NotifyRow :=
  _ ← require (text_ok body && uint_ok retryCount);
  Some (mkNotifyRow (nr_notify_no r) (nr_order_no r) (nr_target_url r) (Some body) status retryCount
          (nr_message_id r)).

(** [NotifyDao::markSuccess]. *)
Definition notify_markSuccess (notifyNo body : string) : M unit :=
  exec_client [KNotifyNo (weight notifyNo)]
    (fun _ => update_notify notifyNo (fun r => notify_done 1 (nr_retry_count r) body r)).

(** [NotifyDao::markFailed]. *)
Definition notify_markFailed (notifyNo : string) (retryCount : Z) (body : string) : M unit :=
  exec_client [KNotifyNo (weight notifyNo)]
    (fun _ => update_notify notifyNo (notify_done 2 retryCount body)).

(** ** ReconcileDao *)

Definition batch_row (b : ReconcileBatch) : option BatchRow :=
  date ← parse_date (b_billDate b);
  total ← cast_decimal (fenToYuanString (b_totalAmountFen b));
  channel ← cast_decimal (fenToYuanString (b_channelAmountFen b));
  _ ← require (varchar_ok 32 (b_batchNo b) && varchar_ok 16 (b_channel b) && uint_ok (b_totalCount b)
               && uint_ok (b_channelCount b) && uint_ok (b_diffCount b));
  Some (mkBatchRow (b_batchNo b) date (b_channel b) (b_totalCount b) total (b_channelCount b)
          channel (b_diffCount b) (b_status b)).

(** uk_batch_no, uk_date_channel. *)
Definition batch_conflict (n r : BatchRow) : bool :=
  sql_eq (br_batch_no r) (br_batch_no n)
  || ((br_bill_date r =? br_bill_date n) && sql_eq (br_channel r) (br_channel n)).

Definition insertBatch_sql (b : ReconcileBatch) (now : Z) (d : Db) : option (Db * unit) :=
  r ← batch_row b;
  t ← sql_insert (batch_conflict r) r (t_reconcile_batch d);
  Some (set_reconcile_batch t d, tt).

Definition batch_locks (b : ReconcileBatch) : list row_key :=
  KBatchNo (weight (b_batchNo b))
  :: match parse_date (b_billDate b) with Some day => [KBatchDay day (weight (b_channel b))] | None => [] end.

(** [ReconcileDao::insertBatch]. *)
Definition insertBatch (b : ReconcileBatch) : M unit := exec (batch_locks b) (insertBatch_sql b).

Definition diff_row (id : Z) (x : ReconcileDiff) : option DiffRow :=
  local ← cast_decimal (fenToYuanString (d_localAmountFen x));
  channel ← cast_decimal (fenToYuanString (d_channelAmountFen x));
  diff ← cast_decimal (fenToYuanString (d_diffAmountFen x));
  _ ← require (varchar_ok 32 (d_batchNo x) && varchar_ok 32 (d_orderNo x)
               && varchar_ok 64 (d_channelTradeNo x));
  Some (mkDiffRow id (d_batchNo x) (d_orderNo x) (d_channelTradeNo x) local channel (d_diffType x)
          diff kHandlePending None None).

Definition insertDiff_sql (x : ReconcileDiff) (now : Z) (d : Db) : option (Db * unit) :=
  r ← diff_row (t_reconcile_diff_auto d) x;
  t ← sql_insert (fun y => dr_id y =? dr_id r) r (t_reconcile_diff d);
  Some (set_reconcile_diff t (t_reconcile_diff_auto d + 1) d, tt).

(** [ReconcileDao::insertDiff]. *)
Definition insertDiff (x : ReconcileDiff) : M unit := exec [KDiffAuto] (insertDiff_sql x).

Definition hasBatch_sql (billDate channel : string) (d : Db) : option bool :=
  date ← parse_date billDate;
  Some (existsb (fun r => (br_bill_date r =? date) && sql_eq (br_channel r) channel)
          (t_reconcile_batch d)).

(** [ReconcileDao::hasBatchForDate]: on the default client, not in the transaction. *)
Definition hasBatchForDate (billDate channel : string) : M bool :=
  exec_client [] (read (hasBatch_sql billDate channel)).

Definition diff_of_row (with_handled_at : bool) (r : DiffRow) : ReconcileDiff :=
  mkReconcileDiff (dr_batch_no r) (dr_order_no r) (dr_channel_trade_no r) (dr_local_amount r)
    (dr_channel_amount r) (dr_diff_type r) (dr_diff_amount r) (dr_handle_status r)
    (default "" (dr_handle_remark r))
    (if with_handled_at then match dr_handled_at r with Some t => format_datetime t | None => "" end
     else "").

Definition listDiffs_sql (batchNo : string) (handleStatus : Z) (limit : nat) (d : Db)
  : option (list ReconcileDiff) :=
  Some (map (diff_of_row true) (take limit (sql_select
    (fun r => sql_eq (dr_batch_no r) batchNo
              && (if 0 <=? handleStatus then handle_status_int (dr_handle_status r) =? handleStatus
                  else true)) (t_reconcile_diff d)))).

(** [ReconcileDao::listDiffs]. *)
Definition dao_listDiffs (batchNo : string) (handleStatus : Z) (limit : nat) : M (list ReconcileDiff) :=
  exec_client [] (read (listDiffs_sql batchNo handleStatus limit)).

Definition getDiffById_sql (id : Z) (d : Db) : option (option ReconcileDiff) :=
  Some (diff_of_row false <$> head (sql_select (fun r => dr_id r =? id) (t_reconcile_diff d))).

(** [ReconcileDao::getDiffById]. *)
Definition getDiffById (id : Z) : M (option ReconcileDiff) := exec_client [] (read (getDiffById_sql id)).

Definition handled_row (s : HandleStatus) (remark : string) (now : Z) (r : DiffRow) : option DiffRow :=
  _ ← require (varchar_ok 255 remark);
  Some (mkDiffRow (dr_id r) (dr_batch_no r) (dr_order_no r) (dr_channel_trade_no r)
          (dr_local_amount r) (dr_channel_amount r) (dr_diff_type r) (dr_diff_amount r) s
          (Some remark) (Some now)).

Definition handleDiff_where (id : Z) (r : DiffRow) : bool :=
  (dr_id r =? id) && bool_decide (dr_handle_status r = kHandlePending).

Definition handleDiff_sql (id : Z) (s : HandleStatus) (remark : string) (now : Z) (d : Db)
  : option (Db * nat) :=
  '(t, n) ← sql_update (handleDiff_where id) (handled_row s remark now) (t_reconcile_diff d);
  Some (set_reconcile_diff t (t_reconcile_diff_auto d) d, n).

(** [ReconcileDao::handleDiff], the affected rows; the service passes the status
    as the [int] of an enumerator. *)
Definition dao_handleDiff (id : Z) (s : HandleStatus) (remark : string) : M nat :=
  exec_client [KDiff id] (handleDiff_sql id s remark).
End Daos.

(** ** What the statements do on keyed tables *)

Lemma require_Some b x : require b = Some x -> b = true.
Proof. by destruct b. Qed.

Lemma set_product_id d : set_product (t_product d) d = d. Proof. by destruct d. Qed.
Lemma set_order_id d : set_order (t_order d) d = d. Proof. by destruct d. Qed.
Lemma set_account_id d : set_account (t_account d) d = d. Proof. by destruct d. Qed.
Lemma set_idempotent_id d : set_idempotent (t_idempotent d) d = d. Proof. by destruct d. Qed.
Lemma set_payment_id d : set_payment (t_payment d) d = d. Proof. by destruct d. Qed.

Ltac simplify_opt :=
  repeat match goal with
  | H : _ ≫= _ = Some _ |- _ => apply bind_Some in H as (? & ? & H)
  | H : require _ = Some _ |- _ => apply require_Some in H
  | H : Some _ = Some _ |- _ => injection H as H; subst
  | x : unit |- _ => destruct x
  end.

Lemma read_inv {A} (f : Db -> option A) now d d' a : read f now d = Some (d', a) -> d' = d /\ f d = Some a.
Proof. unfold read. destruct (f d); simpl; [by intros [= <- <-] | done]. Qed.

Section DaoLemmas.
Context {D : MySql}.

(** The row after a deduction. *)
Definition deducted (quantity : Z) (p : ProductRow) : ProductRow :=
  mkProductRow (pr_id p) (pr_product_no p) (pr_name p) (pr_price p) (pr_stock p - quantity)
    (pr_version p + 1) (pr_status p).

Lemma deductStock_row_inv q p p' : deductStock_row q p = Some p' ->
  p' = deducted q p /\ uint_ok (pr_stock p - q) = true.
Proof.
  unfold deductStock_row. intros H. simplify_opt. split; [done |].
  match goal with Hb : _ && _ = true |- _ => by apply andb_true_iff in Hb as [? _] end.
Qed.

Lemma deductStock_where_iff pid q p : deductStock_where pid q p = true <->
  pr_id p = wrap64 pid /\ q <= pr_stock p /\ pr_status p = 1.
Proof. unfold deductStock_where. rewrite !andb_true_iff, !Z.eqb_eq, Z.leb_le. tauto. Qed.

Lemma deductStock_inv pid q now d d' n : NoDup (map pr_id (t_product d)) ->
  deductStock_sql pid q now d = Some (d', n) ->
  (n = 0%nat /\ d' = d /\ existsb (deductStock_where pid q) (t_product d) = false)
  \/ (n = 1%nat /\ exists t1 p t2, t_product d = t1 ++ p :: t2
       /\ pr_id p = wrap64 pid /\ q <= pr_stock p /\ pr_status p = 1
       /\ uint_ok (pr_stock p - q) = true
       /\ d' = set_product (t1 ++ deducted q p :: t2) d).
Proof.
  intros Hnd. unfold deductStock_sql.
  destruct (sql_update_key pr_id (wrap64 pid) (deductStock_where pid q) (deductStock_row q) (t_product d))
    as [[Hn ->] | (t1 & p & t2 & Ht & Hp & _ & _ & ->)].
  - intros r Hr. by apply deductStock_where_iff in Hr as (? & _).
  - done.
  - intros [= <- <-]. left. by rewrite set_product_id.
  - intros H. right. destruct (deductStock_row q p) as [p'|] eqn:Hrow; [| done].
    apply deductStock_row_inv in Hrow as [-> Hok]. injection H as <- <-.
    apply deductStock_where_iff in Hp as (? & ? & ?). split; [done |]. by exists t1, p, t2.
Qed.

(** The product that [getById] finds. *)
Lemma getById_cases pid d : NoDup (map pr_id (t_product d)) ->
  (getById_sql pid d = Some None /\ existsb (fun r => pr_id r =? wrap64 pid) (t_product d) = false)
  \/ exists t1 p t2, t_product d = t1 ++ p :: t2 /\ pr_id p = wrap64 pid
       /\ getById_sql pid d = Some (Some (product_of_row p)).
Proof.
  intros Hnd. unfold getById_sql.
  destruct (sql_head_key pr_id (wrap64 pid) (fun r => pr_id r =? wrap64 pid) (t_product d))
    as [[Hn ->] | (t1 & p & t2 & Ht & Hp & ->)]; [by intros r ?%Z.eqb_eq | done | by left |].
  right. exists t1, p, t2. by apply Z.eqb_eq in Hp.
Qed.

(** A split of a keyed table at a key is unique. *)
Lemma split_unique {R K : Type} (key : R -> K) t1 r t2 t1' r' t2' :
  NoDup (map key (t1 ++ r :: t2)) -> t1 ++ r :: t2 = t1' ++ r' :: t2' -> key r = key r' ->
  t1 = t1' /\ r = r' /\ t2 = t2'.
Proof.
  revert t1'. induction t1 as [|x t1 IH]; intros [|x' t1'] Hnd Heq Hk; simpl in *; simplify_eq.
  - done.
  - exfalso. apply NoDup_cons in Hnd as [Hx _]. apply Hx. rewrite Hk, List.map_app. apply elem_of_app; right; left.
  - exfalso. apply NoDup_cons in Hnd as [Hx _]. apply Hx.
    rewrite <- Hk, List.map_app. apply elem_of_app; right; left.
  - apply NoDup_cons in Hnd as [_ Hnd]. by destruct (IH t1' Hnd) as (-> & -> & ->).
Qed.

Lemma acquire_inv i now d d' n : acquire_sql i now d = Some (d', n) ->
  exists row, idempotent_row i = Some row /\
  ((n = 0%nat /\ d' = d /\ existsb (fun x => sql_eq (id_request_id x) (i_requestId i)) (t_idempotent d) = true)
   \/ (n = 1%nat /\ d' = set_idempotent (t_idempotent d ++ [row]) d
       /\ existsb (fun x => sql_eq (id_request_id x) (i_requestId i)) (t_idempotent d) = false)).
Proof.
  unfold acquire_sql. intros H. apply bind_Some in H as (row & Hrow & H). exists row.
  split; [done |].
  assert (Hid : id_request_id row = i_requestId i).
  { unfold idempotent_row in Hrow. by simplify_opt. }
  rewrite Hid in H. destruct (sql_insert_noop _ row (t_idempotent d)) as [t m] eqn:Hi.
  injection H as <- <-.
  destruct (sql_insert_noop_inv _ _ _ _ _ Hi) as [(? & -> & ->) | (? & -> & ->)]; [left | right].
  - by rewrite set_idempotent_id.
  - done.
Qed.

Lemma idempotent_row_inv i row : idempotent_row i = Some row ->
  id_request_id row = i_requestId i /\ id_status row = kIdemProcessing.
Proof. unfold idempotent_row. intros H. by simplify_opt. Qed.

Lemma order_row_inv o r : order_row o = Some r ->
  or_order_no r = o_orderNo o /\ or_request_id r = o_requestId o /\ or_status r = o_status o
  /\ or_user_id r = wrap64 (o_userId o) /\ or_product_id r = wrap64 (o_productId o)
  /\ or_quantity r = o_quantity o /\ or_paid_at r = None
  /\ cast_decimal (fenToYuanString (o_unitPriceFen o)) = Some (or_unit_price r)
  /\ cast_decimal (fenToYuanString (o_totalAmountFen o)) = Some (or_total_amount r).
Proof. unfold order_row. intros H. simplify_opt. done. Qed.

Lemma order_insert_inv o now d d' u : order_insert_sql o now d = Some (d', u) ->
  exists r, order_row o = Some r /\ existsb (order_conflict r) (t_order d) = false
    /\ d' = set_order (t_order d ++ [r]) d.
Proof.
  unfold order_insert_sql. intros H. apply bind_Some in H as (r & Hr & H).
  apply bind_Some in H as (t & Ht & H). injection H as <- <-. exists r.
  apply sql_insert_inv in Ht as [-> Hc]. done.
Qed.

(** The record of a request that the same transaction has just acquired. *)
Lemma idem_markSuccess_inv rid body now d d' u t row :
  t_idempotent d = t ++ [row] -> id_request_id row = rid -> id_status row = kIdemProcessing ->
  existsb (fun x => sql_eq (id_request_id x) rid) t = false ->
  idem_markSuccess_sql rid body now d = Some (d', u) ->
  exists row', success_row body row = Some row' /\ d' = set_idempotent (t ++ [row']) d.
Proof.
  intros Ht Hrid Hst Hn. unfold idem_markSuccess_sql, sql_update. rewrite Ht.
  rewrite sql_set_split.
  - destruct (success_row body row) as [row'|]; [| done]. intros [= <- <-]. by exists row'.
  - rewrite Hrid, sql_eq_refl, Hst. done.
  - apply existsb_false. apply existsb_false in Hn. eapply Forall_impl; [exact Hn |].
    intros x Hx. by rewrite Hx.
  - done.
Qed.

(** The order that [getByOrderNo] finds. *)
Lemma getByOrderNo_cases no d : NoDup (map (fun o => weight (or_order_no o)) (t_order d)) ->
  (getByOrderNo_sql no d = Some None /\ existsb (fun r => sql_eq (or_order_no r) no) (t_order d) = false)
  \/ exists o1 o o2, t_order d = o1 ++ o :: o2 /\ sql_eq (or_order_no o) no = true
       /\ getByOrderNo_sql no d = Some (Some (order_of_row o)).
Proof.
  intros Hnd. unfold getByOrderNo_sql.
  destruct (sql_head_key (fun o => weight (or_order_no o)) (weight no)
    (fun r => sql_eq (or_order_no r) no) (t_order d)) as [[Hn ->] | (o1 & o & o2 & Ht & Hp & ->)];
    [by intros r ?%sql_eq_iff | done | by left |].
  right. by exists o1, o, o2.
Qed.

Lemma markPaid_inv no now d d' n : NoDup (map (fun o => weight (or_order_no o)) (t_order d)) ->
  markPaid_sql no now d = Some (d', n) ->
  (n = 0%nat /\ d' = d /\ existsb (markPaid_where no) (t_order d) = false)
  \/ (n = 1%nat /\ exists o1 o o2, t_order d = o1 ++ o :: o2 /\ sql_eq (or_order_no o) no = true
       /\ or_status o = kPendingPayment /\ d' = set_order (o1 ++ paid_row now o :: o2) d).
Proof.
  intros Hnd. unfold markPaid_sql.
  destruct (sql_update_key (fun o => weight (or_order_no o)) (weight no) (markPaid_where no)
    (fun r => Some (paid_row now r)) (t_order d)) as [[Hn ->] | (o1 & o & o2 & Ht & Hp & _ & _ & ->)].
  - unfold markPaid_where. intros r Hr. apply andb_true_iff in Hr as [Hr _]. by apply sql_eq_iff.
  - done.
  - intros [= <- <-]. left. by rewrite set_order_id.
  - intros [= <- <-]. right. split; [done |]. exists o1, o, o2.
    unfold markPaid_where in Hp. by apply andb_true_iff in Hp as [? ?%bool_decide_eq_true].
Qed.

(** The account that [getByUserId] finds. *)
Lemma getByUserId_cases uid d : NoDup (map ar_user_id (t_account d)) ->
  (getByUserId_sql uid d = Some None /\ existsb (fun r => ar_user_id r =? wrap64 uid) (t_account d) = false)
  \/ exists a1 a a2, t_account d = a1 ++ a :: a2 /\ ar_user_id a = wrap64 uid
       /\ getByUserId_sql uid d = Some (Some (account_of_row a)).
Proof.
  intros Hnd. unfold getByUserId_sql.
  destruct (sql_head_key ar_user_id (wrap64 uid) (fun r => ar_user_id r =? wrap64 uid) (t_account d))
    as [[Hn ->] | (a1 & a & a2 & Ht & Hp & ->)]; [by intros r ?%Z.eqb_eq | done | by left |].
  right. exists a1, a, a2. by apply Z.eqb_eq in Hp.
Qed.

(** The account after a debit. *)
Definition debited (amount : Z) (a : AccountRow) : AccountRow :=
  mkAccountRow (ar_account_no a) (ar_user_id a) (ar_balance a - amount) (ar_frozen_amount a)
    (ar_version a + 1) (ar_status a).

Lemma deduct_where_iff no amount a : deduct_where no amount a = true <->
  sql_eq (ar_account_no a) no = true /\ ar_status a = 0 /\ amount <= ar_balance a.
Proof. unfold deduct_where. rewrite !andb_true_iff, Z.eqb_eq, Z.leb_le. tauto. Qed.

Lemma deduct_inv no fen amount now d d' n :
  NoDup (map (fun a => weight (ar_account_no a)) (t_account d)) ->
  cast_decimal (fenToYuanString fen) = Some amount ->
  deduct_sql no fen now d = Some (d', n) ->
  (n = 0%nat /\ d' = d /\ existsb (deduct_where no amount) (t_account d) = false)
  \/ (n = 1%nat /\ exists a1 a a2, t_account d = a1 ++ a :: a2 /\ sql_eq (ar_account_no a) no = true
       /\ ar_status a = 0 /\ amount <= ar_balance a
       /\ d' = set_account (a1 ++ debited amount a :: a2) d).
Proof.
  intros Hnd Hcast. unfold deduct_sql. rewrite Hcast. cbn [mbind option_bind].
  destruct (sql_update_key (fun a => weight (ar_account_no a)) (weight no) (deduct_where no amount)
    (deduct_row amount) (t_account d)) as [[Hn ->] | (a1 & a & a2 & Ht & Hp & _ & _ & ->)].
  - intros r Hr. apply deduct_where_iff in Hr as (Hr & _). by apply sql_eq_iff.
  - done.
  - intros [= <- <-]. left. by rewrite set_account_id.
  - intros H. right. unfold deduct_row in H. simplify_opt. split; [done |].
    apply deduct_where_iff in Hp as (? & ? & ?). by exists a1, a, a2.
Qed.

Lemma payment_insert_inv p now d d' n : payment_insert_sql p now d = Some (d', n) ->
  exists py, payment_row p = Some py /\
  ((n = 0%nat /\ d' = d /\ existsb (payment_conflict py) (t_payment d) = true)
   \/ (n = 1%nat /\ d' = set_payment (t_payment d ++ [py]) d
       /\ existsb (payment_conflict py) (t_payment d) = false)).
Proof.
  unfold payment_insert_sql. intros H. apply bind_Some in H as (py & Hpy & H). exists py.
  split; [done |]. destruct (sql_insert_noop _ py (t_payment d)) as [t m] eqn:Hi.
  injection H as <- <-.
  destruct (sql_insert_noop_inv _ _ _ _ _ Hi) as [(? & -> & ->) | (? & -> & ->)]; [left | right].
  - by rewrite set_payment_id.
  - done.
Qed.

Lemma payment_row_inv p py : payment_row p = Some py ->
  py_payment_no py = pay_paymentNo p /\ py_order_no py = pay_orderNo p /\ py_channel py = pay_channel p
  /\ py_channel_trade_no py = pay_channelTradeNo p /\ py_status py = kPaySuccess
  /\ cast_decimal (fenToYuanString (pay_amountFen p)) = Some (py_amount py)
  /\ parse_datetime (pay_callbackTime p) = Some (py_callback_time py).
Proof. unfold payment_row. intros H. simplify_opt. done. Qed.

Lemma insertFlow_inv f now d d' u : insertFlow_sql f now d = Some (d', u) ->
  exists r, flow_row f = Some r /\ existsb (flow_conflict r) (t_account_flow d) = false
    /\ d' = set_account_flow (t_account_flow d ++ [r]) d.
Proof.
  unfold insertFlow_sql. intros H. apply bind_Some in H as (r & Hr & H).
  apply bind_Some in H as (t & Ht & H). injection H as <- <-. exists r.
  apply sql_insert_inv in Ht as [-> Hc]. done.
Qed.

(** With amounts that a DECIMAL(18,2) holds, the flow row is the flow. *)
Lemma flow_row_inv {L : MySqlLaws} f r : flow_row f = Some r ->
  Z.abs (f_amountFen f) < decimal_limit -> Z.abs (f_beforeFen f) < decimal_limit ->
  Z.abs (f_afterFen f) < decimal_limit ->
  0 < f_amountFen f /\
  r = mkFlowRow (f_accountNo f) (f_bizType f) (f_direction f) (f_amountFen f) (f_beforeFen f)
        (f_afterFen f) (f_orderNo f) (f_requestId f).
Proof.
  intros H Ha Hb Hc. unfold flow_row in H. rewrite !cast_decimal_fen in H by done.
  cbn [mbind option_bind] in H. simplify_opt. split; [| done].
  match goal with Hx : _ && _ = true |- _ => by apply andb_true_iff in Hx as [_ ?%Z.ltb_lt] end.
Qed.

Lemma message_insert_inv m now d d' u : message_insert_sql m now d = Some (d', u) ->
  existsb (fun x => sql_eq (mr_message_id x) (m_messageId m)) (t_local_message d) = false
  /\ d' = set_local_message (t_local_message d ++
       [mkMessageRow (m_messageId m) (m_bizType m) (m_bizId m) (m_exchange m) (m_routingKey m)
          (m_payload m) kMsgPending 0 now]) d.
Proof.
  unfold message_insert_sql, message_row. intros H. simplify_opt. cbn [mr_message_id] in *.
  match goal with Hx : sql_insert _ _ _ = Some _ |- _ => apply sql_insert_inv in Hx as [-> Hc] end.
  done.
Qed.

Lemma getByChannelTradeNo_inv ch no d p : getByChannelTradeNo_sql ch no d = Some (Some p) ->
  exists r, In r (t_payment d) /\ sql_eq (py_channel r) ch = true /\ sql_eq (py_channel_trade_no r) no = true
    /\ p = payment_of_row r.
Proof.
  unfold getByChannelTradeNo_sql. intros [= H].
  destruct (sql_select _ (t_payment d)) as [|r l] eqn:Hs; [done |]. cbn in H. injection H as <-.
  exists r. assert (Hin : In r (r :: l)) by by left. rewrite <- Hs in Hin.
  apply sql_select_In in Hin as [Hin Hp]. apply andb_true_iff in Hp as [? ?]. done.
Qed.
End DaoLemmas.
