(* ===== verification/Locks.v ===== *)
(** * Locks: what a statement depends on and what it changes

    InnoDB locks the rows that a statement reads for an update and the entries of
    the unique keys that it inserts, until the transaction ends.  Each statement of
    [Daos] names those keys; here they get a meaning.  [slice k d] is the part of
    the database that the key [k] stands for, and a statement is [local] to a list
    of keys when its answer and its changes depend on those slices only, and no
    other slice changes.  Every statement that the services send inside a
    transaction, and every statement of the relay and of the consumer, is local to
    the keys it locks. *)

From S2P Require Import Prelude MoneyUtil IdGenerator BeijingTime Result Models Database Daos.

Create HintDb locks.

Section Locks.
Context {D : MySql}.

(** ** Slices *)

Definition has_weight (w s : string) : bool := bool_decide (weight s = w).

(** The rows of a primary key; of a secondary unique key, whether it is taken; of a
    difference, its row once it has been handled; of the numbering of differences,
    the counter and the numbers beyond it. *)
Definition slice_type (k : row_key) : Type :=
  match k with
  | KProduct _ => list ProductRow
  | KAccount _ => list AccountRow
  | KOrderNo _ => list OrderRow
  | KFlow _ _ => list FlowRow
  | KIdempotent _ => list IdempotentRow
  | KMessage _ => list MessageRow
  | KNotifyNo _ => list NotifyRow
  | KDiff _ => list DiffRow
  | KOrderRequest _ | KPaymentNo _ | KTrade _ _ | KNotifyMessage _ | KBatchNo _ | KBatchDay _ _ => bool
  | KDiffAuto => Z * list Z
  end.

Definition slice (k : row_key) (d : Db) : slice_type k :=
  match k return slice_type k with
  | KProduct id => List.filter (fun r => pr_id r =? id) (t_product d)
  | KAccount w => List.filter (fun r => has_weight w (ar_account_no r)) (t_account d)
  | KOrderNo w => List.filter (fun r => has_weight w (or_order_no r)) (t_order d)
  | KOrderRequest w => existsb (fun r => has_weight w (or_request_id r)) (t_order d)
  | KFlow w b => List.filter (fun r => has_weight w (fr_request_id r) && bool_decide (fr_biz_type r = b))
                   (t_account_flow d)
  | KIdempotent w => List.filter (fun r => has_weight w (id_request_id r)) (t_idempotent d)
  | KPaymentNo w => existsb (fun r => has_weight w (py_payment_no r)) (t_payment d)
  | KTrade c w => existsb (fun r => has_weight c (py_channel r) && has_weight w (py_channel_trade_no r))
                    (t_payment d)
  | KMessage w => List.filter (fun r => has_weight w (mr_message_id r)) (t_local_message d)
  | KNotifyNo w => List.filter (fun r => has_weight w (nr_notify_no r)) (t_notify_record d)
  | KNotifyMessage w => existsb (fun r => has_weight w (nr_message_id r)) (t_notify_record d)
  | KBatchNo w => existsb (fun r => has_weight w (br_batch_no r)) (t_reconcile_batch d)
  | KBatchDay day w => existsb (fun r => (br_bill_date r =? day) && has_weight w (br_channel r))
                         (t_reconcile_batch d)
  | KDiff id => List.filter (fun r => (dr_id r =? id) && negb (bool_decide (dr_handle_status r = kHandlePending)))
                  (t_reconcile_diff d)
  | KDiffAuto => (t_reconcile_diff_auto d,
                  List.filter (fun id => t_reconcile_diff_auto d <=? id) (map dr_id (t_reconcile_diff d)))
  end.

(** Two databases that a holder of the lock [k] cannot tell apart. *)
Definition agree (k : row_key) (d d' : Db) : Prop := slice k d = slice k d'.

#[export] Instance agree_equiv k : Equivalence (agree k).
Proof. unfold agree. split; [by intros d | by intros d d' | intros d1 d2 d3; congruence]. Qed.

Definition agree_on (L : list row_key) (d d' : Db) : Prop := forall k, k ∈ L -> agree k d d'.

#[export] Instance agree_on_equiv L : Equivalence (agree_on L).
Proof.
  split; [by intros d k _ | intros d d' H k Hk; symmetry; auto |].
  intros d1 d2 d3 H1 H2 k Hk. etransitivity; auto.
Qed.

(** ** Local statements *)

Definition local {X} (L : list row_key) (g : Db -> option (Db * X)) : Prop :=
  forall d d1 x, g d = Some (d1, x) ->
    (forall k, k ∉ L -> agree k d d1)
    /\ forall d', agree_on L d d' -> exists d1', g d' = Some (d1', x) /\ agree_on L d1 d1'.

(** A local statement keeps every agreement. *)
Lemma local_agree {X} L (g : Db -> option (Db * X)) d d1 d' d1' x x' k : local L g ->
  g d = Some (d1, x) -> g d' = Some (d1', x') -> agree_on L d d' -> agree k d d' -> agree k d1 d1'.
Proof.
  intros Hloc Hd Hd' HL Hk. destruct (Hloc _ _ _ Hd) as [Hframe Hsame].
  destruct (Hloc _ _ _ Hd') as [Hframe' _].
  destruct (Hsame _ HL) as (e & He & HL1). rewrite He in Hd'. injection Hd' as -> _.
  destruct (decide (k ∈ L)) as [Hin | Hin]; [by apply HL1 |].
  by rewrite <- (Hframe k Hin), <- (Hframe' k Hin).
Qed.

(** A statement that changes nothing outside its locks, but may read what it did not
    lock. *)
Definition framed {X} (L : list row_key) (g : Db -> option (Db * X)) : Prop :=
  forall d d1 x, g d = Some (d1, x) -> forall k, k ∉ L -> agree k d d1.

Lemma local_framed {X} L (g : Db -> option (Db * X)) : local L g -> framed L g.
Proof. intros H d d1 x Hd. apply (H _ _ _ Hd). Qed.

Lemma read_framed {X} (g : Db -> option X) now : framed [] (read g now).
Proof. intros d d1 x H k _. unfold read in H. apply bind_Some in H as (a & _ & [= <- _]). done. Qed.

(** ** UPDATE by a key *)

Section Update.
Context {R I : Type} (q p : R -> bool) (f : R -> option R) (ident : R -> I).

(** A table after an update: the rows keep their identity, and only those of [q]
    change. *)
Definition touched : list R -> list R -> Prop :=
  Forall2 (fun r r' => ident r' = ident r /\ (q r = true \/ r' = r)).

Hypothesis p_q : forall r, p r = true -> q r = true.
Hypothesis f_ident : forall r r', p r = true -> f r = Some r' -> ident r' = ident r.
Hypothesis q_ident : forall r r', ident r' = ident r -> q r' = q r.

Lemma sql_set_touched t : forall t', sql_set p f t = Some t' -> touched t t'.
Proof.
  induction t as [|r t IH]; intros t'; cbn [sql_set]; [by intros [= <-]; constructor |].
  intros H. apply bind_Some in H as (r' & Hr & H). apply bind_Some in H as (rest & Hrest & [= <-]).
  constructor; [| by apply IH]. destruct (p r) eqn:Hp; [split; [by apply f_ident | left; auto] |].
  injection Hr as <-. split; [done | by right].
Qed.

Lemma sql_set_filter t : forall t', sql_set p f t = Some t' ->
  sql_set p f (List.filter q t) = Some (List.filter q t').
Proof.
  induction t as [|r t IH]; intros t'; cbn [sql_set]; [by intros [= <-] |].
  intros H. apply bind_Some in H as (r' & Hr & H). apply bind_Some in H as (rest & Hrest & [= <-]).
  cbn [List.filter]. destruct (p r) eqn:Hp.
  - rewrite (q_ident r r'), (p_q r Hp) by auto. cbn [sql_set]. by rewrite Hp, Hr, (IH _ Hrest).
  - injection Hr as <-. destruct (q r); [| auto]. cbn [sql_set]. by rewrite Hp, (IH _ Hrest).
Qed.

Lemma sql_set_unfilter t : forall u, sql_set p f (List.filter q t) = Some u ->
  exists t', sql_set p f t = Some t' /\ List.filter q t' = u.
Proof.
  induction t as [|r t IH]; intros u; cbn [List.filter sql_set]; [intros [= <-]; by exists [] |].
  destruct (q r) eqn:Hq; cbn [sql_set].
  - intros H. apply bind_Some in H as (r' & Hr & H). apply bind_Some in H as (rest & Hrest & [= <-]).
    destruct (IH _ Hrest) as (t' & Ht & Hf). exists (r' :: t'). rewrite Hr, Ht. split; [done |].
    cbn [List.filter]. rewrite Hf. assert (q r' = true) as ->; [| done].
    destruct (p r) eqn:Hp; [by rewrite (q_ident r r') by auto | by injection Hr as <-].
  - intros H. destruct (IH _ H) as (t' & Ht & Hf). exists (r :: t').
    destruct (p r) eqn:Hp; [by rewrite (p_q r Hp) in Hq |]. cbn [mbind option_bind]. rewrite Ht.
    split; [done |]. cbn [List.filter]. by rewrite Hq.
Qed.

Lemma select_filter t : sql_select p (List.filter q t) = sql_select p t.
Proof.
  unfold sql_select. induction t as [|r t IH]; cbn [List.filter]; [done |].
  destruct (q r) eqn:Hq; cbn [List.filter]; rewrite IH; [done |]. destruct (p r) eqn:Hp; [by rewrite (p_q r Hp) in Hq | done].
Qed.

(** An update depends on the rows of the key. *)
Lemma sql_update_filter t t' n s : sql_update p f t = Some (t', n) -> List.filter q t = List.filter q s ->
  exists s', sql_update p f s = Some (s', n) /\ List.filter q t' = List.filter q s'.
Proof.
  unfold sql_update. intros H Hts. apply bind_Some in H as (u & Hu & [= <- <-]).
  apply sql_set_filter in Hu. rewrite Hts in Hu. apply sql_set_unfilter in Hu as (s' & Hs & Hf).
  exists s'. rewrite Hs. split; [| done]. cbn [mbind option_bind].
  by rewrite <- (select_filter s), <- Hts, select_filter.
Qed.
End Update.

(** Rows outside the key, and what depends on identities only, stay as they are. *)
Lemma touched_filter {R I} (q : R -> bool) (ident : R -> I) q0 t t' : touched q ident t t' ->
  (forall r r', ident r' = ident r -> q0 r' = q0 r) -> (forall r, q r = true -> q0 r = false) ->
  List.filter q0 t = List.filter q0 t'.
Proof.
  intros H H0 Hq. induction H as [|r r' t t' [Hi Hr] _ IH]; [done |]. cbn [List.filter]. rewrite IH.
  destruct Hr as [Hr | ->]; [| done]. by rewrite (H0 r r' Hi), (Hq r Hr).
Qed.

Lemma touched_existsb {R I} (q : R -> bool) (ident : R -> I) q0 t t' : touched q ident t t' ->
  (forall r r', ident r' = ident r -> q0 r' = q0 r) -> existsb q0 t = existsb q0 t'.
Proof.
  intros H H0. induction H as [|r r' t t' [Hi _] _ IH]; [done |]. cbn [existsb].
  by rewrite IH, (H0 r r' Hi).
Qed.

(** An UPDATE of one table by a key is local to the key. *)
Lemma local_update {R I X} (get : Db -> list R) (set : list R -> Db -> Db) k q p f (ident : R -> I)
  (ret : nat -> X) (g : Db -> option (Db * X)) :
  (forall d, g d = '(t, n) ← sql_update p f (get d); Some (set t d, ret n)) ->
  (forall t d, get (set t d) = t) ->
  (forall d d', agree k d d' <-> List.filter q (get d) = List.filter q (get d')) ->
  (forall r, p r = true -> q r = true) ->
  (forall r r', p r = true -> f r = Some r' -> ident r' = ident r) ->
  (forall r r', ident r' = ident r -> q r' = q r) ->
  (forall k' d t', k' <> k -> touched q ident (get d) t' -> agree k' d (set t' d)) ->
  local [k] g.
Proof.
  intros Hg Hgs Hk Hpq Hf Hq Hother d d1 x Hd. rewrite Hg in Hd.
  apply bind_Some in Hd as ([t n] & Ht & [= <- <-]). split.
  - intros k' Hk'. apply Hother; [intros ->; apply Hk'; by apply list_elem_of_singleton |].
    unfold sql_update in Ht. apply bind_Some in Ht as (u & Hu & [= <- <-]).
    eapply sql_set_touched; eauto.
  - intros d' Hag. pose proof (Hag k (list_elem_of_here _ _)) as Hsl. apply Hk in Hsl.
    destruct (sql_update_filter q p f ident Hpq Hf Hq _ _ _ _ Ht Hsl) as (s' & Hs & Hss).
    exists (set s' d'). rewrite Hg, Hs. split; [done |].
    intros k' ->%list_elem_of_singleton. apply Hk. by rewrite !Hgs.
Qed.

(** ** INSERT under unique keys *)

Lemma filter_snoc {R} (q : R -> bool) t r :
  List.filter q (t ++ [r]) = List.filter q t ++ (if q r then [r] else []).
Proof. rewrite List.filter_app. cbn. by destruct (q r). Qed.

Lemma existsb_snoc {R} (q : R -> bool) t r : existsb q (t ++ [r]) = existsb q t || q r.
Proof. rewrite existsb_app. cbn. by rewrite orb_false_r. Qed.

(** An INSERT of a row, which answers [hit] when the row conflicts with the table,
    is local to the keys that tell whether it does. *)
Lemma local_insert {R X} (get : Db -> list R) (set : list R -> Db -> Db) L c r (x1 : X) (hit : option X)
  (g : Db -> option (Db * X)) :
  (forall d, g d = if existsb c (get d) then x0 ← hit; Some (d, x0)
                   else Some (set (get d ++ [r]) d, x1)) ->
  (forall d d', agree_on L d d' -> existsb c (get d) = existsb c (get d')) ->
  (forall d d', agree_on L d d' -> agree_on L (set (get d ++ [r]) d) (set (get d' ++ [r]) d')) ->
  (forall k d, k ∉ L -> agree k d (set (get d ++ [r]) d)) ->
  local L g.
Proof.
  intros Hg Hc HL Hframe d d1 x Hd. rewrite Hg in Hd. destruct (existsb c (get d)) eqn:He.
  - apply bind_Some in Hd as (x0 & -> & [= <- <-]). split; [done |]. intros d' Hag.
    exists d'. by rewrite Hg, <- (Hc _ _ Hag), He.
  - injection Hd as <- <-. split; [auto |]. intros d' Hag. eexists.
    rewrite Hg, <- (Hc _ _ Hag), He. auto.
Qed.

(** ** The statements of the services *)

Lemma has_weight_iff w s : has_weight w s = true <-> weight s = w.
Proof. apply bool_decide_eq_true. Qed.

(** Two different weights. *)
Lemma has_weight_ne w w' s : w <> w' -> has_weight w s = true -> has_weight w' s = false.
Proof. intros Hne <-%has_weight_iff. by apply bool_decide_eq_false_2. Qed.

End Locks.

Ltac in_locks := rewrite ?elem_of_cons, ?elem_of_nil; tauto.

(** The slices of the other tables, and those of this one that an update of other
    rows leaves alone. *)
Ltac other_slices H :=
  let k := fresh "k" in let Hne := fresh "Hne" in
  intros k ? ? Hne H; destruct k; try reflexivity; unfold agree; cbn [slice];
  first [ eapply touched_filter; [exact H | intros; congruence | ]
        | eapply touched_existsb; [exact H | intros; congruence] ].

Section DaoLocks.
Context {D : MySql}.

Lemma deductStock_local pid q now : local [KProduct (wrap64 pid)] (deductStock_sql pid q now).
Proof.
  apply (local_update t_product set_product _ (fun r => pr_id r =? wrap64 pid) (deductStock_where pid q)
    (deductStock_row q) pr_id id); try done.
  - intros r (Hr & _)%deductStock_where_iff. by apply Z.eqb_eq.
  - by intros r r' _ [-> _]%deductStock_row_inv.
  - by intros r r' ->.
  - other_slices H. intros r Hr. apply Z.eqb_eq in Hr. apply Z.eqb_neq. congruence.
Qed.

Lemma markPaid_local no now : local [KOrderNo (weight no)] (markPaid_sql no now).
Proof.
  apply (local_update t_order set_order _ (fun r => has_weight (weight no) (or_order_no r)) (markPaid_where no)
    (fun r => Some (paid_row now r)) (fun r => (or_order_no r, or_request_id r)) id); try done.
  - intros r Hr. unfold markPaid_where in Hr. by apply andb_true_iff in Hr as [Hr _].
  - by intros r r' _ [= <-].
  - by intros r r' [= -> _].
  - other_slices H. intros r Hr. eapply has_weight_ne; [| exact Hr]. congruence.
Qed.

Lemma deduct_local no fen now : local [KAccount (weight no)] (deduct_sql no fen now).
Proof.
  unfold deduct_sql. destruct (cast_decimal (fenToYuanString fen)) as [amount|]; [| by intros d d1 x].
  apply (local_update t_account set_account _ (fun r => has_weight (weight no) (ar_account_no r))
    (deduct_where no amount) (deduct_row amount) ar_account_no id); try done.
  - by intros r (Hr & _)%deduct_where_iff.
  - intros r r' _ Hr. unfold deduct_row in Hr. by simplify_opt.
  - by intros r r' ->.
  - other_slices H. intros r Hr. eapply has_weight_ne; [| exact Hr]. congruence.
Qed.

Lemma idem_markSuccess_local rid body now : local [KIdempotent (weight rid)] (idem_markSuccess_sql rid body now).
Proof.
  apply (local_update t_idempotent set_idempotent _ (fun r => has_weight (weight rid) (id_request_id r))
    (fun r => sql_eq (id_request_id r) rid && bool_decide (id_status r = kIdemProcessing))
    (success_row body) id_request_id (fun _ => tt)); try done.
  - by intros r [Hr _]%andb_true_iff.
  - intros r r' _ Hr. unfold success_row in Hr. by simplify_opt.
  - by intros r r' ->.
  - other_slices H. intros r Hr. eapply has_weight_ne; [| exact Hr]. congruence.
Qed.

(** The three updates of the outbox. *)
Lemma update_messages_local id p f :
  (forall r, p r = true -> sql_eq (mr_message_id r) id = true) ->
  (forall r r', f r = Some r' -> mr_message_id r' = mr_message_id r) ->
  local [KMessage (weight id)] (update_messages p f).
Proof.
  intros Hp Hf.
  apply (local_update t_local_message set_local_message _ (fun r => has_weight (weight id) (mr_message_id r))
    p f mr_message_id (fun _ => tt)); try done.
  - by intros r r' _ Hr; apply Hf.
  - by intros r r' ->.
  - other_slices H. intros r Hr. eapply has_weight_ne; [| exact Hr]. congruence.
Qed.

Lemma update_notify_local no f :
  (forall r r', f r = Some r' -> nr_notify_no r' = nr_notify_no r /\ nr_message_id r' = nr_message_id r) ->
  local [KNotifyNo (weight no)] (update_notify no f).
Proof.
  intros Hf.
  apply (local_update t_notify_record set_notify_record _ (fun r => has_weight (weight no) (nr_notify_no r))
    (fun r => sql_eq (nr_notify_no r) no) f (fun r => (nr_notify_no r, nr_message_id r)) (fun _ => tt)); try done.
  - by intros r r' _ [-> ->]%Hf.
  - by intros r r' [= -> _].
  - other_slices H. intros r Hr. eapply has_weight_ne; [| exact Hr]. congruence.
Qed.

Lemma filter_andb {R} (a b : R -> bool) t :
  List.filter (fun r => a r && b r) t = List.filter b (List.filter a t).
Proof. induction t as [|r t IH]; [done |]. cbn. rewrite IH. destruct (a r); [done |]. by destruct (b r). Qed.

Lemma handleDiff_framed id s remark now : framed [KDiff id] (handleDiff_sql id s remark now).
Proof.
  intros d d1 n H. unfold handleDiff_sql, sql_update in H. apply bind_Some in H as ([t m] & H & [= <- _]).
  apply bind_Some in H as (u & Hu & [= <- _]).
  apply (sql_set_touched (fun r => dr_id r =? id) _ _ dr_id) in Hu.
  2: { by intros r [? _]%andb_true_iff. }
  2: { intros r r' _ H. unfold handled_row in H. by simplify_opt. }
  intros k Hk. destruct k as [| | | | | | | | | | | | | id' |]; try done; unfold agree; cbn.
  - rewrite !filter_andb. f_equal. apply (touched_filter _ _ _ _ _ Hu); [by intros r r' -> |].
    intros r Hr%Z.eqb_eq. apply Z.eqb_neq. intros E. apply Hk, list_elem_of_singleton. congruence.
  - do 2 f_equal. clear Hk. induction Hu as [|r r' t t' [Hr _] _ IH]; [done |]. cbn. by rewrite IH, Hr.
Qed.

(** ** The inserts *)

Lemma existsb_orb {R} (a b : R -> bool) t :
  existsb (fun x => a x || b x) t = existsb a t || existsb b t.
Proof. induction t as [|r t IH]; [done |]. cbn. rewrite IH. by destruct (a r), (b r), (existsb a t). Qed.

Lemma existsb_filter {R} (q : R -> bool) t :
  existsb q t = match List.filter q t with [] => false | _ => true end.
Proof. induction t as [|r t IH]; [done |]. cbn. by destruct (q r). Qed.

(** Agreement on the keys of a list, key by key. *)
Ltac split_keys H :=
  let k := fresh "k" in intros k; rewrite ?elem_of_cons, ?elem_of_nil; intros Hk;
  repeat (destruct Hk as [-> | Hk]); [.. | done]; unfold agree; cbn [slice].

(** The keys that an insert does not lock. *)
Ltac unlocked_keys :=
  let k := fresh "k" in intros k ? Hk; destruct k; try reflexivity;
  rewrite ?elem_of_cons, ?elem_of_nil in Hk; unfold agree; cbn [slice];
  cbn [t_order set_order t_account_flow set_account_flow t_idempotent set_idempotent t_payment set_payment
       t_local_message set_local_message t_notify_record set_notify_record t_reconcile_batch set_reconcile_batch];
  rewrite ?filter_snoc, ?existsb_snoc.

Lemma order_insert_local o now :
  local [KOrderNo (weight (o_orderNo o)); KOrderRequest (weight (o_requestId o))] (order_insert_sql o now).
Proof.
  unfold order_insert_sql. destruct (order_row o) as [r|] eqn:Hr; [| by intros d d1 x].
  apply order_row_inv in Hr as (Hno & Hrid & _). cbn [mbind option_bind].
  rewrite <- Hno, <- Hrid.
  apply (local_insert t_order set_order _ (order_conflict r) r tt None).
  - intros d. unfold sql_insert. by destruct (existsb _ _).
  - intros d d' Hag. pose proof (Hag (KOrderNo _) ltac:(in_locks)) as H1.
    pose proof (Hag (KOrderRequest _) ltac:(in_locks)) as H2. unfold agree in H1, H2. cbn [slice] in H1, H2.
    unfold order_conflict. rewrite !existsb_orb. f_equal; [| exact H2].
    rewrite !existsb_filter. unfold has_weight in H1. unfold sql_eq. by rewrite H1.
  - intros d d' Hag. split_keys Hk; cbn [t_order set_order].
    + rewrite !filter_snoc. f_equal. apply (Hag (KOrderNo _)). in_locks.
    + rewrite !existsb_snoc. f_equal. apply (Hag (KOrderRequest _)). in_locks.
  - unlocked_keys.
    + destruct (has_weight w (or_order_no r)) eqn:Hw; [| by rewrite app_nil_r].
      apply has_weight_iff in Hw as <-. by destruct Hk; left.
    + destruct (has_weight w (or_request_id r)) eqn:Hw; [| by rewrite orb_false_r].
      apply has_weight_iff in Hw as <-. by destruct Hk; right; left.
Qed.

Lemma insertFlow_local f now : local [KFlow (weight (f_requestId f)) (f_bizType f)] (insertFlow_sql f now).
Proof.
  unfold insertFlow_sql. destruct (flow_row f) as [r|] eqn:Hr; [| by intros d d1 x].
  assert (fr_request_id r = f_requestId f /\ fr_biz_type r = f_bizType f) as [<- <-].
  { unfold flow_row in Hr. by simplify_opt. }
  cbn [mbind option_bind]. apply (local_insert t_account_flow set_account_flow _ (flow_conflict r) r tt None).
  - intros d. unfold sql_insert. by destruct (existsb _ _).
  - intros d d' Hag. rewrite !existsb_filter. pose proof (Hag (KFlow _ _) ltac:(in_locks)) as H1.
    unfold agree in H1. cbn [slice] in H1. unfold has_weight in H1. unfold flow_conflict, sql_eq. by rewrite H1.
  - intros d d' Hag. split_keys Hk; cbn [t_account_flow set_account_flow].
    rewrite !filter_snoc. f_equal. apply (Hag (KFlow _ _)). in_locks.
  - unlocked_keys.
    destruct (has_weight w (fr_request_id r)) eqn:Hw; [| by rewrite app_nil_r].
    case_bool_decide as Ht; cbn [andb]; [| by rewrite app_nil_r].
    apply has_weight_iff in Hw as <-. subst. by destruct Hk; left.
Qed.

Lemma message_insert_local m now : local [KMessage (weight (m_messageId m))] (message_insert_sql m now).
Proof.
  unfold message_insert_sql. destruct (message_row m now) as [r|] eqn:Hr; [| by intros d d1 x].
  assert (mr_message_id r = m_messageId m) as <-.
  { unfold message_row in Hr. by simplify_opt. }
  cbn [mbind option_bind].
  apply (local_insert t_local_message set_local_message _
    (fun x => sql_eq (mr_message_id x) (mr_message_id r)) r tt None).
  - intros d. unfold sql_insert. by destruct (existsb _ _).
  - intros d d' Hag. rewrite !existsb_filter. pose proof (Hag (KMessage _) ltac:(in_locks)) as H1.
    unfold agree in H1. cbn [slice] in H1. unfold has_weight in H1. unfold sql_eq. by rewrite H1.
  - intros d d' Hag. split_keys Hk; cbn [t_local_message set_local_message].
    rewrite !filter_snoc. f_equal. apply (Hag (KMessage _)). in_locks.
  - unlocked_keys.
    destruct (has_weight w (mr_message_id r)) eqn:Hw; [| by rewrite app_nil_r].
    apply has_weight_iff in Hw as <-. by destruct Hk; left.
Qed.

Lemma acquire_local i now : local [KIdempotent (weight (i_requestId i))] (acquire_sql i now).
Proof.
  unfold acquire_sql. destruct (idempotent_row i) as [r|] eqn:Hr; [| by intros d d1 x].
  apply idempotent_row_inv in Hr as [<- _]. cbn [mbind option_bind].
  apply (local_insert t_idempotent set_idempotent _
    (fun x => sql_eq (id_request_id x) (id_request_id r)) r 1%nat (Some 0%nat)).
  - intros d. unfold sql_insert_noop. destruct (existsb _ _); [by rewrite set_idempotent_id | done].
  - intros d d' Hag. rewrite !existsb_filter. pose proof (Hag (KIdempotent _) ltac:(in_locks)) as H1.
    unfold agree in H1. cbn [slice] in H1. unfold has_weight in H1. unfold sql_eq. by rewrite H1.
  - intros d d' Hag. split_keys Hk; cbn [t_idempotent set_idempotent].
    rewrite !filter_snoc. f_equal. apply (Hag (KIdempotent _)). in_locks.
  - unlocked_keys.
    destruct (has_weight w (id_request_id r)) eqn:Hw; [| by rewrite app_nil_r].
    apply has_weight_iff in Hw as <-. by destruct Hk; left.
Qed.

Lemma payment_insert_local p now :
  local [KPaymentNo (weight (pay_paymentNo p)); KTrade (weight (pay_channel p)) (weight (pay_channelTradeNo p))]
    (payment_insert_sql p now).
Proof.
  unfold payment_insert_sql. destruct (payment_row p) as [r|] eqn:Hr; [| by intros d d1 x].
  apply payment_row_inv in Hr as (<- & _ & <- & <- & _). cbn [mbind option_bind].
  apply (local_insert t_payment set_payment _ (payment_conflict r) r 1%nat (Some 0%nat)).
  - intros d. unfold sql_insert_noop. destruct (existsb _ _); [by rewrite set_payment_id | done].
  - intros d d' Hag. unfold payment_conflict. rewrite !existsb_orb. f_equal.
    + apply (Hag (KPaymentNo _)). in_locks.
    + apply (Hag (KTrade _ _)). in_locks.
  - intros d d' Hag. split_keys Hk; cbn [t_payment set_payment]; rewrite !existsb_snoc; f_equal.
    + apply (Hag (KPaymentNo _)). in_locks.
    + apply (Hag (KTrade _ _)). in_locks.
  - unlocked_keys.
    + destruct (has_weight w (py_payment_no r)) eqn:Hw; [| by rewrite orb_false_r].
      apply has_weight_iff in Hw as <-. by destruct Hk; left.
    + destruct (has_weight channel (py_channel r)) eqn:Hc; [| by rewrite orb_false_r].
      destruct (has_weight w (py_channel_trade_no r)) eqn:Hw; [| by rewrite orb_false_r].
      apply has_weight_iff in Hw as <-. apply has_weight_iff in Hc as <-. by destruct Hk; right; left.
Qed.

Lemma notify_insert_local no orderNo url mid now :
  local [KNotifyNo (weight no); KNotifyMessage (weight mid)] (notify_insert_sql no orderNo url mid now).
Proof.
  unfold notify_insert_sql. destruct (notify_row no orderNo url mid) as [r|] eqn:Hr; [| by intros d d1 x].
  assert (nr_notify_no r = no /\ nr_message_id r = mid) as [<- <-].
  { unfold notify_row in Hr. by simplify_opt. }
  cbn [mbind option_bind].
  apply (local_insert t_notify_record set_notify_record _ (notify_conflict r) r 1%nat (Some 0%nat)).
  - intros d. unfold sql_insert_noop. destruct (existsb _ _); [by destruct d | done].
  - intros d d' Hag. unfold notify_conflict. rewrite !existsb_orb. f_equal.
    + rewrite !existsb_filter. pose proof (Hag (KNotifyNo _) ltac:(in_locks)) as H1.
      unfold agree in H1. cbn [slice] in H1. unfold has_weight in H1. unfold sql_eq. by rewrite H1.
    + apply (Hag (KNotifyMessage _)). in_locks.
  - intros d d' Hag. split_keys Hk; cbn [t_notify_record set_notify_record].
    + rewrite !filter_snoc. f_equal. apply (Hag (KNotifyNo _)). in_locks.
    + rewrite !existsb_snoc. f_equal. apply (Hag (KNotifyMessage _)). in_locks.
  - unlocked_keys.
    + destruct (has_weight w (nr_notify_no r)) eqn:Hw; [| by rewrite app_nil_r].
      apply has_weight_iff in Hw as <-. by destruct Hk; left.
    + destruct (has_weight w (nr_message_id r)) eqn:Hw; [| by rewrite orb_false_r].
      apply has_weight_iff in Hw as <-. by destruct Hk; right; left.
Qed.

Lemma insertBatch_local b now : local (batch_locks b) (insertBatch_sql b now).
Proof.
  unfold insertBatch_sql, batch_locks. destruct (batch_row b) as [r|] eqn:Hr; [| by intros d d1 x].
  assert (br_batch_no r = b_batchNo b /\ parse_date (b_billDate b) = Some (br_bill_date r) /\ br_channel r = b_channel b)
    as (<- & -> & <-).
  { unfold batch_row in Hr. apply bind_Some in Hr as (day & Hday & Hr). by simplify_opt. }
  cbn [mbind option_bind].
  apply (local_insert t_reconcile_batch set_reconcile_batch _ (batch_conflict r) r tt None).
  - intros d. unfold sql_insert. by destruct (existsb _ _).
  - intros d d' Hag. unfold batch_conflict. rewrite !existsb_orb. f_equal.
    + apply (Hag (KBatchNo _)). in_locks.
    + apply (Hag (KBatchDay _ _)). in_locks.
  - intros d d' Hag. split_keys Hk; cbn [t_reconcile_batch set_reconcile_batch]; rewrite !existsb_snoc; f_equal.
    + apply (Hag (KBatchNo _)). in_locks.
    + apply (Hag (KBatchDay _ _)). in_locks.
  - unlocked_keys.
    + destruct (has_weight w (br_batch_no r)) eqn:Hw; [| by rewrite orb_false_r].
      apply has_weight_iff in Hw as <-. by destruct Hk; left.
    + destruct (Z.eqb_spec (br_bill_date r) day) as [E | _]; [| by rewrite orb_false_r].
      destruct (has_weight w (br_channel r)) eqn:Hw; [| by rewrite orb_false_r].
      apply has_weight_iff in Hw as <-. subst day. by destruct Hk; right; left.
Qed.

(** A number taken beyond the counter is one of those of the lock. *)
Lemma auto_taken a t : existsb (fun y => dr_id y =? a) t
  = existsb (fun i => i =? a) (List.filter (fun i => a <=? i) (map dr_id t)).
Proof.
  induction t as [|r t IH]; [done |]. cbn. rewrite IH. destruct (Z.leb_spec a (dr_id r)); [done |].
  destruct (Z.eqb_spec (dr_id r) a); [lia | done].
Qed.

(** A difference takes its number from the counter; it is pending. *)
Lemma insertDiff_local x now : local [KDiffAuto] (insertDiff_sql x now).
Proof.
  intros d d1 u H. unfold insertDiff_sql in H. apply bind_Some in H as (r & Hr & H).
  apply bind_Some in H as (t & Ht & [= <- <-]). apply sql_insert_inv in Ht as [-> Hc].
  assert (Hrow : dr_id r = t_reconcile_diff_auto d /\ dr_handle_status r = kHandlePending).
  { unfold diff_row in Hr. by simplify_opt. }
  destruct Hrow as [Hid Hst]. split.
  - intros k Hk. destruct k as [| | | | | | | | | | | | | id |]; try done; unfold agree; cbn.
    + rewrite filter_snoc, Hst, bool_decide_eq_true_2 by done. cbn. by rewrite andb_false_r, app_nil_r.
    + by destruct Hk; left.
  - intros d' Hag. pose proof (Hag KDiffAuto ltac:(in_locks)) as H. unfold agree in H. cbn [slice] in H.
    injection H as Ha Hf. unfold insertDiff_sql. rewrite <- Ha, Hr. cbn [mbind option_bind]. unfold sql_insert.
    rewrite Hid, auto_taken in Hc. rewrite Hid, auto_taken, Ha, <- Hf, <- Ha, Hc. eexists. split; [done |].
    split_keys Hk. cbn. rewrite Ha. f_equal. rewrite Ha in Hf. rewrite !List.map_app, !List.filter_app. f_equal.
    set (a := t_reconcile_diff_auto d') in *.
    assert (Hup : forall l, List.filter (fun i => a + 1 <=? i) l
      = List.filter (fun i => a + 1 <=? i) (List.filter (fun i => a <=? i) l)).
    { intros l. rewrite <- filter_andb. apply List.filter_ext. intros i. lia. }
    by rewrite (Hup (map _ (t_reconcile_diff d))), Hf, <- Hup.
Qed.
End DaoLocks.

#[export] Hint Resolve deductStock_local markPaid_local deduct_local idem_markSuccess_local
  order_insert_local insertFlow_local message_insert_local acquire_local payment_insert_local
  notify_insert_local insertBatch_local insertDiff_local : locks.
