(* ===== verification/Interleaving.v ===== *)
(** * Interleaving: several threads on one server

    The services run in the threads of a pool, each on its own connection.  Here a
    configuration is the committed database and the threads with the programs they
    have left; a step lets one thread send one command.  InnoDB is modelled by its
    documented behaviour:
    - a statement that writes runs on the latest committed rows and on the
      transaction's own; it waits while another transaction holds one of the keys it
      locks, and keeps its locks until its transaction ends;
    - a SELECT takes no lock: it reads a snapshot, in which the rows that the
      transaction itself has written show their own version.  Under REPEATABLE READ
      the snapshot is that of the transaction's first SELECT, under READ COMMITTED
      it is new for each;
    - a deadlock, a lock wait timeout or a broken connection answers the statement
      with an error and rolls the transaction back; a commit has a fate.
    Clocks, identifiers, NOW() and failures are arbitrary at each step. *)

From stdpp Require Import relations.
From S2P Require Import Prelude MoneyUtil IdGenerator BeijingTime Result Models Database Daos Locks.

Inductive isolation := RepeatableRead | ReadCommitted.

(** ** Snapshots *)

#[export] Instance ProductRow_eq_dec : EqDecision ProductRow.
Proof. solve_decision. Defined.
#[export] Instance OrderRow_eq_dec : EqDecision OrderRow.
Proof. solve_decision. Defined.
#[export] Instance AccountRow_eq_dec : EqDecision AccountRow.
Proof. solve_decision. Defined.
#[export] Instance FlowRow_eq_dec : EqDecision FlowRow.
Proof. solve_decision. Defined.
#[export] Instance PaymentRow_eq_dec : EqDecision PaymentRow.
Proof. solve_decision. Defined.
#[export] Instance IdempotentRow_eq_dec : EqDecision IdempotentRow.
Proof. solve_decision. Defined.
#[export] Instance MessageRow_eq_dec : EqDecision MessageRow.
Proof. solve_decision. Defined.
#[export] Instance NotifyRow_eq_dec : EqDecision NotifyRow.
Proof. solve_decision. Defined.
#[export] Instance BatchRow_eq_dec : EqDecision BatchRow.
Proof. solve_decision. Defined.
#[export] Instance DiffRow_eq_dec : EqDecision DiffRow.
Proof. solve_decision. Defined.

Section Overlay.
Context {R K : Type} `{EqDecision R, EqDecision K} (key : R -> K).

(** What a SELECT sees of a table: [work] is the transaction's current version,
    [base] the committed one.  A row of [work] that is not committed is the
    transaction's own; of any other row, the snapshot's version shows, if any. *)
Definition overlay_row (snap base : list R) (r : R) : list R :=
  if bool_decide (r ∈ base)
  then match find (fun x => bool_decide (key x = key r)) snap with Some x => [x] | None => [] end
  else [r].

Definition overlay_table (snap base work : list R) : list R :=
  flat_map (overlay_row snap base) work.
End Overlay.

(** A row is identified by columns that no statement changes. *)
Definition overlay (snap base work : Db) : Db := {|
  t_account := overlay_table (fun r => (ar_account_no r, ar_user_id r)) (t_account snap) (t_account base) (t_account work);
  t_account_flow := overlay_table (fun r => (fr_request_id r, fr_biz_type r)) (t_account_flow snap) (t_account_flow base) (t_account_flow work);
  t_product := overlay_table pr_id (t_product snap) (t_product base) (t_product work);
  t_order := overlay_table or_order_no (t_order snap) (t_order base) (t_order work);
  t_payment := overlay_table py_payment_no (t_payment snap) (t_payment base) (t_payment work);
  t_idempotent := overlay_table id_request_id (t_idempotent snap) (t_idempotent base) (t_idempotent work);
  t_local_message := overlay_table mr_message_id (t_local_message snap) (t_local_message base) (t_local_message work);
  t_notify_record := overlay_table nr_notify_no (t_notify_record snap) (t_notify_record base) (t_notify_record work);
  t_reconcile_batch := overlay_table br_batch_no (t_reconcile_batch snap) (t_reconcile_batch base) (t_reconcile_batch work);
  t_reconcile_diff := overlay_table dr_id (t_reconcile_diff snap) (t_reconcile_diff base) (t_reconcile_diff work);
  t_reconcile_diff_auto := t_reconcile_diff_auto work
|}.

(** ** Transactions *)

(** A statement that a transaction has executed: the keys it locked, its effect
    and its answer. *)
Inductive entry :=
  | Entry {X : Type} (locks : list row_key) (g : Db -> option (Db * X)) (x : X).

Definition entry_locks (e : entry) : list row_key := let 'Entry L _ _ := e in L.

Record Tx := mkTx { tx_snapshot : option Db; tx_log : list entry }.

Definition tx_begin : Tx := mkTx None [].

(** The transaction's current version of the database: its statements on the
    latest committed one. *)
Fixpoint replay (log : list entry) (d : Db) : option Db :=
  match log with
  | [] => Some d
  | Entry _ g _ :: log' => '(d', _) ← g d; replay log' d'
  end.

Definition tx_locks (t : TxState Tx) : list row_key :=
  match t with TxOpen t => flat_map entry_locks (tx_log t) | _ => [] end.

Definition push {X} L (g : Db -> option (Db * X)) (x : X) (t : Tx) : Tx :=
  mkTx (tx_snapshot t) (tx_log t ++ [Entry L g x]).

(** The snapshot of the next SELECT. *)
Definition snapshot_of (iso : isolation) (t : Tx) (d : Db) : Db :=
  match iso with
  | RepeatableRead => default d (tx_snapshot t)
  | ReadCommitted => d
  end.

(** ** Threads *)

(** What the surroundings decide at a step. *)
Record chance := mkChance {
  ch_clock : Z;                  (* the reading of the system clock *)
  ch_id : id_result;             (* the answer of the identifier generator *)
  ch_now : Z;                    (* NOW() *)
  ch_client : bool;              (* the "default" DbClient exists *)
  ch_ok : bool;                  (* the statement is executed *)
  ch_fate : commit_fate
}.

(** A thread serves the request [th_request]; [th_commits] records, for each of its
    commits, the committed database before and after. *)
Record Thread (Q A : Type) := mkThread {
  th_request : Q;
  th_prog : M A;
  th_tx : TxState Tx;
  th_commits : list (Db * Db)
}.
Arguments mkThread {Q A} _ _ _ _.
Arguments th_request {Q A} _.
Arguments th_prog {Q A} _.
Arguments th_tx {Q A} _.
Arguments th_commits {Q A} _.

Section Steps.
Context (iso : isolation) {Q A : Type}.

Definition unlocked (L held : list row_key) : bool := forallb (fun k => bool_decide (k ∉ held)) L.

(** The command sent by the thread [t] while the others hold [held]: the committed
    database and the thread after it; [None] when the program has ended, or when
    the statement has to wait. *)
Definition thread_step (c : chance) (held : list row_key) (d : Db) (t : Thread Q A)
  : option (Db * Thread Q A) :=
  let next m tx := mkThread (th_request t) m tx (th_commits t) in
  let commit m tx d' := mkThread (th_request t) m tx (th_commits t ++ [(d, d')]) in
  match th_prog t with
  | Done _ => None
  | ReadClock k => Some (d, next (k (ch_clock c)) (th_tx t))
  | NextId k => Some (d, next (k (ch_id c)) (th_tx t))
  | Exec L f k =>
      match th_tx t with
      | TxOpen x =>
          if negb (ch_ok c) then Some (d, next (k None) TxAborted)
          else if unlocked L held then
            match work ← replay (tx_log x) d; f (ch_now c) work with
            | Some (_, a) => Some (d, next (k (Some a)) (TxOpen (push L (f (ch_now c)) a x)))
            | None => Some (d, next (k None) TxAborted)
            end
          else None
      | tx => Some (d, next (k None) tx)
      end
  | Query g k =>
      match th_tx t with
      | TxOpen x =>
          let snap := snapshot_of iso x d in
          match (if ch_ok c then work ← replay (tx_log x) d; g (overlay snap d work) else None) with
          | Some a => Some (d, next (k (Some a)) (TxOpen (mkTx (Some snap) (tx_log x))))
          | None => Some (d, next (k None) TxAborted)
          end
      | tx => Some (d, next (k None) tx)
      end
  | Client L f k =>
      if negb (ch_ok c) then Some (d, next (k None) (th_tx t))
      else if unlocked L (tx_locks (th_tx t) ++ held) then
        match f (ch_now c) d with
        | Some (d', a) =>
            match ch_fate c with
            | CommitApplied => Some (d', commit (k (Some a)) (th_tx t) d')
            | CommitRefused => Some (d, next (k None) (th_tx t))
            | CommitInDoubt => Some (d', commit (k None) (th_tx t) d')
            end
        | None => Some (d, next (k None) (th_tx t))
        end
      else None
  | Begin k =>
      if negb (ch_client c) then Some (d, next (k (Some StdException)) (th_tx t))
      else if ch_ok c then Some (d, next (k None) (TxOpen tx_begin))
      else Some (d, next (k (Some DbException)) (th_tx t))
  | Commit k =>
      match th_tx t with
      | NoTx | TxFinished => Some (d, next (k (Some StdException)) (th_tx t))
      | TxAborted => Some (d, next (k (Some DbException)) TxAborted)
      | TxOpen x =>
          match replay (tx_log x) d, ch_fate c with
          | Some d', CommitApplied => Some (d', commit (k None) TxFinished d')
          | Some d', CommitInDoubt => Some (d', commit (k (Some DbException)) TxAborted d')
          | _, _ => Some (d, next (k (Some DbException)) TxAborted)
          end
      end
  | Close k => Some (d, next k NoTx)
  end.

(** ** Configurations *)

Record Conf := mkConf { cf_db : Db; cf_threads : list (Thread Q A) }.

(** The locks of the transactions other than that of the thread [i]. *)
Definition held_by_others (i : nat) (ts : list (Thread Q A)) : list row_key :=
  flat_map (fun t => tx_locks (th_tx t)) (take i ts ++ drop (S i) ts).

Definition turn (i : nat) (c : chance) (w : Conf) : option Conf :=
  t ← cf_threads w !! i;
  '(d', t') ← thread_step c (held_by_others i (cf_threads w)) (cf_db w) t;
  Some (mkConf d' (<[i := t']> (cf_threads w))).

(** The program that serves a request. *)
Context (program : Q -> M A).

Definition arrive (q : Q) (w : Conf) : Conf :=
  mkConf (cf_db w) (cf_threads w ++ [mkThread q (program q) NoTx []]).

Inductive conf_step : Conf -> Conf -> Prop :=
  | CfArrive q w : conf_step w (arrive q w)
  | CfTurn i c w w' : turn i c w = Some w' -> conf_step w w'.

(** A schedule: which thread moves, and with what luck. *)
Fixpoint schedule (turns : list (nat * chance)) (w : Conf) : option Conf :=
  match turns with
  | [] => Some w
  | (i, c) :: turns' => w' ← turn i c w; schedule turns' w'
  end.

Lemma schedule_rtc turns : forall w w', schedule turns w = Some w' -> rtc conf_step w w'.
Proof.
  induction turns as [|[i c] turns IH]; intros w w'; cbn [schedule]; [by intros [= ->] |].
  intros H. apply bind_Some in H as (w1 & H1 & H). eapply rtc_l; [by eapply CfTurn | auto].
Qed.
End Steps.
Arguments Conf : clear implicits.
