(* ===== verification/Invariant.v ===== *)
(** * Invariant: well-formed databases

    What [sql/schema.sql] promises of the tables - unique keys, CHECK constraints,
    column ranges - and the range of prices in which totals do not overflow.
    String keys are unique up to the collation. *)

From S2P Require Import Prelude MoneyUtil BeijingTime Models Database Daos.

(** Prices of up to ten thousand billion yuan: the total of 999 pieces is then a
    DECIMAL(18,2), and no [int64_t] product wraps around. *)
Definition price_limit : Z := 10 ^ 15.

Definition product_ok (p : ProductRow) : Prop :=
  0 <= pr_price p < price_limit /\ 0 <= pr_stock p < 2 ^ 32.

Definition account_ok (a : AccountRow) : Prop := 0 <= ar_balance a < decimal_limit.

Definition order_ok (o : OrderRow) : Prop :=
  0 < or_quantity o <= 999
  /\ 0 <= or_unit_price o < price_limit
  /\ or_total_amount o = or_unit_price o * or_quantity o
  /\ 0 <= or_user_id o < 2 ^ 63
  /\ 0 <= or_product_id o < 2 ^ 63.

Definition message_ok (r : MessageRow) : Prop := 0 <= mr_retry_count r < 2 ^ 32.

Section Keys.
Context {D : MySql}.

(** The unique keys of the schema. *)
Record keys_wf (d : Db) : Prop := {
  wf_product_id : NoDup (map pr_id (t_product d));
  wf_account_user : NoDup (map ar_user_id (t_account d));
  wf_account_no : NoDup (map (fun a => weight (ar_account_no a)) (t_account d));
  wf_order_no : NoDup (map (fun o => weight (or_order_no o)) (t_order d));
  wf_order_request : NoDup (map (fun o => weight (or_request_id o)) (t_order d));
  wf_idempotent : NoDup (map (fun i => weight (id_request_id i)) (t_idempotent d));
  wf_payment_no : NoDup (map (fun p => weight (py_payment_no p)) (t_payment d));
  wf_payment_trade :
    NoDup (map (fun p => (weight (py_channel p), weight (py_channel_trade_no p))) (t_payment d));
  wf_flow : NoDup (map (fun f => (weight (fr_request_id f), fr_biz_type f)) (t_account_flow d));
  wf_message : NoDup (map (fun m => weight (mr_message_id m)) (t_local_message d));
  wf_notify_no : NoDup (map (fun n => weight (nr_notify_no n)) (t_notify_record d));
  wf_notify_message : NoDup (map (fun n => weight (nr_message_id n)) (t_notify_record d));
  wf_batch_no : NoDup (map (fun b => weight (br_batch_no b)) (t_reconcile_batch d));
  wf_batch_date : NoDup (map (fun b => (br_bill_date b, weight (br_channel b))) (t_reconcile_batch d));
  wf_diff_id : NoDup (map dr_id (t_reconcile_diff d));
  wf_diff_auto : Forall (fun x => dr_id x < t_reconcile_diff_auto d) (t_reconcile_diff d)
}.

(** The columns. *)
Record rows_wf (d : Db) : Prop := {
  wf_products : Forall product_ok (t_product d);
  wf_accounts : Forall account_ok (t_account d);
  wf_orders : Forall order_ok (t_order d);
  wf_messages : Forall message_ok (t_local_message d)
}.

Definition db_wf (d : Db) : Prop := keys_wf d /\ rows_wf d.
End Keys.

(** ** Replacing a row in the middle of a table *)

Lemma split_key {R K : Type} (key : R -> K) t1 r r' t2 : key r' = key r ->
  map key (t1 ++ r' :: t2) = map key (t1 ++ r :: t2).
Proof. intros H. rewrite !List.map_app. simpl. by rewrite H. Qed.

Lemma split_Forall {R : Type} (P : R -> Prop) t1 r r' t2 : P r' ->
  Forall P (t1 ++ r :: t2) -> Forall P (t1 ++ r' :: t2).
Proof. rewrite !Forall_app, !Forall_cons. tauto. Qed.

(** ** Sums over a table *)

Definition sum_of {R : Type} (f : R -> Z) (t : list R) : Z := fold_right (fun r z => f r + z) 0 t.

Lemma sum_of_app {R : Type} (f : R -> Z) t t' : sum_of f (t ++ t') = sum_of f t + sum_of f t'.
Proof. induction t as [|r t IH]; simpl; [done |]. rewrite IH. lia. Qed.

Lemma sum_of_snoc {R : Type} (f : R -> Z) t r : sum_of f (t ++ [r]) = sum_of f t + f r.
Proof. rewrite sum_of_app. simpl. lia. Qed.

Lemma sum_of_split {R : Type} (f : R -> Z) t1 r t2 : sum_of f (t1 ++ r :: t2) = sum_of f t1 + f r + sum_of f t2.
Proof. rewrite sum_of_app. simpl. lia. Qed.

Lemma sum_of_ext {R : Type} (f g : R -> Z) t : (forall r, f r = g r) -> sum_of f t = sum_of g t.
Proof. intros H. induction t as [|r t IH]; simpl; [done |]. by rewrite H, IH. Qed.

Lemma sum_of_nonneg {R : Type} (f : R -> Z) t : (forall r, In r t -> 0 <= f r) -> 0 <= sum_of f t.
Proof.
  induction t as [|r t IH]; simpl; [done |]. intros H.
  pose proof (H r (or_introl eq_refl)). specialize (IH (fun r' Hr => H r' (or_intror Hr))). lia.
Qed.

#[global] Arguments sum_of : simpl never.
