(* ===== verification/RelyGuarantee.v ===== *)
(** * RelyGuarantee: reasoning about one thread among others

    A thread may rely on the others: between two of its commands the committed
    database changes only by commits that the protocol allows, and the slices of
    the keys it has locked do not change.  It guarantees that its own commits are
    allowed.  [safe] is the verification condition of a program, by recursion on
    its commands; [conf_safe] is the soundness theorem: if every program of a
    configuration is safe, every reachable configuration keeps the protocol's invariant, its
    database has evolved by allowed commits, and a program that has ended meets its
    postcondition. *)

From stdpp Require Import relations.
From S2P Require Import Prelude MoneyUtil IdGenerator BeijingTime Result Models Database Daos Locks Interleaving.

(** What the programs promise to each other. *)
Class Protocol := {
  db_inv : Db -> Prop;
  may_commit : Db -> Db -> Prop;
  may_commit_inv d d' : db_inv d -> may_commit d d' -> db_inv d'
}.

(** ** Replaying a transaction *)

Section Replays.
Context {D : MySql}.

(** The statements of the log, with the answers they had. *)
Fixpoint replays (log : list entry) (d d' : Db) : Prop :=
  match log with
  | [] => d' = d
  | Entry _ g x :: log' => exists d1, g d = Some (d1, x) /\ replays log' d1 d'
  end.

Definition entry_local (e : entry) : Prop := let 'Entry L g _ := e in local L g.

Lemma replays_replay log : forall d d', replays log d d' -> replay log d = Some d'.
Proof.
  induction log as [|[X L g x] log IH]; intros d d'; cbn [replays replay]; [by intros -> |].
  intros (d1 & Hg & H). rewrite Hg. cbn. auto.
Qed.

Lemma replays_snoc {X} log L g (x : X) d d' : replays (log ++ [Entry L g x]) d d' <->
  exists work, replays log d work /\ g work = Some (d', x).
Proof.
  revert d. induction log as [|[Y M h y] log IH]; intros d; cbn [app replays].
  - split; [intros (d1 & Hg & ->); by exists d | intros (work & -> & Hg); by exists d'].
  - split.
    + intros (d1 & Hg & H). apply IH in H as (work & H & Hx). exists work. split; [by exists d1 | done].
    + intros (work & (d1 & Hg & H) & Hx). exists d1. split; [done |]. apply IH. by exists work.
Qed.

(** A transaction changes the slices of its locks only. *)
Lemma replays_frame log : Forall entry_local log -> forall d d' k, replays log d d' ->
  k ∉ flat_map entry_locks log -> agree k d d'.
Proof.
  induction 1 as [|[X L g x] log Hloc _ IH]; intros d d' k; cbn [replays flat_map entry_locks]; [by intros -> |].
  intros (d1 & Hg & H) Hk. rewrite elem_of_app in Hk.
  transitivity d1; [apply (Hloc _ _ _ Hg); tauto | apply IH; [done | tauto]].
Qed.

(** Its statements get the same answers on every database that agrees on its
    locks. *)
Lemma replays_stable log : Forall entry_local log -> forall d work d', replays log d work ->
  agree_on (flat_map entry_locks log) d d' -> exists work', replays log d' work'.
Proof.
  induction 1 as [|[X L g x] log Hloc _ IH]; intros d work d'; cbn [replays flat_map entry_locks].
  - intros _ _. by exists d'.
  - intros (d1 & Hg & H) Hag. destruct (Hloc _ _ _ Hg) as [_ Hsame].
    destruct (Hsame d') as (d1' & Hg' & _); [intros k Hk; apply Hag, elem_of_app; by left |].
    destruct (IH d1 work d1' H) as (work' & Hw).
    + intros k Hk. eapply (local_agree L g d d1 d' d1'); [done | done | done | | ].
      * intros k' Hk'. apply Hag, elem_of_app. by left.
      * apply Hag, elem_of_app. by right.
    + exists work', d1'. done.
Qed.
End Replays.

(** ** Safe programs *)

Section Safe.
Context {D : MySql} {P : Protocol} (iso : isolation).

(** What happens to the database between two commands of a thread. *)
Definition rely (tx : TxState Tx) (d d' : Db) : Prop :=
  db_inv d' /\ rtc may_commit d d' /\ agree_on (tx_locks tx) d d'.

Fixpoint safe {A} (m : M A) (tx : TxState Tx) (cs : list (Db * Db)) (d : Db)
  (Q : outcome A -> TxState Tx -> list (Db * Db) -> Db -> Prop) : Prop :=
  match m with
  | Done r => Q r tx cs d
  | ReadClock k => forall z, safe (k z) tx cs d Q
  | NextId k => forall r, safe (k r) tx cs d Q
  | Exec L f k =>
      match tx with
      | TxOpen x =>
          safe (k None) TxAborted cs d Q
          /\ forall d' work now d1 a, rely tx d d' -> replays (tx_log x) d' work ->
               f now work = Some (d1, a) ->
               local L (f now) /\ safe (k (Some a)) (TxOpen (push L (f now) a x)) cs d' Q
      | _ => safe (k None) tx cs d Q
      end
  | Query g k =>
      match tx with
      | TxOpen x =>
          safe (k None) TxAborted cs d Q
          /\ forall d' work a, rely tx d d' -> replays (tx_log x) d' work ->
               let snap := snapshot_of iso x d' in
               g (overlay snap d' work) = Some a ->
               safe (k (Some a)) (TxOpen (mkTx (Some snap) (tx_log x))) cs d' Q
      | _ => safe (k None) tx cs d Q
      end
  | Client L f k =>
      safe (k None) tx cs d Q
      /\ forall d' now d1 a, rely tx d d' -> f now d' = Some (d1, a) ->
           framed L (f now) /\ may_commit d' d1
           /\ safe (k (Some a)) tx (cs ++ [(d', d1)]) d1 Q /\ safe (k None) tx (cs ++ [(d', d1)]) d1 Q
  | Begin k =>
      safe (k (Some StdException)) tx cs d Q /\ safe (k (Some DbException)) tx cs d Q
      /\ safe (k None) (TxOpen tx_begin) cs d Q
  | Commit k =>
      match tx with
      | NoTx | TxFinished => safe (k (Some StdException)) tx cs d Q
      | TxAborted => safe (k (Some DbException)) TxAborted cs d Q
      | TxOpen x =>
          safe (k (Some DbException)) TxAborted cs d Q
          /\ forall d' work, rely tx d d' -> replays (tx_log x) d' work ->
               may_commit d' work
               /\ safe (k None) TxFinished (cs ++ [(d', work)]) work Q
               /\ safe (k (Some DbException)) TxAborted (cs ++ [(d', work)]) work Q
      end
  | Close k => safe k NoTx cs d Q
  end.

Lemma rely_trans tx d1 d2 d3 : rely tx d1 d2 -> rely tx d2 d3 -> rely tx d1 d3.
Proof. intros (_ & R1 & A1) (I & R2 & A2). split; [done |]. split; etransitivity; eauto. Qed.

Lemma rely_weaken tx tx' d d' : (forall k, k ∈ tx_locks tx' -> k ∈ tx_locks tx) ->
  rely tx d d' -> rely tx' d d'.
Proof. intros Hsub (I & R & Ag). split; [done |]. split; [done |]. intros k Hk. auto. Qed.

Lemma rely_no_locks tx tx' d d' : tx_locks tx' = [] -> rely tx d d' -> rely tx' d d'.
Proof. intros H. apply rely_weaken. rewrite H. by intros k ?%elem_of_nil. Qed.

(** Postconditions that later commits do not invalidate. *)
Definition stable {A} (Q : outcome A -> TxState Tx -> list (Db * Db) -> Db -> Prop) : Prop :=
  forall r tx cs d d', rely tx d d' -> Q r tx cs d -> Q r tx cs d'.

(** What the others do meanwhile leaves a safe program safe. *)
Lemma safe_rely {A} (m : M A) Q : stable Q -> forall tx cs d d', safe m tx cs d Q -> rely tx d d' ->
  safe m tx cs d' Q.
Proof.
  intros HQ. induction m as [r | k IH | k IH | X L f k IH | X g k IH | X L f k IH | k IH | k IH | k IH];
    intros tx cs d d' Hs Hr; cbn [safe] in *.
  - by eapply HQ.
  - intros z. by eapply IH.
  - intros r. by eapply IH.
  - destruct tx as [| x | |]; try by eapply IH. destruct Hs as [Hfail Hok].
    split; [eapply IH; [done | by eapply rely_no_locks] |].
    intros d2 work now d1 a R2. apply Hok. by eapply rely_trans.
  - destruct tx as [| x | |]; try by eapply IH. destruct Hs as [Hfail Hok].
    split; [eapply IH; [done | by eapply rely_no_locks] |].
    intros d2 work a R2. apply Hok. by eapply rely_trans.
  - destruct Hs as [Hfail Hok]. split; [by eapply IH |].
    intros d2 now d1 a R2. apply Hok. by eapply rely_trans.
  - destruct Hs as (H1 & H2 & H3). split_and!; [by eapply IH | by eapply IH |].
    eapply IH; [done | by eapply rely_no_locks].
  - destruct tx as [| x | |]; try by eapply IH. destruct Hs as [Hfail Hok].
    split; [eapply IH; [done | by eapply rely_no_locks] |].
    intros d2 work R2. apply Hok. by eapply rely_trans.
  - eapply IH; [done | by eapply rely_no_locks].
Qed.

(** ** Rules *)

(** A program does not look at the commits that came before it. *)
Lemma safe_after {A} before (m : M A) (Q : outcome A -> TxState Tx -> list (Db * Db) -> Db -> Prop) tx cs d :
  safe m tx cs d Q ->
  safe m tx (before ++ cs) d (fun r tx cs' d => exists mine, cs' = before ++ mine /\ Q r tx mine d).
Proof.
  revert tx cs d.
  induction m as [r | k IH | k IH | X L f k IH | X g k IH | X L f k IH | k IH | k IH | k IH];
    intros tx cs d Hs; cbn [safe] in *; try by eauto.
  - destruct tx as [| x | |]; try by eauto. destruct Hs as [Hfail Hok]. split; [by eauto |].
    intros d' work now d1 a Hr W F. destruct (Hok d' work now d1 a Hr W F). split; eauto.
  - destruct tx as [| x | |]; try by eauto. destruct Hs as [Hfail Hok]. split; eauto.
  - destruct Hs as [Hfail Hok]. split; [by eauto |].
    intros d' now d1 a Hr F. destruct (Hok d' now d1 a Hr F) as (? & ? & ? & ?). rewrite <- app_assoc. split_and!; eauto.
  - destruct Hs as (? & ? & ?). split_and!; eauto.
  - destruct tx as [| x | |]; try by eauto. destruct Hs as [Hfail Hok]. split; [by eauto |].
    intros d' work Hr W. destruct (Hok d' work Hr W) as (? & ? & ?). rewrite <- app_assoc. split_and!; eauto.
Qed.

(** Weakening of the postcondition. *)
Lemma safe_mono {A} (m : M A) (Q R : outcome A -> TxState Tx -> list (Db * Db) -> Db -> Prop) tx cs d :
  safe m tx cs d Q -> (forall r tx cs d, Q r tx cs d -> R r tx cs d) -> safe m tx cs d R.
Proof.
  intros Hs HQ. revert tx cs d Hs.
  induction m as [r | k IH | k IH | X L f k IH | X g k IH | X L f k IH | k IH | k IH | k IH];
    intros tx cs d Hs; cbn [safe] in *; try by eauto.
  - destruct tx as [| x | |]; try by eauto. destruct Hs as [Hfail Hok]. split; [by eauto |].
    intros d' work now d1 a Hr W F. destruct (Hok d' work now d1 a Hr W F). split; eauto.
  - destruct tx as [| x | |]; try by eauto. destruct Hs as [Hfail Hok]. split; eauto.
  - destruct Hs as [Hfail Hok]. split; [by eauto |].
    intros d' now d1 a Hr F. destruct (Hok d' now d1 a Hr F) as (? & ? & ? & ?). split_and!; eauto.
  - destruct Hs as (? & ? & ?). split_and!; eauto.
  - destruct tx as [| x | |]; try by eauto. destruct Hs as [Hfail Hok]. split; [by eauto |].
    intros d' work Hr W. destruct (Hok d' work Hr W) as (? & ? & ?). split_and!; eauto.
Qed.

Section Rules.
Context {A B : Type}.
Implicit Types (Q : outcome A -> TxState Tx -> list (Db * Db) -> Db -> Prop).
Implicit Types (R : outcome B -> TxState Tx -> list (Db * Db) -> Db -> Prop).

(** Sequencing: [h] takes over where [m] ends. *)
Lemma safe_graft (h : outcome A -> M B) R (m : M A) Q tx cs d :
  safe m tx cs d Q -> (forall r tx cs d, Q r tx cs d -> safe (h r) tx cs d R) ->
  safe (graft h m) tx cs d R.
Proof.
  intros Hs HQ. revert tx cs d Hs.
  induction m as [r | k IH | k IH | X L f k IH | X g k IH | X L f k IH | k IH | k IH | k IH];
    intros tx cs d Hs; cbn [graft safe] in *.
  - by apply HQ.
  - intros z. by apply IH.
  - intros r. by apply IH.
  - destruct tx as [| x | |]; try by apply IH. destruct Hs as [Hfail Hok]. split; [by apply IH |].
    intros d' work now d1 a Hr W F. destruct (Hok d' work now d1 a Hr W F). split; [done | by apply IH].
  - destruct tx as [| x | |]; try by apply IH. destruct Hs as [Hfail Hok]. split; [by apply IH |].
    intros d' work a Hr W F. apply IH. by apply (Hok d' work a).
  - destruct Hs as [Hfail Hok]. split; [by apply IH |].
    intros d' now d1 a Hr F. destruct (Hok d' now d1 a Hr F) as (Hl & Hc & H1 & H2). split_and!; auto.
  - destruct Hs as (H1 & H2 & H3). split_and!; by apply IH.
  - destruct tx as [| x | |]; try by apply IH. destruct Hs as [Hfail Hok]. split; [by apply IH |].
    intros d' work Hr W. destruct (Hok d' work Hr W) as (Hc & H1 & H2). split_and!; auto.
  - by apply IH.
Qed.

Lemma safe_bind (m : M A) (k : A -> M B) R tx cs d :
  safe m tx cs d (fun r tx' cs' d' =>
    match r with
    | Ret a => safe (k a) tx' cs' d' R
    | Throw e => R (Throw e) tx' cs' d'
    | Hang => R Hang tx' cs' d'
    | Undefined => R Undefined tx' cs' d'
    end) -> safe (m ≫= k) tx cs d R.
Proof. intros H. eapply safe_graft; [exact H |]. by intros []. Qed.
End Rules.

Lemma safe_try_catch {A} (m : M A) h Q R tx cs d : safe m tx cs d Q ->
  (forall r tx' cs' d', Q r tx' cs' d' ->
     match r with Throw e => safe (h e) tx' cs' d' R | r => R r tx' cs' d' end) ->
  safe (try_catch m h) tx cs d R.
Proof. intros H HQ. eapply safe_graft; [exact H |]. intros [] ? ? ? Hr; by apply HQ in Hr. Qed.

Lemma safe_ret {A} (a : A) Q tx cs d : Q (Ret a) tx cs d -> safe (mret a) tx cs d Q.
Proof. done. Qed.

Lemma safe_throw {A} e (Q : outcome A -> TxState Tx -> list (Db * Db) -> Db -> Prop) tx cs d :
  Q (Throw e) tx cs d -> safe (throw e) tx cs d Q.
Proof. done. Qed.

Lemma safe_or_throw {A} (o : option A) Q tx cs d : (forall a, o = Some a -> Q (Ret a) tx cs d) ->
  (o = None -> Q (Throw StdException) tx cs d) -> safe (or_throw o) tx cs d Q.
Proof. destruct o; intros H1 H2; [by apply H1 | by apply H2]. Qed.

Lemma safe_read_clock Q tx cs d : (forall z, Q (Ret z) tx cs d) -> safe read_clock tx cs d Q.
Proof. done. Qed.

Lemma safe_next_id Q tx cs d : (forall id, Q (Ret id) tx cs d) -> Q (Throw StdException) tx cs d ->
  Q Hang tx cs d -> safe next_id tx cs d Q.
Proof. intros H1 H2 H3 []; [apply H1 | exact H2 | exact H3]. Qed.

(** A statement of the transaction, on some later database. *)
Lemma safe_exec {X} L (f : Z -> Db -> option (Db * X)) x cs d Q : (forall now, local L (f now)) ->
  Q (Throw DbException) TxAborted cs d ->
  (forall d' work now d1 a, rely (TxOpen x) d d' -> replays (tx_log x) d' work -> f now work = Some (d1, a) ->
     Q (Ret a) (TxOpen (push L (f now) a x)) cs d') ->
  safe (exec L f) (TxOpen x) cs d Q.
Proof.
  intros Hl Hfail Hok. split; [exact Hfail |]. intros d' work now d1 a R W F. split; [done |].
  by apply (Hok d' work now d1 a R W).
Qed.

(** The snapshot of a transaction is a past of the database. *)
Definition fresh (so : option Db) (d : Db) : Prop :=
  forall s, so = Some s -> db_inv s /\ rtc may_commit s d.

Lemma fresh_later so d d' : fresh so d -> rtc may_commit d d' -> fresh so d'.
Proof. intros H R s Hs. destruct (H s Hs). split; [done | by etransitivity]. Qed.

(** A query, on a snapshot that is a past of the database. *)
Lemma safe_query {X} (g : Db -> option X) so log cs d Q : fresh so d ->
  Q (Throw DbException) TxAborted cs d ->
  (forall d' work s a, rely (TxOpen (mkTx so log)) d d' -> replays log d' work ->
     fresh (Some s) d' -> g (overlay s d' work) = Some a ->
     Q (Ret a) (TxOpen (mkTx (Some s) log)) cs d') ->
  safe (query g) (TxOpen (mkTx so log)) cs d Q.
Proof.
  intros Hfresh Hfail Hok. split; [exact Hfail |]. intros d' work a R W snap F. apply (Hok d' work snap a R W); [| done].
  destruct R as (I & R & _). intros s [= <-]. unfold snap, snapshot_of. cbn [tx_snapshot].
  destruct iso, so as [s0|]; cbn; try (split; [done | apply rtc_refl]).
  destruct (Hfresh s0 eq_refl). split; [done | by etransitivity].
Qed.

(** An autocommitted statement. *)
Lemma safe_client {X} L (f : Z -> Db -> option (Db * X)) tx cs d Q : (forall now, framed L (f now)) ->
  Q (Throw DbException) tx cs d ->
  (forall d' now d1 a, rely tx d d' -> f now d' = Some (d1, a) ->
     may_commit d' d1 /\ Q (Ret a) tx (cs ++ [(d', d1)]) d1 /\ Q (Throw DbException) tx (cs ++ [(d', d1)]) d1) ->
  safe (exec_client L f) tx cs d Q.
Proof.
  intros Hl Hfail Hok. split; [exact Hfail |]. intros d' now d1 a R F. split; [done |].
  by apply (Hok d' now d1 a R).
Qed.

(** The scope of a guard, for a postcondition that ignores the transaction. *)
Lemma safe_with_guard {A} (body : M A) Q cs d :
  (forall r tx cs' d', Q r tx cs' d' -> Q r NoTx cs' d') ->
  Q (Throw StdException) NoTx cs d -> Q (Throw DbException) NoTx cs d ->
  safe body (TxOpen tx_begin) cs d Q -> safe (with_guard body) NoTx cs d Q.
Proof.
  intros HQ Hstd Hdb Hbody. apply safe_bind. split_and!; [exact Hstd | exact Hdb |].
  eapply safe_graft; [exact Hbody |]. intros [] ? ? ? Hr; cbn; eauto.
Qed.

(** The commit of a transaction. *)
Lemma safe_commit x cs d Q :
  Q (Throw DbException) TxAborted cs d ->
  (forall d' work, rely (TxOpen x) d d' -> replays (tx_log x) d' work ->
     may_commit d' work
     /\ Q (Ret tt) TxFinished (cs ++ [(d', work)]) work
     /\ Q (Throw DbException) TxAborted (cs ++ [(d', work)]) work) ->
  safe guard_commit (TxOpen x) cs d Q.
Proof. intros Hfail Hok. by split. Qed.

(** ** Soundness *)

Section Soundness.
Context {Q A : Type} (program : Q -> M A) (post : Q -> outcome A -> list (Db * Db) -> Db -> Prop).
Context (post_stable : forall q r cs d d', db_inv d' -> rtc may_commit d d' ->
  post q r cs d -> post q r cs d').

Definition ends (q : Q) (r : outcome A) (_ : TxState Tx) (cs : list (Db * Db)) (d : Db) : Prop :=
  post q r cs d.

Lemma ends_stable q : stable (ends q).
Proof. intros r tx cs d d' (I & R & _). by apply post_stable. Qed.

Definition thread_ok (d : Db) (t : Thread Q A) : Prop :=
  safe (th_prog t) (th_tx t) (th_commits t) d (ends (th_request t))
  /\ match th_tx t with
     | TxOpen x => Forall entry_local (tx_log x) /\ exists work, replays (tx_log x) d work
     | _ => True
     end.

(** The others' commits leave a thread as it is. *)
Lemma thread_ok_rely d d' t : thread_ok d t -> rely (th_tx t) d d' -> thread_ok d' t.
Proof.
  intros [Hs Hx] Hr. split; [eapply safe_rely; eauto using ends_stable |].
  destruct (th_tx t) as [| x | |]; [done | | done | done]. destruct Hx as [Hloc (work & Hw)].
  split; [done |]. destruct Hr as (_ & _ & Hag). by eapply replays_stable.
Qed.

Lemma unlocked_spec L held : unlocked L held = true -> forall k, k ∈ L -> k ∉ held.
Proof.
  unfold unlocked. rewrite forallb_forall. intros H k Hk. apply list_elem_of_In in Hk.
  apply H in Hk. by apply bool_decide_eq_true in Hk.
Qed.

(** What one step of a thread does to the database and to the locks that the
    other threads hold. *)
Definition step_ok (held : list row_key) (d d' : Db) (t' : Thread Q A) : Prop :=
  db_inv d' /\ rtc may_commit d d' /\ agree_on held d d'
  /\ (forall k, k ∈ tx_locks (th_tx t') -> k ∉ held) /\ thread_ok d' t'.

Lemma step_ok_same held d (t' : Thread Q A) : db_inv d ->
  (forall k, k ∈ tx_locks (th_tx t') -> k ∉ held) -> thread_ok d t' -> step_ok held d d t'.
Proof. intros Hi Hl Ht. split; [done |]. split; [apply rtc_refl |]. split; [reflexivity | done]. Qed.

Lemma no_locks_ok (held : list row_key) (tx : TxState Tx) : tx_locks tx = [] -> forall k, k ∈ tx_locks tx -> k ∉ held.
Proof. intros ->. by intros k ?%elem_of_nil. Qed.

Lemma rely_refl tx d : db_inv d -> rely tx d d.
Proof. intros Hi. split; [done |]. split; [apply rtc_refl | reflexivity]. Qed.

(** A commit of [work] by the thread that holds the locks of [log]. *)
Lemma step_ok_commit held d work log (t' : Thread Q A) : db_inv d -> may_commit d work ->
  Forall entry_local log -> replays log d work ->
  (forall k, k ∈ flat_map entry_locks log -> k ∉ held) -> tx_locks (th_tx t') = [] ->
  thread_ok work t' -> step_ok held d work t'.
Proof.
  intros Hi Hc Hloc Hw Hdis Hl Ht. split; [by eapply may_commit_inv |]. split; [by apply rtc_once |].
  split; [| split; [by apply no_locks_ok | done]].
  intros k Hk. eapply replays_frame; eauto. intros Hin. by apply (Hdis k).
Qed.

(** A step that commits nothing and acquires nothing. *)
Ltac stay :=
  intros [= <- <-]; apply step_ok_same; [done | first [done | by apply no_locks_ok] | by split].

Lemma exec_step_ok {X} c held d q L (f : Z -> Db -> option (Db * X)) k x cs d' t' :
  let t := mkThread q (Exec L f k) (TxOpen x) cs in
  db_inv d -> thread_ok d t -> (forall k, k ∈ tx_locks (TxOpen x) -> k ∉ held) ->
  thread_step iso c held d t = Some (d', t') -> step_ok held d d' t'.
Proof.
  intros t Hi [[Hfail Hok] [Hloc (work & Hw)]] Hdis. unfold thread_step, t. cbn [th_prog th_tx th_request th_commits].
  destruct (ch_ok c); cbn [negb]; [| stay].
  destruct (unlocked L held) eqn:Hun; [| done]. rewrite (replays_replay _ _ _ Hw). cbn [mbind option_bind].
  destruct (f (ch_now c) work) as [[d1 a]|] eqn:Hf; [| stay]. intros [= <- <-].
  destruct (Hok d work (ch_now c) d1 a (rely_refl _ d Hi) Hw Hf) as [Hl Hsafe].
  apply step_ok_same; [done | |].
  - intros k0. cbn [th_tx tx_locks push tx_log]. rewrite flat_map_app, elem_of_app. cbn [flat_map entry_locks].
    rewrite app_nil_r. intros [Hk | Hk]; [by apply Hdis | by eapply unlocked_spec].
  - split; [done |]. cbn [th_tx push tx_log]. split; [by rewrite Forall_app, Forall_singleton |].
    exists d1. apply replays_snoc. by exists work.
Qed.

Lemma query_step_ok {X} c held d q (g : Db -> option X) k x cs d' t' :
  let t := mkThread q (Query g k) (TxOpen x) cs in
  db_inv d -> thread_ok d t -> (forall k, k ∈ tx_locks (TxOpen x) -> k ∉ held) ->
  thread_step iso c held d t = Some (d', t') -> step_ok held d d' t'.
Proof.
  intros t Hi [[Hfail Hok] [Hloc (work & Hw)]] Hdis. unfold thread_step, t. cbn [th_prog th_tx th_request th_commits].
  rewrite (replays_replay _ _ _ Hw). cbn [mbind option_bind].
  destruct (ch_ok c); [| stay]. destruct (g _) as [a|] eqn:Hg; [| stay]. intros [= <- <-].
  apply step_ok_same; [done | done |].
  split; [by apply (Hok d work a (rely_refl _ d Hi) Hw) | split; [done | by exists work]].
Qed.

Lemma client_step_ok {X} c held d q L (f : Z -> Db -> option (Db * X)) k tx cs d' t' :
  let t := mkThread q (Client L f k) tx cs in
  db_inv d -> thread_ok d t -> (forall k, k ∈ tx_locks tx -> k ∉ held) ->
  thread_step iso c held d t = Some (d', t') -> step_ok held d d' t'.
Proof.
  intros t Hi [[Hfail Hok] Hx] Hdis. unfold thread_step, t. cbn [th_prog th_tx th_request th_commits] in *.
  destruct (ch_ok c); cbn [negb]; [| stay].
  destruct (unlocked L _) eqn:Hun; [| done].
  destruct (f (ch_now c) d) as [[d1 a]|] eqn:Hf; [| stay].
  destruct (Hok d (ch_now c) d1 a (rely_refl _ d Hi) Hf) as (Hl & Hc & Hret & Hlost).
  assert (Hag : agree_on (tx_locks tx ++ held) d d1).
  { intros k0 Hk. apply (Hl _ _ _ Hf). intros Hin. by apply (unlocked_spec _ _ Hun k0). }
  assert (Hr : rely tx d d1).
  { split; [by eapply may_commit_inv |]. split; [by apply rtc_once |].
    intros k0 Hk. apply Hag, elem_of_app. by left. }
  assert (Hstep : forall m', safe m' tx (cs ++ [(d, d1)]) d1 (ends q) ->
    step_ok held d d1 (mkThread q m' tx (cs ++ [(d, d1)]))).
  { intros m' Hm'. split; [apply Hr |]. split; [apply Hr |]. split; [| split; [done |]].
    - intros k0 Hk. apply Hag, elem_of_app. by right.
    - split; [done |]. cbn [th_tx]. destruct tx as [| x | |]; [done | | done | done].
      destruct Hx as [Hloc (work & Hw)]. split; [done |].
      destruct Hr as (_ & _ & Hr). by eapply replays_stable. }
  destruct (ch_fate c); [| stay |]; intros [= <- <-]; by apply Hstep.
Qed.

Lemma commit_step_ok c held d q k x cs d' t' :
  let t := mkThread q (Commit k) (TxOpen x) cs in
  db_inv d -> thread_ok d t -> (forall k, k ∈ tx_locks (TxOpen x) -> k ∉ held) ->
  thread_step iso c held d t = Some (d', t') -> step_ok held d d' t'.
Proof.
  intros t Hi [[Hfail Hok] [Hloc (work & Hw)]] Hdis. unfold thread_step, t. cbn [th_prog th_tx th_request th_commits].
  rewrite (replays_replay _ _ _ Hw).
  destruct (Hok d work (rely_refl _ d Hi) Hw) as (Hc & Hret & Hlost).
  destruct (ch_fate c); [| stay |]; intros [= <- <-]; by eapply step_ok_commit.
Qed.

Lemma thread_step_ok c held d t d' t' : db_inv d -> thread_ok d t ->
  (forall k, k ∈ tx_locks (th_tx t) -> k ∉ held) ->
  thread_step iso c held d t = Some (d', t') -> step_ok held d d' t'.
Proof.
  intros Hi Ht Hdis. destruct t as [q m tx cs].
  destruct m as [r | k | k | X L f k | X g k | X L f k | k | k | k].
  - done.
  - destruct Ht as [Hs Hx]. intros [= <- <-]. apply step_ok_same; [done | done |]. split; [apply Hs | done].
  - destruct Ht as [Hs Hx]. intros [= <- <-]. apply step_ok_same; [done | done |]. split; [apply Hs | done].
  - destruct tx as [| x | |]; [| by apply exec_step_ok | |]; destruct Ht; cbn; stay.
  - destruct tx as [| x | |]; [| by apply query_step_ok | |]; destruct Ht; cbn; stay.
  - by apply client_step_ok.
  - destruct Ht as [(Hstd & Hdb & Hok) Hx]. unfold thread_step. cbn [th_prog th_tx th_request th_commits] in *.
    destruct (ch_client c); cbn [negb]; [| stay]. destruct (ch_ok c); [| stay]. intros [= <- <-].
    apply step_ok_same; [done | by apply no_locks_ok |].
    split; [done | split; [constructor | by exists d]].
  - destruct tx as [| x | |]; [| by apply commit_step_ok | |]; destruct Ht; cbn; stay.
  - destruct Ht. cbn. stay.
Qed.

(** ** Configurations *)

Definition conf_ok (w : Conf Q A) : Prop :=
  db_inv (cf_db w)
  /\ forall i t, cf_threads w !! i = Some t ->
       thread_ok (cf_db w) t
       /\ forall k, k ∈ tx_locks (th_tx t) -> k ∉ held_by_others i (cf_threads w).

Lemma held_by_others_spec i (ts : list (Thread Q A)) k : k ∈ held_by_others i ts <->
  exists j u, j <> i /\ ts !! j = Some u /\ k ∈ tx_locks (th_tx u).
Proof.
  unfold held_by_others. rewrite list_elem_of_In, in_flat_map. split.
  - intros (u & Hu & Hk). apply list_elem_of_In in Hu, Hk. rewrite elem_of_app in Hu.
    destruct Hu as [Hu | Hu].
    + apply elem_of_take in Hu as (j & Hj & Hlt). exists j, u. split; [lia | done].
    + apply list_elem_of_lookup in Hu as [n Hn]. rewrite lookup_drop in Hn. exists (S i + n)%nat, u. split; [lia | done].
  - intros (j & u & Hne & Hj & Hk). exists u. rewrite <- !list_elem_of_In. split; [| done].
    rewrite elem_of_app. destruct (decide (j < i)%nat).
    + left. apply elem_of_take. by exists j.
    + right. apply list_elem_of_lookup. exists (j - S i)%nat. rewrite lookup_drop.
      by replace (S i + (j - S i))%nat with j by lia.
Qed.

(** The locks of the threads other than [i] do not depend on the thread [i]. *)
Lemma held_by_others_insert i t' (ts : list (Thread Q A)) :
  held_by_others i (<[i := t']> ts) = held_by_others i ts.
Proof. unfold held_by_others. by rewrite take_insert_ge, drop_insert_lt by lia. Qed.

Lemma turn_ok i c w w' : conf_ok w -> turn iso i c w = Some w' ->
  conf_ok w' /\ rtc may_commit (cf_db w) (cf_db w').
Proof.
  intros [Hi Hts] H. unfold turn in H. apply bind_Some in H as (t & Ht & H).
  apply bind_Some in H as ([d' t'] & Hstep & [= <-]).
  destruct (Hts i t Ht) as [Hok Hdis].
  destruct (thread_step_ok _ _ _ _ _ _ Hi Hok Hdis Hstep) as (Hi' & Hr & Hag & Hdis' & Hok').
  split; [| done]. split; [done |]. cbn [cf_db cf_threads]. intros j u Hj.
  apply list_lookup_insert_Some in Hj as [(<- & -> & _) | [Hne Hj]].
  { split; [done |]. by rewrite held_by_others_insert. }
  destruct (Hts j u Hj) as [Huok Hudis].
  assert (Hheld : forall k, k ∈ tx_locks (th_tx u) -> k ∈ held_by_others i (cf_threads w)).
  { intros k Hk. apply held_by_others_spec. by exists j, u. }
  split.
  - eapply thread_ok_rely; [done |]. split; [done |]. split; [done |]. intros k Hk. auto.
  - intros k Hk (j' & u' & Hne' & Hj' & Hk')%held_by_others_spec.
    apply list_lookup_insert_Some in Hj' as [(<- & -> & _) | [Hne2 Hj']].
    + by apply (Hdis' k Hk'), Hheld.
    + apply (Hudis k Hk), held_by_others_spec. by exists j', u'.
Qed.

Lemma arrive_ok q w : safe (program q) NoTx [] (cf_db w) (ends q) -> conf_ok w -> conf_ok (arrive program q w).
Proof.
  intros Hsafe [Hi Hts]. split; [done |]. cbn [cf_db cf_threads arrive]. intros i t Ht.
  apply lookup_app_Some in Ht as [Ht | [Hge Ht]].
  - destruct (Hts i t Ht) as [Hok Hdis]. split; [done |].
    intros k Hk (j & u & Hne & Hj & Hku)%held_by_others_spec.
    apply lookup_app_Some in Hj as [Hj | [_ Hj]].
    + apply (Hdis k Hk), held_by_others_spec. by exists j, u.
    + apply list_lookup_singleton_Some in Hj as [_ <-]. by apply elem_of_nil in Hku.
  - apply list_lookup_singleton_Some in Ht as [_ <-]. split; [| by intros k ?%elem_of_nil].
    by split.
Qed.

Hypothesis program_safe : forall q d, db_inv d -> safe (program q) NoTx [] d (ends q).

Lemma conf_steps_ok w w' : conf_ok w -> rtc (conf_step iso program) w w' ->
  conf_ok w' /\ rtc may_commit (cf_db w) (cf_db w').
Proof.
  intros Hw H. induction H as [w | w w1 w' [q w0 | i c w0 w1' Ht] _ IH]; [split; [done | apply rtc_refl] | |].
  - apply IH, arrive_ok; [apply program_safe, Hw | done].
  - destruct (turn_ok _ _ _ _ Hw Ht) as [Hw1 Hr]. destruct (IH Hw1) as [Hw' Hr']. split; [done |].
    by etransitivity.
Qed.

(** ** The order of the commits *)

(** Every commit is in the past of the database, and of two commits of different
    threads one is in the past of the other. *)
Definition history_ok (w : Conf Q A) : Prop :=
  (forall i t c, cf_threads w !! i = Some t -> c ∈ th_commits t -> db_inv c.1 /\ rtc may_commit c.2 (cf_db w))
  /\ forall i j t u c c', i <> j -> cf_threads w !! i = Some t -> cf_threads w !! j = Some u ->
       c ∈ th_commits t -> c' ∈ th_commits u -> rtc may_commit c.2 c'.1 \/ rtc may_commit c'.2 c.1.

Lemma thread_step_commits c held d (t : Thread Q A) d' t' : thread_step iso c held d t = Some (d', t') ->
  (d' = d /\ th_commits t' = th_commits t) \/ th_commits t' = th_commits t ++ [(d, d')].
Proof.
  unfold thread_step. intros H. destruct (th_prog t); repeat case_match; try discriminate H;
    injection H as <- <-; cbn [th_commits]; first [by left | by right].
Qed.

Lemma turn_history i c w w' : conf_ok w -> history_ok w -> turn iso i c w = Some w' -> history_ok w'.
Proof.
  intros Hw [Hpast Hapart] H. pose proof (turn_ok _ _ _ _ Hw H) as [_ Hr]. destruct Hw as [Hi _].
  unfold turn in H. apply bind_Some in H as (t & Ht & H). apply bind_Some in H as ([d' t'] & Hstep & [= <-]).
  apply thread_step_commits in Hstep. cbn [cf_db cf_threads] in *.
  assert (Hnew : forall c', c' ∈ th_commits t' -> c' ∈ th_commits t \/ c' = (cf_db w, d')).
  { intros c' Hc'. destruct Hstep as [[_ E] | E]; rewrite E in Hc'; [by left |].
    apply elem_of_app in Hc' as [? | ->%list_elem_of_singleton]; [by left | by right]. }
  assert (Hapart1 : forall j u c1 c2, j <> i -> cf_threads w !! j = Some u -> c1 ∈ th_commits u -> c2 ∈ th_commits t' ->
    rtc may_commit c1.2 c2.1 \/ rtc may_commit c2.2 c1.1).
  { intros j u c1 c2 Hne Hu H1 [H2 | ->]%Hnew; [by eapply (Hapart j i) | left]. by apply (Hpast j u). }
  split; cbn [cf_db cf_threads].
  - intros j u c1 Hu H1. apply list_lookup_insert_Some in Hu as [(<- & -> & _) | [_ Hu]].
    + apply Hnew in H1 as [H1 | ->]; [| by split].
      destruct (Hpast i t c1 Ht H1). split; [done | by etransitivity].
    + destruct (Hpast j u c1 Hu H1). split; [done | by etransitivity].
  - intros j k u v c1 c2 Hne Hu Hv H1 H2.
    apply list_lookup_insert_Some in Hu as [(<- & -> & _) | [Hj Hu]];
      apply list_lookup_insert_Some in Hv as [(<- & -> & _) | [Hk Hv]]; [done | | | by eapply (Hapart j k)].
    + apply or_comm. by eapply (Hapart1 k v).
    + by eapply (Hapart1 j u).
Qed.

Lemma arrive_history q w : history_ok w -> history_ok (arrive program q w).
Proof.
  intros [Hpast Hapart].
  assert (Hold : forall i t c, cf_threads (arrive program q w) !! i = Some t -> c ∈ th_commits t ->
    cf_threads w !! i = Some t).
  { intros i t c Ht Hc. cbn in Ht. apply lookup_app_Some in Ht as [Ht | [_ Ht]]; [done |].
    apply list_lookup_singleton_Some in Ht as [_ <-]. by apply elem_of_nil in Hc. }
  split.
  - intros i t c Ht Hc. by eapply Hpast; [eapply Hold |].
  - intros i j t u c c' Hne Ht Hu Hc Hc'. by eapply (Hapart i j); [| eapply Hold | eapply Hold | |].
Qed.

Lemma conf_steps_history w w' : conf_ok w -> history_ok w -> rtc (conf_step iso program) w w' -> history_ok w'.
Proof.
  intros Hw Hh H. induction H as [w | w w1 w' [q w0 | i c w0 w1' Ht] _ IH]; [done | |].
  - apply IH; [apply arrive_ok; [apply program_safe, Hw | done] | by apply arrive_history].
  - apply IH; [apply (turn_ok _ _ _ _ Hw Ht) | by eapply turn_history].
Qed.

(** Every configuration that is reached from an idle server keeps the invariant, has
    evolved by allowed commits, and a program that has ended meets its
    postcondition. *)
Lemma conf_safe d w : db_inv d -> rtc (conf_step iso program) (mkConf d []) w ->
  db_inv (cf_db w) /\ rtc may_commit d (cf_db w)
  /\ forall t r, t ∈ cf_threads w -> th_prog t = Done r -> post (th_request t) r (th_commits t) (cf_db w).
Proof.
  intros Hd H. assert (Hw : conf_ok (mkConf d [])) by (split; [done | by intros [] t]).
  destruct (conf_steps_ok _ _ Hw H) as [[Hi Hts] Hr]. split; [done |]. split; [done |].
  intros t r Hin Hp. apply list_elem_of_lookup in Hin as [i Ht].
  destruct (Hts i t Ht) as [[Hs _] _]. by rewrite Hp in Hs.
Qed.
End Soundness.
End Safe.
