(* ===== verification/Server.v ===== *)
(** * Server: a concrete MySQL

    An instance of [Database.MySql] that satisfies [MySqlLaws], with the column
    limits counted in bytes and a binary collation; oracles without faults; and a
    small database.  The witnesses evaluate the services on them. *)

From S2P Require Import Prelude MoneyUtil IdGenerator BeijingTime Models Database Transaction Daos Invariant.

(** ** Parsing *)

Definition num_at (i n : nat) (s : string) : Z := dec_val (String.substring i n s).

(** Exactly the canonical strings are accepted. *)
Definition scan_datetime (s : string) : Z :=
  tm_seconds (mkTm (num_at 0 4 s) (num_at 5 2 s) (num_at 8 2 s)
                   (num_at 11 2 s) (num_at 14 2 s) (num_at 17 2 s)).

Definition scan_date (s : string) : Z := days_from_civil (num_at 0 4 s) (num_at 5 2 s) (num_at 8 2 s).

Definition parse_datetime_lib (s : string) : option Z :=
  if String.eqb (format_datetime (scan_datetime s)) s then Some (scan_datetime s) else None.

Definition parse_date_lib (s : string) : option Z :=
  if String.eqb (format_date (scan_date s)) s then Some (scan_date s) else None.

Definition cast_unsigned (s : string) : option Z :=
  match split_dot s with
  | (a, Some f) =>
      if str_all is_digit a && str_all is_digit f && (String.length f =? 2)%nat
      then Some (dec_val a * 100 + dec_val f) else None
  | (a, None) => if str_all is_digit a then Some (dec_val a * 100) else None
  end.

Definition cast_decimal_lib (s : string) : option Z :=
  z ← (match s with
       | String c rest => if schar c =? 45 then Z.opp <$> cast_unsigned rest else cast_unsigned s
       | "" => None
       end);
  if decimal_ok z then Some z else None.

Definition lib : MySql := {|
  weight s := s;
  varchar_ok n s := (String.length s <=? n)%nat;
  text_ok s := (Z.of_nat (String.length s) <=? 65535);
  cast_decimal := cast_decimal_lib;
  parse_datetime := parse_datetime_lib;
  parse_date := parse_date_lib
|}.

(** ** The laws *)

Lemma str_length_S n s : String.length s = S n -> exists c r, s = String c r /\ String.length r = n.
Proof. destruct s as [|c r]; [done |]. intros [= H]. by exists c, r. Qed.

Lemma str_length_0 s : String.length s = 0%nat -> s = "".
Proof. by destruct s. Qed.

(** Writes a string of known length as its characters. *)
Ltac chars H :=
  repeat (let c := fresh "c" in let r := fresh "r" in let Hr := fresh "Hr" in
          apply str_length_S in H as (c & r & -> & Hr); rename Hr into H);
  apply str_length_0 in H as ->.

Ltac eval_substring :=
  cbn [String.append]; unfold num_at; cbn [String.substring].

Lemma num_at_datetime y mo d h mi s :
  String.length y = 4%nat -> String.length mo = 2%nat -> String.length d = 2%nat ->
  String.length h = 2%nat -> String.length mi = 2%nat -> String.length s = 2%nat ->
  let x := (y +:+ "-" +:+ mo +:+ "-" +:+ d) +:+ " " +:+ h +:+ ":" +:+ mi +:+ ":" +:+ s in
  num_at 0 4 x = dec_val y /\ num_at 5 2 x = dec_val mo /\ num_at 8 2 x = dec_val d
  /\ num_at 11 2 x = dec_val h /\ num_at 14 2 x = dec_val mi /\ num_at 17 2 x = dec_val s.
Proof.
  intros Hy Hmo Hd Hh Hmi Hs. chars Hy. chars Hmo. chars Hd. chars Hh. chars Hmi. chars Hs.
  eval_substring. done.
Qed.

Lemma num_at_date y mo d :
  String.length y = 4%nat -> String.length mo = 2%nat -> String.length d = 2%nat ->
  let x := y +:+ "-" +:+ mo +:+ "-" +:+ d in
  num_at 0 4 x = dec_val y /\ num_at 5 2 x = dec_val mo /\ num_at 8 2 x = dec_val d.
Proof. intros Hy Hmo Hd. chars Hy. chars Hmo. chars Hd. eval_substring. done. Qed.

Lemma scan_datetime_format t : time_in_range t -> scan_datetime (format_datetime t) = t.
Proof.
  intros Ht. destruct (gmtime_in_range t Ht) as (b & Hb & [Hy Hmo Hd Hh Hmi Hs] & Hsec).
  unfold format_datetime. rewrite Hb.
  destruct (year_string _ Hy) as [Ly Vy].
  destruct (pad2_spec (tm_mon b)) as (Lmo & Vmo & _); [lia |].
  destruct (pad2_spec (tm_mday b)) as (Ld & Vd & _); [lia |].
  destruct (pad2_spec (tm_hour b)) as (Lh & Vh & _); [lia |].
  destruct (pad2_spec (tm_min b)) as (Lmi & Vmi & _); [lia |].
  destruct (pad2_spec (tm_sec b)) as (Ls & Vs & _); [lia |].
  destruct (num_at_datetime _ _ _ _ _ _ Ly Lmo Ld Lh Lmi Ls) as (E1 & E2 & E3 & E4 & E5 & E6).
  change (tm_or_zero (Some b)) with b. unfold scan_datetime, strftime_datetime, strftime_date.
  rewrite E1, E2, E3, E4, E5, E6, Vy, Vmo, Vd, Vh, Vmi, Vs. rewrite <- Hsec at 1. by destruct b.
Qed.

Lemma scan_date_format d : time_in_range (d * 86400) -> scan_date (format_date d) = d.
Proof.
  intros Ht. destruct (gmtime_in_range _ Ht) as (b & Hb & [Hy Hmo Hd Hh Hmi Hs] & Hsec).
  unfold format_date. rewrite Hb.
  destruct (year_string _ Hy) as [Ly Vy].
  destruct (pad2_spec (tm_mon b)) as (Lmo & Vmo & _); [lia |].
  destruct (pad2_spec (tm_mday b)) as (Ld & Vd & _); [lia |].
  destruct (num_at_date _ _ _ Ly Lmo Ld) as (E1 & E2 & E3).
  change (tm_or_zero (Some b)) with b. unfold scan_date, strftime_date.
  rewrite E1, E2, E3, Vy, Vmo, Vd. unfold tm_seconds in Hsec. lia.
Qed.

Lemma cast_unsigned_literal q r : 0 <= q -> 0 <= r < 100 ->
  cast_unsigned (dec q +:+ "." +:+ (if r <? 10 then "0" else "") +:+ dec r) = Some (q * 100 + r).
Proof.
  intros Hq Hr. destruct (pad2_spec r ltac:(lia)) as (Hl & Hv & Hd). unfold pad2 in *.
  rewrite to_string_nonneg in * by lia. unfold cast_unsigned.
  pose proof (split_dot_digits (dec q) (Some ((if r <? 10 then "0" else "") +:+ dec r))
    (dec_digits q Hq)) as Hs. cbn [frac_string] in Hs. rewrite Hs.
  by rewrite dec_digits, Hd, Hl, dec_val_dec, Hv.
Qed.

Lemma cast_decimal_lib_fen f : Z.abs f < decimal_limit -> cast_decimal_lib (fenToYuanString f) = Some f.
Proof.
  intros Hf. assert (Hi : in_i64 f) by (unfold decimal_limit, in_i64 in *; lia).
  rewrite fenToYuanString_eq by done. unfold cast_decimal_lib.
  pose proof (Z.mod_pos_bound (Z.abs f) 100 ltac:(lia)) as Hm.
  assert (Hq : 0 <= Z.abs f / 100) by (apply Z.div_pos; lia).
  pose proof (cast_unsigned_literal _ _ Hq Hm) as Hc.
  pose proof (Z.div_mod (Z.abs f) 100 ltac:(lia)) as Hdm.
  assert (Hok : decimal_ok f = true) by (unfold decimal_ok; lia).
  destruct (Z.ltb_spec f 0) as [Hn | Hn]; cbn [String.append] in *.
  - change (schar "-" =? 45) with true. cbv iota. rewrite Hc. cbn.
    replace (- (Z.abs f / 100 * 100 + Z.abs f mod 100)) with f by lia. by rewrite Hok.
  - pose proof (dec_digits _ Hq) as Hd. pose proof (dec_nonempty _ Hq) as Hne.
    destruct (dec (Z.abs f / 100)) as [|c rest]; [simpl in Hne; lia |].
    cbn [str_all String.append] in *. apply andb_true_iff in Hd as [Hdc _].
    unfold is_digit in Hdc. replace (schar c =? 45) with false by (symmetry; apply Z.eqb_neq; lia).
    rewrite Hc. cbn. replace (Z.abs f / 100 * 100 + Z.abs f mod 100) with f by lia. by rewrite Hok.
Qed.

Lemma lib_laws : MySqlLaws (D := lib).
Proof.
  split.
  - done.
  - intros n s _ Hl. cbn. by apply Nat.leb_le.
  - apply cast_decimal_lib_fen.
  - intros t Ht. cbn. unfold parse_datetime_lib.
    by rewrite scan_datetime_format, String.eqb_refl.
  - intros d Hd. cbn. unfold parse_date_lib. by rewrite scan_date_format, String.eqb_refl.
Qed.

(** ** Oracles without faults *)

(** 2025-01-01 00:00:00 UTC and the milliseconds after it. *)
Definition calm : Env := {|
  db_configured := true;
  system_clock n := kEpochMs + 366 * 86400000 + Z.of_nat n;
  spin_fuel := 4096;
  db_now n := 1735718400 + Z.of_nat n;
  stmt_ok _ := true;
  fate _ := CommitApplied
|}.

Lemma calm_no_fault : no_fault (E := calm).
Proof. done. Qed.

(** ** A small database *)

Definition shop : Db := {|
  t_account := [mkAccountRow "A1" 7 100000 0 0 0; mkAccountRow "A2" 8 50 0 0 0];
  t_account_flow := [];
  t_product := [mkProductRow 1 "P1" "tea" 1999 10 0 1; mkProductRow 2 "P2" "cup" 500 3 0 0];
  t_order := [];
  t_payment := [];
  t_idempotent := [];
  t_local_message := [];
  t_notify_record := [];
  t_reconcile_batch := [];
  t_reconcile_diff := [];
  t_reconcile_diff_auto := 1
|}.

Definition open_shop : St := mkSt shop NoTx 0 0 id_init.

Ltac solve_nodup := cbn; repeat constructor; rewrite ?elem_of_cons, ?elem_of_nil; cbn; intuition congruence.

Lemma shop_wf : db_wf (D := lib) shop.
Proof.
  split; constructor; try solve [solve_nodup]; cbn.
  - unfold product_ok, price_limit. repeat constructor; cbn; lia.
  - unfold account_ok, decimal_limit. repeat constructor; cbn; lia.
Qed.

(** A request for three pieces of tea. *)
Definition tea_request : CreateOrderReq :=
  mkCreateOrderReq "aaaabbbbccccdddd" "00ff" 7 1 3.

(** The shop with one pending order of 59.97 yuan. *)
Definition ordered_shop : Db :=
  set_order [mkOrderRow "132633958813929472" "aaaabbbbccccdddd" 7 1 3 1999 5997 kPendingPayment 1735720200 None]
    shop.

Lemma ordered_shop_wf : db_wf (D := lib) ordered_shop.
Proof.
  split; constructor; try solve [solve_nodup]; cbn.
  - unfold product_ok, price_limit. repeat constructor; cbn; lia.
  - unfold account_ok, decimal_limit. repeat constructor; cbn; lia.
  - unfold order_ok, price_limit. repeat constructor; cbn; lia.
Qed.

Definition fresh_state (d : Db) : St := mkSt d NoTx 0 0 id_init.
