(* ===== verification/OrderService.v ===== *)
(** * OrderService: creating an order

    [src/services/OrderService.cc].  [createOrder] is the whole method; the
    theorems compare it with [order_effect], the abstract effect of an order on
    the tables. *)

From S2P Require Import Prelude MoneyUtil IdGenerator JsonValue Result BeijingTime Models Database Transaction Daos Invariant Server.

(** ** The code *)

Definition kCreateOrderApiPath : string := "/api/v1/orders".
Definition kMaxQuantity : Z := 999.
Definition kOrderExpireMinutes : Z := 30.
Definition kIdempotentExpireMinutes : Z := 24 * 60.

(** [CreateOrderOutcome]: the kind tells which of the two other members counts. *)
Inductive CreateOrderOutcome :=
  | kExecuted (result : Result Order)
  | kCached (cachedBody : string).

(** [buildIdempotentRecord], for the clock reading [nowMs]. *)
Definition buildIdempotentRecord (nowMs : Z) (req : CreateOrderReq) : Idempotent :=
  mkIdempotent (cr_requestId req) (cr_userId req) kCreateOrderApiPath (cr_requestHash req) "" kIdemProcessing
    (dbTimeAfter nowMs kIdempotentExpireMinutes).

(** The order of step 4. *)
Definition build_order (req : CreateOrderReq) (p : Product) (orderNo : string) (nowMs : Z) : Order :=
  mkOrder orderNo (cr_requestId req) (cr_userId req) (cr_productId req) (cr_quantity req)
    (p_priceFen p) (wrap64 (p_priceFen p * cr_quantity req)) kPendingPayment
    (dbTimeAfter nowMs kOrderExpireMinutes) "".

Section OrderService.
Context {D : MySql} {J : JsonCpp} {E : Env}.

(** The snapshot of the response, written without indentation. *)
Definition response_snapshot (r : Result Order) : string := jwriteCompact (toJson r).

(** Steps 4 to 6: the order of a product already deducted, its snapshot, the commit. *)
Definition createOrder_place (req : CreateOrderReq) (p : Product) : M CreateOrderOutcome :=
  orderNo ← next_id;
  nowMs ← read_clock;
  let order := build_order req p orderNo nowMs in
  order_insert order;;
  let response := ok order (cr_requestId req) in
  idem_markSuccess (cr_requestId req) (response_snapshot response);;
  guard_commit;;
  mret (kExecuted response).

(** Steps 2 and 3, once the idempotency key is acquired, then the rest. *)
Definition createOrder_execute (req : CreateOrderReq) : M CreateOrderOutcome :=
  product ← getById (cr_productId req);
  match product with
  | None => throw (BizException kProductNotFound "商品不存在")
  | Some p =>
      if negb (onSale p) then throw (BizException kProductNotFound "商品已下架")
      else
        n ← deductStock (cr_productId req) (cr_quantity req);
        if (n =? 0)%nat then throw (BizException kStockNotEnough "库存不足")
        else createOrder_place req p
  end.

(** The scope of the guard. *)
Definition createOrder_body (req : CreateOrderReq) : M CreateOrderOutcome :=
  nowMs ← read_clock;
  outcome ← tryAcquire (buildIdempotentRecord nowMs req);
  match outcome with
  | kCachedSuccess body => mret (kCached body)
  | kProcessing =>
      mret (kExecuted (fail kDuplicateRequest (toMessage kDuplicateRequest) (cr_requestId req)))
  | kAcquired => createOrder_execute req
  end.

(** [OrderService::createOrder]. *)
Definition createOrder (req : CreateOrderReq) : M CreateOrderOutcome :=
  if (cr_quantity req <=? 0) || (kMaxQuantity <? cr_quantity req)
  then mret (kExecuted (fail kParamInvalid "购买数量必须在 1~999 之间" (cr_requestId req)))
  else try_catch (with_guard (createOrder_body req))
         (fun e => mret (kExecuted (catch_result e (cr_requestId req)))).

(** ** The abstract effect *)

(** An order of [quantity] pieces of the product [p], taken from stock; its row;
    the idempotency record with the snapshot.  Nothing else changes. *)
Inductive order_effect (req : CreateOrderReq) : Order -> Db -> Db -> Prop :=
  | OrderEffect d t1 p t2 orderNo nowMs orow irow :
      0 < cr_quantity req <= kMaxQuantity ->
      t_product d = t1 ++ p :: t2 ->
      pr_id p = wrap64 (cr_productId req) ->
      pr_status p = 1 ->
      cr_quantity req <= pr_stock p ->
      let o := build_order req (product_of_row p) orderNo nowMs in
      order_row o = Some orow ->
      existsb (order_conflict orow) (t_order d) = false ->
      id_request_id irow = cr_requestId req ->
      id_status irow = kIdemSuccess ->
      id_response_body irow = Some (response_snapshot (ok o (cr_requestId req))) ->
      existsb (fun x => sql_eq (id_request_id x) (cr_requestId req)) (t_idempotent d) = false ->
      order_effect req o d
        (set_idempotent (t_idempotent d ++ [irow])
          (set_order (t_order d ++ [orow])
            (set_product (t1 ++ deducted (cr_quantity req) p :: t2) d))).

(** What a scope of the guard may leave, from the committed database [d]. *)
Definition execute_post (req : CreateOrderReq) (d : Db) (r : outcome CreateOrderOutcome) (st : St) : Prop :=
  match r with
  | Ret (kExecuted res) =>
      exists o, res = ok o (cr_requestId req) /\ order_effect req o d (committed st)
  | Ret (kCached _) => False
  | Throw (BizException c m) =>
      committed st = d
      /\ ((c = kProductNotFound
            /\ forall p, In p (t_product d) -> pr_id p = wrap64 (cr_productId req) -> pr_status p <> 1)
          \/ (c = kStockNotEnough
              /\ forall p, In p (t_product d) -> pr_id p = wrap64 (cr_productId req) -> pr_stock p < cr_quantity req))
  | Throw DbException =>
      committed st = d \/ exists o, order_effect req o d (committed st)
  | Throw StdException | Hang => committed st = d
  | Undefined => False
  end.

Lemma In_split_key pid t1 (p : ProductRow) t2 (x : ProductRow) :
  NoDup (map pr_id (t1 ++ p :: t2)) -> pr_id p = pid ->
  In x (t1 ++ p :: t2) -> pr_id x = pid -> x = p.
Proof.
  intros Hnd Hp Hin Hx. apply in_split in Hin as (l1 & l2 & Heq). rewrite Heq in Hnd.
  symmetry in Heq. by destruct (split_unique pr_id _ _ _ _ _ _ Hnd Heq) as (_ & -> & _); [congruence |].
Qed.

Lemma wp_createOrder_place req d t1 p t2 irow st :
  0 < cr_quantity req <= kMaxQuantity -> committed st = d -> t_product d = t1 ++ p :: t2 ->
  pr_id p = wrap64 (cr_productId req) -> pr_status p = 1 -> cr_quantity req <= pr_stock p ->
  view (set_product (t1 ++ deducted (cr_quantity req) p :: t2)
         (set_idempotent (t_idempotent d ++ [irow]) d)) st ->
  id_request_id irow = cr_requestId req -> id_status irow = kIdemProcessing ->
  existsb (fun x => sql_eq (id_request_id x) (cr_requestId req)) (t_idempotent d) = false ->
  wp (createOrder_place req (product_of_row p)) (execute_post req d) st.
Proof.
  intros Hq Hc Ht Hid Hsale Hstock Hv2 Hir Hip Hfresh. unfold createOrder_place.
  apply wp_bind. eapply wp_next_id; [exact Hv2 | | intros; same_db_tac..].
  intros orderNo st3 Hv3 Hs3 _.
  apply wp_bind. eapply wp_read_clock; [exact Hv3 |]. intros st4 Hv4 Hs4 _ _.
  set (o := build_order req (product_of_row p) orderNo (system_clock (readings st3))).
  apply wp_bind. eapply wp_exec; [exact Hv4 | intros; left; same_db_tac |].
  intros now5 st5 d5 u5 Hins _ Hv5 Hs5 _.
  apply order_insert_inv in Hins as (orow & Horow & Hconf & ->).
  apply wp_bind. eapply wp_exec; [exact Hv5 | intros; left; same_db_tac |].
  intros now6 st6 d6 u6 Hmark _ Hv6 Hs6 _.
  eapply idem_markSuccess_inv in Hmark; [| done | done | done | done].
  destruct Hmark as (irow' & Hirow & ->).
  cbn in Hv6. apply wp_bind.
  assert (Heff : order_effect req o d
    (set_idempotent (t_idempotent d ++ [irow'])
      (set_order (t_order d ++ [orow]) (set_product (t1 ++ deducted (cr_quantity req) p :: t2) d)))).
  { unfold success_row in Hirow. apply bind_Some in Hirow as (? & _ & [= <-]).
    by eapply OrderEffect. }
  eapply wp_guard_commit; [exact Hv6 | | |].
  - intros st7 Hc7 _. apply wp_ret. exists o. split; [done |]. by rewrite Hc7.
  - intros st7 Hs7 _. left. same_db_tac.
  - intros st7 Hc7 _. right. exists o. by rewrite Hc7.
Qed.

Lemma wp_createOrder_execute req d irow st :
  0 < cr_quantity req <= kMaxQuantity -> keys_wf d -> committed st = d ->
  view (set_idempotent (t_idempotent d ++ [irow]) d) st ->
  id_request_id irow = cr_requestId req -> id_status irow = kIdemProcessing ->
  existsb (fun x => sql_eq (id_request_id x) (cr_requestId req)) (t_idempotent d) = false ->
  wp (createOrder_execute req) (execute_post req d) st.
Proof.
  intros Hqty Hwf Hc Hv Hir Hip Hfresh. unfold createOrder_execute.
  pose proof (wf_product_id _ Hwf) as Hnd.
  apply wp_bind. eapply wp_query; [exact Hv | intros; left; same_db_tac |].
  intros st1 prod Hprod Hv1 Hs1 _.
  destruct (getById_cases (cr_productId req) d Hnd) as [[Hget Hnone] | (t1 & p & t2 & Ht & Hid & Hget)];
    unfold getById_sql in *; cbn [t_product set_idempotent] in *;
    rewrite Hget in Hprod; injection Hprod as <-.
  { apply wp_throw. split; [same_db_tac |]. left. split; [done |]. intros p Hin Hp.
    apply existsb_false in Hnone. rewrite List.Forall_forall in Hnone.
    specialize (Hnone p Hin). cbn in Hnone. by rewrite Hp, Z.eqb_refl in Hnone. }
  unfold onSale. cbn [p_status product_of_row].
  rewrite Ht in Hnd.
  destruct (Z.eqb_spec (pr_status p) 1) as [Hsale | Hoff]; cbn [negb].
  2: { apply wp_throw. split; [same_db_tac |]. left. split; [done |]. intros x Hin Hx.
       rewrite Ht in Hin. by rewrite (In_split_key _ _ _ _ _ Hnd Hid Hin Hx). }
  apply wp_bind. eapply wp_exec; [exact Hv1 | intros; left; same_db_tac |].
  intros now2 st2 d2 n Hded _ Hv2 Hs2 _.
  apply deductStock_inv in Hded; [| cbn; by rewrite Ht]. cbn [t_product set_idempotent] in Hded.
  destruct Hded as [(-> & -> & Hn) | (-> & s1 & q & s2 & Hs & Hq & Hstock & Hsale' & Hok & ->)];
    cbn [Nat.eqb].
  { apply wp_throw. split; [same_db_tac |]. right. split; [done |]. intros x Hin Hx.
    apply existsb_false in Hn. rewrite List.Forall_forall in Hn. specialize (Hn x Hin). cbn in Hn.
    destruct (Z.ltb_spec (pr_stock x) (cr_quantity req)); [done |].
    rewrite Ht in Hin. assert (x = p) as -> by (by eapply In_split_key).
    apply not_true_iff_false in Hn. destruct Hn. by apply deductStock_where_iff. }
  destruct (split_unique pr_id t1 p t2 s1 q s2 Hnd) as (<- & <- & <-); [congruence.. |].
  eapply (wp_createOrder_place req d t1 p t2 irow); done || same_db_tac.
Qed.

(** What the idempotency table answers. *)
Lemma wp_tryAcquire i d (Q : outcome IdempotentOutcome -> St -> Prop) st : view d st ->
  (forall st', same_db st st' -> Q (Throw DbException) st') ->
  (forall row st', idempotent_row i = Some row ->
     existsb (fun x => sql_eq (id_request_id x) (i_requestId i)) (t_idempotent d) = false ->
     view (set_idempotent (t_idempotent d ++ [row]) d) st' -> same_db st st' -> Q (Ret kAcquired) st') ->
  (forall st', same_db st st' -> Q (Ret kProcessing) st') ->
  (forall x st', In x (t_idempotent d) -> sql_eq (id_request_id x) (i_requestId i) = true ->
     id_status x = kIdemSuccess -> same_db st st' ->
     Q (Ret (kCachedSuccess (default "" (id_response_body x)))) st') ->
  wp (tryAcquire i) Q st.
Proof.
  intros Hv Hdb Hacq Hproc Hcached. unfold tryAcquire. apply wp_bind.
  eapply wp_exec; [exact Hv | auto |]. intros now st1 d1 n Hins _ Hv1 Hs1 _.
  apply acquire_inv in Hins as (row & Hrow & [(-> & -> & _) | (-> & -> & Hn)]); cbn [Nat.eqb].
  2: { apply wp_ret. by eapply Hacq. }
  apply wp_bind. eapply wp_query; [exact Hv1 | intros; apply Hdb; same_db_tac |].
  intros st2 q Hsel Hv2 Hs2 _.
  injection Hsel as Hsel. destruct q as [x|]; [| apply wp_ret, Hproc; same_db_tac].
  case_bool_decide as Hst; apply wp_ret; [| apply Hproc; same_db_tac].
  assert (Hin : In x (sql_select (fun x => sql_eq (id_request_id x) (i_requestId i)) (t_idempotent d))).
  { destruct (sql_select _ _); simpl in *; [done | left; congruence]. }
  apply sql_select_In in Hin as [Hin Hx]. eapply Hcached; try done. same_db_tac.
Qed.

(** What the whole method may leave, from the committed database [d]. *)
Definition createOrder_post (req : CreateOrderReq) (d : Db) (r : outcome CreateOrderOutcome) (st : St) : Prop :=
  match r with
  | Ret (kCached body) =>
      committed st = d
      /\ exists x, In x (t_idempotent d) /\ sql_eq (id_request_id x) (cr_requestId req) = true
          /\ id_status x = kIdemSuccess /\ body = default "" (id_response_body x)
  | Ret (kExecuted res) =>
      if isOk res
      then exists o, res = ok o (cr_requestId req) /\ order_effect req o d (committed st)
      else committed st = d
           \/ (res = fail kDbError (toMessage kDbError) (cr_requestId req)
               /\ exists o, order_effect req o d (committed st))
  | Throw _ | Undefined => False
  | Hang => committed st = d
  end.

Lemma createOrder_partial req st r st' : keys_wf (committed st) ->
  run_alone (createOrder req) st = (r, st') -> createOrder_post req (committed st) r st'.
Proof.
  intros Hwf. apply wp_elim. unfold createOrder. remember (committed st) as d eqn:Hd.
  destruct ((cr_quantity req <=? 0) || (kMaxQuantity <? cr_quantity req)) eqn:Hqty; [by left |].
  apply orb_false_iff in Hqty as [Hq0%Z.leb_gt Hq1%Z.ltb_ge].
  apply wp_try_catch, wp_with_guard.
  { intros st1 e Hs _ [-> | ->]; apply wp_ret; left; same_db_tac. }
  intros st1 Hv Hs _. rewrite <- Hd in Hv. unfold createOrder_body. apply wp_bind.
  eapply wp_read_clock; [exact Hv |]. intros st2 Hv2 Hs2 _ _. apply wp_bind.
  eapply wp_tryAcquire; [exact Hv2 | | | |].
  - intros st3 Hs3. apply wp_ret. left. same_db_tac.
  - intros row st3 Hrow Hn Hv3 Hs3. apply idempotent_row_inv in Hrow as [Hid Hst].
    eapply wp_mono; [eapply (wp_createOrder_execute req d row); try done; same_db_tac |].
    intros [[res | b] | [c m | |] | |] st4; cbn [execute_post].
    + intros (o & -> & Ho). cbn. by exists o.
    + done.
    + intros [Hc [[-> _] | [-> _]]]; apply wp_ret; by left.
    + intros [Hc | Ho]; apply wp_ret; [by left | by right].
    + intros Hc. apply wp_ret. by left.
    + intros Hc. done.
    + done.
  - intros st3 Hs3. apply wp_ret. cbn. left. same_db_tac.
  - intros x st3 Hin Hx Hst Hs3. apply wp_ret. split; [same_db_tac | by exists x].
Qed.

(** C8. Creating an order is all or nothing, whatever statement fails, whatever
    the clock does and whatever the fate of the commit: a success response comes
    with exactly [order_effect] on the committed database (the stock of one
    product on sale reduced by the quantity, one order row with the price
    snapshot, one idempotency record holding the response); a cached response is
    the stored snapshot of the same request and nothing changes; an error leaves
    the database as it was, except for a database error after a commit whose
    reply was lost; no exception escapes. *)
Theorem createOrder_spec req st r st' : keys_wf (committed st) ->
  run_alone (createOrder req) st = (r, st') -> createOrder_post req (committed st) r st'.
Proof. apply createOrder_partial. Qed.

(** ** The decision without faults *)

(** What the caller is told, from the product row alone. *)
Definition order_decision (req : CreateOrderReq) (d : Db) (orderNo : string) (nowMs : Z) : Result Order :=
  match find (fun p => pr_id p =? wrap64 (cr_productId req)) (t_product d) with
  | None => fail kProductNotFound "商品不存在" (cr_requestId req)
  | Some p =>
      if negb (pr_status p =? 1) then fail kProductNotFound "商品已下架" (cr_requestId req)
      else if pr_stock p <? cr_quantity req then fail kStockNotEnough "库存不足" (cr_requestId req)
      else ok (build_order req (product_of_row p) orderNo nowMs) (cr_requestId req)
  end.

(** The columns hold the values of the order. *)
Definition order_accepted (req : CreateOrderReq) (d : Db) (orderNo : string) (nowMs : Z) : Prop :=
  forall p, In p (t_product d) -> pr_id p = wrap64 (cr_productId req) ->
  let o := build_order req (product_of_row p) orderNo nowMs in
  (0 <= pr_stock p < 2 ^ 32 /\ 0 <= pr_version p < 2 ^ 32 - 1)
  /\ (exists orow, order_row o = Some orow /\ existsb (order_conflict orow) (t_order d) = false)
  /\ text_ok (response_snapshot (ok o (cr_requestId req))) = true.

Lemma uint_ok_iff z : uint_ok z = true <-> 0 <= z < 2 ^ 32.
Proof. unfold uint_ok. rewrite andb_true_iff, Z.leb_le, Z.ltb_lt. done. Qed.

Lemma deductStock_total pid q now d : NoDup (map pr_id (t_product d)) -> 0 < q ->
  (forall p, In p (t_product d) -> pr_id p = wrap64 pid ->
     0 <= pr_stock p < 2 ^ 32 /\ 0 <= pr_version p < 2 ^ 32 - 1) ->
  is_Some (deductStock_sql pid q now d).
Proof.
  intros Hnd Hq Hfit. unfold deductStock_sql.
  destruct (sql_update_key pr_id (wrap64 pid) (deductStock_where pid q) (deductStock_row q) (t_product d))
    as [[_ ->] | (t1 & p & t2 & Ht & Hp & _ & _ & ->)]; [| done | by eexists |].
  - intros r Hr. by apply deductStock_where_iff in Hr as (? & _).
  - apply deductStock_where_iff in Hp as (Hid & Hstock & _).
    destruct (Hfit p) as [Hs Hv]; [rewrite Ht; apply in_app_iff; right; by left | done |].
    unfold deductStock_row. assert (uint_ok (pr_stock p - q) && uint_ok (pr_version p + 1) = true) as ->.
    { rewrite andb_true_iff, !uint_ok_iff. lia. }
    by eexists.
Qed.

Definition decision_post (req : CreateOrderReq) (d : Db) (orderNo : string) (nowMs : Z)
  (r : outcome CreateOrderOutcome) (st : St) : Prop :=
  match r with
  | Ret (kExecuted res) =>
      res = order_decision req d orderNo nowMs /\ isOk res = true
      /\ exists o, data res = Some o /\ order_effect req o d (committed st)
  | Throw (BizException c m) =>
      c <> kSuccess /\ fail c m (cr_requestId req) = order_decision req d orderNo nowMs /\ committed st = d
  | _ => False
  end.

Lemma wp_createOrder_place_total req d t1 p t2 irow st id ids' n' : no_fault ->
  0 < cr_quantity req <= kMaxQuantity -> committed st = d -> t_product d = t1 ++ p :: t2 ->
  pr_id p = wrap64 (cr_productId req) -> pr_status p = 1 -> cr_quantity req <= pr_stock p ->
  view (set_product (t1 ++ deducted (cr_quantity req) p :: t2)
         (set_idempotent (t_idempotent d ++ [irow]) d)) st ->
  id_request_id irow = cr_requestId req -> id_status irow = kIdemProcessing ->
  existsb (fun x => sql_eq (id_request_id x) (cr_requestId req)) (t_idempotent d) = false ->
  nextId system_clock spin_fuel (readings st) (ids st) = (IdOk id, ids', n') ->
  order_accepted req d id (system_clock n') ->
  wp (createOrder_place req (product_of_row p)) (fun r st' =>
    exists o, r = Ret (kExecuted (ok o (cr_requestId req)))
      /\ o = build_order req (product_of_row p) id (system_clock n')
      /\ order_effect req o d (committed st')) st.
Proof.
  intros Hnf Hq Hc Ht Hid Hsale Hstock Hv2 Hir Hip Hfresh Hnext Hacc. unfold createOrder_place.
  destruct (Hacc p) as (_ & (orow & Horow & Hconf) & Htext);
    [rewrite Ht; apply in_app_iff; right; by left | done |].
  apply wp_bind. eapply wp_next_id_ok; [exact Hv2 | exact Hnext |].
  intros st3 Hv3 Hs3 Hids3 Hr3.
  apply wp_bind. eapply wp_read_clock; [exact Hv3 |]. intros st4 Hv4 Hs4 _ _. rewrite Hr3.
  set (o := build_order req (product_of_row p) id (system_clock n')) in *.
  apply wp_bind. eapply wp_exec_total; [done | exact Hv4 | |].
  { intros now. unfold order_insert_sql. rewrite Horow. cbn. unfold sql_insert.
    cbn in Hconf. rewrite Hconf. by eexists. }
  intros now5 st5 d5 u5 Hins _ Hv5 Hs5 _.
  apply order_insert_inv in Hins as (orow' & Horow' & _ & ->).
  assert (orow' = orow) as -> by congruence.
  assert (Hsuccess : is_Some (success_row (response_snapshot (ok o (cr_requestId req))) irow)).
  { unfold success_row. rewrite Htext. by eexists. }
  apply wp_bind. eapply wp_exec_total; [done | exact Hv5 | |].
  { intros now. unfold idem_markSuccess_sql, sql_update. cbn [t_idempotent set_order set_product set_idempotent].
    rewrite sql_set_split; [destruct Hsuccess as [r' ->]; by eexists | | | done].
    - rewrite Hir, sql_eq_refl, Hip. done.
    - apply existsb_false. apply existsb_false in Hfresh. eapply Forall_impl; [exact Hfresh |].
      intros x Hx. by rewrite Hx. }
  intros now6 st6 d6 u6 Hmark _ Hv6 Hs6 _.
  eapply idem_markSuccess_inv in Hmark; [| done | done | done | done].
  destruct Hmark as (irow' & Hirow & ->). cbn in Hv6.
  apply wp_bind. eapply wp_guard_commit_total; [done | exact Hv6 |].
  intros st7 Hc7 _. apply wp_ret. exists o. split; [done |]. split; [done |]. rewrite Hc7.
  unfold success_row in Hirow. apply bind_Some in Hirow as (? & _ & [= <-]).
  by apply (OrderEffect req d t1 p t2 id (system_clock n') orow).
Qed.
Lemma wp_createOrder_execute_total req d irow st id ids' n' : no_fault ->
  0 < cr_quantity req <= kMaxQuantity -> keys_wf d -> committed st = d ->
  view (set_idempotent (t_idempotent d ++ [irow]) d) st ->
  id_request_id irow = cr_requestId req -> id_status irow = kIdemProcessing ->
  existsb (fun x => sql_eq (id_request_id x) (cr_requestId req)) (t_idempotent d) = false ->
  nextId system_clock spin_fuel (readings st) (ids st) = (IdOk id, ids', n') ->
  order_accepted req d id (system_clock n') ->
  wp (createOrder_execute req) (decision_post req d id (system_clock n')) st.
Proof.
  intros Hnf Hqty Hwf Hc Hv Hir Hip Hfresh Hnext Hacc. unfold createOrder_execute, decision_post.
  pose proof (wf_product_id _ Hwf) as Hnd. unfold order_decision.
  apply wp_bind. eapply wp_query_total; [done | exact Hv | done |]. intros st1 Hv1 Hs1 Hg1.
  cbn [t_product set_idempotent]. rewrite find_head.
  destruct (find _ (t_product d)) as [p|] eqn:Hf; cbn [fmap option_fmap option_map].
  2: { apply wp_throw. split; [done |]. split; [done | same_db_tac]. }
  apply find_some in Hf as [Hin Hid%Z.eqb_eq]. unfold onSale. cbn [p_status product_of_row].
  destruct (Z.eqb_spec (pr_status p) 1) as [Hsale | Hoff]; cbn [negb].
  2: { apply wp_throw. split; [done |]. split; [done | same_db_tac]. }
  apply wp_bind. eapply wp_exec_total; [done | exact Hv1 | |].
  { intros now. apply deductStock_total; [done | lia |]. intros p' Hin' Hid'. by apply (Hacc p'). }
  intros now2 st2 d2 n Hded _ Hv2 Hs2 Hg2.
  apply in_split in Hin as (t1 & t2 & Ht). rewrite Ht in Hnd.
  apply deductStock_inv in Hded; [| cbn; by rewrite Ht]. cbn [t_product set_idempotent] in Hded.
  destruct Hded as [(-> & -> & Hn) | (-> & s1 & q & s2 & Hs & Hq & Hstock & Hsale' & Hok & ->)];
    cbn [Nat.eqb].
  - assert (Hlt : pr_stock p < cr_quantity req).
    { apply existsb_false in Hn. rewrite Ht, Forall_app, Forall_cons in Hn.
      destruct Hn as (_ & Hn & _). apply not_true_iff_false in Hn.
      destruct (Z.lt_ge_cases (pr_stock p) (cr_quantity req)); [done |].
      destruct Hn. by apply deductStock_where_iff. }
    apply Z.ltb_lt in Hlt. rewrite Hlt. apply wp_throw. split; [done |]. split; [done | same_db_tac].
  - destruct (split_unique pr_id t1 p t2 s1 q s2 Hnd) as (<- & <- & <-); [congruence.. |].
    replace (pr_stock p <? cr_quantity req) with false by (symmetry; by apply Z.ltb_ge).
    eapply wp_mono.
    + eapply (wp_createOrder_place_total req d t1 p t2 irow); try done; try same_db_tac.
      destruct Hg1 as [Hi1 Hr1], Hg2 as [Hi2 Hr2]. rewrite Hi2, Hr2, Hi1, Hr1. exact Hnext.
    + intros r st3 (o & -> & -> & Ho). split; [done |]. split; [done |]. by eexists.
Qed.

(** C9. Without faults the response is exactly [order_decision], a function of the
    product's row: no such product or not on sale (30001), not enough stock
    (30002), and otherwise success with the order priced from the row. The order
    is then in the database; in the three error cases nothing has changed. The
    request identifier is new, the identifier generator answers, and the columns
    hold the order's values. *)
Theorem createOrder_outcome req st id ids' n' :
  no_fault -> keys_wf (committed st) -> 0 < cr_quantity req <= kMaxQuantity ->
  is_Some (idempotent_row (buildIdempotentRecord (system_clock (readings st)) req)) ->
  existsb (fun x => sql_eq (id_request_id x) (cr_requestId req)) (t_idempotent (committed st)) = false ->
  nextId system_clock spin_fuel (S (readings st)) (ids st) = (IdOk id, ids', n') ->
  order_accepted req (committed st) id (system_clock n') ->
  let res := order_decision req (committed st) id (system_clock n') in
  exists st', run_alone (createOrder req) st = (Ret (kExecuted res), st')
    /\ if isOk res then exists o, data res = Some o /\ order_effect req o (committed st) (committed st')
       else committed st' = committed st.
Proof.
  intros Hnf Hwf Hqty [irow Hirow] Hfresh Hnext Hacc res.
  enough (H : wp (createOrder req) (fun r st' => r = Ret (kExecuted res)
    /\ if isOk res then exists o, data res = Some o /\ order_effect req o (committed st) (committed st')
       else committed st' = committed st) st).
  { exists (run_alone (createOrder req) st).2. destruct H as [Hr H]. split; [| exact H].
    rewrite <- Hr. by destruct (run_alone (createOrder req) st). }
  remember (committed st) as d eqn:Hd. unfold createOrder.
  assert ((cr_quantity req <=? 0) || (kMaxQuantity <? cr_quantity req) = false) as ->.
  { apply orb_false_iff. split; [apply Z.leb_gt; lia | apply Z.ltb_ge; lia]. }
  apply wp_try_catch, wp_with_guard_total; [done |]. intros st1 Hv Hs [Hi Hr]. rewrite <- Hd in Hv.
  unfold createOrder_body. apply wp_bind. eapply wp_read_clock; [exact Hv |].
  intros st2 Hv2 Hs2 Hi2 Hr2. rewrite Hr. unfold tryAcquire. apply wp_bind, wp_bind.
  eapply wp_exec_total; [done | exact Hv2 | |].
  { intros now. unfold acquire_sql. rewrite Hirow. cbn. destruct (sql_insert_noop _ _ _). by eexists. }
  intros now st3 d3 n Hins _ Hv3 Hs3 [Hi3 Hr3].
  apply acquire_inv in Hins as (row & Hrow & [(_ & _ & Hx) | (-> & -> & _)]).
  { cbn [buildIdempotentRecord i_requestId] in Hx. congruence. }
  apply idempotent_row_inv in Hrow as [Hid Hst]. cbn [Nat.eqb]. apply wp_ret.
  eapply wp_mono.
  - eapply (wp_createOrder_execute_total req d row); try done; try same_db_tac.
    rewrite Hi3, Hr3, Hi2, Hr2, Hi, Hr. exact Hnext.
  - intros [[r | b] | [c m | |] | |] st4; cbn [decision_post]; try done; fold res.
    + intros (-> & Hok & Ho). split; [done |]. rewrite Hok. exact Ho.
    + intros (Hc & Hres & Hdb). apply wp_ret. cbn [catch_result]. fold res in Hres.
      rewrite Hres. split; [done |]. by rewrite <- Hres, isOk_fail.
Qed.
Lemma order_effect_idempotent req o d d' : order_effect req o d d' ->
  exists irow, t_idempotent d' = t_idempotent d ++ [irow] /\ id_request_id irow = cr_requestId req
    /\ id_status irow = kIdemSuccess
    /\ id_response_body irow = Some (response_snapshot (ok o (cr_requestId req)))
    /\ existsb (fun x => sql_eq (id_request_id x) (cr_requestId req)) (t_idempotent d) = false.
Proof. intros [d0 t1 p t2 no ms orow irow Hq Ht Hid Hs Hst oo Hrow Hc Hi Hst' Hb Hf]. by exists irow. Qed.

(** The cached answer: a call whose identifier has a record of success - whatever its
    other fields say - is answered with the bytes of the record and changes nothing. *)
Lemma createOrder_cached req st x body :
  no_fault -> NoDup (map (fun i => weight (id_request_id i)) (t_idempotent (committed st))) -> 0 < cr_quantity req <= kMaxQuantity ->
  is_Some (idempotent_row (buildIdempotentRecord (system_clock (readings st)) req)) ->
  In x (t_idempotent (committed st)) -> sql_eq (id_request_id x) (cr_requestId req) = true ->
  id_status x = kIdemSuccess -> id_response_body x = Some body ->
  exists st', run_alone (createOrder req) st = (Ret (kCached body), st') /\ committed st' = committed st.
Proof.
  intros Hnf Hwf Hqty [row Hrow] Hin Hid Hst Hbody.
  enough (H : wp (createOrder req) (fun r st' => r = Ret (kCached body) /\ committed st' = committed st) st).
  { exists (run_alone (createOrder req) st).2. destruct H as [Hr H]. split; [| exact H].
    rewrite <- Hr. by destruct (run_alone (createOrder req) st). }
  unfold createOrder.
  assert ((cr_quantity req <=? 0) || (kMaxQuantity <? cr_quantity req) = false) as ->.
  { apply orb_false_iff. split; [apply Z.leb_gt; lia | apply Z.ltb_ge; lia]. }
  apply wp_try_catch, wp_with_guard_total; [done |]. intros st2 Hv Hs [_ Hr].
  unfold createOrder_body. apply wp_bind. eapply wp_read_clock; [exact Hv |].
  intros st3 Hv3 Hs3 _ _. rewrite Hr. unfold tryAcquire. apply wp_bind, wp_bind.
  eapply wp_exec_total; [done | exact Hv3 | |].
  { intros now. unfold acquire_sql. rewrite Hrow. cbn. destruct (sql_insert_noop _ _ _). by eexists. }
  intros now st4 d4 n Hins _ Hv4 Hs4 _.
  apply acquire_inv in Hins as (row' & _ & [(-> & -> & _) | (_ & _ & Hx)]);
    cbn [buildIdempotentRecord i_requestId] in *.
  2: { apply existsb_false in Hx. rewrite List.Forall_forall in Hx. by rewrite (Hx x Hin) in Hid. }
  cbn [Nat.eqb]. apply wp_bind. eapply wp_query_total; [done | exact Hv4 | done |]. intros st5 Hv5 Hs5 _.
  rewrite (sql_head_unique (fun y => weight (id_request_id y)) (weight (cr_requestId req)) _ _ x);
    [| by intros y ?%sql_eq_iff | done..].
  rewrite bool_decide_true by done. rewrite Hbody. do 2 apply wp_ret. split; [done | same_db_tac].
Qed.

(** Idempotent replay: once an order has been created, every later call with the
    same request identifier is answered with the bytes of the first HTTP response and
    changes nothing. *)
Lemma createOrder_again {L : JsonCppLaws (J := J)} req res st st1 req' :
  no_fault -> keys_wf (committed st) ->
  run_alone (createOrder req) st = (Ret (kExecuted res), st1) -> isOk res = true ->
  cr_requestId req' = cr_requestId req -> 0 < cr_quantity req' <= kMaxQuantity ->
  is_Some (idempotent_row (buildIdempotentRecord (system_clock (readings st1)) req')) ->
  exists st2, run_alone (createOrder req') st1 = (Ret (kCached (jhttpBody (toJson res))), st2)
    /\ committed st2 = committed st1.
Proof.
  intros Hnf Hwf Hfirst Hres Hrid Hqty Hrow.
  assert (Heff : exists o, res = ok o (cr_requestId req) /\ order_effect req o (committed st) (committed st1)).
  { unfold createOrder in Hfirst. pose proof (createOrder_partial req st _ _ Hwf Hfirst) as H.
    cbn in H. by rewrite Hres in H. }
  destruct Heff as (o & -> & (irow & Ht & Hid & Hst & Hbody & Hn)%order_effect_idempotent).
  rewrite jhttpBody_compact. apply (createOrder_cached req' st1 irow); try done.
  - rewrite Ht. eapply insert_NoDup; [| exact Hn | apply Hwf].
    intros x Hx. rewrite <- Hid. by apply sql_eq_iff.
  - rewrite Ht. apply in_app_iff. right. by left.
  - by rewrite Hid, Hrid, sql_eq_refl.
Qed.

(** ** What an order preserves *)

Lemma order_effect_wf {L : MySqlLaws} req o d d' : db_wf d -> order_effect req o d d' -> db_wf d'.
Proof.
  intros Hwf Heff. revert Hwf.
  destruct Heff as [d0 t1 p t2 no ms orow irow Hq Ht Hid Hs Hst oo Hrow Hc Hi Hist Hb Hf]. intros [K R].
  change kMaxQuantity with 999 in Hq.
  pose proof (order_row_inv _ _ Hrow) as (Eno & Erid & Est & Euid & Epid & Eq & Epaid & Eunit & Etot).
  destruct R as [Rp Ra Ro Rm]. rewrite Ht in Rp.
  assert (Hp : product_ok p) by (rewrite Forall_app, Forall_cons in Rp; tauto).
  split.
  - destruct K. constructor; try done; cbn.
    + rewrite (split_key pr_id _ p) by done. by rewrite <- Ht.
    + eapply insert_NoDup; [| exact Hc | done]. intros x Hx. unfold order_conflict.
      by rewrite (proj2 (sql_eq_iff _ _) Hx).
    + eapply insert_NoDup; [| exact Hc | done]. intros x Hx. unfold order_conflict.
      by rewrite (proj2 (sql_eq_iff _ _) Hx), orb_true_r.
    + eapply insert_NoDup; [| exact Hf | done]. intros x Hx. rewrite <- Hi. by apply sql_eq_iff.
  - destruct Hp as [Hprice Hstock]. unfold price_limit in Hprice.
    constructor; cbn; [| done | | done].
    + eapply split_Forall; [| exact Rp]. unfold product_ok, price_limit. cbn. lia.
    + apply Forall_app. split; [done |]. constructor; [| done]. unfold order_ok.
      rewrite Eq, Euid, Epid. cbn in Eunit, Etot |- *.
      rewrite cast_decimal_fen in Eunit by (unfold decimal_limit; lia). injection Eunit as <-.
      rewrite wrap64_small in Etot by (unfold in_i64; nia).
      rewrite cast_decimal_fen in Etot by (unfold decimal_limit; nia). injection Etot as <-.
      unfold order_row in Hrow. simplify_opt.
      match goal with H : _ && _ = true |- _ => rewrite !andb_true_iff in H; unfold ubigint_ok in H; cbn in H end.
      pose proof (wrap64_range (cr_userId req)) as Hu. pose proof (wrap64_range (cr_productId req)) as Hpi.
      unfold in_i64 in *. unfold price_limit. lia.
Qed.

(** Pieces of the product [pid] in stock, and in orders. *)
Definition in_stock (pid : Z) (d : Db) : Z :=
  sum_of (fun p => if pr_id p =? pid then pr_stock p else 0) (t_product d).

Definition in_orders (pid : Z) (d : Db) : Z :=
  sum_of (fun o => if or_product_id o =? pid then or_quantity o else 0) (t_order d).

Lemma order_effect_stock req o d d' pid : order_effect req o d d' ->
  in_stock pid d' + in_orders pid d' = in_stock pid d + in_orders pid d.
Proof.
  intros [d0 t1 p t2 no ms orow irow Hq Ht Hid Hs Hst oo Hrow Hc Hi Hist Hb Hf].
  apply order_row_inv in Hrow as (_ & _ & _ & _ & Epid & Eq & _).
  unfold in_stock, in_orders. cbn. rewrite Ht, sum_of_snoc, !sum_of_split. cbn. rewrite Epid, Eq. cbn.
  rewrite Hid. destruct (wrap64 (cr_productId req) =? pid); lia.
Qed.
End OrderService.

(** The services on the concrete server. *)
Definition run_order (req : CreateOrderReq) (st : St) : outcome CreateOrderOutcome * St :=
  run_alone (E := Server.calm) (createOrder (D := Server.lib) (J := Tree.lib) req) st.

Lemma createOrder_spec_witness :
  keys_wf (D := Server.lib) (committed Server.open_shop)
  /\ map pr_stock (t_product (committed (run_order Server.tea_request Server.open_shop).2)) = [7; 3]
  /\ createOrder_post (D := Server.lib) (J := Tree.lib) Server.tea_request (committed Server.open_shop)
       (run_order Server.tea_request Server.open_shop).1
       (run_order Server.tea_request Server.open_shop).2.
Proof.
  split; [apply Server.shop_wf |]. split; [vm_compute; reflexivity |].
  apply (createOrder_spec (D := Server.lib) (J := Tree.lib) (E := Server.calm) Server.tea_request Server.open_shop);
    [apply Server.shop_wf |].
  fold (run_order Server.tea_request Server.open_shop). by destruct (run_order _ _).
Defined.

Lemma createOrder_outcome_witness :
  no_fault (E := Server.calm) /\ keys_wf (D := Server.lib) Server.shop
  /\ order_accepted (D := Server.lib) (J := Tree.lib) Server.tea_request Server.shop
       "132633958813929472" (system_clock (Env := Server.calm) 2)
  /\ exists st', run_order Server.tea_request Server.open_shop = (Ret (kExecuted
       (order_decision Server.tea_request Server.shop "132633958813929472"
          (system_clock (Env := Server.calm) 2))), st').
Proof.
  assert (Hacc : order_accepted (D := Server.lib) (J := Tree.lib) Server.tea_request Server.shop
       "132633958813929472" (system_clock (Env := Server.calm) 2)).
  { intros p [<- | [<- | []]] Hp; [| vm_compute in Hp; congruence].
    split; [cbn; lia |]. split; [| vm_compute; reflexivity].
    eexists. split; [vm_compute; reflexivity | vm_compute; reflexivity]. }
  split; [apply Server.calm_no_fault |]. split; [apply Server.shop_wf |]. split; [exact Hacc |].
  destruct (createOrder_outcome (D := Server.lib) (J := Tree.lib) (E := Server.calm)
    Server.tea_request Server.open_shop "132633958813929472" (IdState (kEpochMs + 366 * 86400000 + 1) 0) 2)
    as (st' & H & _);
    [apply Server.calm_no_fault | apply Server.shop_wf | vm_compute; split; congruence
    | eexists; vm_compute; reflexivity | vm_compute; reflexivity | vm_compute; reflexivity
    | exact Hacc |].
  by exists st'.
Defined.

