(* ===== verification/PaymentService.v ===== *)
(** * PaymentService: the channel's callback

    [src/services/PaymentService.cc].  [handleCallback] is the whole method, from
    the channel whitelist and the signature to the commit; the theorems compare it
    with [payment_effect], the abstract effect of a payment on five tables. *)

From S2P Require Import Prelude MoneyUtil IdGenerator JsonValue Result BeijingTime SignUtil Models.
From S2P Require Import Database Transaction Daos Invariant Server.

(** ** The code *)

Definition kSupportedChannel : string := "MOCK".
Definition kBizTypeOrderPaid : string := "ORDER_PAID".

Section PaymentService.
Context {D : MySql} {J : JsonCpp} {O : OpenSsl} {E : Env}.

(** [drogon::app().getCustomConfig()]. *)
Context (customConfig : jvalue).

(** [configValue]; [None] is an exception of jsoncpp. *)
Definition configValue (section key fallback : string) : option string :=
  has_section ← jisMember customConfig section;
  if (has_section : bool) then
    s ← jget customConfig section;
    has_key ← jisMember s key;
    if (has_key : bool) then v ← jget s key; jasString v else Some fallback
  else Some fallback.

(** [rabbitCfg.isMember(key) ? rabbitCfg[key].asString() : fallback]. *)
Definition rabbit_value (key fallback : string) : option string :=
  r ← jget customConfig "rabbitmq";
  has_key ← jisMember r key;
  if (has_key : bool) then v ← jget r key; jasString v else Some fallback.

(** The message body, the contract with the consumer. *)
Definition message_payload (messageId : string) (order : Order) : string :=
  jtoStyledString (jobject
    [("messageId", jstring messageId);
     ("bizType", jstring kBizTypeOrderPaid);
     ("orderNo", jstring (o_orderNo order));
     ("amount", jstring (fenToYuanString (o_totalAmountFen order)));
     ("userId", jint (o_userId order));
     ("status", jint 1)]).

(** Steps 6 and 7: the outbox message, the commit, the answer. *)
Definition callback_notify (req : PaymentCallbackReq) (order : Order) : M (Result jvalue) :=
  messageId ← next_id;
  exchange ← or_throw (rabbit_value "exchange" "trade.exchange");
  routingKey ← or_throw (rabbit_value "routing_key_notify" "order.paid");
  message_insert (mkLocalMessage messageId kBizTypeOrderPaid (cb_orderNo req) exchange routingKey
    (message_payload messageId order) kMsgPending 0 "");;
  guard_commit;;
  mret (ok (jobject [("orderNo", jstring (cb_orderNo req)); ("status", jint 1)]) (cb_requestId req)).

(** Step 5: the account is debited and the flow recorded. *)
Definition callback_debit (req : PaymentCallbackReq) (order : Order) (amountFen : Z) : M (Result jvalue) :=
  account ← getByUserId (o_userId order);
  match account with
  | None => throw (BizException kAccountNotFound "账户不存在")
  | Some a =>
      n ← deduct (a_accountNo a) amountFen;
      if (n =? 0)%nat then throw (BizException kBalanceNotEnough "余额不足")
      else
        after' ← getByUserId (o_userId order);
        after ← deref after';
        insertFlow (mkAccountFlow (a_accountNo a) kPayment kOut amountFen
          (wrap64 (a_balanceFen after + amountFen)) (a_balanceFen after) (cb_orderNo req)
          (cb_requestId req));;
        callback_notify req order
  end.

(** Step 4: pending to paid. *)
Definition callback_settle (req : PaymentCallbackReq) (order : Order) (amountFen : Z) : M (Result jvalue) :=
  n ← markPaid (cb_orderNo req);
  if (n =? 0)%nat then
    current ← getByOrderNo (cb_orderNo req);
    match current with
    | Some c =>
        if bool_decide (o_status c = kPaid) then mret (ok jnull (cb_requestId req))
        else throw (BizException kOrderStatusInvalid "订单状态不允许支付")
    | None => throw (BizException kOrderStatusInvalid "订单状态不允许支付")
    end
  else callback_debit req order amountFen.

(** Step 3: the payment record, once per channel trade number. *)
Definition callback_record (req : PaymentCallbackReq) (rawBody : string) (order : Order) (amountFen : Z)
  : M (Result jvalue) :=
  paymentNo ← next_id;
  callbackTime ← or_throw (epochToBeijing (cb_timestamp req));
  dedup ← payment_insertWithDedup (mkPayment paymentNo (cb_orderNo req) (cb_channel req)
    (cb_channelTradeNo req) amountFen kPaySuccess callbackTime rawBody);
  match dedup with
  | kDuplicate =>
      existing ← getByChannelTradeNo (cb_channel req) (cb_channelTradeNo req);
      match existing with
      | Some p =>
          if bool_decide (pay_orderNo p = cb_orderNo req) then mret (ok jnull (cb_requestId req))
          else throw (BizException kChannelTradeConflict "渠道交易号已绑定其他订单")
      | None => throw (BizException kChannelTradeConflict "渠道交易号已绑定其他订单")
      end
  | kInserted => callback_settle req order amountFen
  end.

(** The scope of the guard, from step 2. *)
Definition callback_body (req : PaymentCallbackReq) (rawBody : string) : M (Result jvalue) :=
  found ← getByOrderNo (cb_orderNo req);
  match found with
  | None => throw (BizException kOrderNotFound "订单不存在")
  | Some order =>
      match yuanStringToFen (cb_amount req) with
      | Some amountFen =>
          if amountFen =? o_totalAmountFen order
          then callback_record req rawBody order amountFen
          else throw (BizException kAmountMismatch "支付金额与订单金额不一致")
      | None => throw (BizException kAmountMismatch "支付金额与订单金额不一致")
      end
  end.

(** [PaymentService::handleCallback].  The configuration is read outside [try]. *)
Definition handleCallback (req : PaymentCallbackReq) (rawBody : string) : M (Result jvalue) :=
  if negb (bool_decide (cb_channel req = kSupportedChannel))
  then mret (fail kUnsupportedChannel "不支持的支付渠道" (cb_requestId req))
  else
    secret ← or_throw (configValue "mock_channel" "secret" "");
    if bool_decide (secret = "")
       || negb (verifyMockSign secret (cb_orderNo req) (cb_channelTradeNo req) (cb_amount req)
                  (cb_timestamp req) (cb_sign req))
    then mret (fail kSignVerifyFailed "签名校验失败" (cb_requestId req))
    else
      try_catch (with_guard (callback_body req rawBody))
        (fun e => mret (catch_result e (cb_requestId req))).

(** ** The abstract effect *)

(** The callback is genuine: a supported channel and a valid signature under the
    configured secret. *)
Definition genuine (req : PaymentCallbackReq) : Prop :=
  cb_channel req = kSupportedChannel
  /\ exists secret, configValue "mock_channel" "secret" "" = Some secret /\ secret <> ""
     /\ verifyMockSign secret (cb_orderNo req) (cb_channelTradeNo req) (cb_amount req)
          (cb_timestamp req) (cb_sign req) = true.

(** A pending order [o] of the amount received becomes paid, its payment is
    recorded, the account of its user is debited by that amount, the flow is
    recorded with the balances before and after, and one message goes to the
    outbox.  Nothing else changes. *)
Inductive payment_effect (req : PaymentCallbackReq) (rawBody : string) : Db -> Db -> Prop :=
  | PaymentEffect d o1 o o2 a1 a a2 amount now now' callbackTime paymentNo messageId exchange routingKey py :
      t_order d = o1 ++ o :: o2 ->
      sql_eq (or_order_no o) (cb_orderNo req) = true ->
      or_status o = kPendingPayment ->
      yuanStringToFen (cb_amount req) = Some amount ->
      or_total_amount o = amount ->
      0 < amount ->
      t_account d = a1 ++ a :: a2 ->
      ar_user_id a = or_user_id o ->
      ar_status a = 0 ->
      amount <= ar_balance a ->
      epochToBeijing (cb_timestamp req) = Some callbackTime ->
      payment_row (mkPayment paymentNo (cb_orderNo req) (cb_channel req) (cb_channelTradeNo req) amount
        kPaySuccess callbackTime rawBody) = Some py ->
      existsb (payment_conflict py) (t_payment d) = false ->
      let fr := mkFlowRow (ar_account_no a) kPayment kOut amount (ar_balance a) (ar_balance a - amount)
                  (cb_orderNo req) (cb_requestId req) in
      existsb (flow_conflict fr) (t_account_flow d) = false ->
      existsb (fun x => sql_eq (mr_message_id x) messageId) (t_local_message d) = false ->
      payment_effect req rawBody d
        (set_local_message (t_local_message d ++
            [mkMessageRow messageId kBizTypeOrderPaid (cb_orderNo req) exchange routingKey
               (message_payload messageId (order_of_row o)) kMsgPending 0 now'])
          (set_account_flow (t_account_flow d ++ [fr])
            (set_account (a1 ++ debited amount a :: a2)
              (set_order (o1 ++ paid_row now o :: o2)
                (set_payment (t_payment d ++ [py]) d))))).

(** The callback has been dealt with before: the channel's trade number is already
    recorded for this order, or the order is paid. *)
Definition already_processed (req : PaymentCallbackReq) (d : Db) : Prop :=
  (exists p, In p (t_payment d) /\ sql_eq (py_channel p) (cb_channel req) = true
     /\ sql_eq (py_channel_trade_no p) (cb_channelTradeNo req) = true /\ py_order_no p = cb_orderNo req)
  \/ (exists o, In o (t_order d) /\ sql_eq (or_order_no o) (cb_orderNo req) = true /\ or_status o = kPaid).

(** The data of a processed callback. *)
Definition paid_data (req : PaymentCallbackReq) : jvalue :=
  jobject [("orderNo", jstring (cb_orderNo req)); ("status", jint 1)].

(** What the scope of the guard may leave, from the committed database [d]. *)
Definition guarded_post (req : PaymentCallbackReq) (rawBody : string) (d : Db)
  (r : outcome (Result jvalue)) (st : St) : Prop :=
  match r with
  | Ret res =>
      (res = ok jnull (cb_requestId req) /\ committed st = d /\ already_processed req d)
      \/ (res = ok (paid_data req) (cb_requestId req) /\ payment_effect req rawBody d (committed st))
  | Throw (BizException c _) => c <> kSuccess /\ committed st = d
  | Throw DbException => committed st = d \/ payment_effect req rawBody d (committed st)
  | Throw StdException | Hang => committed st = d
  | Undefined => False
  end.

Lemma wp_callback_notify req rawBody order d d4 st :
  committed st = d -> view d4 st ->
  (forall messageId exchange routingKey now,
     existsb (fun x => sql_eq (mr_message_id x) messageId) (t_local_message d4) = false ->
     payment_effect req rawBody d (set_local_message (t_local_message d4 ++
       [mkMessageRow messageId kBizTypeOrderPaid (cb_orderNo req) exchange routingKey
          (message_payload messageId order) kMsgPending 0 now]) d4)) ->
  wp (callback_notify req order) (guarded_post req rawBody d) st.
Proof.
  intros Hc Hv Heff. unfold callback_notify.
  apply wp_bind. eapply wp_next_id; [exact Hv | | intros; same_db_tac..].
  intros messageId st1 Hv1 Hs1 _.
  apply wp_bind, wp_or_throw; [intros exchange _ | intros _; same_db_tac].
  apply wp_bind, wp_or_throw; [intros routingKey _ | intros _; same_db_tac].
  apply wp_bind. eapply wp_exec; [exact Hv1 | intros; left; same_db_tac |].
  intros now st2 d5 u Hins _ Hv2 Hs2 _. apply message_insert_inv in Hins as [Hfresh ->].
  cbn [m_messageId m_bizType m_bizId m_exchange m_routingKey m_payload] in *.
  specialize (Heff messageId exchange routingKey now Hfresh).
  apply wp_bind. eapply wp_guard_commit; [exact Hv2 | | |].
  - intros st3 Hc3 _. apply wp_ret. right. split; [done |]. by rewrite Hc3.
  - intros st3 Hs3 _. left. same_db_tac.
  - intros st3 Hc3 _. right. by rewrite Hc3.
Qed.

Lemma wrap64_u64 z : 0 <= z < 2 ^ 63 -> wrap64 (u64 z) = z.
Proof. intros H. rewrite u64_small by lia. apply wrap64_small. unfold in_i64. lia. Qed.

(** The balance read back after the debit is that of the same account. *)
Lemma getByUserId_debited a1 a a2 amount uid d after' :
  NoDup (map ar_user_id (a1 ++ a :: a2)) -> ar_user_id a = uid -> 0 <= uid < 2 ^ 63 ->
  getByUserId_sql (u64 uid) (set_account (a1 ++ debited amount a :: a2) d) = Some after' ->
  after' = Some (account_of_row (debited amount a)).
Proof.
  intros Hnu Hu Hr. unfold getByUserId_sql. intros [= <-]. cbn [t_account set_account].
  rewrite wrap64_u64 by done.
  assert (Hnu' : NoDup (map ar_user_id (a1 ++ debited amount a :: a2))) by by rewrite (split_key _ _ a).
  destruct (sql_head_key ar_user_id uid (fun r => ar_user_id r =? uid) (a1 ++ debited amount a :: a2))
    as [[Hn _] | (c1 & c & c2 & Hcs & Hp & ->)]; [by intros r ?%Z.eqb_eq | done | |].
  - rewrite existsb_app in Hn. cbn in Hn. rewrite Hu, Z.eqb_refl, orb_true_r in Hn. done.
  - apply Z.eqb_eq in Hp. destruct (split_unique _ _ _ _ _ _ _ Hnu' Hcs) as (_ & <- & _); [cbn; congruence | done].
Qed.

Lemma wp_callback_debit {L : MySqlLaws} req rawBody order o amount d d2 st :
  NoDup (map ar_user_id (t_account d2)) -> NoDup (map (fun a => weight (ar_account_no a)) (t_account d2)) ->
  Forall account_ok (t_account d2) -> 0 <= amount <= max_parsed_fen ->
  order = order_of_row o -> 0 <= or_user_id o < 2 ^ 63 ->
  committed st = d -> view d2 st ->
  (forall a1 a a2 messageId exchange routingKey now,
     t_account d2 = a1 ++ a :: a2 -> ar_user_id a = or_user_id o -> ar_status a = 0 ->
     amount <= ar_balance a -> 0 < amount ->
     let fr := mkFlowRow (ar_account_no a) kPayment kOut amount (ar_balance a) (ar_balance a - amount)
                  (cb_orderNo req) (cb_requestId req) in
     existsb (flow_conflict fr) (t_account_flow d2) = false ->
     existsb (fun x => sql_eq (mr_message_id x) messageId) (t_local_message d2) = false ->
     payment_effect req rawBody d
       (set_local_message (t_local_message d2 ++
          [mkMessageRow messageId kBizTypeOrderPaid (cb_orderNo req) exchange routingKey
             (message_payload messageId order) kMsgPending 0 now])
         (set_account_flow (t_account_flow d2 ++ [fr]) (set_account (a1 ++ debited amount a :: a2) d2)))) ->
  wp (callback_debit req order amount) (guarded_post req rawBody d) st.
Proof.
  intros Hnu Hna Haok Hamt -> Huid Hc Hv Heff. unfold callback_debit. unfold max_parsed_fen in Hamt.
  cbn [o_userId order_of_row].
  apply wp_bind. eapply wp_query; [exact Hv | intros; left; same_db_tac |].
  intros st1 acc Hacc Hv1 Hs1 _.
  destruct (getByUserId_cases (u64 (or_user_id o)) d2 Hnu) as [[Hg _] | (a1 & a & a2 & Ht & Hu & Hg)];
    rewrite Hg in Hacc; injection Hacc as <-; [apply wp_throw; split; [done | same_db_tac] |].
  rewrite wrap64_u64 in Hu by done. cbn [a_accountNo account_of_row].
  apply wp_bind. eapply wp_exec; [exact Hv1 | intros; left; same_db_tac |].
  intros now2 st2 d3 n Hded _ Hv2 Hs2 _.
  eapply (deduct_inv _ _ amount) in Hded; [| done | apply cast_decimal_fen; unfold decimal_limit; lia].
  destruct Hded as [(-> & -> & _) | (-> & b1 & b & b2 & Hb & Hno & Hst & Hbal & ->)]; cbn [Nat.eqb].
  { apply wp_throw. split; [done | same_db_tac]. }
  rewrite Ht in Hna, Haok.
  destruct (split_unique (fun a => weight (ar_account_no a)) a1 a a2 b1 b b2 Hna) as (<- & <- & <-);
    [congruence | symmetry; by apply sql_eq_iff |].
  assert (Ha : account_ok a) by (rewrite Forall_app, Forall_cons in Haok; tauto).
  apply wp_bind. eapply wp_query; [exact Hv2 | intros; left; same_db_tac |].
  intros st3 after' Hafter Hv3 Hs3 _.
  rewrite Ht in Hnu. apply (getByUserId_debited a1 a a2 amount) in Hafter; [| done | done | done].
  apply wp_bind, wp_deref. eexists. split; [exact Hafter |]. cbn [a_balanceFen account_of_row ar_balance debited].
  apply wp_bind. eapply wp_exec; [exact Hv3 | intros; left; same_db_tac |].
  intros now4 st4 d5 u Hflow _ Hv4 Hs4 _. apply insertFlow_inv in Hflow as (fr & Hfr & Hfresh & ->).
  unfold account_ok, decimal_limit in Ha.
  rewrite wrap64_small in Hfr by (unfold in_i64; lia). replace (ar_balance a - amount + amount) with (ar_balance a) in Hfr by lia.
  apply flow_row_inv in Hfr as [Hpos ->]; cbn in *; try (unfold decimal_limit; lia).
  eapply wp_callback_notify; [same_db_tac | exact Hv4 |].
  intros messageId exchange routingKey now Hm. by apply Heff.
Qed.

Lemma wp_callback_settle {L : MySqlLaws} req rawBody o1 o o2 amount d py paymentNo callbackTime st :
  db_wf d -> t_order d = o1 ++ o :: o2 -> sql_eq (or_order_no o) (cb_orderNo req) = true ->
  yuanStringToFen (cb_amount req) = Some amount -> or_total_amount o = amount ->
  epochToBeijing (cb_timestamp req) = Some callbackTime ->
  payment_row (mkPayment paymentNo (cb_orderNo req) (cb_channel req) (cb_channelTradeNo req) amount
        kPaySuccess callbackTime rawBody) = Some py ->
  existsb (payment_conflict py) (t_payment d) = false ->
  committed st = d -> view (set_payment (t_payment d ++ [py]) d) st ->
  wp (callback_settle req (order_of_row o) amount) (guarded_post req rawBody d) st.
Proof.
  intros [K R] Hto Hno Hamt Htotal Htime Hpy Hpc Hc Hv. unfold callback_settle.
  pose proof (wf_order_no _ K) as Hnd.
  assert (Ho : order_ok o).
  { pose proof (wf_orders _ R) as Hall. rewrite Hto, Forall_app, Forall_cons in Hall. tauto. }
  apply wp_bind. eapply wp_exec; [exact Hv | intros; left; same_db_tac |].
  intros now1 st1 d1 n Hmark _ Hv1 Hs1 _. apply markPaid_inv in Hmark; [| done].
  cbn [t_order set_payment] in Hmark.
  destruct Hmark as [(-> & -> & _) | (-> & p1 & o' & p2 & Hto' & Hno' & Hpend & ->)]; cbn [Nat.eqb].
  - apply wp_bind. eapply wp_query; [exact Hv1 | intros; left; same_db_tac |].
    intros st2 cur Hcur Hv2 Hs2 _.
    destruct (getByOrderNo_cases (cb_orderNo req) (set_payment (t_payment d ++ [py]) d) Hnd)
      as [[Hg _] | (c1 & c & c2 & Hct & Hcno & Hg)]; rewrite Hg in Hcur; injection Hcur as <-.
    { apply wp_throw. split; [done | same_db_tac]. }
    cbn [o_status order_of_row]. case_bool_decide as Hpaid.
    + apply wp_ret. left. split; [done |]. split; [same_db_tac |]. right. exists c.
      cbn [t_order set_payment] in Hct. rewrite Hct. split; [apply in_app_iff; right; by left | done].
    + apply wp_throw. split; [done | same_db_tac].
  - rewrite Hto in Hnd. destruct (split_unique (fun o => weight (or_order_no o)) o1 o o2 p1 o' p2 Hnd)
      as (<- & <- & <-); [congruence | by rewrite (proj1 (sql_eq_iff _ _) Hno), (proj1 (sql_eq_iff _ _) Hno') |].
    unfold order_ok in Ho. pose proof (yuanStringToFen_abs _ _ Hamt) as Habs.
    eapply (wp_callback_debit _ _ _ o); try done; cbn;
      [apply K | apply K | apply R | nia | lia | same_db_tac |].
    intros a1 a a2 messageId exchange routingKey now Hta Hu Hst Hbal Hpos Hfl Hmsg.
    by apply (PaymentEffect req rawBody d o1 o o2 a1 a a2 amount now1 now callbackTime paymentNo messageId
                exchange routingKey py).
Qed.

Lemma wp_callback_record {L : MySqlLaws} req rawBody o1 o o2 amount d st :
  db_wf d -> t_order d = o1 ++ o :: o2 -> sql_eq (or_order_no o) (cb_orderNo req) = true ->
  yuanStringToFen (cb_amount req) = Some amount -> or_total_amount o = amount ->
  committed st = d -> view d st ->
  wp (callback_record req rawBody (order_of_row o) amount) (guarded_post req rawBody d) st.
Proof.
  intros Hwf Hto Hno Hamt Htotal Hc Hv. unfold callback_record.
  apply wp_bind. eapply wp_next_id; [exact Hv | | intros; same_db_tac..].
  intros paymentNo st1 Hv1 Hs1 _.
  apply wp_bind, wp_or_throw; [intros callbackTime Htime | intros _; same_db_tac].
  apply wp_bind. unfold payment_insertWithDedup. apply wp_bind.
  eapply wp_exec; [exact Hv1 | intros; left; same_db_tac |].
  intros now st2 d2 n Hins _ Hv2 Hs2 _.
  apply payment_insert_inv in Hins as (py & Hpy & [(-> & -> & _) | (-> & -> & Hpc)]); cbn [Nat.eqb]; apply wp_ret.
  - apply wp_bind. eapply wp_query; [exact Hv2 | intros; left; same_db_tac |].
    intros st3 ex Hex Hv3 Hs3 _.
    destruct ex as [p|]; [| apply wp_throw; split; [done | same_db_tac]].
    apply getByChannelTradeNo_inv in Hex as (r & Hin & Hch & Htn & ->). cbn [pay_orderNo payment_of_row].
    case_bool_decide as Hsame; [| apply wp_throw; split; [done | same_db_tac]].
    apply wp_ret. left. split; [done |]. split; [same_db_tac |]. left. by exists r.
  - eapply wp_callback_settle; try done. same_db_tac.
Qed.

Lemma wp_callback_body {L : MySqlLaws} req rawBody d st :
  db_wf d -> committed st = d -> view d st ->
  wp (callback_body req rawBody) (guarded_post req rawBody d) st.
Proof.
  intros Hwf Hc Hv. unfold callback_body. pose proof (wf_order_no _ (proj1 Hwf)) as Hnd.
  apply wp_bind. eapply wp_query; [exact Hv | intros; left; same_db_tac |].
  intros st1 found Hf Hv1 Hs1 _.
  destruct (getByOrderNo_cases (cb_orderNo req) d Hnd) as [[Hg _] | (o1 & o & o2 & Hto & Hno & Hg)];
    rewrite Hg in Hf; injection Hf as <-; [apply wp_throw; split; [done | same_db_tac] |].
  destruct (yuanStringToFen (cb_amount req)) as [amount|] eqn:Hamt;
    [| apply wp_throw; split; [done | same_db_tac]].
  destruct (Z.eqb_spec amount (o_totalAmountFen (order_of_row o))) as [Heq | Hne];
    [| apply wp_throw; split; [done | same_db_tac]].
  eapply wp_callback_record; try done. same_db_tac.
Qed.

(** What the whole method may leave, from the committed database [d]. *)
Definition handleCallback_post (req : PaymentCallbackReq) (rawBody : string) (d : Db)
  (r : outcome (Result jvalue)) (st : St) : Prop :=
  match r with
  | Ret res =>
      if isOk res then
        genuine req
        /\ ((res = ok jnull (cb_requestId req) /\ committed st = d /\ already_processed req d)
            \/ (res = ok (paid_data req) (cb_requestId req) /\ payment_effect req rawBody d (committed st)))
      else
        data res = None
        /\ (committed st = d
            \/ (res = fail kDbError (toMessage kDbError) (cb_requestId req)
                /\ genuine req /\ payment_effect req rawBody d (committed st)))
  | Throw e => e = StdException /\ configValue "mock_channel" "secret" "" = None /\ committed st = d
  | Hang => committed st = d
  | Undefined => False
  end.

Lemma handleCallback_partial {L : MySqlLaws} req rawBody st : db_wf (committed st) ->
  wp (handleCallback req rawBody) (handleCallback_post req rawBody (committed st)) st.
Proof.
  intros Hwf. remember (committed st) as d eqn:Hd. unfold handleCallback.
  case_bool_decide as Hch; cbn [negb]; [| apply wp_ret; split; [done | left; congruence]].
  apply wp_bind, wp_or_throw; [intros secret Hsecret | intros Hn; split; [done | split; [done | congruence]]].
  case_bool_decide as Hempty; cbn [orb]; [apply wp_ret; split; [done | left; congruence] |].
  destruct (verifyMockSign _ _ _ _ _ _) eqn:Hsign; cbn [negb];
    [| apply wp_ret; split; [done | left; congruence]].
  assert (Hgen : genuine req) by (split; [done | by exists secret]).
  apply wp_try_catch, wp_with_guard.
  { intros st1 e Hs _ [-> | ->]; apply wp_ret; (split; [done | left; same_db_tac]). }
  intros st1 Hv Hs _. rewrite <- Hd in Hv.
  eapply wp_mono; [eapply (wp_callback_body req rawBody d); [done | same_db_tac | done] |].
  intros [res | [c m | |] | |] st2; cbn [guarded_post].
  - intros H. cbn. assert (Hok : isOk res = true) by (destruct H as [(-> & _) | (-> & _)]; done).
    by rewrite Hok.
  - intros [Hne Hc]. apply wp_ret. cbn [catch_result handleCallback_post]. rewrite isOk_fail by done.
    split; [done | by left].
  - intros [Hc | Hc]; apply wp_ret; (split; [done |]); [by left | by right].
  - intros Hc. apply wp_ret. split; [done | by left].
  - done.
  - done.
Qed.

(** C10. A payment callback is all or nothing, whatever statement fails, whatever the
    clock does and whatever the fate of the commit. A success response with data
    comes with exactly [payment_effect]: the pending order of that number and of
    the amount received becomes paid, one payment, one flow with the right
    balances and one outbox message are added, and the user's account is debited.
    A success response without data is a replay: the trade number is recorded for
    this order, or the order is paid, and nothing changes. Every success needs a
    supported channel and a valid signature under a non-empty secret. Errors leave
    the database as it was, except after a commit whose reply was lost. The only
    exception that escapes is an unreadable configuration, and the unchecked
    optional of the second balance query is never empty. *)
Theorem handleCallback_spec {L : MySqlLaws} req rawBody st r st' : db_wf (committed st) ->
  run_alone (handleCallback req rawBody) st = (r, st') -> handleCallback_post req rawBody (committed st) r st'.
Proof. intros Hwf. by apply wp_elim, handleCallback_partial. Qed.

(** ** A callback that is repeated *)

(** The answer to a callback whose trade number is that of the payment [p]. *)
Definition replay_answer (p : PaymentRow) (req : PaymentCallbackReq) : Result jvalue :=
  if bool_decide (py_order_no p = cb_orderNo req) then ok jnull (cb_requestId req)
  else fail kChannelTradeConflict "渠道交易号已绑定其他订单" (cb_requestId req).

(** What the callback needs to get as far as the payments: its order, of the amount it
    names; an identifier; values that fit the columns. *)
Record reaches_payments (req : PaymentCallbackReq) (rawBody : string) (st : St) : Prop := {
  rp_order : exists o, In o (t_order (committed st)) /\ sql_eq (or_order_no o) (cb_orderNo req) = true
    /\ yuanStringToFen (cb_amount req) = Some (or_total_amount o);
  rp_row : exists id ids' n' callbackTime amount,
    nextId system_clock spin_fuel (readings st) (ids st) = (IdOk id, ids', n')
    /\ epochToBeijing (cb_timestamp req) = Some callbackTime /\ yuanStringToFen (cb_amount req) = Some amount
    /\ is_Some (payment_row (mkPayment id (cb_orderNo req) (cb_channel req) (cb_channelTradeNo req) amount
         kPaySuccess callbackTime rawBody))
}.

Lemma wp_callback_known req rawBody st p : no_fault -> keys_wf (committed st) ->
  view (committed st) st -> reaches_payments req rawBody st ->
  In p (t_payment (committed st)) -> sql_eq (py_channel p) (cb_channel req) = true ->
  sql_eq (py_channel_trade_no p) (cb_channelTradeNo req) = true ->
  wp (callback_body req rawBody) (fun r st' => committed st' = committed st
    /\ r = if bool_decide (py_order_no p = cb_orderNo req) then Ret (ok jnull (cb_requestId req))
           else Throw (BizException kChannelTradeConflict "渠道交易号已绑定其他订单")) st.
Proof.
  intros Hnf K Hv [(o & Ho & Hno & Ham) (id & ids' & n' & cbt & amount & Hnext & Hcbt & Ham' & [py Hpy])] Hin Hch Htn.
  assert (amount = or_total_amount o) as -> by congruence.
  pose proof Hch as Wch. pose proof Htn as Wtn. apply sql_eq_iff in Wch, Wtn.
  unfold callback_body. apply wp_bind. eapply wp_query_total; [done | exact Hv | |].
  { unfold getByOrderNo_sql. rewrite (sql_head_unique (fun o => weight (or_order_no o)) (weight (cb_orderNo req)) _ _ o);
      [done | by intros r ?%sql_eq_iff | apply K | done | done]. }
  intros st1 Hv1 Hs1 [Hids1 Hr1]. cbn [fmap option_fmap option_map]. rewrite Ham. cbn [order_of_row o_totalAmountFen].
  rewrite Z.eqb_refl. unfold callback_record. apply wp_bind. eapply wp_next_id_ok; [exact Hv1 | by rewrite Hids1, Hr1 |].
  intros st2 Hv2 Hs2 _ _. apply wp_bind, wp_or_throw; [| congruence]. intros ? [= <-]%(eq_trans (eq_sym Hcbt)).
  apply wp_bind. unfold payment_insertWithDedup. apply wp_bind. eapply wp_exec_total; [done | exact Hv2 | |].
  { intros now. unfold payment_insert_sql. rewrite Hpy. cbn. destruct (sql_insert_noop _ _ _). by eexists. }
  intros now st3 d3 n Hins _ Hv3 Hs3 _. apply payment_row_inv in Hpy as Hfields.
  destruct Hfields as (_ & _ & Ech & Etn & _). cbn in Ech, Etn.
  apply payment_insert_inv in Hins as (py' & Hpy' & [(-> & -> & _) | (_ & _ & Hx)]).
  2: { apply existsb_false in Hx. rewrite List.Forall_forall in Hx. specialize (Hx p Hin).
       replace py' with py in Hx by congruence. unfold payment_conflict in Hx.
       rewrite Ech, Etn, Hch, Htn, orb_true_r in Hx. done. }
  cbn [Nat.eqb]. apply wp_ret, wp_bind. eapply wp_query_total; [done | exact Hv3 | |].
  { unfold getByChannelTradeNo_sql. rewrite (sql_head_unique
      (fun p => (weight (py_channel p), weight (py_channel_trade_no p)))
      (weight (cb_channel req), weight (cb_channelTradeNo req)) _ _ p);
      [done | | apply K | done | by rewrite Hch, Htn].
    intros r [H1%sql_eq_iff H2%sql_eq_iff]%andb_true_iff. congruence. }
  intros st4 Hv4 Hs4 _. cbn [fmap option_fmap option_map payment_of_row pay_orderNo].
  case_bool_decide; [apply wp_ret | apply wp_throw]; split; (done || same_db_tac).
Qed.

(** A genuine callback whose trade number is known is answered success when the payment
    is of the same order, and a conflict otherwise; nothing changes. *)
Theorem callback_replayed req rawBody st p : no_fault -> keys_wf (committed st) -> genuine req ->
  reaches_payments req rawBody st ->
  In p (t_payment (committed st)) -> sql_eq (py_channel p) (cb_channel req) = true ->
  sql_eq (py_channel_trade_no p) (cb_channelTradeNo req) = true ->
  exists st', run_alone (handleCallback req rawBody) st = (Ret (replay_answer p req), st')
    /\ committed st' = committed st.
Proof.
  intros Hnf K (Hc & secret & Hsecret & Hne & Hsign) Hreach Hin Hch Htn.
  enough (H : wp (handleCallback req rawBody) (fun r st' => r = Ret (replay_answer p req)
    /\ committed st' = committed st) st).
  { exists (run_alone (handleCallback req rawBody) st).2. destruct H as [Hr H]. split; [| exact H].
    rewrite <- Hr. by destruct (run_alone (handleCallback req rawBody) st). }
  unfold handleCallback. rewrite bool_decide_eq_true_2 by done. cbn [negb].
  apply wp_bind, wp_or_throw; [| congruence]. intros ? [= <-]%(eq_trans (eq_sym Hsecret)).
  rewrite bool_decide_eq_false_2, Hsign by done. cbn [orb negb].
  apply wp_try_catch, wp_with_guard_total; [done |]. intros st1 Hv Hs [Hids Hr].
  assert (Hc1 : committed st1 = committed st) by same_db_tac.
  eapply wp_mono; [eapply (wp_callback_known req rawBody st1 p); rewrite ?Hc1; try done |].
  - destruct Hreach as [Ho Hrow]. split; [by rewrite Hc1 |]. by rewrite Hids, Hr.
  - cbn beta. intros r st2 [Hc2 ->]. unfold replay_answer. case_bool_decide; [split; [done | same_db_tac] |].
    apply wp_ret. cbn [catch_result]. split; [done | same_db_tac].
Qed.

(** ** What a payment preserves *)

Lemma payment_effect_wf {L : MySqlLaws} req rawBody d d' : db_wf d -> payment_effect req rawBody d d' -> db_wf d'.
Proof.
  intros Hwf Heff. revert Hwf.
  destruct Heff as [d o1 o o2 a1 a a2 amount now now' cbt pno mid ex rk py Hto Hno Hpend Hamt Htot Hpos
    Hta Hu Hst Hbal Htime Hpy Hpc fr Hfc Hm]. intros [K R].
  pose proof (payment_row_inv _ _ Hpy) as (Epno & Eono & Ech & Etn & _).
  destruct K as [Kp Ku Ka Ko Kr Ki Kpn Kpt Kf Km Knn Knm Kbn Kbd Kdi Kda], R as [Rp Ra Ro Rm]. rewrite Hto in Ko, Kr, Ro. rewrite Hta in Ku, Ka, Ra.
  split; constructor; cbn; try done.
  - by rewrite (split_key _ _ a).
  - by rewrite (split_key _ _ a).
  - by rewrite (split_key _ _ o).
  - by rewrite (split_key _ _ o).
  - eapply insert_NoDup; [| exact Hpc | done]. intros x Hx. unfold payment_conflict.
    by rewrite (proj2 (sql_eq_iff _ _) Hx).
  - eapply insert_NoDup; [| exact Hpc | done]. intros x [= Hx1 Hx2]. unfold payment_conflict.
    by rewrite (proj2 (sql_eq_iff _ _) Hx1), (proj2 (sql_eq_iff _ _) Hx2), orb_true_r.
  - eapply insert_NoDup; [| exact Hfc | done]. intros x [= Hx1 Hx2]. unfold flow_conflict.
    cbn [fr fr_request_id fr_biz_type]. rewrite (proj2 (sql_eq_iff _ _) Hx1). by rewrite bool_decide_true.
  - eapply insert_NoDup; [| exact Hm | done]. intros x Hx. by apply sql_eq_iff.
  - eapply split_Forall; [| exact Ra]. rewrite Forall_app, Forall_cons in Ra. destruct Ra as (_ & Ha & _).
    unfold account_ok in *. cbn. lia.
  - eapply split_Forall; [| exact Ro]. rewrite Forall_app, Forall_cons in Ro. by destruct Ro as (_ & Ho & _).
  - apply Forall_app. split; [done |]. by repeat constructor.
Qed.

(** Money of the user [uid]: in accounts, and spent on paid orders. *)
Definition balance_of (uid : Z) (d : Db) : Z :=
  sum_of (fun a => if ar_user_id a =? uid then ar_balance a else 0) (t_account d).

Definition spent (uid : Z) (d : Db) : Z :=
  sum_of (fun o => if (or_user_id o =? uid) && bool_decide (or_status o = kPaid) then or_total_amount o else 0)
    (t_order d).

Lemma payment_effect_money req rawBody d d' uid : payment_effect req rawBody d d' ->
  balance_of uid d' + spent uid d' = balance_of uid d + spent uid d.
Proof.
  intros [d0 o1 o o2 a1 a a2 amount now now' cbt pno mid ex rk py Hto Hno Hpend Hamt Htot Hpos
    Hta Hu Hst Hbal Htime Hpy Hpc fr Hfc Hm].
  unfold balance_of, spent. cbn. rewrite Hto, Hta, !sum_of_split. cbn. rewrite Hpend, Hu. cbn.
  rewrite andb_true_r, andb_false_r. destruct (or_user_id o =? uid); lia.
Qed.

(** The four records of a payment of the order number of weight [w]: orders paid,
    payments, flows, messages, each counted with [one] or summed by its amount. *)
Definition of_order (w no : string) : bool := bool_decide (weight no = w).

Definition paid_orders (w : string) (f : OrderRow -> Z) (d : Db) : Z :=
  sum_of (fun o => if of_order w (or_order_no o) && bool_decide (or_status o = kPaid) then f o else 0) (t_order d).
Definition payments (w : string) (f : PaymentRow -> Z) (d : Db) : Z :=
  sum_of (fun p => if of_order w (py_order_no p) then f p else 0) (t_payment d).
Definition flows (w : string) (f : FlowRow -> Z) (d : Db) : Z :=
  sum_of (fun x => if of_order w (fr_order_no x) then f x else 0) (t_account_flow d).
Definition messages (w : string) (d : Db) : Z :=
  sum_of (fun m => if of_order w (mr_biz_id m) then 1 else 0) (t_local_message d).

(** The ledger agrees on every order number: as many payments, flows and messages
    as paid orders, of the same amounts. *)
Definition ledger_inv (d : Db) : Prop := forall w,
  payments w (fun _ => 1) d = paid_orders w (fun _ => 1) d
  /\ flows w (fun _ => 1) d = paid_orders w (fun _ => 1) d
  /\ messages w d = paid_orders w (fun _ => 1) d
  /\ payments w py_amount d = paid_orders w or_total_amount d
  /\ flows w fr_amount d = paid_orders w or_total_amount d.

Lemma payment_effect_ledger {L : MySqlLaws} req rawBody d d' :
  payment_effect req rawBody d d' -> ledger_inv d -> ledger_inv d'.
Proof.
  intros Heff Hinv w. specialize (Hinv w). revert Hinv.
  destruct Heff as [d o1 o o2 a1 a a2 amount now now' cbt pno mid ex rk py Hto Hno Hpend Hamt Htot Hpos
    Hta Hu Hst Hbal Htime Hpy Hpc fr Hfc Hm].
  pose proof (payment_row_inv _ _ Hpy) as (_ & Eono & _ & _ & _ & Eamt & _). cbn in Eono, Eamt.
  pose proof (yuanStringToFen_abs _ _ Hamt) as Habs. unfold max_parsed_fen in Habs.
  rewrite cast_decimal_fen in Eamt by (unfold decimal_limit; lia). injection Eamt as Eamt.
  assert (Hw : of_order w (cb_orderNo req) = of_order w (or_order_no o)).
  { unfold of_order. by rewrite (proj1 (sql_eq_iff _ _) Hno). }
  unfold payments, flows, messages, paid_orders. cbn. rewrite !sum_of_snoc, Hto, !sum_of_split. cbn.
  rewrite Eono, Hpend, Hw. cbn. rewrite andb_true_r, andb_false_r.
  destruct (of_order w (or_order_no o)); lia.
Qed.
End PaymentService.

(** ** The services on the concrete server *)

Definition sample_config : Tree.json :=
  jobject (J := Tree.lib) [("mock_channel", jobject (J := Tree.lib) [("secret", Tree.JStr "s3cr3t")])].

Definition sample_callback : PaymentCallbackReq :=
  mkPaymentCallbackReq "ffff0000ffff0000" "132633958813929472" "MOCK" "T100" "59.97" "1735689700"
    (hmacSha256Hex (O := SignUtil.Plain.lib) "s3cr3t" "132633958813929472|T100|59.97|1735689700").

Definition run_callback (req : PaymentCallbackReq) (st : St) : outcome (Result Tree.json) * St :=
  run_alone (E := Server.calm)
    (handleCallback (D := Server.lib) (J := Tree.lib) (O := SignUtil.Plain.lib) sample_config req "{}") st.

Lemma handleCallback_spec_witness :
  db_wf (D := Server.lib) Server.ordered_shop
  /\ map ar_balance (t_account (committed (run_callback sample_callback (Server.fresh_state Server.ordered_shop)).2))
     = [94003; 50]
  /\ handleCallback_post (D := Server.lib) (J := Tree.lib) (O := SignUtil.Plain.lib) sample_config
       sample_callback "{}" Server.ordered_shop
       (run_callback sample_callback (Server.fresh_state Server.ordered_shop)).1
       (run_callback sample_callback (Server.fresh_state Server.ordered_shop)).2.
Proof.
  split; [apply Server.ordered_shop_wf |]. split; [vm_compute; reflexivity |].
  unfold run_callback.
  exact (handleCallback_spec (D := Server.lib) (J := Tree.lib) (O := SignUtil.Plain.lib) (E := Server.calm)
    sample_config (L := Server.lib_laws) sample_callback "{}" (Server.fresh_state Server.ordered_shop) _ _
    Server.ordered_shop_wf (surjective_pairing _)).
Defined.
