(* ===== verification/PaymentOutcome.v ===== *)
(** * PaymentOutcome: the answer to a callback without faults

    [PaymentService.v] says what a callback may leave behind, whatever fails.  Here
    nothing fails and the answer is a function of the rows: [callback_verdict] reads
    the order, the payment of the trade number and the account, in the order of the
    code, and [callback_outcome] shows that [handleCallback] returns it, with the
    effect that goes with it. *)

From S2P Require Import Prelude MoneyUtil IdGenerator JsonValue Result BeijingTime SignUtil Models.
From S2P Require Import Database Transaction Daos Invariant Server PaymentService.

(** ** The verdict *)

Inductive verdict :=
  | Pays
  | Repeats
  | Refuses (c : ErrCode) (message : string).

Section PaymentOutcome.
Context {D : MySql} {J : JsonCpp} {O : OpenSsl} {E : Env}.
Context (customConfig : jvalue).

(** The rows that a callback reads. *)
Definition order_named (req : PaymentCallbackReq) (d : Db) : option OrderRow :=
  find (fun r => sql_eq (or_order_no r) (cb_orderNo req)) (t_order d).

Definition trade_named (req : PaymentCallbackReq) (d : Db) : option PaymentRow :=
  find (fun r => sql_eq (py_channel r) (cb_channel req) && sql_eq (py_channel_trade_no r) (cb_channelTradeNo req))
    (t_payment d).

Definition account_of (uid : Z) (d : Db) : option AccountRow :=
  find (fun a => ar_user_id a =? uid) (t_account d).

(** A pending order is paid from the account of its user. *)
Definition debit_verdict (o : OrderRow) (d : Db) : verdict :=
  match account_of (or_user_id o) d with
  | None => Refuses kAccountNotFound "账户不存在"
  | Some a =>
      if (ar_status a =? 0) && (or_total_amount o <=? ar_balance a) then Pays
      else Refuses kBalanceNotEnough "余额不足"
  end.

(** The verdict once the trade number is found to be new. *)
Definition settle_verdict (o : OrderRow) (d : Db) : verdict :=
  if bool_decide (or_status o = kPendingPayment) then debit_verdict o d
  else if bool_decide (or_status o = kPaid) then Repeats
  else Refuses kOrderStatusInvalid "订单状态不允许支付".

Definition order_verdict (req : PaymentCallbackReq) (o : OrderRow) (d : Db) : verdict :=
  match trade_named req d with
  | Some p =>
      if bool_decide (py_order_no p = cb_orderNo req) then Repeats
      else Refuses kChannelTradeConflict "渠道交易号已绑定其他订单"
  | None => settle_verdict o d
  end.

Definition callback_verdict (req : PaymentCallbackReq) (d : Db) : verdict :=
  match order_named req d with
  | None => Refuses kOrderNotFound "订单不存在"
  | Some o =>
      if bool_decide (yuanStringToFen (cb_amount req) = Some (or_total_amount o)) then order_verdict req o d
      else Refuses kAmountMismatch "支付金额与订单金额不一致"
  end.

Definition verdict_answer (req : PaymentCallbackReq) (v : verdict) : Result jvalue :=
  match v with
  | Pays => ok (paid_data req) (cb_requestId req)
  | Repeats => ok jnull (cb_requestId req)
  | Refuses c message => fail c message (cb_requestId req)
  end.

(** The columns hold the values of the callback, and the three new rows are new. *)
Record callback_accepted (req : PaymentCallbackReq) (rawBody : string) (d : Db)
  (paymentNo messageId : string) : Prop := {
  ca_payment amount : yuanStringToFen (cb_amount req) = Some amount ->
    exists callbackTime, epochToBeijing (cb_timestamp req) = Some callbackTime
    /\ is_Some (payment_row (mkPayment paymentNo (cb_orderNo req) (cb_channel req) (cb_channelTradeNo req)
         amount kPaySuccess callbackTime rawBody));
  ca_payment_new : existsb (fun p => sql_eq (py_payment_no p) paymentNo) (t_payment d) = false;
  ca_account o a : In o (t_order d) -> sql_eq (or_order_no o) (cb_orderNo req) = true ->
    In a (t_account d) -> ar_user_id a = or_user_id o ->
    ar_status a = 0 -> or_total_amount o <= ar_balance a ->
    uint_ok (ar_version a + 1) = true
    /\ is_Some (flow_row (mkAccountFlow (ar_account_no a) kPayment kOut (or_total_amount o) (ar_balance a)
         (ar_balance a - or_total_amount o) (cb_orderNo req) (cb_requestId req)));
  ca_flow_new : existsb (fun f => sql_eq (fr_request_id f) (cb_requestId req)
    && bool_decide (fr_biz_type f = kPayment)) (t_account_flow d) = false;
  ca_message : exists exchange routingKey,
    rabbit_value customConfig "exchange" "trade.exchange" = Some exchange
    /\ rabbit_value customConfig "routing_key_notify" "order.paid" = Some routingKey
    /\ forall o now, In o (t_order d) -> sql_eq (or_order_no o) (cb_orderNo req) = true ->
       is_Some (message_row (mkLocalMessage messageId kBizTypeOrderPaid (cb_orderNo req) exchange routingKey
         (message_payload messageId (order_of_row o)) kMsgPending 0 "") now);
  ca_message_new : existsb (fun m => sql_eq (mr_message_id m) messageId) (t_local_message d) = false
}.

(** ** The verdict and the tables *)

Lemma find_unique {R K : Type} (key : R -> K) k p (t : list R) x :
  (forall r, p r = true -> key r = k) -> NoDup (map key t) -> In x t -> p x = true -> find p t = Some x.
Proof. intros Hk Hnd Hin Hx. rewrite <- find_head. by eapply sql_head_unique. Qed.

Lemma order_named_in req d o : keys_wf d -> In o (t_order d) -> sql_eq (or_order_no o) (cb_orderNo req) = true ->
  order_named req d = Some o.
Proof.
  intros K Hin Hno. apply (find_unique (fun o => weight (or_order_no o)) (weight (cb_orderNo req)));
    [by intros r ?%sql_eq_iff | apply K | done | done].
Qed.

(** A callback that pays has not been dealt with before. *)
Lemma pays_not_processed req d : keys_wf d -> callback_verdict req d = Pays -> ~ already_processed req d.
Proof.
  intros K Hv [(p & Hin & Hch & Htn & _) | (o & Hin & Hno & Hpaid)]; unfold callback_verdict, order_verdict, settle_verdict in Hv.
  - destruct (order_named req d) as [o|]; [| done]. case_bool_decide; [| done].
    destruct (trade_named req d) as [q|] eqn:Hq; [by case_bool_decide |].
    apply (List.find_none _ _ Hq) in Hin. by rewrite Hch, Htn in Hin.
  - rewrite (order_named_in req d o), Hpaid in Hv by done. case_bool_decide; [| done].
    destruct (trade_named req d); [by case_bool_decide |]. by rewrite !bool_decide_decide in Hv.
Qed.

(** A payment takes place only on the verdict that it does. *)
Lemma effect_not_repeats req rawBody d d' : keys_wf d ->
  payment_effect req rawBody d d' -> callback_verdict req d <> Repeats.
Proof.
  intros K Heff. revert K.
  destruct Heff as [d o1 o o2 a1 a a2 amount now now' cbt pno mid ex rk py Hto Hno Hpend Hamt Htot Hpos
    Hta Hu Hst Hbal Htime Hpy Hpc fr Hfc Hm]. intros K.
  unfold callback_verdict, order_verdict, settle_verdict.
  rewrite (order_named_in req d o) by (done || (rewrite Hto; apply in_app_iff; right; by left)).
  case_bool_decide; [| done]. destruct (trade_named req d) as [p|] eqn:Hp.
  - apply find_some in Hp as [Hin [Hch Htn]%andb_true_iff].
    apply payment_row_inv in Hpy as (_ & _ & Ech & Etn & _). cbn in Ech, Etn.
    apply existsb_false in Hpc. rewrite List.Forall_forall in Hpc. specialize (Hpc p Hin).
    unfold payment_conflict in Hpc. by rewrite Ech, Etn, Hch, Htn, orb_true_r in Hpc.
  - rewrite Hpend, bool_decide_eq_true_2 by done. unfold debit_verdict.
    destruct (account_of _ d); [case_match |]; done.
Qed.

Lemma verdict_codes req d c message : callback_verdict req d = Refuses c message ->
  c <> kSuccess /\ c <> kDbError.
Proof.
  unfold callback_verdict, order_verdict, settle_verdict, debit_verdict.
  repeat (case_match; try (intros [= <- <-]; done); try done).
Qed.

(** ** The statements succeed *)

(** How the scope of the guard ends: a refusal is an exception. *)
Definition verdict_outcome (req : PaymentCallbackReq) (v : verdict) : outcome (Result jvalue) :=
  match v with
  | Refuses c message => Throw (BizException c message)
  | _ => Ret (verdict_answer req v)
  end.

Lemma markPaid_total no now d : NoDup (map (fun o => weight (or_order_no o)) (t_order d)) ->
  is_Some (markPaid_sql no now d).
Proof.
  intros Hnd. unfold markPaid_sql.
  destruct (sql_update_key (fun o => weight (or_order_no o)) (weight no) (markPaid_where no)
    (fun r => Some (paid_row now r)) (t_order d)) as [[_ ->] | (t1 & o & t2 & _ & _ & _ & _ & ->)];
    [| done | by eexists | by eexists].
  unfold markPaid_where. by intros r [Hr _]%andb_true_iff; apply sql_eq_iff.
Qed.

Lemma deduct_total no fen amount now d : NoDup (map (fun a => weight (ar_account_no a)) (t_account d)) ->
  cast_decimal (fenToYuanString fen) = Some amount -> 0 <= amount ->
  (forall a, In a (t_account d) -> sql_eq (ar_account_no a) no = true -> ar_status a = 0 -> amount <= ar_balance a ->
     ar_balance a < decimal_limit /\ uint_ok (ar_version a + 1) = true) ->
  is_Some (deduct_sql no fen now d).
Proof.
  intros Hnd Hcast Hamt Hfit. unfold deduct_sql. rewrite Hcast. cbn [mbind option_bind].
  destruct (sql_update_key (fun a => weight (ar_account_no a)) (weight no) (deduct_where no amount)
    (deduct_row amount) (t_account d)) as [[_ ->] | (t1 & a & t2 & Ht & Hp & _ & _ & ->)];
    [by intros r (? & _)%deduct_where_iff; apply sql_eq_iff | done | by eexists |].
  apply deduct_where_iff in Hp as (Hno & Hst & Hbal).
  destruct (Hfit a) as [Hlim Hv]; [rewrite Ht; apply in_app_iff; right; by left | done.. |].
  unfold deduct_row, decimal_ok. rewrite Hv.
  assert ((- decimal_limit <? ar_balance a - amount) && (ar_balance a - amount <? decimal_limit) = true) as ->.
  { unfold decimal_limit in *. rewrite andb_true_iff, !Z.ltb_lt. lia. }
  assert ((0 <=? ar_balance a - amount) = true) as -> by (apply Z.leb_le; lia). by eexists.
Qed.

Lemma insertFlow_total f r now d : flow_row f = Some r -> existsb (flow_conflict r) (t_account_flow d) = false ->
  is_Some (insertFlow_sql f now d).
Proof. intros Hr Hc. unfold insertFlow_sql. rewrite Hr. cbn. unfold sql_insert. rewrite Hc. by eexists. Qed.

Lemma message_insert_total m now d : is_Some (message_row m now) ->
  existsb (fun x => sql_eq (mr_message_id x) (m_messageId m)) (t_local_message d) = false ->
  is_Some (message_insert_sql m now d).
Proof.
  intros [r Hr] Hc. unfold message_insert_sql. rewrite Hr. cbn. unfold sql_insert.
  unfold message_row in Hr. simplify_opt. cbn [mr_message_id]. rewrite Hc. by eexists.
Qed.

(** ** The steps of the callback *)

Lemma wp_callback_notify_total req rawBody paymentNo o d d4 st mid ids' n' : no_fault ->
  callback_accepted req rawBody d paymentNo mid ->
  In o (t_order d) -> sql_eq (or_order_no o) (cb_orderNo req) = true ->
  t_local_message d4 = t_local_message d -> view d4 st ->
  nextId system_clock spin_fuel (readings st) (ids st) = (IdOk mid, ids', n') ->
  wp (callback_notify customConfig req (order_of_row o)) (fun r _ => r = verdict_outcome req Pays) st.
Proof.
  intros Hnf Hacc Hin Hno Hm Hv Hnext. destruct (ca_message _ _ _ _ _ Hacc) as (ex & rk & Hex & Hrk & Hrow).
  unfold callback_notify. apply wp_bind. eapply wp_next_id_ok; [exact Hv | exact Hnext |].
  intros st1 Hv1 _ _ _.
  apply wp_bind, wp_or_throw; [| congruence]. intros ? [= <-]%(eq_trans (eq_sym Hex)).
  apply wp_bind, wp_or_throw; [| congruence]. intros ? [= <-]%(eq_trans (eq_sym Hrk)).
  apply wp_bind. eapply wp_exec_total; [done | exact Hv1 | |].
  { intros now. apply message_insert_total; [by apply Hrow |]. rewrite Hm. apply Hacc. }
  intros now st2 d5 u _ _ Hv2 _ _.
  apply wp_bind. eapply wp_guard_commit_total; [done | exact Hv2 |]. intros st3 _ _. by apply wp_ret.
Qed.

(** An account is known by its number. *)
Lemma account_same_no d a b : NoDup (map (fun a => weight (ar_account_no a)) (t_account d)) ->
  In a (t_account d) -> In b (t_account d) -> sql_eq (ar_account_no b) (ar_account_no a) = true -> b = a.
Proof.
  intros Hnd Ha Hb Hbn.
  pose proof (find_unique (fun a => weight (ar_account_no a)) (weight (ar_account_no a))
    (fun r => sql_eq (ar_account_no r) (ar_account_no a)) (t_account d)) as Hf.
  assert (Some b = Some a) as [=]; [| done].
  rewrite <- (Hf a), <- (Hf b); rewrite ?sql_eq_refl; try done; by intros r ?%sql_eq_iff.
Qed.

Lemma wp_callback_debit_total {L : MySqlLaws} req rawBody paymentNo o d d2 st mid ids' n' : no_fault ->
  db_wf d -> callback_accepted req rawBody d paymentNo mid ->
  In o (t_order d) -> sql_eq (or_order_no o) (cb_orderNo req) = true -> or_total_amount o <= max_parsed_fen ->
  t_account d2 = t_account d -> t_account_flow d2 = t_account_flow d -> t_local_message d2 = t_local_message d ->
  view d2 st -> nextId system_clock spin_fuel (readings st) (ids st) = (IdOk mid, ids', n') ->
  wp (callback_debit customConfig req (order_of_row o) (or_total_amount o))
    (fun r _ => r = verdict_outcome req (debit_verdict o d)) st.
Proof.
  intros Hnf [K R] Hacc Hin Hno Hmax Ea Ef Em Hv Hnext.
  assert (Ho : order_ok o) by exact (proj1 (List.Forall_forall _ _) (wf_orders _ R) o Hin).
  assert (Hamt : 0 <= or_total_amount o < decimal_limit).
  { unfold order_ok in Ho. unfold max_parsed_fen in Hmax. unfold decimal_limit. nia. }
  assert (Huid : 0 <= or_user_id o < 2 ^ 63) by (unfold order_ok in Ho; tauto).
  pose proof (wf_account_no _ K) as Hnn. rewrite <- Ea in Hnn.
  unfold callback_debit, debit_verdict, account_of. cbn [o_userId order_of_row].
  apply wp_bind. eapply wp_query_total; [done | exact Hv | done |]. intros st1 Hv1 _ [Hi1 Hr1].
  rewrite find_head, wrap64_u64, Ea by done.
  destruct (find _ (t_account d)) as [a|] eqn:Ha; cbn [fmap option_fmap option_map]; [| by apply wp_throw].
  apply find_some in Ha as [Hina Hu%Z.eqb_eq]. cbn [a_accountNo account_of_row].
  assert (Hcast : cast_decimal (fenToYuanString (or_total_amount o)) = Some (or_total_amount o)).
  { apply cast_decimal_fen. lia. }
  pose proof (fun b => account_same_no d a b (wf_account_no _ K) Hina) as Hsame.
  apply wp_bind. eapply wp_exec_total; [done | exact Hv1 | |].
  { intros now. apply (deduct_total _ _ (or_total_amount o)); [done | done | lia |]. rewrite Ea.
    intros b Hb Hbn Hst Hbal. apply Hsame in Hbn as ->; [| done]. split.
    - apply (proj1 (List.Forall_forall _ _) (wf_accounts _ R) a Hina).
    - by apply (ca_account _ _ _ _ _ Hacc o a). }
  intros now2 st2 d3 n Hded _ Hv2 _ [Hi2 Hr2].
  apply (deduct_inv _ _ (or_total_amount o)) in Hded; [| done | done]. rewrite Ea in Hded.
  destruct Hded as [(-> & -> & Hn) | (-> & a1 & b & a2 & Hb & Hbn & Hst & Hbal & ->)]; cbn [Nat.eqb].
  - apply existsb_false in Hn. rewrite List.Forall_forall in Hn. specialize (Hn a Hina).
    unfold deduct_where in Hn. rewrite sql_eq_refl in Hn. cbn [andb] in Hn. rewrite Hn. by apply wp_throw.
  - apply Hsame in Hbn as ->; [| rewrite Hb; apply in_app_iff; right; by left].
    rewrite Hst, Z.eqb_refl, (proj2 (Z.leb_le _ _) Hbal). cbn [andb].
    destruct (ca_account _ _ _ _ _ Hacc o a) as [_ [fr Hfr]]; [done.. |].
    pose proof (wf_account_user _ K) as Hnu. rewrite Hb in Hnu.
    apply wp_bind. eapply wp_query_total; [done | exact Hv2 | reflexivity |]. intros st3 Hv3 _ [Hi3 Hr3].
    apply wp_bind, wp_deref. eexists. split; [by apply (getByUserId_debited a1 a a2 (or_total_amount o) (or_user_id o) d2 _ Hnu Hu Huid) |].
    cbn [a_balanceFen account_of_row ar_balance debited].
    assert (Ha : account_ok a) by exact (proj1 (List.Forall_forall _ _) (wf_accounts _ R) a Hina).
    unfold account_ok, decimal_limit in *.
    rewrite Z.sub_add, wrap64_small by (unfold in_i64; lia).
    apply wp_bind. eapply wp_exec_total; [done | exact Hv3 | |].
    { intros now. apply (insertFlow_total _ fr); [done |].
      apply flow_row_inv in Hfr as [_ ->]; cbn; try (unfold decimal_limit; lia). rewrite Ef. apply Hacc. }
    intros now4 st4 d5 u Hins _ Hv4 _ [Hi4 Hr4]. apply insertFlow_inv in Hins as (fr' & _ & _ & ->).
    eapply wp_callback_notify_total; [done | exact Hacc | done | done | | exact Hv4 |]; [done |].
    by rewrite Hi4, Hr4, Hi3, Hr3, Hi2, Hr2, Hi1, Hr1.
Qed.

Lemma wp_callback_settle_total {L : MySqlLaws} req rawBody paymentNo o d py st mid ids' n' : no_fault ->
  db_wf d -> callback_accepted req rawBody d paymentNo mid ->
  In o (t_order d) -> sql_eq (or_order_no o) (cb_orderNo req) = true -> or_total_amount o <= max_parsed_fen ->
  view (set_payment (t_payment d ++ [py]) d) st ->
  nextId system_clock spin_fuel (readings st) (ids st) = (IdOk mid, ids', n') ->
  wp (callback_settle customConfig req (order_of_row o) (or_total_amount o))
    (fun r _ => r = verdict_outcome req (settle_verdict o d)) st.
Proof.
  intros Hnf [K R] Hacc Hin Hno Hmax Hv Hnext. unfold callback_settle, settle_verdict.
  pose proof (wf_order_no _ K) as Hnd. pose proof (order_named_in req d o K Hin Hno) as Hnamed.
  apply wp_bind. eapply wp_exec_total; [done | exact Hv | intros now; by apply markPaid_total |].
  intros now1 st1 d1 n Hmark _ Hv1 _ [Hi1 Hr1]. apply markPaid_inv in Hmark; [| done].
  cbn [t_order set_payment] in Hmark.
  destruct Hmark as [(-> & -> & Hn) | (-> & p1 & o' & p2 & Hto & Hno' & Hpend & ->)]; cbn [Nat.eqb].
  - apply existsb_false in Hn. rewrite List.Forall_forall in Hn. specialize (Hn o Hin).
    unfold markPaid_where in Hn. rewrite Hno in Hn. cbn [andb] in Hn. rewrite Hn. clear Hn.
    apply wp_bind. eapply wp_query_total; [done | exact Hv1 | reflexivity |]. intros st2 _ _ _.
    rewrite find_head. cbn [t_order set_payment]. unfold order_named in Hnamed. rewrite Hnamed.
    cbn [fmap option_fmap option_map o_status order_of_row].
    case_bool_decide; [by apply wp_ret | by apply wp_throw].
  - assert (o' = o) as ->.
    { apply (inj Some). rewrite <- Hnamed. symmetry.
      apply order_named_in; [done | rewrite Hto; apply in_app_iff; right; by left | done]. }
    rewrite bool_decide_eq_true_2 by done.
    eapply wp_callback_debit_total; [done | done | exact Hacc | done.. | | | | exact Hv1 |]; try done.
    by rewrite Hi1, Hr1.
Qed.

(** With a new payment number, a conflict of payments is one of trade numbers. *)
Lemma trade_conflict req d py pno : py_payment_no py = pno -> py_channel py = cb_channel req ->
  py_channel_trade_no py = cb_channelTradeNo req ->
  existsb (fun p => sql_eq (py_payment_no p) pno) (t_payment d) = false ->
  existsb (payment_conflict py) (t_payment d) = match trade_named req d with Some _ => true | None => false end.
Proof.
  intros Epno Ech Etn. unfold trade_named, payment_conflict. rewrite Epno, Ech, Etn.
  induction (t_payment d) as [|p l IH]; [done |]. cbn. intros [Hp Hl]%orb_false_iff. rewrite Hp. cbn [orb].
  destruct (_ && _); [done | by apply IH].
Qed.

Lemma wp_callback_record_total {L : MySqlLaws} req rawBody o d st pno ids1 n1 mid ids2 n2 : no_fault ->
  db_wf d -> callback_accepted req rawBody d pno mid ->
  In o (t_order d) -> sql_eq (or_order_no o) (cb_orderNo req) = true ->
  yuanStringToFen (cb_amount req) = Some (or_total_amount o) -> view d st ->
  nextId system_clock spin_fuel (readings st) (ids st) = (IdOk pno, ids1, n1) ->
  nextId system_clock spin_fuel n1 ids1 = (IdOk mid, ids2, n2) ->
  wp (callback_record customConfig req rawBody (order_of_row o) (or_total_amount o))
    (fun r _ => r = verdict_outcome req (order_verdict req o d)) st.
Proof.
  intros Hnf Hwf Hacc Hin Hno Hamt Hv Hnext1 Hnext2. unfold callback_record, order_verdict.
  destruct (ca_payment _ _ _ _ _ Hacc _ Hamt) as (cbt & Htime & py & Hpy).
  pose proof (payment_row_inv _ _ Hpy) as (Epno & _ & Ech & Etn & _). cbn in Epno, Ech, Etn.
  apply wp_bind. eapply wp_next_id_ok; [exact Hv | exact Hnext1 |]. intros st1 Hv1 _ Hi1 Hr1.
  apply wp_bind, wp_or_throw; [| congruence]. intros ? [= <-]%(eq_trans (eq_sym Htime)).
  apply wp_bind. unfold payment_insertWithDedup. apply wp_bind. eapply wp_exec_total; [done | exact Hv1 | |].
  { intros now. unfold payment_insert_sql. rewrite Hpy. cbn. destruct (sql_insert_noop _ _ _). by eexists. }
  intros now st2 d2 n Hins _ Hv2 _ [Hi2 Hr2].
  apply payment_insert_inv in Hins as (py' & Hpy' & Hcase). replace py' with py in Hcase by congruence.
  rewrite (trade_conflict req d py pno Epno Ech Etn (ca_payment_new _ _ _ _ _ Hacc)) in Hcase.
  destruct (trade_named req d) as [p|] eqn:Hp; cbn in Hcase.
  - destruct Hcase as [(-> & -> & _) | (_ & _ & ?)]; [| done]. cbn [Nat.eqb].
    apply wp_ret, wp_bind. eapply wp_query_total; [done | exact Hv2 | reflexivity |]. intros st3 _ _ _.
    rewrite find_head. unfold trade_named in Hp. rewrite Hp. cbn [fmap option_fmap option_map payment_of_row pay_orderNo].
    case_bool_decide; [by apply wp_ret | by apply wp_throw].
  - destruct Hcase as [(_ & _ & ?) | (-> & -> & _)]; [done |]. cbn [Nat.eqb]. apply wp_ret.
    pose proof (yuanStringToFen_abs _ _ Hamt) as Habs.
    eapply wp_callback_settle_total; [done | done | exact Hacc | done | done | lia | exact Hv2 |].
    by rewrite Hi2, Hr2, Hi1, Hr1.
Qed.

Lemma wp_callback_body_total {L : MySqlLaws} req rawBody d st pno ids1 n1 mid ids2 n2 : no_fault ->
  db_wf d -> callback_accepted req rawBody d pno mid -> view d st ->
  nextId system_clock spin_fuel (readings st) (ids st) = (IdOk pno, ids1, n1) ->
  nextId system_clock spin_fuel n1 ids1 = (IdOk mid, ids2, n2) ->
  wp (callback_body customConfig req rawBody) (fun r _ => r = verdict_outcome req (callback_verdict req d)) st.
Proof.
  intros Hnf Hwf Hacc Hv Hnext1 Hnext2. unfold callback_body, callback_verdict.
  apply wp_bind. eapply wp_query_total; [done | exact Hv | reflexivity |]. intros st1 Hv1 _ [Hi1 Hr1].
  rewrite find_head. fold (order_named req d).
  destruct (order_named req d) as [o|] eqn:Ho; cbn [fmap option_fmap option_map]; [| by apply wp_throw].
  apply find_some in Ho as [Hin Hno]. cbn [o_totalAmountFen order_of_row].
  destruct (yuanStringToFen (cb_amount req)) as [amount|] eqn:Hamt.
  2: { rewrite bool_decide_eq_false_2 by done. by apply wp_throw. }
  destruct (Z.eqb_spec amount (or_total_amount o)) as [-> | Hne].
  - rewrite bool_decide_eq_true_2 by done.
    eapply wp_callback_record_total; [done | done | exact Hacc | done | done | done | done | | exact Hnext2].
    by rewrite Hi1, Hr1.
  - rewrite bool_decide_eq_false_2 by congruence. by apply wp_throw.
Qed.

(** C11. Without faults a genuine callback is answered by the verdict on the rows: no such
    order (40001), another amount than the order's (50002), success without data when
    the trade number is already recorded for this order or the order is paid, a trade
    number of another order (50003), an order that is neither pending nor paid (40002),
    no account (20001), an account frozen or short of money (20002), and otherwise
    success. The payment then takes place, and in every other case nothing changes.
    The identifier generator answers twice and the columns hold the new rows. *)
Theorem callback_outcome {L : MySqlLaws} req rawBody st pno ids1 n1 mid ids2 n2 :
  no_fault -> db_wf (committed st) -> genuine customConfig req ->
  nextId system_clock spin_fuel (readings st) (ids st) = (IdOk pno, ids1, n1) ->
  nextId system_clock spin_fuel n1 ids1 = (IdOk mid, ids2, n2) ->
  callback_accepted req rawBody (committed st) pno mid ->
  let v := callback_verdict req (committed st) in
  exists st', run_alone (handleCallback customConfig req rawBody) st = (Ret (verdict_answer req v), st')
    /\ match v with
       | Pays => payment_effect req rawBody (committed st) (committed st')
       | _ => committed st' = committed st
       end.
Proof.
  intros Hnf Hwf (Hc & secret & Hsecret & Hne & Hsign) Hnext1 Hnext2 Hacc v.
  assert (H : wp (handleCallback customConfig req rawBody) (fun r _ => r = Ret (verdict_answer req v)) st).
  { unfold handleCallback. rewrite bool_decide_eq_true_2 by done. cbn [negb].
    apply wp_bind, wp_or_throw; [| congruence]. intros ? [= <-]%(eq_trans (eq_sym Hsecret)).
    rewrite bool_decide_eq_false_2, Hsign by done. cbn [orb negb].
    apply wp_try_catch, wp_with_guard_total; [done |]. intros st1 Hv _ [Hi Hr].
    eapply wp_mono.
    { eapply (wp_callback_body_total _ _ _ _ pno); [done | exact Hwf | exact Hacc | done | | exact Hnext2].
      by rewrite Hi, Hr. }
    intros r st2 ->. fold v. by destruct v; [.. | apply wp_ret]. }
  destruct (run_alone (handleCallback customConfig req rawBody) st) as [r st'] eqn:Hrun.
  pose proof (wp_elim _ _ _ _ _ H Hrun) as ->. exists st'. split; [done |].
  pose proof (wp_elim _ _ _ _ _ (handleCallback_partial customConfig req rawBody st Hwf) Hrun) as Hpost.
  subst v. destruct (callback_verdict req (committed st)) as [| |c message] eqn:Hv; cbn [verdict_answer handleCallback_post] in Hpost.
  - destruct Hpost as (_ & [(_ & _ & Hdone) | (_ & Heff)]); [| done].
    by destruct (pays_not_processed req (committed st) (proj1 Hwf) Hv).
  - destruct Hpost as (_ & [(_ & Hdb & _) | (_ & Heff)]); [done |].
    by destruct (effect_not_repeats req rawBody _ _ (proj1 Hwf) Heff).
  - destruct (verdict_codes _ _ _ _ Hv) as [Hcode Hdb]. rewrite isOk_fail in Hpost by done.
    destruct Hpost as (_ & [Hst | (Hfail & _)]); [done |].
    apply (f_equal code) in Hfail. by destruct c.
Qed.
End PaymentOutcome.

(** ** The verdicts on the concrete server *)

Module PaymentExamples.
#[local] Existing Instance Server.calm.
#[local] Existing Instance Server.lib.
#[local] Existing Instance Tree.lib.

(** The callback of the sample, under another number or for another amount. *)
Definition with_trade (trade : string) : PaymentCallbackReq :=
  mkPaymentCallbackReq "ffff0000ffff0001" (cb_orderNo sample_callback) "MOCK" trade "59.97" "1735689700" "".
Definition with_amount (amount : string) : PaymentCallbackReq :=
  mkPaymentCallbackReq "ffff0000ffff0001" (cb_orderNo sample_callback) "MOCK" "T101" amount "1735689700" "".
Definition for_order (orderNo trade : string) : PaymentCallbackReq :=
  mkPaymentCallbackReq "ffff0000ffff0001" orderNo "MOCK" trade "59.97" "1735689700" "".

Definition paid_shop : Db := (run_callback sample_callback (Server.fresh_state Server.ordered_shop)).2.(committed).
Definition poor_shop : Db := set_account [mkAccountRow "A1" 7 5996 0 0 0] Server.ordered_shop.
(** A second order: pending, and cancelled. *)
Definition two_orders (s : OrderStatus) : Db :=
  set_order (mkOrderRow "2" "bbbbccccddddeeee" 7 1 3 1999 5997 s 1735720200 None :: t_order paid_shop) paid_shop.
Definition emptied_shop : Db := set_account [] Server.ordered_shop.

(** Every branch of the verdict is taken. *)
Example verdicts_taken :
  callback_verdict sample_callback Server.ordered_shop = Pays
  /\ callback_verdict sample_callback paid_shop = Repeats
  /\ callback_verdict (with_trade "T101") paid_shop = Repeats
  /\ callback_verdict (with_amount "59.98") Server.ordered_shop = Refuses kAmountMismatch "支付金额与订单金额不一致"
  /\ callback_verdict (for_order "2" "T100") (two_orders kPendingPayment)
     = Refuses kChannelTradeConflict "渠道交易号已绑定其他订单"
  /\ callback_verdict (for_order "2" "T101") (two_orders kCancelled)
     = Refuses kOrderStatusInvalid "订单状态不允许支付"
  /\ callback_verdict (for_order "1" "T101") Server.ordered_shop = Refuses kOrderNotFound "订单不存在"
  /\ callback_verdict sample_callback poor_shop = Refuses kBalanceNotEnough "余额不足"
  /\ callback_verdict sample_callback emptied_shop = Refuses kAccountNotFound "账户不存在".
Proof. vm_compute. repeat split. Qed.

Lemma sample_accepted : callback_accepted sample_config sample_callback "{}"
  Server.ordered_shop "132633958809735168" "132633958813929472".
Proof.
  split.
  - intros amount Hamt. vm_compute in Hamt. injection Hamt as <-.
    eexists. split; [vm_compute; reflexivity | eexists; vm_compute; reflexivity].
  - vm_compute. reflexivity.
  - intros o a [<- | []] _ [<- | [<- | []]] Hu _ _; [| discriminate Hu].
    split; [vm_compute; reflexivity | eexists; vm_compute; reflexivity].
  - vm_compute. reflexivity.
  - exists "trade.exchange", "order.paid". split; [vm_compute; reflexivity |]. split; [vm_compute; reflexivity |].
    intros o now [<- | []] _. eexists. vm_compute. reflexivity.
  - vm_compute. reflexivity.
Qed.

Lemma callback_outcome_witness :
  callback_verdict sample_callback Server.ordered_shop = Pays
  /\ exists st', run_callback sample_callback (Server.fresh_state Server.ordered_shop)
                 = (Ret (ok (paid_data sample_callback) (cb_requestId sample_callback)), st')
     /\ payment_effect sample_callback "{}" Server.ordered_shop (committed st').
Proof.
  assert (Hv : callback_verdict sample_callback Server.ordered_shop = Pays) by (vm_compute; reflexivity).
  split; [exact Hv |].
  destruct (callback_outcome (D := Server.lib) (J := Tree.lib) (O := SignUtil.Plain.lib) (E := Server.calm)
    sample_config (L := Server.lib_laws) sample_callback "{}" (Server.fresh_state Server.ordered_shop)
    "132633958809735168" (IdState (kEpochMs + 366 * 86400000) 0) 1
    "132633958813929472" (IdState (kEpochMs + 366 * 86400000 + 1) 0) 2) as (st' & Hrun & Heff).
  - exact Server.calm_no_fault.
  - exact Server.ordered_shop_wf.
  - split; [vm_compute; reflexivity |]. exists "s3cr3t".
    split; [vm_compute; reflexivity |]. split; [congruence | vm_compute; reflexivity].
  - vm_compute. reflexivity.
  - vm_compute. reflexivity.
  - exact sample_accepted.
  - cbn [committed Server.fresh_state] in Hrun, Heff. rewrite Hv in Hrun, Heff. exists st'. by split.
Defined.
End PaymentExamples.
