(* ===== verification/Books.v ===== *)
(** * Books: what orders and payments do to the shop

    A step of the system places one order, settles one payment, or leaves the books
    alone; each lemma says what such a step preserves.  The theorems on serial and
    on interleaved executions are proved from them. *)

From stdpp Require Import relations.
From S2P Require Import Prelude JsonValue MoneyUtil Result BeijingTime SignUtil Models Database Daos Invariant Server OrderService PaymentService.

Section Books.
Context {D : MySql} {J : JsonCpp}.

(** The tables of the shop: products, orders, accounts and their books. *)
Definition same_books (d d' : Db) : Prop :=
  t_product d' = t_product d /\ t_order d' = t_order d /\ t_account d' = t_account d
  /\ t_payment d' = t_payment d /\ t_account_flow d' = t_account_flow d.

Inductive books_step (d d' : Db) : Prop :=
  | BooksOrder req o : order_effect req o d d' -> books_step d d'
  | BooksPayment req rawBody : payment_effect req rawBody d d' -> books_step d d'
  | BooksSame : same_books d d' -> (forall w, messages w d' = messages w d) -> books_step d d'.

Lemma payment_effect_stock req raw d d' pid : payment_effect req raw d d' ->
  in_stock pid d' + in_orders pid d' = in_stock pid d + in_orders pid d.
Proof.
  intros [d0 o1 o o2 a1 a a2 amount now now' cbt pno mid ex rk py Hto Hno Hpend Hamt Htot Hpos
    Hta Hu Hst Hbal Htime Hpy Hpc fr Hfc Hm].
  unfold in_stock, in_orders. cbn. by rewrite Hto, !sum_of_split.
Qed.

Lemma books_stock d d' pid : books_step d d' ->
  in_stock pid d' + in_orders pid d' = in_stock pid d + in_orders pid d.
Proof.
  intros [req o H | req raw H | (Hp & Ho & _) _].
  - by eapply order_effect_stock.
  - by eapply payment_effect_stock.
  - unfold in_stock, in_orders. by rewrite Hp, Ho.
Qed.

(** A new order is pending: it moves no money. *)
Lemma order_effect_pending req o d d' : order_effect req o d d' ->
  t_account d' = t_account d /\ t_payment d' = t_payment d /\ t_account_flow d' = t_account_flow d
  /\ t_local_message d' = t_local_message d
  /\ exists orow, t_order d' = t_order d ++ [orow] /\ or_status orow = kPendingPayment.
Proof.
  intros [d0 t1 p t2 no ms orow irow Hq Ht Hid Hs Hst oo Hrow Hc Hi Hist Hb Hf].
  split_and!; try done. exists orow. split; [done |].
  by apply order_row_inv in Hrow as (_ & _ & -> & _).
Qed.

Lemma books_money d d' uid : books_step d d' ->
  balance_of uid d' + spent uid d' = balance_of uid d + spent uid d.
Proof.
  intros [req o H | req raw H | (_ & Ho & Ha & _) _].
  - apply order_effect_pending in H as (Ha & _ & _ & _ & orow & Ho & Hpend).
    unfold balance_of, spent. rewrite Ha, Ho, sum_of_snoc, Hpend. cbn. rewrite andb_false_r. lia.
  - by eapply payment_effect_money.
  - unfold balance_of, spent. by rewrite Ha, Ho.
Qed.

Lemma books_ledger {L : MySqlLaws} d d' : books_step d d' -> ledger_inv d -> ledger_inv d'.
Proof.
  intros [req o H | req raw H | (_ & Ho & _ & Hp & Hf) Hm] Hinv.
  - apply order_effect_pending in H as (_ & Hp & Hf & Hm & orow & Ho & Hpend). intros w. specialize (Hinv w).
    unfold payments, flows, messages, paid_orders in *. rewrite Hp, Hf, Hm, Ho, !sum_of_snoc, Hpend. cbn.
    rewrite andb_false_r. lia.
  - by eapply payment_effect_ledger.
  - intros w. specialize (Hinv w). rewrite Hm. unfold payments, flows, paid_orders in *. by rewrite Hp, Hf, Ho.
Qed.

(** An order between two instants: unchanged, or a pending one that was paid. *)
Definition order_later (o o' : OrderRow) : Prop :=
  o' = o \/ (or_status o = kPendingPayment /\ exists now, o' = paid_row now o).

#[export] Instance order_later_preorder : PreOrder order_later.
Proof.
  split; [by left |].
  intros o1 o2 o3 [-> | [Hp [n ->]]] [-> | [Hp' [n' ->]]]; [by left | right; by eauto | right; by eauto | done].
Qed.

(** The orders of [t] are kept in [t'], each as it was or paid. *)
Definition orders_kept (t t' : list OrderRow) : Prop :=
  exists kept new, t' = kept ++ new /\ Forall2 order_later t kept.

#[export] Instance orders_kept_preorder : PreOrder orders_kept.
Proof.
  split.
  - intros t. exists t, []. split; [by rewrite app_nil_r |]. by apply Forall_Forall2_diag, Forall_forall.
  - intros t1 t2 t3 (k1 & n1 & -> & H1) (k2 & n2 & -> & H2).
    apply Forall2_app_inv_l in H2 as (u1 & u2 & H2 & _ & ->). exists u1, (u2 ++ n2).
    split; [by rewrite app_assoc |]. eapply Forall2_compose; [| exact H1 | exact H2].
    intros x y z. apply transitivity.
Qed.

Lemma books_orders d d' : books_step d d' -> orders_kept (t_order d) (t_order d').
Proof.
  intros [req o H | req raw H | (_ & Ho & _) _].
  - apply order_effect_pending in H as (_ & _ & _ & _ & orow & Ho & _). exists (t_order d), [orow].
    split; [done |]. by apply Forall_Forall2_diag, Forall_forall.
  - destruct H as [d0 o1 o o2 a1 a a2 amount now now' cbt pno mid ex rk py Hto Hno Hpend Hamt Htot Hpos
      Hta Hu Hst Hbal Htime Hpy Hpc fr Hfc Hm].
    exists (o1 ++ paid_row now o :: o2), []. split; [by rewrite app_nil_r |]. rewrite Hto.
    assert (Hrefl : forall l, Forall2 order_later l l) by (intros l; by apply Forall_Forall2_diag, Forall_forall).
    apply Forall2_app; [apply Hrefl |]. constructor; [| apply Hrefl]. right. split; [done | by exists now].
  - rewrite Ho. reflexivity.
Qed.

(** A row with a given key is unique. *)
Lemma key_unique {R K : Type} (key : R -> K) t x y : NoDup (map key t) -> In x t -> In y t -> key x = key y -> x = y.
Proof.
  induction t as [|z t IH]; [done |]. cbn [map]. intros [Hz Hnd]%NoDup_cons [-> | Hx] [-> | Hy] He; [done | | | auto].
  - destruct Hz. rewrite He. by apply list_elem_of_In, in_map.
  - destruct Hz. rewrite <- He. by apply list_elem_of_In, in_map.
Qed.

(** Few rows have a given key. *)
Lemma unique_count {R K : Type} (key : R -> K) (p : R -> bool) k t :
  (forall r, p r = true -> key r = k) -> NoDup (map key t) -> 0 <= sum_of (fun r => if p r then 1 else 0) t <= 1.
Proof.
  intros Hp Hnd.
  assert (Hzero : forall l, existsb p l = false -> sum_of (fun r => if p r then 1 else 0) l = 0).
  { intros l Hl. induction l as [|x l IH]; [done |]. cbn in Hl. apply orb_false_iff in Hl as [Hx Hl].
    unfold sum_of in *. cbn. by rewrite Hx, IH. }
  destruct (sql_key_cases key k p t Hp Hnd) as [Hn | (t1 & r & t2 & -> & Hr & H1 & H2)].
  - rewrite Hzero by done. lia.
  - rewrite sum_of_split, Hr, !Hzero by done. lia.
Qed.

(** A sum of counts: of a row that is counted, and of some row when it is not zero. *)
Lemma sum_of_member {R : Type} (p : R -> bool) t x : In x t -> p x = true -> 1 <= sum_of (fun r => if p r then 1 else 0) t.
Proof.
  unfold sum_of. revert x. induction t as [|a t IH]; [done |]. intros x [-> | Hx] Hp; cbn.
  - rewrite Hp. assert (0 <= sum_of (fun r => if p r then 1 else 0) t) as H; [| unfold sum_of in H; lia].
    apply sum_of_nonneg. intros r _. by destruct (p r).
  - specialize (IH x Hx Hp). destruct (p a); lia.
Qed.

Lemma sum_of_some {R : Type} (p : R -> bool) t : 1 <= sum_of (fun r => if p r then 1 else 0) t ->
  exists x, In x t /\ p x = true.
Proof.
  unfold sum_of. induction t as [|a t IH]; cbn; [lia |]. destruct (p a) eqn:Ha; [intros _; exists a; by split; [left |] |].
  intros H. destruct IH as (x & Hx & Hp); [lia |]. exists x. split; [by right | done].
Qed.

(** The only row that is counted. *)
Lemma count_unique {R : Type} (p : R -> bool) t x y : sum_of (fun r => if p r then 1 else 0) t <= 1 ->
  In x t -> In y t -> p x = true -> p y = true -> x = y.
Proof.
  pose proof (@sum_of_member R p) as Hpos.
  unfold sum_of in *. induction t as [|a t IH]; [done |]. cbn. intros Hs [-> | Hx] [-> | Hy] Hpx Hpy; [done | | |].
  - rewrite Hpx in Hs. specialize (Hpos t y Hy Hpy). lia.
  - rewrite Hpy in Hs. specialize (Hpos t x Hx Hpx). lia.
  - apply IH; [| done..]. destruct (p a); lia.
Qed.

(** ** Many steps *)

Lemma books_steps_stock d d' pid : rtc books_step d d' ->
  in_stock pid d' + in_orders pid d' = in_stock pid d + in_orders pid d.
Proof. induction 1 as [| d u d' H _ IH]; [done |]. by rewrite IH, (books_stock _ _ pid H). Qed.

Lemma books_steps_money d d' uid : rtc books_step d d' ->
  balance_of uid d' + spent uid d' = balance_of uid d + spent uid d.
Proof. induction 1 as [| d u d' H _ IH]; [done |]. by rewrite IH, (books_money _ _ uid H). Qed.

Lemma books_steps_ledger {L : MySqlLaws} d d' : rtc books_step d d' -> ledger_inv d -> ledger_inv d'.
Proof. induction 1 as [| d u d' H _ IH]; [done |]. intros Hd. by eapply IH, books_ledger. Qed.

Lemma books_steps_orders d d' : rtc books_step d d' -> orders_kept (t_order d) (t_order d').
Proof. induction 1 as [| d u d' H _ IH]; [reflexivity |]. etransitivity; [by apply books_orders | done]. Qed.

(** At most one order of a number is paid. *)
Lemma paid_at_most_once w d : db_wf d -> 0 <= paid_orders w (fun _ => 1) d <= 1.
Proof.
  intros [K _]. apply (unique_count (fun o => weight (or_order_no o)) _ w); [| apply K].
  intros o Ho. apply andb_true_iff in Ho as [Ho _]. by apply bool_decide_eq_true in Ho.
Qed.

(** Stock and balances are not negative. *)
Lemma stock_nonneg pid d : db_wf d -> 0 <= in_stock pid d.
Proof.
  intros Hwf. apply sum_of_nonneg. intros p Hp. destruct (pr_id p =? pid); [| done].
  pose proof (wf_products _ (proj2 Hwf)) as Hprod. rewrite List.Forall_forall in Hprod.
  by destruct (Hprod p Hp) as [_ [? _]].
Qed.

Lemma balance_nonneg uid d : db_wf d -> 0 <= balance_of uid d.
Proof.
  intros Hwf. apply sum_of_nonneg. intros a Ha. destruct (ar_user_id a =? uid); [| done].
  pose proof (wf_accounts _ (proj2 Hwf)) as Hacc. rewrite List.Forall_forall in Hacc.
  by destruct (Hacc a Ha) as [? _].
Qed.
End Books.
