(* ===== verification/Reconcile.v ===== *)
(** * Reconcile: comparing the two sides of a day

    The pure part of [src/services/ReconcileService.cc]: reading the channel's bill
    and [classifyReconcileDiffs], over a model of [std::map] and of
    [std::getline]. *)

From S2P Require Import Prelude MoneyUtil Models Invariant.

(** ** The standard library *)

Section StdMap.
Context {V : Type}.

(** [m[k] = v] on a [std::map<std::string, V>], in the order of [operator<]. *)
Fixpoint map_set (k : string) (v : V) (m : list (string * V)) : list (string * V) :=
  match m with
  | [] => [(k, v)]
  | (k', v') :: m' =>
      match String.compare k k' with
      | Eq => (k', v) :: m'
      | Lt => (k, v) :: m
      | Gt => (k', v') :: map_set k v m'
      end
  end.

(** [m.find(k)]. *)
Fixpoint map_find (k : string) (m : list (string * V)) : option V :=
  match m with
  | [] => None
  | (k', v) :: m' => if String.eqb k k' then Some v else map_find k m'
  end.
End StdMap.

(** All that [while (std::getline(stream, field, delim))] reads: what follows the
    last delimiter is a field only when it is not empty. *)
Fixpoint getlines (delim : Z) (s cur : string) : list string :=
  match s with
  | "" => if String.eqb cur "" then [] else [cur]
  | String c rest =>
      if schar c =? delim then cur :: getlines delim rest ""
      else getlines delim rest (cur +:+ String c "")
  end.

(** ** The code *)

(** A line of the bill: trade number, order number, amount, callback time. *)
Definition parseBillLine (line : string) : option ReconcileSideRow :=
  match getlines 44 line "" with
  | tradeNo :: orderNo :: amount :: _ :: _ =>
      fen ← yuanStringToFen amount; Some (mkSideRow tradeNo orderNo fen)
  | _ => None
  end.

(** The loop over the lines of the bill; [None] at the first bad line. *)
Fixpoint parse_bill_lines (lines : list string) : option (list ReconcileSideRow) :=
  match lines with
  | [] => Some []
  | line :: rest =>
      if match line with "" => true | String c _ => schar c =? 35 end then parse_bill_lines rest
      else row ← parseBillLine line; rows ← parse_bill_lines rest; Some (row :: rows)
  end.

Definition parse_bill (content : string) : option (list ReconcileSideRow) :=
  parse_bill_lines (getlines 10 content "").

Record ClassifiedDiff := mkClassified {
  c_type : ReconcileDiffType;
  c_channelTradeNo : string;
  c_orderNo : string;
  c_localFen : Z;
  c_channelFen : Z;
  c_diffFen : Z
}.

(** A side indexed by trade number: the last row of a number wins. *)
Definition by_trade_no (rows : list ReconcileSideRow) : list (string * ReconcileSideRow) :=
  fold_left (fun m row => map_set (r_channelTradeNo row) row m) rows [].

(** The bodies of the three loops. *)
Definition local_only (channel : list (string * ReconcileSideRow)) (e : string * ReconcileSideRow)
  : list ClassifiedDiff :=
  let '(tradeNo, l) := e in
  match map_find tradeNo channel with
  | None => [mkClassified kLocalOnly tradeNo (r_orderNo l) (r_amountFen l) 0 (r_amountFen l)]
  | Some _ => []
  end.

Definition channel_only (local : list (string * ReconcileSideRow)) (e : string * ReconcileSideRow)
  : list ClassifiedDiff :=
  let '(tradeNo, c) := e in
  match map_find tradeNo local with
  | None => [mkClassified kChannelOnly tradeNo (r_orderNo c) 0 (r_amountFen c) (wrap64 (- r_amountFen c))]
  | Some _ => []
  end.

Definition amount_mismatch (channel : list (string * ReconcileSideRow)) (e : string * ReconcileSideRow)
  : list ClassifiedDiff :=
  let '(tradeNo, l) := e in
  match map_find tradeNo channel with
  | Some c =>
      if r_amountFen c =? r_amountFen l then []
      else [mkClassified kDiffAmountMismatch tradeNo (r_orderNo l) (r_amountFen l) (r_amountFen c)
              (wrap64 (r_amountFen l - r_amountFen c))]
  | None => []
  end.

Definition classifyReconcileDiffs (local channel : list ReconcileSideRow) : list ClassifiedDiff :=
  let localByTradeNo := by_trade_no local in
  let channelByTradeNo := by_trade_no channel in
  flat_map (local_only channelByTradeNo) localByTradeNo
  ++ flat_map (channel_only localByTradeNo) channelByTradeNo
  ++ flat_map (amount_mismatch channelByTradeNo) localByTradeNo.

(** ** Lemmas on the map *)

Section MapLemmas.
Context {V : Type}.
Implicit Types (m : list (string * V)) (k : string).

Definition klt (a b : string) : Prop := String.compare a b = Lt.

(** Keys in strictly increasing order. *)
Fixpoint ksorted m : Prop :=
  match m with
  | [] => True
  | (k, _) :: m' => Forall (fun e => klt k e.1) m' /\ ksorted m'
  end.

Lemma ascii_compare_refl a : Ascii.compare a a = Eq.
Proof. unfold Ascii.compare. by rewrite N.compare_refl. Qed.

Lemma ascii_compare_eq a b : Ascii.compare a b = Eq -> a = b.
Proof.
  unfold Ascii.compare. rewrite N.compare_eq_iff. intros H.
  by rewrite <- (ascii_N_embedding a), <- (ascii_N_embedding b), H.
Qed.

Lemma str_compare_refl s : String.compare s s = Eq.
Proof. induction s as [|c s IH]; simpl; [done |]. by rewrite ascii_compare_refl. Qed.

Lemma str_compare_eq a b : String.compare a b = Eq -> a = b.
Proof.
  revert b. induction a as [|x a IH]; intros [|y b]; simpl; try done.
  destruct (Ascii.compare x y) eqn:E; try done. intros H. apply ascii_compare_eq in E as ->.
  by rewrite (IH b).
Qed.

Lemma klt_trans a b c : klt a b -> klt b c -> klt a c.
Proof.
  unfold klt. revert b c. induction a as [|x a IH]; intros [|y b] [|z c]; simpl; try done.
  destruct (Ascii.compare x y) eqn:E1, (Ascii.compare y z) eqn:E2; try done;
    unfold Ascii.compare in *;
    rewrite ?N.compare_eq_iff, ?N.compare_lt_iff in *.
  - rewrite E1, <- E2, N.compare_refl. apply IH.
  - intros _ _. rewrite E1. by rewrite (proj2 (N.compare_lt_iff _ _) E2).
  - intros _ _. rewrite <- E2. by rewrite (proj2 (N.compare_lt_iff _ _) E1).
  - intros _ _. by rewrite (proj2 (N.compare_lt_iff _ _) (N.lt_trans _ _ _ E1 E2)).
Qed.

Lemma klt_gt a b : String.compare a b = Gt -> klt b a.
Proof. unfold klt. intros H. rewrite String.compare_antisym, H. done. Qed.

Lemma klt_irrefl a : ~ klt a a.
Proof. unfold klt. by rewrite str_compare_refl. Qed.

Lemma map_set_Forall (P : string -> Prop) k v m :
  P k -> Forall (fun e => P e.1) m -> Forall (fun e => P e.1) (map_set k v m).
Proof.
  intros Hk. induction m as [|[k' v'] m IH]; simpl; [by constructor |].
  intros H. apply Forall_cons in H as [Hk' H].
  destruct (String.compare k k'); constructor; try done; [by constructor | auto].
Qed.

Lemma map_set_sorted k v m : ksorted m -> ksorted (map_set k v m).
Proof.
  induction m as [|[k' v'] m IH]; simpl; [done |]. intros [Hlt Hs].
  destruct (String.compare k k') eqn:E; simpl; [done | |].
  - split; [| done]. constructor; [done |]. eapply Forall_impl; [exact Hlt |].
    intros e. by apply klt_trans.
  - split; [| auto]. apply (map_set_Forall (klt k')); [by apply klt_gt | done].
Qed.

Lemma map_find_set k k' v m : ksorted m ->
  map_find k (map_set k' v m) = if String.eqb k k' then Some v else map_find k m.
Proof.
  induction m as [|[k2 v2] m IH]; simpl; [by destruct (String.eqb k k') |]. intros [Hlt Hs].
  destruct (String.compare k' k2) eqn:E; simpl.
  - apply str_compare_eq in E as ->. by destruct (String.eqb k k2).
  - done.
  - rewrite (IH Hs). destruct (String.eqb_spec k k2) as [-> |]; [| done].
    destruct (String.eqb_spec k2 k') as [-> |]; [| done]. by rewrite str_compare_refl in E.
Qed.

Lemma map_find_In k v m : ksorted m -> map_find k m = Some v <-> In (k, v) m.
Proof.
  induction m as [|[k' v'] m IH]; simpl; [done |]. intros [Hlt Hs].
  destruct (String.eqb_spec k k') as [-> | Hne].
  - split; [intros [= ->]; by left |]. intros [[= ->] | Hin]; [done |].
    rewrite List.Forall_forall in Hlt. by destruct (klt_irrefl k' (Hlt _ Hin)).
  - rewrite (IH Hs). split; [by right |]. intros [[= -> ->] | Hin]; done.
Qed.

Lemma ksorted_NoDup m : ksorted m -> NoDup (map fst m).
Proof.
  induction m as [|[k v] m IH]; simpl; [constructor |]. intros [Hlt Hs].
  apply NoDup_cons. split; [| auto]. intros Hin. apply list_elem_of_fmap in Hin as ([k' v'] & -> & Hin).
  rewrite Forall_forall in Hlt. by apply (klt_irrefl k' (Hlt _ Hin)).
Qed.
End MapLemmas.

(** ** The specification *)

(** The row that a side holds for a trade number: the last one. *)
Definition last_row (k : string) (rows : list ReconcileSideRow) : option ReconcileSideRow :=
  fold_left (fun o r => if String.eqb k (r_channelTradeNo r) then Some r else o) rows None.

(** The difference of one trade number. *)
Definition expected_diff (k : string) (l c : option ReconcileSideRow) : option ClassifiedDiff :=
  match l, c with
  | Some l, None => Some (mkClassified kLocalOnly k (r_orderNo l) (r_amountFen l) 0 (r_amountFen l))
  | None, Some c => Some (mkClassified kChannelOnly k (r_orderNo c) 0 (r_amountFen c) (- r_amountFen c))
  | Some l, Some c =>
      if r_amountFen c =? r_amountFen l then None
      else Some (mkClassified kDiffAmountMismatch k (r_orderNo l) (r_amountFen l) (r_amountFen c)
                   (r_amountFen l - r_amountFen c))
  | None, None => None
  end.

(** Amounts whose differences do not overflow: every DECIMAL(18,2) is one. *)
Definition amounts_small (rows : list ReconcileSideRow) : Prop :=
  Forall (fun r => Z.abs (r_amountFen r) < 2 ^ 62) rows.

Lemma by_trade_no_gen rows : forall m, ksorted m ->
  let m' := fold_left (fun m row => map_set (r_channelTradeNo row) row m) rows m in
  ksorted m' /\ forall k, map_find k m' =
    fold_left (fun o r => if String.eqb k (r_channelTradeNo r) then Some r else o) rows (map_find k m).
Proof.
  induction rows as [|r rows IH]; intros m Hs; simpl; [done |].
  destruct (IH (map_set (r_channelTradeNo r) r m) (map_set_sorted _ _ _ Hs)) as [Hs' Hf].
  split; [done |]. intros k. by rewrite Hf, map_find_set.
Qed.

Lemma by_trade_no_sorted rows : ksorted (by_trade_no rows).
Proof. by apply (by_trade_no_gen rows []). Qed.

Lemma by_trade_no_find k rows : map_find k (by_trade_no rows) = last_row k rows.
Proof. by apply (by_trade_no_gen rows []). Qed.

Lemma by_trade_no_In k r rows : In (k, r) (by_trade_no rows) <-> last_row k rows = Some r.
Proof. rewrite <- by_trade_no_find. symmetry. apply map_find_In, by_trade_no_sorted. Qed.

Lemma last_row_gen k rows r : forall o,
  fold_left (fun o r => if String.eqb k (r_channelTradeNo r) then Some r else o) rows o = Some r ->
  (In r rows /\ r_channelTradeNo r = k) \/ o = Some r.
Proof.
  induction rows as [|x rows IH]; intros o; simpl; [by right |]. intros H.
  apply IH in H as [[Hin Hk] | H]; [by left; split; [right |] |].
  destruct (String.eqb_spec k (r_channelTradeNo x)) as [-> |]; [| by right].
  injection H as ->. left. by split; [left |].
Qed.

Lemma last_row_In k rows r : last_row k rows = Some r -> In r rows /\ r_channelTradeNo r = k.
Proof. intros H. by apply last_row_gen in H as [? |]. Qed.

Lemma last_row_absent k rows o : k ∉ map r_channelTradeNo rows ->
  fold_left (fun o r => if String.eqb k (r_channelTradeNo r) then Some r else o) rows o = o.
Proof.
  revert o. induction rows as [|x rows IH]; intros o; simpl; [done |].
  rewrite not_elem_of_cons. intros [Hx Hk].
  destruct (String.eqb_spec k (r_channelTradeNo x)); [done | by apply IH].
Qed.

(** With one row per number, the last row is the row. *)
Lemma last_row_unique rows r : NoDup (map r_channelTradeNo rows) ->
  In r rows -> last_row (r_channelTradeNo r) rows = Some r.
Proof.
  unfold last_row. generalize (@None ReconcileSideRow) as o.
  induction rows as [|x rows IH]; intros o Hnd Hr; [done |]. simpl in *.
  apply NoDup_cons in Hnd as [Hx Hnd]. destruct Hr as [-> | Hr].
  - rewrite String.eqb_refl. by apply last_row_absent.
  - by apply IH.
Qed.

Lemma last_row_small k rows r : amounts_small rows -> last_row k rows = Some r ->
  Z.abs (r_amountFen r) < 2 ^ 62.
Proof.
  intros Hs H. apply last_row_In in H as [Hin _]. unfold amounts_small in Hs.
  rewrite List.Forall_forall in Hs. by apply Hs.
Qed.

(** The member of each of the three loops. *)
Lemma In_local_only local channel x :
  In x (flat_map (local_only (by_trade_no channel)) (by_trade_no local)) <->
  exists k l, last_row k local = Some l /\ last_row k channel = None /\ expected_diff k (Some l) None = Some x.
Proof.
  rewrite in_flat_map. split.
  - intros ([k l] & Hin & Hx). apply by_trade_no_In in Hin. cbn in Hx. rewrite by_trade_no_find in Hx.
    destruct (last_row k channel) eqn:Hc; [done |]. destruct Hx as [<- | []]. by exists k, l.
  - intros (k & l & Hl & Hc & Hx). exists (k, l). rewrite by_trade_no_In. split; [done |].
    cbn. rewrite by_trade_no_find, Hc. injection Hx as <-. by left.
Qed.

Lemma In_channel_only local channel x : amounts_small channel ->
  In x (flat_map (channel_only (by_trade_no local)) (by_trade_no channel)) <->
  exists k c, last_row k local = None /\ last_row k channel = Some c /\ expected_diff k None (Some c) = Some x.
Proof.
  intros Hs. rewrite in_flat_map. split.
  - intros ([k c] & Hin & Hx). apply by_trade_no_In in Hin. cbn in Hx. rewrite by_trade_no_find in Hx.
    destruct (last_row k local) eqn:Hc; [done |]. destruct Hx as [<- | []]. exists k, c.
    split; [done |]. split; [done |]. pose proof (last_row_small _ _ _ Hs Hin).
    rewrite wrap64_small; [done |]. unfold in_i64. lia.
  - intros (k & c & Hl & Hc & Hx). exists (k, c). rewrite by_trade_no_In. split; [done |].
    cbn. rewrite by_trade_no_find, Hl. injection Hx as <-. pose proof (last_row_small _ _ _ Hs Hc).
    rewrite wrap64_small by (unfold in_i64; lia). by left.
Qed.

Lemma In_amount_mismatch local channel x : amounts_small local -> amounts_small channel ->
  In x (flat_map (amount_mismatch (by_trade_no channel)) (by_trade_no local)) <->
  exists k l c, last_row k local = Some l /\ last_row k channel = Some c
    /\ expected_diff k (Some l) (Some c) = Some x.
Proof.
  intros Hs Hs'. rewrite in_flat_map. split.
  - intros ([k l] & Hin & Hx). apply by_trade_no_In in Hin. cbn in Hx. rewrite by_trade_no_find in Hx.
    destruct (last_row k channel) as [c|] eqn:Hc; [| done].
    destruct (r_amountFen c =? r_amountFen l) eqn:Heq; [done |]. destruct Hx as [<- | []].
    exists k, l, c. split; [done |]. split; [done |]. cbn. rewrite Heq.
    pose proof (last_row_small _ _ _ Hs Hin). pose proof (last_row_small _ _ _ Hs' Hc).
    rewrite wrap64_small; [done |]. unfold in_i64. lia.
  - intros (k & l & c & Hl & Hc & Hx). exists (k, l). rewrite by_trade_no_In. split; [done |].
    cbn in *. rewrite by_trade_no_find, Hc. destruct (r_amountFen c =? r_amountFen l); [done |].
    injection Hx as <-. pose proof (last_row_small _ _ _ Hs Hl). pose proof (last_row_small _ _ _ Hs' Hc).
    rewrite wrap64_small by (unfold in_i64; lia). by left.
Qed.

Lemma In_classify local channel x : amounts_small local -> amounts_small channel ->
  In x (classifyReconcileDiffs local channel) <->
  expected_diff (c_channelTradeNo x) (last_row (c_channelTradeNo x) local)
    (last_row (c_channelTradeNo x) channel) = Some x.
Proof.
  intros Hs Hs'. unfold classifyReconcileDiffs.
  rewrite !in_app_iff, In_local_only, In_channel_only, In_amount_mismatch by done. split.
  - intros [(k & l & Hl & Hc & Hx) | [(k & c & Hl & Hc & Hx) | (k & l & c & Hl & Hc & Hx)]].
    + injection Hx as <-. cbn. by rewrite Hl, Hc.
    + injection Hx as <-. cbn. by rewrite Hl, Hc.
    + cbn in Hx. destruct (r_amountFen c =? r_amountFen l) eqn:Heq; [done |]. injection Hx as <-. cbn.
      rewrite Hl, Hc. cbn. by rewrite Heq.
  - intros H. destruct (last_row _ local) as [l|] eqn:Hl, (last_row _ channel) as [c|] eqn:Hc; [| | | done].
    + right; right. by exists (c_channelTradeNo x), l, c.
    + left. by exists (c_channelTradeNo x), l.
    + right; left. by exists (c_channelTradeNo x), c.
Qed.

(** Each loop reports a number at most once. *)
Lemma flat_map_keys_NoDup {A B K : Type} (ka : A -> K) (kb : B -> K) (f : A -> list B) m :
  (forall e x, In x (f e) -> kb x = ka e) -> (forall e, (length (f e) <= 1)%nat) ->
  NoDup (map ka m) -> NoDup (map kb (flat_map f m)).
Proof.
  intros Hkey Hlen. induction m as [|e m IH]; simpl; [constructor |].
  intros Hnd. apply NoDup_cons in Hnd as [He Hnd]. rewrite List.map_app. apply NoDup_app. split_and!.
  - specialize (Hlen e). destruct (f e) as [|x [|y l]]; simpl in *; [constructor | apply NoDup_singleton | lia].
  - intros k Hk Hk'. apply list_elem_of_fmap in Hk as (x & -> & Hx). apply list_elem_of_fmap in Hk' as (y & Hy & Hin).
    apply list_elem_of_In in Hx, Hin. apply in_flat_map in Hin as (e' & He' & Hy').
    apply He. rewrite <- (Hkey _ _ Hx), Hy, (Hkey _ _ Hy'). apply list_elem_of_fmap.
    exists e'. split; [done | by apply list_elem_of_In].
  - auto.
Qed.

Ltac one_key := intros [k r] x; cbn; destruct (map_find _ _) as [c|];
  try (destruct (_ =? _)); cbn; intuition (subst; done).

Lemma classify_keys_NoDup local channel : amounts_small local -> amounts_small channel ->
  NoDup (map c_channelTradeNo (classifyReconcileDiffs local channel)).
Proof.
  intros Hs Hs'. unfold classifyReconcileDiffs. rewrite !List.map_app.
  pose proof (ksorted_NoDup _ (by_trade_no_sorted local)) as HL.
  pose proof (ksorted_NoDup _ (by_trade_no_sorted channel)) as HC.
  assert (Hkey : forall (f : string * ReconcileSideRow -> list ClassifiedDiff) m k, k ∈ map c_channelTradeNo (flat_map f m) ->
    exists x, In x (flat_map f m) /\ c_channelTradeNo x = k).
  { intros f m k Hk. apply list_elem_of_fmap in Hk as (x & -> & Hx). exists x. by rewrite <- list_elem_of_In. }
  apply NoDup_app. split_and!.
  - apply (flat_map_keys_NoDup fst); [one_key | | done]. intros [k r]; cbn; destruct (map_find _ _); cbn; lia.
  - intros k Hk Hk'. apply Hkey in Hk as (x & (k1 & l & Hl & Hc & [= <-])%In_local_only & <-). cbn in *.
    apply elem_of_app in Hk' as [Hk' | Hk']; apply Hkey in Hk' as (y & Hy & Hxy).
    + apply In_channel_only in Hy as (k2 & c & Hl2 & _ & [= <-]); [| done]. cbn in Hxy. congruence.
    + apply In_amount_mismatch in Hy as (k2 & l2 & c & _ & Hc2 & Hx); [| done | done]. cbn in Hx.
      destruct (_ =? _); [done |]. injection Hx as <-. cbn in Hxy. congruence.
  - apply NoDup_app. split_and!.
    + apply (flat_map_keys_NoDup fst); [one_key | | done]. intros [k r]; cbn; destruct (map_find _ _); cbn; lia.
    + intros k Hk Hk'. apply Hkey in Hk as (x & Hx & <-). apply Hkey in Hk' as (y & Hy & Hxy).
      apply In_channel_only in Hx as (k1 & c & Hl & _ & [= <-]); [| done].
      apply In_amount_mismatch in Hy as (k2 & l2 & c2 & Hl2 & _ & Hx); [| done | done]. cbn in Hx.
      destruct (_ =? _); [done |]. injection Hx as <-. cbn in Hxy. congruence.
    + apply (flat_map_keys_NoDup fst); [one_key | | done].
      intros [k r]; cbn; destruct (map_find _ _); cbn; [destruct (_ =? _) |]; cbn; lia.
Qed.

(** C29. The classification is complete and exact: a difference is reported for a
    trade number precisely when the two sides disagree on it, with the type, the
    two amounts and the signed difference of the specification, and no trade
    number is reported twice. *)
Theorem classify_spec local channel : amounts_small local -> amounts_small channel ->
  (forall x, In x (classifyReconcileDiffs local channel) <->
     expected_diff (c_channelTradeNo x) (last_row (c_channelTradeNo x) local)
       (last_row (c_channelTradeNo x) channel) = Some x)
  /\ NoDup (map c_channelTradeNo (classifyReconcileDiffs local channel)).
Proof.
  intros Hs Hs'. split; [intros x; by apply In_classify | by apply classify_keys_NoDup].
Qed.

(** ** Totals *)

Lemma sum_of_perm {R : Type} (f : R -> Z) t t' : Permutation t t' -> sum_of f t = sum_of f t'.
Proof. unfold sum_of. induction 1; simpl; lia. Qed.

Lemma sum_of_flat_map {A B : Type} (f : B -> Z) (g : A -> list B) l :
  sum_of f (flat_map g l) = sum_of (fun a => sum_of f (g a)) l.
Proof. induction l as [|a l IH]; [done |]. cbn [flat_map]. rewrite sum_of_app, IH. done. Qed.

Lemma sum_of_map {A B : Type} (f : B -> Z) (g : A -> B) l : sum_of f (map g l) = sum_of (fun a => f (g a)) l.
Proof. unfold sum_of. induction l as [|a l IH]; simpl; [done |]. by rewrite IH. Qed.

Lemma sum_of_plus {R : Type} (f g : R -> Z) t : sum_of (fun r => f r + g r) t = sum_of f t + sum_of g t.
Proof. unfold sum_of. induction t as [|r t IH]; simpl; [done |]. lia. Qed.

Lemma sum_of_ext_in {R : Type} (f g : R -> Z) t : (forall r, In r t -> f r = g r) -> sum_of f t = sum_of g t.
Proof.
  unfold sum_of. induction t as [|r t IH]; simpl; [done |]. intros H.
  rewrite (H r) by by left. rewrite IH; [done |]. intros r' Hr. apply H. by right.
Qed.

(** The rows of a side by number, when each number has one row. *)
Lemma by_trade_no_perm rows : NoDup (map r_channelTradeNo rows) ->
  Permutation (by_trade_no rows) (map (fun r => (r_channelTradeNo r, r)) rows).
Proof.
  intros Hnd. apply NoDup_Permutation.
  - apply (NoDup_fmap_1 fst). apply ksorted_NoDup, by_trade_no_sorted.
  - apply (NoDup_fmap_1 fst). rewrite List.map_map. exact Hnd.
  - intros [k r]. rewrite !list_elem_of_In, by_trade_no_In, in_map_iff. split.
    + intros H. apply last_row_In in H as [Hin <-]. by exists r.
    + intros (x & [= <- <-] & Hin). by apply last_row_unique.
Qed.

Definition total (rows : list ReconcileSideRow) : Z := sum_of r_amountFen rows.

Lemma total_by_trade_no rows : NoDup (map r_channelTradeNo rows) ->
  sum_of (fun e : string * ReconcileSideRow => r_amountFen e.2) (by_trade_no rows) = total rows.
Proof. intros Hnd. by rewrite (sum_of_perm _ _ _ (by_trade_no_perm _ Hnd)), sum_of_map. Qed.

(** The channel amount of the numbers that both sides have, read from either side. *)
Lemma matched_sum local channel :
  sum_of (fun e : string * ReconcileSideRow =>
    match last_row e.1 channel with Some c => r_amountFen c | None => 0 end) (by_trade_no local)
  = sum_of (fun e : string * ReconcileSideRow =>
    match last_row e.1 local with Some _ => r_amountFen e.2 | None => 0 end) (by_trade_no channel).
Proof.
  set (A := flat_map (fun e : string * ReconcileSideRow =>
    match last_row e.1 channel with Some c => [(e.1, c)] | None => [] end) (by_trade_no local)).
  set (B := flat_map (fun e : string * ReconcileSideRow =>
    match last_row e.1 local with Some _ => [e] | None => [] end) (by_trade_no channel)).
  assert (HP : Permutation A B).
  { apply NoDup_Permutation.
    - apply (NoDup_fmap_1 fst), (flat_map_keys_NoDup fst); [| | apply ksorted_NoDup, by_trade_no_sorted].
      + intros e x. by destruct (last_row e.1 channel); simpl; [intros [<- | []] |].
      + intros e. destruct (last_row e.1 channel); simpl; lia.
    - apply (NoDup_fmap_1 fst), (flat_map_keys_NoDup fst); [| | apply ksorted_NoDup, by_trade_no_sorted].
      + intros e x. by destruct (last_row e.1 local); simpl; [intros [<- | []] |].
      + intros e. destruct (last_row e.1 local); simpl; lia.
    - intros [k c]. rewrite !list_elem_of_In. unfold A, B. rewrite !in_flat_map. split.
      + intros ([k' l] & Hl & Hx). apply by_trade_no_In in Hl. cbn in Hx.
        destruct (last_row k' channel) as [c'|] eqn:Hc; [| done]. destruct Hx as [[= <- <-] | []].
        exists (k', c'). rewrite by_trade_no_In. split; [done |]. cbn. rewrite Hl. by left.
      + intros ([k' c'] & Hc & Hx). apply by_trade_no_In in Hc. cbn in Hx.
        destruct (last_row k' local) as [l|] eqn:Hl; [| done]. destruct Hx as [[= <- <-] | []].
        exists (k', l). rewrite by_trade_no_In. split; [done |]. cbn. rewrite Hc. by left. }
  pose proof (sum_of_perm (fun e : string * ReconcileSideRow => r_amountFen e.2) _ _ HP) as H.
  unfold A, B in H. rewrite !sum_of_flat_map in H.
  erewrite sum_of_ext; [rewrite H; apply sum_of_ext |].
  - intros e. destruct (last_row e.1 local); unfold sum_of; simpl; lia.
  - intros e. cbn. destruct (last_row e.1 channel); unfold sum_of; simpl; lia.
Qed.

Lemma classify_total local channel :
  amounts_small local -> amounts_small channel ->
  NoDup (map r_channelTradeNo local) -> NoDup (map r_channelTradeNo channel) ->
  sum_of c_diffFen (classifyReconcileDiffs local channel) = total local - total channel.
Proof.
  intros Hs Hs' Hnd Hnd'. unfold classifyReconcileDiffs. rewrite !sum_of_app, !sum_of_flat_map.
  rewrite <- (total_by_trade_no local), <- (total_by_trade_no channel) by done.
  pose proof (matched_sum local channel) as Hm.
  assert (HL : sum_of (fun e => sum_of c_diffFen (local_only (by_trade_no channel) e)
                               + sum_of c_diffFen (amount_mismatch (by_trade_no channel) e)) (by_trade_no local)
    = sum_of (fun e : string * ReconcileSideRow => r_amountFen e.2 +
        (- match last_row e.1 channel with Some c => r_amountFen c | None => 0 end)) (by_trade_no local)).
  { apply sum_of_ext_in. intros [k l] Hin%by_trade_no_In. cbn. rewrite by_trade_no_find.
    pose proof (last_row_small _ _ _ Hs Hin).
    destruct (last_row k channel) as [c|] eqn:Hc; unfold sum_of; cbn; [| lia].
    pose proof (last_row_small _ _ _ Hs' Hc).
    destruct (Z.eqb_spec (r_amountFen c) (r_amountFen l)); cbn; [lia |].
    rewrite wrap64_small by (unfold in_i64; lia). lia. }
  assert (HC : sum_of (fun e => sum_of c_diffFen (channel_only (by_trade_no local) e)) (by_trade_no channel)
    = sum_of (fun e : string * ReconcileSideRow =>
        match last_row e.1 local with Some _ => r_amountFen e.2 | None => 0 end
        + (- r_amountFen e.2)) (by_trade_no channel)).
  { apply sum_of_ext_in. intros [k c] Hin%by_trade_no_In. cbn. rewrite by_trade_no_find.
    pose proof (last_row_small _ _ _ Hs' Hin).
    destruct (last_row k local); unfold sum_of; cbn; [lia |].
    rewrite wrap64_small by (unfold in_i64; lia). lia. }
  rewrite sum_of_plus in HL. rewrite sum_of_plus in HL. rewrite sum_of_plus in HC.
  assert (Hopp : forall {R} (f : R -> Z) t, sum_of (fun r => - f r) t = - sum_of f t).
  { intros R f t. unfold sum_of. induction t as [|r t IH]; simpl; lia. }
  rewrite !Hopp in *. lia.
Qed.

(** The differences explain the totals: when no side repeats a trade number, the
    signed differences add up to the local total minus the channel total.  So a
    balanced batch has equal totals. *)
Theorem classify_totals local channel :
  amounts_small local -> amounts_small channel ->
  NoDup (map r_channelTradeNo local) -> NoDup (map r_channelTradeNo channel) ->
  sum_of c_diffFen (classifyReconcileDiffs local channel) = total local - total channel.
Proof. apply classify_total. Qed.

(** Without that hypothesis it fails: a bill that repeats a payment is balanced. *)
Example duplicate_bill_lines_balanced :
  classifyReconcileDiffs [mkSideRow "t1" "o1" 100] [mkSideRow "t1" "o1" 100; mkSideRow "t1" "o1" 100] = []
  /\ total [mkSideRow "t1" "o1" 100] <> total [mkSideRow "t1" "o1" 100; mkSideRow "t1" "o1" 100].
Proof. split; [reflexivity | vm_compute; congruence]. Qed.

(** ** Reading the bill *)

Definition no_char (n : Z) (s : string) : bool := str_all (fun c => negb (schar c =? n)) s.

Lemma getlines_field n s rest cur : no_char n s = true ->
  forall d, schar d = n -> getlines n (s +:+ String d rest) cur = (cur +:+ s) :: getlines n rest "".
Proof.
  unfold no_char. revert cur. induction s as [|c s IH]; intros cur Hs d Hd; simpl.
  - by rewrite Hd, Z.eqb_refl, str_app_nil_r.
  - simpl in Hs. apply andb_true_iff in Hs as [Hc Hs]. apply negb_true_iff in Hc. rewrite Hc.
    rewrite (IH _ Hs _ Hd). by rewrite str_app_assoc.
Qed.

(** A line as the bill generator writes it. *)
Definition bill_line (row : ReconcileSideRow) (time : string) : string :=
  r_channelTradeNo row +:+ "," +:+ r_orderNo row +:+ "," +:+ fenToYuanString (r_amountFen row) +:+ "," +:+ time.

Lemma no_comma_fen fen : in_i64 fen -> no_char 44 (fenToYuanString fen) = true.
Proof.
  intros Hr. rewrite fenToYuanString_eq by done. unfold no_char. rewrite !str_all_app.
  assert (Hd : forall z, 0 <= z -> str_all (fun c => negb (schar c =? 44)) (dec z) = true).
  { intros z Hz. eapply str_all_impl; [| by apply dec_digits]. intros c Hc. unfold is_digit in Hc.
    rewrite negb_true_iff. apply Z.eqb_neq. lia. }
  rewrite !Hd by (apply Z.div_pos || apply Z.mod_pos_bound; lia).
  by destruct (fen <? 0), (Z.abs fen mod 100 <? 10).
Qed.

Lemma getlines_nonempty n s cur : cur <> "" \/ s <> "" -> exists x l, getlines n s cur = x :: l.
Proof.
  revert cur. induction s as [|c s IH]; intros cur H; cbn.
  - destruct (String.eqb_spec cur ""); [by destruct H | by eexists _, _].
  - destruct (schar c =? n); [by eexists _, _ |]. apply IH. left. by destruct cur.
Qed.

Lemma parseBillLine_bill_line row time :
  no_char 44 (r_channelTradeNo row) = true -> no_char 44 (r_orderNo row) = true ->
  Z.abs (r_amountFen row) <= max_parsed_fen -> time <> "" ->
  parseBillLine (bill_line row time) = Some row.
Proof.
  intros Ht Ho Ha Hne. unfold parseBillLine, bill_line. cbn [String.append].
  assert (Hi : in_i64 (r_amountFen row)) by (unfold in_i64, max_parsed_fen in *; lia).
  rewrite (getlines_field 44 _ _ "" Ht) by done.
  rewrite (getlines_field 44 _ _ "" Ho) by done.
  rewrite (getlines_field 44 _ _ "" (no_comma_fen _ Hi)) by done. cbn [String.append].
  assert (exists x l, getlines 44 time "" = x :: l) as (x & l & ->).
  { apply getlines_nonempty. by right. }
  rewrite (fen_yuan_round _ Ha). by destruct row.
Qed.

(** The text of a bill: a line per row, each ended by a newline. *)
Definition newline : ascii := ascii_of_nat 10.

Fixpoint bill_text (rows : list (ReconcileSideRow * string)) : string :=
  match rows with
  | [] => ""
  | (row, time) :: rest => bill_line row time +:+ String newline (bill_text rest)
  end.

(** Rows that the format can carry. *)
Definition bill_row_ok (e : ReconcileSideRow * string) : Prop :=
  let '(row, time) := e in
  no_char 44 (r_channelTradeNo row) = true /\ no_char 44 (r_orderNo row) = true
  /\ no_char 10 (bill_line row time) = true
  /\ match r_channelTradeNo row with String c _ => schar c <> 35 | "" => True end
  /\ Z.abs (r_amountFen row) <= max_parsed_fen /\ time <> "".

(** C36. Bill round trip: the reader recovers exactly the rows of a bill written in
    the documented format, whatever the rows, as long as trade and order numbers
    hold no comma or newline and no line looks like a comment. *)
Theorem bill_roundtrip rows : Forall bill_row_ok rows -> parse_bill (bill_text rows) = Some (map fst rows).
Proof.
  unfold parse_bill. induction rows as [|[row time] rows IH]; intros Hok; [done |].
  apply Forall_cons in Hok as [(Ht & Ho & Hn & Hc & Ha & Hne) Hok]. cbn [bill_text map fst].
  rewrite (getlines_field 10 _ _ "" Hn) by done. cbn [String.append parse_bill_lines].
  rewrite (IH Hok), (parseBillLine_bill_line row time) by done.
  assert (match bill_line row time with "" => true | String c _ => schar c =? 35 end = false) as ->; [| done].
  unfold bill_line. destruct (r_channelTradeNo row) as [|c r]; cbn; [done | by apply Z.eqb_neq].
Qed.

(** ** Concrete inputs *)

Definition sample_local : list ReconcileSideRow :=
  [mkSideRow "t1" "o1" 100; mkSideRow "t2" "o2" 250; mkSideRow "t4" "o4" 5].
Definition sample_channel : list ReconcileSideRow :=
  [mkSideRow "t2" "o2" 200; mkSideRow "t3" "o3" 70; mkSideRow "t4" "o4" 5].

Lemma sample_small : amounts_small sample_local /\ amounts_small sample_channel.
Proof. split; repeat constructor; cbn; lia. Qed.

Lemma classify_spec_witness :
  amounts_small sample_local /\
  map c_diffFen (classifyReconcileDiffs sample_local sample_channel) = [100; -70; 50] /\
  NoDup (map c_channelTradeNo (classifyReconcileDiffs sample_local sample_channel)).
Proof.
  split; [apply sample_small |]. split; [vm_compute; reflexivity |].
  exact (proj2 (classify_spec sample_local sample_channel (proj1 sample_small) (proj2 sample_small))).
Defined.

Lemma classify_totals_witness :
  sum_of c_diffFen (classifyReconcileDiffs sample_local sample_channel)
  = total sample_local - total sample_channel /\ total sample_local - total sample_channel = 80.
Proof.
  split; [| vm_compute; reflexivity].
  apply classify_totals; [apply sample_small | apply sample_small | |]; by vm_nodup.
Defined.

Lemma bill_roundtrip_witness :
  Forall bill_row_ok [(mkSideRow "t1" "o1" 1999, "2026-01-01 10:00:00"); (mkSideRow "t2" "o2" (-5), "x")]
  /\ parse_bill (bill_text [(mkSideRow "t1" "o1" 1999, "2026-01-01 10:00:00"); (mkSideRow "t2" "o2" (-5), "x")])
     = Some [mkSideRow "t1" "o1" 1999; mkSideRow "t2" "o2" (-5)].
Proof.
  assert (H : Forall bill_row_ok [(mkSideRow "t1" "o1" 1999, "2026-01-01 10:00:00"); (mkSideRow "t2" "o2" (-5), "x")]).
  { repeat constructor; vm_compute; congruence. }
  split; [exact H |]. exact (bill_roundtrip _ H).
Defined.
