(* ===== verification/ReconcileService.v ===== *)
(** * ReconcileService: the daily batch and the handling of differences

    The stateful part of [src/services/ReconcileService.cc].  The bill is read from
    a file system given as a function; [run] is the whole method, compared with
    [reconcile_effect]. *)

From S2P Require Import Prelude MoneyUtil IdGenerator JsonValue Result BeijingTime Models.
From S2P Require Import Database Transaction Daos Invariant Server Reconcile.

(** ** The code *)

Definition kChannel : string := "MOCK".

Section ReconcileService.
Context {D : MySql} {J : JsonCpp} {E : Env}.

(** [std::ifstream]: the content of a file that opens. *)
Context (open_file : string -> option string).

Definition bill_path (billDate : string) : string := "scripts/bills/bill_" +:+ billDate +:+ ".csv".

(** The local payments of the day, by callback time: DATE_ADD gives NULL after the
    year 9999, and a comparison with NULL selects nothing. *)
Definition in_day (lo t : Z) : bool :=
  (lo <=? t) && (t <? lo + 86400) && (lo + 86400 <? 253402300800).

Definition side_row (p : PaymentRow) : ReconcileSideRow :=
  mkSideRow (py_channel_trade_no p) (py_order_no p) (py_amount p).

Definition local_where (lo : Z) (p : PaymentRow) : bool :=
  sql_eq (py_channel p) kChannel && bool_decide (py_status p = kPaySuccess) && in_day lo (py_callback_time p).

Definition localRows_sql (billDate : string) (d : Db) : option (list ReconcileSideRow) :=
  lo ← parse_datetime (billDate +:+ " 00:00:00");
  Some (map side_row (sql_select (local_where lo) (t_payment d))).

(** [for (const auto& row : rows) total += row.amountFen]. *)
Definition total_fen (rows : list ReconcileSideRow) : Z :=
  fold_left (fun z r => wrap64 (z + r_amountFen r)) rows 0.

Definition build_batch (batchNo billDate : string) (localRows channelRows : list ReconcileSideRow)
  (classified : list ClassifiedDiff) : ReconcileBatch :=
  mkReconcileBatch batchNo billDate kChannel (Z.of_nat (length localRows)) (total_fen localRows)
    (Z.of_nat (length channelRows)) (total_fen channelRows) (Z.of_nat (length classified))
    (match classified with [] => kBalanced | _ => kHasDiff end).

Definition build_diff (batchNo : string) (c : ClassifiedDiff) : ReconcileDiff :=
  mkReconcileDiff batchNo (c_orderNo c) (c_channelTradeNo c) (c_localFen c) (c_channelFen c) (c_type c)
    (c_diffFen c) kHandlePending "" "".

Fixpoint insert_diffs (batchNo : string) (classified : list ClassifiedDiff) : M unit :=
  match classified with
  | [] => mret tt
  | c :: rest => insertDiff (build_diff batchNo c);; insert_diffs batchNo rest
  end.

(** The data of a batch in the response. *)
Definition batch_data (b : ReconcileBatch) : jvalue :=
  jobject [("batchNo", jstring (b_batchNo b)); ("diffCount", jint (b_diffCount b));
           ("status", jint (batch_status_int (b_status b)))].

(** The scope of the guard: steps 2 to 5. *)
Definition run_body (billDate : string) (channelRows : list ReconcileSideRow) : M (Result jvalue) :=
  exists' ← hasBatchForDate billDate kChannel;
  if (exists' : bool) then throw (BizException kReconcileBatchStatusInvalid "该日期已对账，勿重复跑批")
  else
    localRows ← query (localRows_sql billDate);
    let classified := classifyReconcileDiffs localRows channelRows in
    batchNo ← next_id;
    let batch := build_batch batchNo billDate localRows channelRows classified in
    insertBatch batch;;
    insert_diffs batchNo classified;;
    guard_commit;;
    mret (ok (batch_data batch) billDate).

(** [ReconcileService::run]. *)
Definition run (billDate : string) : M (Result jvalue) :=
  match open_file (bill_path billDate) with
  | None => mret (fail kReconcileBillParseFailed "账单文件不存在（先用 scripts/gen_bill.sh 生成）" billDate)
  | Some content =>
      match parse_bill content with
      | None => mret (fail kReconcileBillParseFailed "账单行解析失败" billDate)
      | Some channelRows =>
          try_catch (with_guard (run_body billDate channelRows))
            (fun e => mret (catch_result e billDate))
      end
  end.

(** [ReconcileService::listDiffs]: only a database exception is caught. *)
Definition listDiffs (batchNo : string) (limit : nat) : M (Result jvalue) :=
  try_catch
    (diffs ← dao_listDiffs batchNo (-1) limit;
     mret (ok (jobject [("diffs", jarray (map diff_toJson diffs));
                        ("count", jint (Z.of_nat (length diffs)))]) batchNo))
    (fun e => match e with
              | DbException => mret (fail kDbError (toMessage kDbError) batchNo)
              | _ => throw e
              end).

(** The statuses of the two actions. *)
Definition action_status (action : string) : option HandleStatus :=
  if String.eqb action "verify" then Some kHandleVerified
  else if String.eqb action "ignore" then Some kHandleIgnored else None.

(** [ReconcileService::handleDiff]: nothing is caught. *)
Definition handleDiff (diffId : Z) (action remark : string) : M (Result jvalue) :=
  match action_status action with
  | None => mret (fail kParamInvalid "action 必须是 verify 或 ignore" "")
  | Some s =>
      existing ← getDiffById diffId;
      match existing with
      | None => mret (fail kReconcileBatchNotFound "差异记录不存在" "")
      | Some _ =>
          n ← dao_handleDiff diffId s remark;
          if (n =? 0)%nat then mret (fail kReconcileDiffAlreadyHandled "差异已处理过" "")
          else mret (ok (jobject [("diffId", jint diffId); ("handleStatus", jint (handle_status_int s))]) "")
      end
  end.

(** ** The abstract effect of a batch *)

(** The rows of the differences, numbered from [id] on. *)
Fixpoint diff_rows (id : Z) (batchNo : string) (classified : list ClassifiedDiff) : option (list DiffRow) :=
  match classified with
  | [] => Some []
  | c :: rest =>
      r ← diff_row id (build_diff batchNo c);
      rs ← diff_rows (id + 1) batchNo rest;
      Some (r :: rs)
  end.

(** One batch row and one row per difference between [localRows] and the bill; no
    batch of that day and channel existed; nothing else changes. *)
Inductive batch_effect (billDate : string) (localRows channelRows : list ReconcileSideRow)
  : ReconcileBatch -> Db -> Db -> Prop :=
  | BatchEffect d batchNo brow drows :
      let classified := classifyReconcileDiffs localRows channelRows in
      let batch := build_batch batchNo billDate localRows channelRows classified in
      batch_row batch = Some brow ->
      existsb (batch_conflict brow) (t_reconcile_batch d) = false ->
      diff_rows (t_reconcile_diff_auto d) batchNo classified = Some drows ->
      batch_effect billDate localRows channelRows batch d
        (set_reconcile_diff (t_reconcile_diff d ++ drows) (t_reconcile_diff_auto d + Z.of_nat (length drows))
          (set_reconcile_batch (t_reconcile_batch d ++ [brow]) d)).

(** The batch of the payments that the database has. *)
Definition reconcile_effect (billDate : string) (channelRows : list ReconcileSideRow) (batch : ReconcileBatch)
  (d d' : Db) : Prop :=
  exists localRows, localRows_sql billDate d = Some localRows
    /\ batch_effect billDate localRows channelRows batch d d'.

(** ** The batch *)

Lemma insertDiff_inv x now d d' u : insertDiff_sql x now d = Some (d', u) ->
  exists r, diff_row (t_reconcile_diff_auto d) x = Some r
    /\ d' = set_reconcile_diff (t_reconcile_diff d ++ [r]) (t_reconcile_diff_auto d + 1) d.
Proof.
  unfold insertDiff_sql. intros H. apply bind_Some in H as (r & Hr & H).
  apply bind_Some in H as (t & Ht & H). injection H as <- <-. exists r.
  by apply sql_insert_inv in Ht as [-> _].
Qed.

Lemma wp_insert_diffs batchNo classified (Q : outcome unit -> St -> Prop) : forall d st,
  view d st -> (forall st', same_db st st' -> Q (Throw DbException) st') ->
  (forall drows st', diff_rows (t_reconcile_diff_auto d) batchNo classified = Some drows ->
     view (set_reconcile_diff (t_reconcile_diff d ++ drows)
             (t_reconcile_diff_auto d + Z.of_nat (length drows)) d) st' ->
     same_db st st' -> Q (Ret tt) st') ->
  wp (insert_diffs batchNo classified) Q st.
Proof.
  induction classified as [|c rest IH]; intros d st Hv Hbad Hok; cbn [insert_diffs].
  - apply wp_ret. apply (Hok []); [done | | done]. cbn. rewrite app_nil_r, Z.add_0_r. by destruct d.
  - apply wp_bind. eapply wp_exec; [exact Hv | auto |]. intros now st1 d1 u Hins _ Hv1 Hs1 _.
    apply insertDiff_inv in Hins as (r & Hr & ->).
    apply (IH _ _ Hv1); [intros; apply Hbad; same_db_tac |].
    intros drows st2 Hd Hv2 Hs2. apply (Hok (r :: drows)).
    + cbn [diff_rows]. rewrite Hr. cbn in *. by rewrite Hd.
    + cbn in Hv2. rewrite <- app_assoc in Hv2. cbn [length]. rewrite Nat2Z.inj_succ.
      replace (t_reconcile_diff_auto d + Z.succ (Z.of_nat (length drows)))
        with (t_reconcile_diff_auto d + 1 + Z.of_nat (length drows)) by lia. exact Hv2.
    + same_db_tac.
Qed.

Lemma insertBatch_inv b now d d' u : insertBatch_sql b now d = Some (d', u) ->
  exists r, batch_row b = Some r /\ existsb (batch_conflict r) (t_reconcile_batch d) = false
    /\ d' = set_reconcile_batch (t_reconcile_batch d ++ [r]) d.
Proof.
  unfold insertBatch_sql. intros H. apply bind_Some in H as (r & Hr & H).
  apply bind_Some in H as (t & Ht & H). injection H as <- <-. exists r.
  by apply sql_insert_inv in Ht as [-> Hc].
Qed.

(** What the scope of the guard may leave. *)
Definition run_body_post (billDate : string) (channelRows : list ReconcileSideRow) (d : Db)
  (r : outcome (Result jvalue)) (st : St) : Prop :=
  match r with
  | Ret res => exists batch, res = ok (batch_data batch) billDate
      /\ reconcile_effect billDate channelRows batch d (committed st)
  | Throw (BizException c _) => c = kReconcileBatchStatusInvalid /\ committed st = d
      /\ hasBatch_sql billDate kChannel d = Some true
  | Throw DbException => committed st = d
      \/ exists batch, reconcile_effect billDate channelRows batch d (committed st)
  | Throw StdException | Hang => committed st = d
  | Undefined => False
  end.

Lemma wp_run_body billDate channelRows d st : committed st = d -> view d st ->
  wp (run_body billDate channelRows) (run_body_post billDate channelRows d) st.
Proof.
  intros Hc Hv. unfold run_body. apply wp_bind. unfold hasBatchForDate.
  apply wp_exec_client_read; [by intros now d0 d' a [-> _]%read_inv | intros; left; same_db_tac |].
  intros now st1 b Hb _ Htx1 Hs1 _. apply read_inv in Hb as [_ Hb]. rewrite Hc in Hb.
  destruct b; [apply wp_throw; split; [done |]; split; [same_db_tac | done] |].
  assert (Hv1 : view d st1) by (unfold view in *; congruence).
  apply wp_bind. eapply wp_query; [exact Hv1 | intros; left; same_db_tac |].
  intros st2 localRows Hlocal Hv2 Hs2 _.
  apply wp_bind. eapply wp_next_id; [exact Hv2 | | intros; same_db_tac..].
  intros batchNo st3 Hv3 Hs3 _.
  apply wp_bind. eapply wp_exec; [exact Hv3 | intros; left; same_db_tac |].
  intros now4 st4 d4 u4 Hins _ Hv4 Hs4 _. apply insertBatch_inv in Hins as (brow & Hbrow & Hbc & ->).
  apply wp_bind. eapply wp_insert_diffs; [exact Hv4 | intros; left; same_db_tac |].
  intros drows st5 Hd Hv5 Hs5. cbn [t_reconcile_diff_auto t_reconcile_diff set_reconcile_batch] in *.
  pose proof (BatchEffect billDate localRows channelRows d batchNo brow drows Hbrow Hbc Hd) as Heff.
  apply wp_bind. eapply wp_guard_commit; [exact Hv5 | | |].
  - intros st6 Hc6 _. apply wp_ret. eexists. split; [done |]. rewrite Hc6. by exists localRows.
  - intros st6 Hs6 _. left. same_db_tac.
  - intros st6 Hc6 _. right. eexists. rewrite Hc6. by exists localRows.
Qed.

Definition run_post (billDate : string) (d : Db) (r : outcome (Result jvalue)) (st : St) : Prop :=
  match r with
  | Ret res =>
      if isOk res then
        exists content channelRows batch, open_file (bill_path billDate) = Some content
          /\ parse_bill content = Some channelRows
          /\ res = ok (batch_data batch) billDate
          /\ reconcile_effect billDate channelRows batch d (committed st)
      else committed st = d
           \/ (res = fail kDbError (toMessage kDbError) billDate
               /\ exists channelRows batch, reconcile_effect billDate channelRows batch d (committed st))
  | Throw _ | Undefined => False
  | Hang => committed st = d
  end.

Lemma run_partial billDate st : wp (run billDate) (run_post billDate (committed st)) st.
Proof.
  unfold run. destruct (open_file (bill_path billDate)) as [content|] eqn:Hfile; [| by apply wp_ret; left].
  destruct (parse_bill content) as [channelRows|] eqn:Hparse; [| by apply wp_ret; left].
  remember (committed st) as d eqn:Hd.
  apply wp_try_catch, wp_with_guard.
  { intros st1 e Hs _ [-> | ->]; apply wp_ret; left; same_db_tac. }
  intros st1 Hv Hs _. rewrite <- Hd in Hv.
  eapply wp_mono; [eapply (wp_run_body billDate channelRows d); [same_db_tac | done] |].
  intros [res | [c m | |] | |] st2; cbn [run_body_post].
  - intros (batch & -> & Heff). cbn. by exists content, channelRows, batch.
  - intros (-> & Hc & _). apply wp_ret. by left.
  - intros [Hc | (batch & Heff)]; apply wp_ret; [by left | right]. split; [done |]. by exists channelRows, batch.
  - intros Hc. apply wp_ret. by left.
  - done.
  - done.
Qed.

(** A reconciliation run is all or nothing, whatever fails: success means that
    the day's bill was read in full and that one batch row and exactly the
    classified differences between the day's payments and the bill were added,
    with no earlier batch of that day and channel; every error leaves the database
    as it was, except after a commit whose reply was lost; no exception escapes. *)
Theorem run_spec billDate st r st' :
  run_alone (run billDate) st = (r, st') -> run_post billDate (committed st) r st'.
Proof. apply wp_elim, run_partial. Qed.

(** ** What a batch says *)

Lemma wrap64_add a b : wrap64 (wrap64 a + b) = wrap64 (a + b).
Proof.
  unfold wrap64. replace ((a + 2 ^ 63) mod 2 ^ 64 - 2 ^ 63 + b + 2 ^ 63)
    with ((a + 2 ^ 63) mod 2 ^ 64 + b) by lia.
  rewrite Z.add_mod_idemp_l by lia. f_equal. f_equal. lia.
Qed.

(** Intermediate overflows of the sum cancel. *)
Lemma total_fen_wrap rows : total_fen rows = wrap64 (total rows).
Proof.
  assert (H : forall z, wrap64 z = z -> fold_left (fun z r => wrap64 (z + r_amountFen r)) rows z
    = wrap64 (z + total rows)).
  { induction rows as [|r rows IH]; intros z Hz; cbn [fold_left].
    - unfold total, sum_of. cbn. by rewrite Z.add_0_r.
    - rewrite IH; [| apply wrap64_small, wrap64_range]. rewrite wrap64_add.
      unfold total, sum_of. cbn. f_equal. lia. }
  unfold total_fen. by rewrite H.
Qed.

Lemma batch_row_inv {L : MySqlLaws} b r : batch_row b = Some r ->
  Z.abs (b_totalAmountFen b) < decimal_limit -> Z.abs (b_channelAmountFen b) < decimal_limit ->
  br_total_amount r = b_totalAmountFen b /\ br_channel_amount r = b_channelAmountFen b
  /\ br_diff_count r = b_diffCount b /\ br_status r = b_status b /\ br_channel r = b_channel b
  /\ parse_date (b_billDate b) = Some (br_bill_date r).
Proof.
  intros H Ht Hc. unfold batch_row in H. rewrite !cast_decimal_fen in H by done.
  apply bind_Some in H as (date & Hd & H). simplify_opt. done.
Qed.

Lemma diff_rows_inv {L : MySqlLaws} batchNo classified : forall id drows,
  diff_rows id batchNo classified = Some drows ->
  Forall (fun c => Z.abs (c_diffFen c) < decimal_limit) classified ->
  length drows = length classified /\ sum_of dr_diff_amount drows = sum_of c_diffFen classified.
Proof.
  induction classified as [|c rest IH]; intros id drows H Hs; cbn [diff_rows] in H; [by injection H as <- |].
  apply bind_Some in H as (r & Hr & H). apply bind_Some in H as (rs & Hrs & H). injection H as <-.
  apply Forall_cons in Hs as [Hc Hs]. destruct (IH _ _ Hrs Hs) as [Hl Hsum].
  unfold diff_row in Hr. cbn [d_diffAmountFen build_diff] in Hr. rewrite (cast_decimal_fen (c_diffFen c)) in Hr by done.
  simplify_opt. cbn [length]. split; [by rewrite Hl |]. unfold sum_of in *. cbn. by rewrite Hsum.
Qed.

(** The unique key on (channel, trade number) makes the local side's keys unique. *)
Lemma localRows_NoDup billDate d rows : keys_wf d -> localRows_sql billDate d = Some rows ->
  NoDup (map r_channelTradeNo rows).
Proof.
  intros K H. unfold localRows_sql in H. apply bind_Some in H as (lo & _ & H). injection H as <-.
  rewrite List.map_map. cbn. pose proof (wf_payment_trade _ K) as Hnd.
  induction (t_payment d) as [|p t IH]; [constructor |]. cbn [sql_select List.filter].
  cbn [map] in Hnd. apply NoDup_cons in Hnd as [Hp Hnd]. fold (sql_select (local_where lo) t).
  destruct (local_where lo p) eqn:Hw; [| by apply IH]. cbn [map]. apply NoDup_cons. split; [| by apply IH].
  intros Hin. apply Hp. apply list_elem_of_fmap in Hin as (q & Hq & Hin).
  apply list_elem_of_In, sql_select_In in Hin as [Hin Hwq].
  apply list_elem_of_fmap. exists q. split; [| by apply list_elem_of_In].
  unfold local_where in *. rewrite !andb_true_iff in Hw, Hwq.
  destruct Hw as [[Hw%sql_eq_iff _] _], Hwq as [[Hwq%sql_eq_iff _] _]. by rewrite Hq, Hw, Hwq.
Qed.

(** Amounts of half the range of a DECIMAL(18,2): no difference leaves the column. *)
Definition half_decimal (z : Z) : Prop := Z.abs z < decimal_limit / 2.

Lemma classify_diff_bound local channel :
  Forall (fun r => half_decimal (r_amountFen r)) local ->
  Forall (fun r => half_decimal (r_amountFen r)) channel ->
  Forall (fun c => Z.abs (c_diffFen c) < decimal_limit) (classifyReconcileDiffs local channel).
Proof.
  unfold half_decimal. change (decimal_limit / 2) with (5 * 10 ^ 17). unfold decimal_limit.
  intros Hl Hc. apply List.Forall_forall. intros x Hx.
  assert (Hs : amounts_small local /\ amounts_small channel).
  { split; (eapply Forall_impl; [eassumption |]); cbn; intros; lia. }
  rewrite List.Forall_forall in Hl, Hc.
  apply In_classify in Hx; [| apply Hs..]. revert Hx.
  destruct (last_row _ local) as [l|] eqn:El, (last_row _ channel) as [c|] eqn:Ec; cbn; [| | | done];
    repeat match goal with H : last_row _ _ = Some _ |- _ => apply last_row_In in H as [? _] end;
    try pose proof (Hl l ltac:(done)); try pose proof (Hc c ltac:(done)).
  - destruct (_ =? _); [done |]. intros [= <-]. cbn. lia.
  - intros [= <-]. cbn. lia.
  - intros [= <-]. cbn. lia.
Qed.

(** C19. A batch explains itself: the number of differences in the batch row is the
    number of rows added, the batch is balanced exactly when there is none, and -
    when the bill repeats no trade number - the signed differences add up to the
    local total minus the channel total of the batch row.  The local side cannot
    repeat one: the unique key on payments forbids it. *)
Theorem reconcile_batch_consistent {L : MySqlLaws} billDate channelRows batch d d' :
  keys_wf d -> reconcile_effect billDate channelRows batch d d' ->
  Forall (fun p => half_decimal (py_amount p)) (t_payment d) ->
  Forall (fun r => half_decimal (r_amountFen r)) channelRows ->
  Z.abs (total channelRows) < decimal_limit ->
  (forall localRows, localRows_sql billDate d = Some localRows -> Z.abs (total localRows) < decimal_limit) ->
  NoDup (map r_channelTradeNo channelRows) ->
  exists brow drows,
    t_reconcile_batch d' = t_reconcile_batch d ++ [brow] /\ t_reconcile_diff d' = t_reconcile_diff d ++ drows
    /\ br_diff_count brow = Z.of_nat (length drows)
    /\ (br_status brow = kBalanced <-> drows = [])
    /\ sum_of dr_diff_amount drows = br_total_amount brow - br_channel_amount brow.
Proof.
  intros K (localRows & Hlocal & Heff) Hpay Hch Htc Htl Hnd. revert Hlocal K Hpay Htl.
  destruct Heff as [d batchNo brow drows classified batch Hbrow Hbc Hd]. intros Hlocal K Hpay Htl.
  pose proof (localRows_NoDup _ _ _ K Hlocal) as Hndl. specialize (Htl _ Hlocal).
  assert (Hls : Forall (fun r => half_decimal (r_amountFen r)) localRows).
  { unfold localRows_sql in Hlocal. apply bind_Some in Hlocal as (lo & _ & Hl). injection Hl as <-.
    apply List.Forall_forall. intros r Hr. apply in_map_iff in Hr as (p & <- & Hp).
    apply sql_select_In in Hp as [Hp _]. rewrite List.Forall_forall in Hpay. by apply Hpay. }
  pose proof (classify_diff_bound _ _ Hls Hch) as Hb.
  destruct (diff_rows_inv _ _ _ _ Hd Hb) as [Hlen Hsum].
  assert (Hsmall : forall rows, Forall (fun r => half_decimal (r_amountFen r)) rows -> amounts_small rows).
  { intros rows H. eapply Forall_impl; [exact H |]. unfold half_decimal, decimal_limit.
    change (10 ^ 18 / 2) with (5 * 10 ^ 17). intros; cbn in *; lia. }
  pose proof (classify_total _ _ (Hsmall _ Hls) (Hsmall _ Hch) Hndl Hnd) as Htotals.
  assert (Hwrap : forall rows, Z.abs (total rows) < decimal_limit -> total_fen rows = total rows).
  { intros rows H. rewrite total_fen_wrap. apply wrap64_small. unfold in_i64, decimal_limit in *. lia. }
  destruct (batch_row_inv _ _ Hbrow) as (E1 & E2 & E3 & E4 & _);
    [cbn; by rewrite (Hwrap _ Htl) | cbn; by rewrite (Hwrap _ Htc) |].
  cbn in E1, E2, E3, E4. rewrite (Hwrap _ Htl) in E1. rewrite (Hwrap _ Htc) in E2.
  exists brow, drows. split; [done |]. split; [done |]. split; [by rewrite E3, Hlen |]. split.
  - rewrite E4. fold classified in Hlen. destruct classified, drows; cbn in *; done.
  - by rewrite Hsum, E1, E2.
Qed.

(** ** One batch per day *)

Lemma hasBatch_after billDate localRows channelRows batch d d' :
  batch_effect billDate localRows channelRows batch d d' -> hasBatch_sql billDate kChannel d' = Some true.
Proof.
  intros [d0 batchNo brow drows classified batch0 Hbrow Hbc Hd].
  unfold hasBatch_sql, batch_row in *. cbn in Hbrow. simplify_opt.
  match goal with H : parse_date _ = Some _ |- _ => rewrite H end.
  cbn. rewrite existsb_app. cbn. by rewrite Z.eqb_refl, sql_eq_refl, orb_true_r.
Qed.

(** A day is reconciled once: after a run has succeeded, the next run for that
    date and the same bill is refused as already done and changes nothing. *)
Theorem run_again_refused billDate res st st1 : no_fault ->
  run_alone (run billDate) st = (Ret res, st1) -> isOk res = true ->
  exists st2, run_alone (run billDate) st1
      = (Ret (fail kReconcileBatchStatusInvalid "该日期已对账，勿重复跑批" billDate), st2)
    /\ committed st2 = committed st1.
Proof.
  intros Hnf Hfirst Hok. pose proof (wp_elim _ _ _ _ _ (run_partial billDate st) Hfirst) as H.
  cbn [run_post] in H. rewrite Hok in H. destruct H as (content & rows & batch & Hfile & Hparse & -> & Heff).
  destruct Heff as (localRows & _ & Heff%hasBatch_after).
  enough (Hwp : wp (run billDate) (fun r st' =>
    r = Ret (fail kReconcileBatchStatusInvalid "该日期已对账，勿重复跑批" billDate)
    /\ committed st' = committed st1) st1).
  { exists (run_alone (run billDate) st1).2. destruct Hwp as [Hr Hc]. split; [| exact Hc].
    rewrite <- Hr. by destruct (run_alone (run billDate) st1). }
  unfold run. rewrite Hfile, Hparse.
  apply wp_try_catch, wp_with_guard_total; [done |]. intros st2 Hv Hs _.
  unfold run_body, hasBatchForDate. apply wp_bind.
  assert (Hc : committed st2 = committed st1) by same_db_tac.
  apply wp_exec_client_read; [by intros now d0 d' a [-> _]%read_inv | |].
  - intros st3 _ _ [Hf | (now & _ & Hn)]; [by destruct (no_fault_fault Hnf Hf) |].
    unfold read in Hn. rewrite Hc, Heff in Hn. done.
  - intros now st3 b Hb _ _ Hs3 _. apply read_inv in Hb as [_ Hb]. rewrite Hc, Heff in Hb.
    injection Hb as <-. apply wp_throw, wp_ret. split; [done | same_db_tac].
Qed.

Lemma diff_rows_ids batchNo classified : forall id drows, diff_rows id batchNo classified = Some drows ->
  NoDup (map dr_id drows) /\ Forall (fun x => id <= dr_id x < id + Z.of_nat (length drows)) drows
  /\ Forall (fun x => dr_handle_status x = kHandlePending) drows.
Proof.
  induction classified as [|c rest IH]; intros id drows H; cbn [diff_rows] in H.
  - injection H as <-. repeat split; constructor.
  - apply bind_Some in H as (r & Hr & H). apply bind_Some in H as (rs & Hrs & H). injection H as <-.
    destruct (IH _ _ Hrs) as (Hnd & Hb & Hp).
    assert (Hid : dr_id r = id /\ dr_handle_status r = kHandlePending).
    { unfold diff_row in Hr. by simplify_opt. }
    destruct Hid as [Hid Hst]. cbn [map length]. rewrite Nat2Z.inj_succ. split_and!.
    + apply NoDup_cons. split; [| done]. intros Hin. apply list_elem_of_fmap in Hin as (x & Hx & Hin).
      rewrite Forall_forall in Hb. specialize (Hb x Hin). lia.
    + constructor; [lia |]. eapply Forall_impl; [exact Hb |]. cbn. intros. lia.
    + by constructor.
Qed.

Lemma batch_effect_wf billDate localRows channelRows batch d d' :
  db_wf d -> batch_effect billDate localRows channelRows batch d d' -> db_wf d'.
Proof.
  intros Hwf Heff. revert Hwf.
  destruct Heff as [d batchNo brow drows classified batch Hbrow Hbc Hd]. intros [K R].
  destruct (diff_rows_ids _ _ _ _ Hd) as (Hnd & Hb & _). destruct K, R.
  split; constructor; cbn; try done.
  - eapply insert_NoDup; [| exact Hbc | done]. intros x Hx. unfold batch_conflict.
    by rewrite (proj2 (sql_eq_iff _ _) Hx).
  - eapply insert_NoDup; [| exact Hbc | done]. intros x [= Hx1 Hx2]. unfold batch_conflict.
    by rewrite Hx1, Z.eqb_refl, (proj2 (sql_eq_iff _ _) Hx2), orb_true_r.
  - rewrite List.map_app. apply NoDup_app. split_and!; [done | | done].
    intros i Hi Hi'. apply list_elem_of_fmap in Hi as (x & -> & Hx), Hi' as (y & Hxy & Hy).
    rewrite Forall_forall in wf_diff_auto, Hb. specialize (wf_diff_auto x Hx). specialize (Hb y Hy). lia.
  - apply Forall_app. split.
    + eapply Forall_impl; [exact wf_diff_auto |]. cbn. lia.
    + eapply Forall_impl; [exact Hb |]. cbn. intros. lia.
Qed.

Lemma reconcile_effect_wf billDate channelRows batch d d' :
  db_wf d -> reconcile_effect billDate channelRows batch d d' -> db_wf d'.
Proof. intros Hwf (localRows & _ & Heff). by eapply batch_effect_wf. Qed.

(** ** Handling a difference *)

(** The row after it has been handled. *)
Definition handled (s : HandleStatus) (remark : string) (now : Z) (r : DiffRow) : DiffRow :=
  mkDiffRow (dr_id r) (dr_batch_no r) (dr_order_no r) (dr_channel_trade_no r)
    (dr_local_amount r) (dr_channel_amount r) (dr_diff_type r) (dr_diff_amount r) s
    (Some remark) (Some now).

(** The one row of that number goes from pending to verified or ignored. *)
Inductive handle_effect (id : Z) (action remark : string) : HandleStatus -> Db -> Db -> Prop :=
  | HandleEffect s d t1 x t2 now :
      action_status action = Some s ->
      t_reconcile_diff d = t1 ++ x :: t2 -> dr_id x = id -> dr_handle_status x = kHandlePending ->
      handle_effect id action remark s d
        (set_reconcile_diff (t1 ++ handled s remark now x :: t2) (t_reconcile_diff_auto d) d).

Lemma handleDiff_where_iff id x : handleDiff_where id x = true <->
  dr_id x = id /\ dr_handle_status x = kHandlePending.
Proof. unfold handleDiff_where. by rewrite andb_true_iff, Z.eqb_eq, bool_decide_eq_true. Qed.

Lemma handleDiff_sql_inv id s remark now d d' n : NoDup (map dr_id (t_reconcile_diff d)) ->
  handleDiff_sql id s remark now d = Some (d', n) ->
  (n = 0%nat /\ d' = d /\ existsb (handleDiff_where id) (t_reconcile_diff d) = false)
  \/ (n = 1%nat /\ exists t1 x t2, t_reconcile_diff d = t1 ++ x :: t2 /\ dr_id x = id
       /\ dr_handle_status x = kHandlePending
       /\ d' = set_reconcile_diff (t1 ++ handled s remark now x :: t2) (t_reconcile_diff_auto d) d).
Proof.
  intros Hnd. unfold handleDiff_sql.
  destruct (sql_update_key dr_id id (handleDiff_where id) (handled_row s remark now) (t_reconcile_diff d))
    as [[Hn ->] | (t1 & x & t2 & Ht & Hp & _ & _ & ->)].
  - by intros r [? _]%handleDiff_where_iff.
  - done.
  - intros [= <- <-]. left. split; [done |]. split; [by destruct d | done].
  - intros H. right. unfold handled_row in H. simplify_opt. split; [done |].
    apply handleDiff_where_iff in Hp as [? ?]. by exists t1, x, t2.
Qed.

Definition handleDiff_post (id : Z) (action remark : string) (d : Db) (r : outcome (Result jvalue)) (st : St) : Prop :=
  match r with
  | Ret res =>
      if isOk res then exists s, handle_effect id action remark s d (committed st)
        /\ res = ok (jobject [("diffId", jint id); ("handleStatus", jint (handle_status_int s))]) ""
      else committed st = d /\ data res = None
  | Throw e => e = DbException /\ (committed st = d \/ (fault /\ exists s, handle_effect id action remark s d (committed st)))
  | Hang | Undefined => False
  end.

Lemma handleDiff_partial id action remark st : keys_wf (committed st) ->
  wp (handleDiff id action remark) (handleDiff_post id action remark (committed st)) st.
Proof.
  intros K. remember (committed st) as d eqn:Hd. unfold handleDiff.
  destruct (action_status action) as [s|] eqn:Hs; [| by apply wp_ret].
  apply wp_bind. apply wp_exec_client_read; [by intros now d0 d' a [-> _]%read_inv | |].
  { intros st1 Hs1 _ _. split; [done |]. left. same_db_tac. }
  intros now1 st1 found Hf _ _ Hs1 _. rewrite <- Hd in Hf. apply read_inv in Hf as [_ Hf].
  destruct found as [x|]; [| apply wp_ret; split; [same_db_tac | done]].
  assert (Hc1 : committed st1 = d) by same_db_tac. apply wp_bind. apply wp_exec_client.
  { intros st2 Hs2 _ _. split; [done |]. left. same_db_tac. }
  { intros now2 st2 d' n Hupd _ Hc2 _ Hfault. rewrite Hc1 in Hupd. split; [done |].
    apply handleDiff_sql_inv in Hupd; [| apply K].
    destruct Hupd as [(_ & -> & _) | (_ & t1 & y & t2 & Ht & Hid & Hp & ->)]; [by left | right].
    split; [done |]. exists s. rewrite Hc2. by apply HandleEffect. }
  intros now2 st2 d' n Hupd _ Hc2 _ _. rewrite Hc1 in Hupd.
  apply handleDiff_sql_inv in Hupd; [| apply K].
  destruct Hupd as [(-> & -> & _) | (-> & t1 & y & t2 & Ht & Hid & Hp & ->)]; cbn [Nat.eqb]; apply wp_ret.
  - by split.
  - cbn. exists s. split; [| done]. rewrite Hc2. by apply HandleEffect.
Qed.

(** Handling a difference moves exactly the one row of that number from pending
    to the status of the action, with the remark, when it was pending; every other
    answer leaves the database as it was.  A database exception is not caught: it
    leaves no answer, and the update applied or not. *)
Theorem handleDiff_spec id action remark st r st' : keys_wf (committed st) ->
  run_alone (handleDiff id action remark) st = (r, st') -> handleDiff_post id action remark (committed st) r st'.
Proof. intros K. by apply wp_elim, handleDiff_partial. Qed.

(** A row that is no longer pending. *)
Definition settled_row (id : Z) (d : Db) : Prop :=
  NoDup (map dr_id (t_reconcile_diff d))
  /\ exists t1 x t2, t_reconcile_diff d = t1 ++ x :: t2 /\ dr_id x = id /\ dr_handle_status x <> kHandlePending.

Lemma handle_effect_settled id action remark s d d' : NoDup (map dr_id (t_reconcile_diff d)) ->
  handle_effect id action remark s d d' -> settled_row id d'.
Proof.
  intros Hnd Heff. revert Hnd. destruct Heff as [s d t1 x t2 now Ha Ht Hid Hp]. rewrite Ht. intros Hnd.
  split; [cbn; by rewrite (split_key _ _ x) |].
  exists t1, (handled s remark now x), t2. split; [done |]. split; [done |].
  cbn. unfold action_status in Ha. repeat (case_match; try done); simplify_eq; done.
Qed.

Lemma handleDiff_sql_settled id s remark now d : settled_row id d ->
  handleDiff_sql id s remark now d = Some (d, 0%nat).
Proof.
  intros (Hnd & t1 & x & t2 & Ht & Hid & Hp). unfold handleDiff_sql.
  destruct (sql_update_key dr_id id (handleDiff_where id) (handled_row s remark now) (t_reconcile_diff d))
    as [[Hn ->] | (v1 & z & v2 & Hv & Hz & _)]; [by intros r [? _]%handleDiff_where_iff | done | by destruct d |].
  apply handleDiff_where_iff in Hz as [Hz1 Hz2]. exfalso. rewrite Ht in Hnd, Hv.
  destruct (split_unique dr_id _ _ _ _ _ _ Hnd Hv) as (_ & -> & _); [congruence | done].
Qed.

Lemma wp_handleDiff_settled id action remark st : no_fault -> is_Some (action_status action) ->
  settled_row id (committed st) ->
  wp (handleDiff id action remark) (fun r st' =>
    r = Ret (fail kReconcileDiffAlreadyHandled "差异已处理过" "") /\ committed st' = committed st) st.
Proof.
  intros Hnf [s Hs] Hset. unfold handleDiff. rewrite Hs.
  assert (Hrow : exists x, getDiffById_sql id (committed st) = Some (Some x)).
  { destruct Hset as (Hnd & t1 & x & t2 & Ht & Hid & _). unfold getDiffById_sql.
    destruct (sql_head_key dr_id id (fun r => dr_id r =? id) (t_reconcile_diff (committed st)))
      as [[Hn _] | (u1 & y & u2 & _ & _ & ->)]; [by intros r ?%Z.eqb_eq | done | | by eexists].
    rewrite Ht, existsb_app in Hn. cbn in Hn. by rewrite Hid, Z.eqb_refl, orb_true_r in Hn. }
  destruct Hrow as [x Hrow]. apply wp_bind.
  apply wp_exec_client_read; [by intros now d0 d' a [-> _]%read_inv | |].
  { intros st2 _ _ [Hf | (now & _ & Hn)]; [by destruct (no_fault_fault Hnf Hf) |].
    unfold read in Hn. by rewrite Hrow in Hn. }
  intros now1 st2 found Hf _ _ Hs2 _. apply read_inv in Hf as [_ Hf]. rewrite Hrow in Hf. injection Hf as <-.
  assert (Hc2 : committed st2 = committed st) by same_db_tac.
  apply wp_bind, wp_exec_client.
  - intros st3 _ _ [Hff | (now & _ & Hn)]; [by destruct (no_fault_fault Hnf Hff) |].
    by rewrite Hc2, handleDiff_sql_settled in Hn.
  - intros now st3 d' n _ _ _ _ Hff. by destruct (no_fault_fault Hnf Hff).
  - intros now st3 d' n Hupd _ Hc3 _ _. rewrite Hc2, handleDiff_sql_settled in Hupd by done.
    injection Hupd as <- <-. cbn [Nat.eqb]. apply wp_ret. by split.
Qed.

(** A difference is handled once: after a success, any further action on it is
    refused and leaves the row, its status and its remark as they are. *)
Theorem handleDiff_once id action remark res st st1 action' remark' : no_fault ->
  keys_wf (committed st) -> run_alone (handleDiff id action remark) st = (Ret res, st1) -> isOk res = true ->
  is_Some (action_status action') ->
  exists st2, run_alone (handleDiff id action' remark') st1
      = (Ret (fail kReconcileDiffAlreadyHandled "差异已处理过" ""), st2)
    /\ committed st2 = committed st1.
Proof.
  intros Hnf K Hfirst Hok Hs'.
  pose proof (wp_elim _ _ _ _ _ (handleDiff_partial id action remark st K) Hfirst) as H.
  cbn [handleDiff_post] in H. rewrite Hok in H. destruct H as (s & Heff & _).
  apply handle_effect_settled in Heff; [| apply K].
  destruct (wp_handleDiff_settled id action' remark' st1 Hnf Hs' Heff) as [Hr Hc].
  exists (run_alone (handleDiff id action' remark') st1).2. split; [| exact Hc].
  rewrite <- Hr. by destruct (run_alone (handleDiff id action' remark') st1).
Qed.
End ReconcileService.

(** ** The service on the concrete server *)

Definition sample_bill : list (ReconcileSideRow * string) :=
  [(mkSideRow "T100" "o1" 5990, "2025-01-01 08:01:40"); (mkSideRow "T200" "o2" 100, "2025-01-01 09:00:00")].

Definition sample_files (path : string) : option string :=
  if String.eqb path "scripts/bills/bill_2025-01-01.csv" then Some (bill_text sample_bill) else None.

Definition sample_day : Db :=
  set_payment [mkPaymentRow "1" "o1" "MOCK" "T100" 5997 kPaySuccess 1735718500 "{}"] Server.shop.

Lemma sample_day_wf : db_wf (D := Server.lib) sample_day.
Proof.
  pose proof Server.shop_wf as [K R]. destruct K, R.
  split; constructor; try done; cbn; apply NoDup_singleton.
Qed.

Definition run_day (st : St) : outcome (Result Tree.json) * St :=
  run_alone (E := Server.calm) (run (D := Server.lib) (J := Tree.lib) sample_files "2025-01-01") st.

Lemma run_spec_witness :
  map dr_diff_amount (t_reconcile_diff (committed (run_day (Server.fresh_state sample_day)).2)) = [-100; 7]
  /\ run_post (D := Server.lib) (J := Tree.lib) sample_files "2025-01-01" sample_day
       (run_day (Server.fresh_state sample_day)).1 (run_day (Server.fresh_state sample_day)).2.
Proof.
  split; [vm_compute; reflexivity |]. unfold run_day.
  exact (run_spec (D := Server.lib) (J := Tree.lib) (E := Server.calm) sample_files "2025-01-01"
    (Server.fresh_state sample_day) _ _ (surjective_pairing _)).
Defined.

Lemma run_again_refused_witness :
  exists st2, run_day (run_day (Server.fresh_state sample_day)).2
      = (Ret (fail kReconcileBatchStatusInvalid "该日期已对账，勿重复跑批" "2025-01-01"), st2).
Proof.
  destruct (run_again_refused (D := Server.lib) (J := Tree.lib) (E := Server.calm) sample_files "2025-01-01"
    (match (run_day (Server.fresh_state sample_day)).1 with Ret r => r | _ => fail kDbError "" "" end)
    (Server.fresh_state sample_day) (run_day (Server.fresh_state sample_day)).2)
    as (st2 & H & _); [apply Server.calm_no_fault | vm_compute; reflexivity | vm_compute; reflexivity |].
  by exists st2.
Defined.

Definition sample_rows : list ReconcileSideRow := map fst sample_bill.

Definition sample_batch : ReconcileBatch :=
  build_batch "132633958813929472" "2025-01-01" [mkSideRow "T100" "o1" 5997] sample_rows
    (classifyReconcileDiffs [mkSideRow "T100" "o1" 5997] sample_rows).

Lemma sample_effect : exists d', reconcile_effect (D := Server.lib) "2025-01-01" sample_rows sample_batch sample_day d'.
Proof.
  eexists. exists [mkSideRow "T100" "o1" 5997]. split; [vm_compute; reflexivity |].
  eapply (BatchEffect "2025-01-01" [mkSideRow "T100" "o1" 5997] sample_rows sample_day "132633958813929472");
    vm_compute; reflexivity.
Defined.

Lemma reconcile_batch_consistent_witness : exists d' brow drows,
    t_reconcile_batch d' = t_reconcile_batch sample_day ++ [brow]
    /\ t_reconcile_diff d' = t_reconcile_diff sample_day ++ drows
    /\ sum_of dr_diff_amount drows = br_total_amount brow - br_channel_amount brow.
Proof.
  destruct sample_effect as [d' Heff].
  destruct (reconcile_batch_consistent (D := Server.lib) (L := Server.lib_laws) _ _ _ _ _
    (proj1 sample_day_wf) Heff) as (brow & drows & H1 & H2 & _ & _ & H3).
  - repeat constructor.
  - repeat constructor.
  - reflexivity.
  - intros rows Hrows. vm_compute in Hrows. injection Hrows as <-. reflexivity.
  - by vm_nodup.
  - by exists d', brow, drows.
Defined.

(** Two differences, one of them pending. *)
Definition diff_shop : Db :=
  set_reconcile_diff [mkDiffRow 1 "b" "o1" "T1" 5 0 kLocalOnly 5 kHandlePending None None;
                      mkDiffRow 2 "b" "o2" "T2" 0 7 kChannelOnly (-7) kHandleIgnored (Some "x") (Some 9)] 3 Server.shop.

Lemma diff_shop_wf : keys_wf (D := Server.lib) diff_shop.
Proof.
  pose proof Server.shop_wf as [K _]. destruct K.
  constructor; try done; cbn. repeat constructor.
Qed.

Definition run_handle (id : Z) (action remark : string) (st : St) : outcome (Result Tree.json) * St :=
  run_alone (E := Server.calm) (handleDiff (D := Server.lib) (J := Tree.lib) id action remark) st.

Lemma handleDiff_spec_witness :
  map dr_handle_status (t_reconcile_diff (committed (run_handle 1 "verify" "ok" (Server.fresh_state diff_shop)).2))
    = [kHandleVerified; kHandleIgnored]
  /\ handleDiff_post (E := Server.calm) (J := Tree.lib) 1 "verify" "ok" diff_shop
       (run_handle 1 "verify" "ok" (Server.fresh_state diff_shop)).1
       (run_handle 1 "verify" "ok" (Server.fresh_state diff_shop)).2.
Proof.
  split; [vm_compute; reflexivity |]. unfold run_handle.
  exact (handleDiff_spec (D := Server.lib) (J := Tree.lib) (E := Server.calm) 1 "verify" "ok"
    (Server.fresh_state diff_shop) _ _ diff_shop_wf (surjective_pairing _)).
Defined.

Lemma handleDiff_once_witness :
  exists st2, run_handle 1 "ignore" "again" (run_handle 1 "verify" "ok" (Server.fresh_state diff_shop)).2
      = (Ret (fail kReconcileDiffAlreadyHandled "差异已处理过" ""), st2).
Proof.
  destruct (handleDiff_once (D := Server.lib) (J := Tree.lib) (E := Server.calm) 1 "verify" "ok"
    (match (run_handle 1 "verify" "ok" (Server.fresh_state diff_shop)).1 with Ret r => r | _ => fail kDbError "" "" end)
    (Server.fresh_state diff_shop) (run_handle 1 "verify" "ok" (Server.fresh_state diff_shop)).2 "ignore" "again")
    as (st2 & H & _);
    [apply Server.calm_no_fault | apply diff_shop_wf | vm_compute; reflexivity | vm_compute; reflexivity
    | by eexists |].
  by exists st2.
Defined.
