(* ===== verification/ReconcileOutcome.v ===== *)
(** * ReconcileOutcome: the answers of reconciliation without faults

    [ReconcileService.v] says what [run] and [handleDiff] may leave behind, whatever
    fails.  Here nothing fails: the answer is a function of the bill and of the rows,
    and [run_outcome] and [handleDiff_outcome] show that the methods return it, with
    the effect that goes with it. *)

From S2P Require Import Prelude MoneyUtil IdGenerator JsonValue Result BeijingTime Models.
From S2P Require Import Database Transaction Daos Invariant Server Reconcile ReconcileService.

Section ReconcileOutcome.
Context {D : MySql} {J : JsonCpp} {E : Env}.

(** ** Statements on the default client *)

Lemma wp_client_read_total {A} L (g : Db -> option A) (Q : outcome A -> St -> Prop) st a : no_fault ->
  g (committed st) = Some a ->
  (forall st', tx st' = tx st -> same_db st st' -> same_gen st st' -> Q (Ret a) st') ->
  wp (exec_client L (read g)) Q st.
Proof.
  intros Hnf Hg Hok. apply wp_exec_client_read; [by intros now d0 d' x [-> _]%read_inv | |].
  - intros st' _ _ [Hf | (now & _ & Hn)]; [by destruct (no_fault_fault Hnf Hf) |].
    unfold read in Hn. by rewrite Hg in Hn.
  - intros now st' x [_ Hx]%read_inv _ Ht Hs Hgen. replace x with a by congruence. by apply Hok.
Qed.

Lemma wp_client_total {A} L (f : Z -> Db -> option (Db * A)) (Q : outcome A -> St -> Prop) st : no_fault ->
  (forall now, is_Some (f now (committed st))) ->
  (forall now st' d' a, f now (committed st) = Some (d', a) -> committed st' = d' -> Q (Ret a) st') ->
  wp (exec_client L f) Q st.
Proof.
  intros Hnf Htot Hok. apply wp_exec_client.
  - intros st' _ _ [Hf | (now & _ & Hn)]; [by destruct (no_fault_fault Hnf Hf) |].
    destruct (Htot now) as [x Hx]. congruence.
  - intros now st' d' a _ _ _ _ Hf. by destruct (no_fault_fault Hnf Hf).
  - intros now st' d' a Hf _ Hc _ _. by apply (Hok now st' d' a).
Qed.

(** ** Handling a difference *)

Definition handle_decision (id : Z) (action : string) (d : Db) : Result jvalue :=
  match action_status action with
  | None => fail kParamInvalid "action 必须是 verify 或 ignore" ""
  | Some s =>
      match find (fun r => dr_id r =? id) (t_reconcile_diff d) with
      | None => fail kReconcileBatchNotFound "差异记录不存在" ""
      | Some x =>
          if bool_decide (dr_handle_status x = kHandlePending)
          then ok (jobject [("diffId", jint id); ("handleStatus", jint (handle_status_int s))]) ""
          else fail kReconcileDiffAlreadyHandled "差异已处理过" ""
      end
  end.

Lemma handleDiff_total id s remark now d : NoDup (map dr_id (t_reconcile_diff d)) -> varchar_ok 255 remark = true ->
  is_Some (handleDiff_sql id s remark now d).
Proof.
  intros Hnd Hrem. unfold handleDiff_sql.
  destruct (sql_update_key dr_id id (handleDiff_where id) (handled_row s remark now) (t_reconcile_diff d))
    as [[_ ->] | (t1 & x & t2 & _ & _ & _ & _ & ->)]; [by intros r [? _]%handleDiff_where_iff | done | by eexists |].
  unfold handled_row. rewrite Hrem. by eexists.
Qed.

(** C21. Without faults an action on a difference is answered by its row: an unknown action,
    no such difference, one that has been handled, and otherwise success. The row then
    has the status and the remark, and in the three other cases nothing changes. *)
Theorem handleDiff_outcome id action remark st : no_fault -> keys_wf (committed st) ->
  varchar_ok 255 remark = true ->
  let res := handle_decision id action (committed st) in
  exists st', run_alone (handleDiff id action remark) st = (Ret res, st')
    /\ if isOk res then exists s, handle_effect id action remark s (committed st) (committed st')
       else committed st' = committed st.
Proof.
  intros Hnf K Hrem res.
  assert (H : wp (handleDiff id action remark) (fun r _ => r = Ret res) st).
  { subst res. unfold handle_decision, handleDiff. destruct (action_status action) as [s|]; [| by apply wp_ret].
    apply wp_bind. eapply wp_client_read_total; [done | reflexivity |]. intros st1 _ Hs1 _. rewrite find_head.
    assert (Hc1 : committed st1 = committed st) by same_db_tac.
    destruct (find _ (t_reconcile_diff (committed st))) as [x|] eqn:Hx; cbn [fmap option_fmap option_map]; [| by apply wp_ret].
    apply find_some in Hx as [Hin Hid%Z.eqb_eq].
    apply wp_bind. eapply wp_client_total; [done | intros now; apply handleDiff_total; [rewrite Hc1; apply K | done] |].
    intros now st2 d' n Hupd _. rewrite Hc1 in Hupd. apply handleDiff_sql_inv in Hupd; [| apply K].
    destruct Hupd as [(-> & _ & Hn) | (-> & t1 & y & t2 & Ht & Hyid & Hp & _)]; cbn [Nat.eqb].
    - apply existsb_false in Hn. rewrite List.Forall_forall in Hn. specialize (Hn x Hin).
      unfold handleDiff_where in Hn. rewrite Hid, Z.eqb_refl in Hn. cbn [andb] in Hn. rewrite Hn. by apply wp_ret.
    - pose proof (wf_diff_id _ K) as Hnd. rewrite Ht in Hnd. apply in_split in Hin as (s1 & s2 & Hs). rewrite Ht in Hs.
      destruct (split_unique dr_id _ _ _ _ _ _ Hnd Hs) as (_ & <- & _); [congruence |].
      rewrite bool_decide_eq_true_2 by done. by apply wp_ret. }
  destruct (run_alone (handleDiff id action remark) st) as [r st'] eqn:Hrun.
  pose proof (wp_elim _ _ _ _ _ H Hrun) as ->. exists st'. split; [done |].
  pose proof (wp_elim _ _ _ _ _ (handleDiff_partial id action remark st K) Hrun) as Hpost.
  cbn [handleDiff_post] in Hpost. destruct (isOk res); [| tauto]. destruct Hpost as (s & Heff & _). by exists s.
Qed.
(** ** The daily batch *)

Context (open_file : string -> option string).

(** The batch of a day, from the payments of the database and the bill. *)
Definition day_rows (billDate : string) (d : Db) : list ReconcileSideRow :=
  default [] (localRows_sql billDate d).

Definition day_batch (billDate batchNo : string) (channelRows : list ReconcileSideRow) (d : Db) : ReconcileBatch :=
  build_batch batchNo billDate (day_rows billDate d) channelRows
    (classifyReconcileDiffs (day_rows billDate d) channelRows).

Definition bill_decision (billDate batchNo : string) (channelRows : list ReconcileSideRow) (d : Db) : Result jvalue :=
  if bool_decide (hasBatch_sql billDate kChannel d = Some true)
  then fail kReconcileBatchStatusInvalid "该日期已对账，勿重复跑批" billDate
  else ok (batch_data (day_batch billDate batchNo channelRows d)) billDate.

Definition run_decision (billDate batchNo : string) (d : Db) : Result jvalue :=
  match open_file (bill_path billDate) with
  | None => fail kReconcileBillParseFailed "账单文件不存在（先用 scripts/gen_bill.sh 生成）" billDate
  | Some content =>
      match parse_bill content with
      | None => fail kReconcileBillParseFailed "账单行解析失败" billDate
      | Some channelRows => bill_decision billDate batchNo channelRows d
      end
  end.

(** The date is one, the columns hold the batch and its differences, the number is new. *)
Record bill_accepted (billDate batchNo : string) (channelRows : list ReconcileSideRow) (d : Db) : Prop := {
  ba_date : is_Some (parse_date billDate);
  ba_day : is_Some (localRows_sql billDate d);
  ba_row : is_Some (batch_row (day_batch billDate batchNo channelRows d));
  ba_diffs : is_Some (diff_rows (t_reconcile_diff_auto d) batchNo
    (classifyReconcileDiffs (day_rows billDate d) channelRows));
  ba_new : existsb (fun b => sql_eq (br_batch_no b) batchNo) (t_reconcile_batch d) = false
}.

Lemma insertDiff_total x r now d : diff_row (t_reconcile_diff_auto d) x = Some r ->
  Forall (fun y => dr_id y < t_reconcile_diff_auto d) (t_reconcile_diff d) -> is_Some (insertDiff_sql x now d).
Proof.
  intros Hr Hlt. unfold insertDiff_sql. rewrite Hr. cbn. unfold sql_insert.
  assert (Hid : dr_id r = t_reconcile_diff_auto d) by (unfold diff_row in Hr; by simplify_opt).
  assert (existsb (fun y => dr_id y =? dr_id r) (t_reconcile_diff d) = false) as ->; [| by eexists].
  apply existsb_false. eapply Forall_impl; [exact Hlt |]. cbn. intros y Hy. apply Z.eqb_neq. lia.
Qed.

Lemma wp_insert_diffs_total batchNo classified (Q : outcome unit -> St -> Prop) : no_fault -> forall d st drows,
  view d st -> Forall (fun y => dr_id y < t_reconcile_diff_auto d) (t_reconcile_diff d) ->
  diff_rows (t_reconcile_diff_auto d) batchNo classified = Some drows ->
  (forall st', view (set_reconcile_diff (t_reconcile_diff d ++ drows)
             (t_reconcile_diff_auto d + Z.of_nat (length drows)) d) st' -> Q (Ret tt) st') ->
  wp (insert_diffs batchNo classified) Q st.
Proof.
  intros Hnf. induction classified as [|c rest IH]; intros d st drows Hv Hlt Hd Hok; cbn [insert_diffs diff_rows] in *.
  - injection Hd as <-. apply wp_ret, Hok. cbn. rewrite app_nil_r, Z.add_0_r. by destruct d.
  - apply bind_Some in Hd as (r & Hr & Hd). apply bind_Some in Hd as (rs & Hrs & [= <-]).
    apply wp_bind. eapply wp_exec_total; [done | exact Hv | intros now; by eapply insertDiff_total |].
    intros now st1 d1 u Hins _ Hv1 _ _. apply insertDiff_inv in Hins as (r' & Hr' & ->).
    assert (r' = r) as -> by congruence.
    assert (Hid : dr_id r = t_reconcile_diff_auto d) by (unfold diff_row in Hr; by simplify_opt).
    eapply IH; [exact Hv1 | | exact Hrs |].
    + cbn. apply Forall_app. split; [eapply Forall_impl; [exact Hlt |]; cbn; lia |]. constructor; [lia | done].
    + intros st2 Hv2. apply Hok. cbn in Hv2. rewrite <- app_assoc in Hv2. cbn [length]. rewrite Nat2Z.inj_succ.
      by replace (t_reconcile_diff_auto d + Z.succ (Z.of_nat (length rs)))
        with (t_reconcile_diff_auto d + 1 + Z.of_nat (length rs)) by lia.
Qed.

(** The keys of the new batch are new: its number by hypothesis, its day because the
    database has been asked. *)
Lemma batch_new billDate batchNo channelRows d brow : bill_accepted billDate batchNo channelRows d ->
  batch_row (day_batch billDate batchNo channelRows d) = Some brow ->
  hasBatch_sql billDate kChannel d = Some false -> existsb (batch_conflict brow) (t_reconcile_batch d) = false.
Proof.
  intros Hacc Hrow Hhas. pose proof (ba_new _ _ _ _ Hacc) as Hno. unfold hasBatch_sql, batch_row in *.
  cbn [day_batch build_batch b_billDate b_batchNo b_channel] in Hrow.
  destruct (parse_date billDate) as [day|]; [| done]. cbn [mbind option_bind] in Hhas. injection Hhas as Hhas.
  cbn [mbind option_bind] in Hrow. simplify_opt. apply existsb_false in Hno, Hhas. apply existsb_false.
  rewrite List.Forall_forall in Hno, Hhas |- *. intros b Hb. unfold batch_conflict. cbn.
  by rewrite (Hno b Hb), (Hhas b Hb).
Qed.

Lemma wp_run_body_total billDate batchNo channelRows d st ids' n' : no_fault -> keys_wf d ->
  bill_accepted billDate batchNo channelRows d -> committed st = d -> view d st ->
  nextId system_clock spin_fuel (readings st) (ids st) = (IdOk batchNo, ids', n') ->
  wp (run_body billDate channelRows) (fun r st' =>
    if bool_decide (hasBatch_sql billDate kChannel d = Some true)
    then r = Throw (BizException kReconcileBatchStatusInvalid "该日期已对账，勿重复跑批") /\ committed st' = d
    else r = Ret (ok (batch_data (day_batch billDate batchNo channelRows d)) billDate)
      /\ reconcile_effect billDate channelRows (day_batch billDate batchNo channelRows d) d (committed st')) st.
Proof.
  intros Hnf K Hacc Hc Hv Hnext. destruct (ba_day _ _ _ _ Hacc) as [rows Hrows].
  destruct (ba_row _ _ _ _ Hacc) as [brow Hbrow]. destruct (ba_diffs _ _ _ _ Hacc) as [drows Hdrows].
  assert (Hhas : exists b, hasBatch_sql billDate kChannel d = Some b).
  { unfold hasBatch_sql. destruct (ba_date _ _ _ _ Hacc) as [day ->]. by eexists. }
  destruct Hhas as [b Hhas]. unfold run_body, hasBatchForDate.
  apply wp_bind. eapply wp_client_read_total; [done | by rewrite Hc |]. intros st1 Htx1 Hs1 [Hi1 Hr1]. rewrite Hhas.
  destruct b; [rewrite bool_decide_eq_true_2 by done; apply wp_throw; split; [done | same_db_tac] |].
  rewrite bool_decide_eq_false_2 by congruence.
  assert (Hv1 : view d st1) by (unfold view in *; congruence).
  apply wp_bind. eapply wp_query_total; [done | exact Hv1 | exact Hrows |]. intros st2 Hv2 _ [Hi2 Hr2].
  apply wp_bind. eapply wp_next_id_ok; [exact Hv2 | by rewrite Hi2, Hr2, Hi1, Hr1 |]. intros st3 Hv3 _ _ _.
  assert (Hday : day_rows billDate d = rows) by (unfold day_rows; by rewrite Hrows).
  pose proof (batch_new _ _ _ _ _ Hacc Hbrow Hhas) as Hbc. unfold day_batch in *. rewrite Hday in *.
  apply wp_bind. eapply wp_exec_total; [done | exact Hv3 | |].
  { intros now. unfold insertBatch_sql. rewrite Hbrow. cbn. unfold sql_insert. rewrite Hbc. by eexists. }
  intros now4 st4 d4 u4 Hins _ Hv4 _ _. apply insertBatch_inv in Hins as (brow' & Hbrow' & _ & ->).
  assert (brow' = brow) as -> by congruence.
  apply wp_bind. eapply wp_insert_diffs_total; [done | exact Hv4 | apply K | exact Hdrows |]. intros st5 Hv5.
  apply wp_bind. eapply wp_guard_commit_total; [done | exact Hv5 |]. intros st6 Hc6 _. apply wp_ret. split; [done |].
  rewrite Hc6. exists rows. split; [done |].
  exact (BatchEffect billDate rows channelRows d batchNo brow drows Hbrow Hbc Hdrows).
Qed.

(** C20. Without faults a run is answered by the bill and the rows: a bill that does not
    open or does not parse, a day that has been reconciled, and otherwise success with
    the batch of the day's payments and the bill. Then the batch and its differences
    are in the database, and in the three other cases nothing changes. *)
Theorem run_outcome billDate batchNo st ids' n' : no_fault -> keys_wf (committed st) ->
  nextId system_clock spin_fuel (readings st) (ids st) = (IdOk batchNo, ids', n') ->
  (forall content channelRows, open_file (bill_path billDate) = Some content ->
     parse_bill content = Some channelRows -> bill_accepted billDate batchNo channelRows (committed st)) ->
  let res := run_decision billDate batchNo (committed st) in
  exists st', run_alone (run open_file billDate) st = (Ret res, st')
    /\ if isOk res
       then exists content channelRows, open_file (bill_path billDate) = Some content
            /\ parse_bill content = Some channelRows
            /\ reconcile_effect billDate channelRows (day_batch billDate batchNo channelRows (committed st))
                 (committed st) (committed st')
       else committed st' = committed st.
Proof.
  intros Hnf K Hnext Hacc res.
  enough (H : wp (run open_file billDate) (fun r st' => r = Ret res
    /\ if isOk res
       then exists content channelRows, open_file (bill_path billDate) = Some content
            /\ parse_bill content = Some channelRows
            /\ reconcile_effect billDate channelRows (day_batch billDate batchNo channelRows (committed st))
                 (committed st) (committed st')
       else committed st' = committed st) st).
  { exists (run_alone (run open_file billDate) st).2. destruct H as [Hr H]. split; [| exact H].
    rewrite <- Hr. by destruct (run_alone (run open_file billDate) st). }
  subst res. unfold run_decision, run.
  destruct (open_file (bill_path billDate)) as [content|] eqn:Hfile; [| by apply wp_ret].
  destruct (parse_bill content) as [channelRows|] eqn:Hparse; [| by apply wp_ret].
  specialize (Hacc _ _ eq_refl Hparse).
  apply wp_try_catch, wp_with_guard_total; [done |]. intros st1 Hv Hs [Hi Hr]. unfold bill_decision.
  eapply wp_mono.
  { eapply (wp_run_body_total billDate batchNo channelRows (committed st)); try done. by rewrite Hi, Hr. }
  cbn beta. intros r st2. case_bool_decide.
  - intros [-> Hc]. apply wp_ret. split; [done |]. exact Hc.
  - intros [-> Heff]. split; [done |]. by exists content, channelRows.
Qed.

End ReconcileOutcome.

(** ** On the concrete server *)

Module ReconcileExamples.
#[local] Existing Instance Server.calm.
#[local] Existing Instance Server.lib.
#[local] Existing Instance Tree.lib.

(** The three actions on the sample that are refused, and the one that is not. *)
Example handle_decisions :
  map (fun '(id, action) => code (handle_decision id action diff_shop))
    [(1, "close"); (3, "verify"); (2, "verify"); (1, "verify")]
  = map intCode [kParamInvalid; kReconcileBatchNotFound; kReconcileDiffAlreadyHandled; kSuccess].
Proof. reflexivity. Qed.

Lemma sample_bill_accepted content channelRows :
  sample_files (bill_path "2025-01-01") = Some content -> parse_bill content = Some channelRows ->
  bill_accepted "2025-01-01" "132633958809735168" channelRows sample_day.
Proof.
  intros Hc Hr. vm_compute in Hc. injection Hc as <-. vm_compute in Hr. injection Hr as <-.
  split; [eexists; vm_compute; reflexivity.. | vm_compute; reflexivity].
Qed.

Lemma run_outcome_witness :
  isOk (run_decision sample_files "2025-01-01" "132633958809735168" sample_day) = true
  /\ exists st' content channelRows,
     run_day (Server.fresh_state sample_day)
       = (Ret (run_decision sample_files "2025-01-01" "132633958809735168" sample_day), st')
     /\ parse_bill content = Some channelRows
     /\ reconcile_effect "2025-01-01" channelRows
          (day_batch "2025-01-01" "132633958809735168" channelRows sample_day) sample_day (committed st').
Proof.
  assert (Hok : isOk (run_decision sample_files "2025-01-01" "132633958809735168" sample_day) = true)
    by (vm_compute; reflexivity).
  split; [exact Hok |].
  destruct (run_outcome (D := Server.lib) (J := Tree.lib) (E := Server.calm) sample_files "2025-01-01"
    "132633958809735168" (Server.fresh_state sample_day) (IdState (kEpochMs + 366 * 86400000) 0) 1)
    as (st' & Hrun & Heff).
  - exact Server.calm_no_fault.
  - exact (proj1 sample_day_wf).
  - vm_compute. reflexivity.
  - exact sample_bill_accepted.
  - cbn [committed Server.fresh_state] in Hrun, Heff. rewrite Hok in Heff.
    destruct Heff as (content & channelRows & _ & Hparse & Heff). exists st', content, channelRows.
    split; [exact Hrun |]. split; [exact Hparse | exact Heff].
Defined.

Lemma handleDiff_outcome_witness :
  exists st' s, run_handle 1 "verify" "ok" (Server.fresh_state diff_shop)
      = (Ret (handle_decision 1 "verify" diff_shop), st')
    /\ handle_effect 1 "verify" "ok" s diff_shop (committed st').
Proof.
  destruct (handleDiff_outcome (D := Server.lib) (J := Tree.lib) (E := Server.calm) 1 "verify" "ok"
    (Server.fresh_state diff_shop)) as (st' & Hrun & s & Heff).
  - exact Server.calm_no_fault.
  - exact diff_shop_wf.
  - vm_compute. reflexivity.
  - exists st', s. split; [exact Hrun | exact Heff].
Defined.
End ReconcileExamples.
