(* ===== verification/MqClient.v ===== *)
(** * MqClient: publishing with publisher confirms

    [src/utils/MqClient.cc].  The AMQP library and the broker are oracles: whether
    the n-th library call succeeds, and which frame the n-th wait delivers.  The
    state is the connection; what the broker has been sent on a confirm channel
    and has not acknowledged yet is kept in order, since an ack frame carries no
    name: it acknowledges the oldest message.  [publish] runs under a mutex, so
    concurrent callers are a sequence of calls. *)

From S2P Require Import Prelude.

(** The bytes of a [c_str()] that [amqp_cstring_bytes] measures: up to a NUL. *)
Fixpoint c_str (s : string) : string :=
  match s with
  | "" => ""
  | String c rest => if schar c =? 0 then "" else String c (c_str rest)
  end.

(** Exchange, routing key, payload. *)
Definition mq_message : Type := string * string * string.

(** What [amqp_simple_wait_frame_noblock] delivers: no frame in time or an I/O
    error; a frame that is not a method; a method frame, basic.ack or another. *)
Inductive amqp_frame := FrameNone | FrameOther | FrameMethod (is_ack : bool).

Class Broker := {
  amqp_ok : nat -> bool;
  amqp_wait : nat -> amqp_frame
}.

(** The calls that set a connection up. *)
Inductive amqp_setup := SocketNew | SocketOpen | Login | ChannelOpen | DeclareExchange | ConfirmSelect.

(** An open connection: the calls that have set it up, in their order, and the
    messages not acknowledged yet. *)
Record amqp_conn := mkConn {
  set_up : list amqp_setup;
  unconfirmed : list mq_message
}.

(** [confirmed] is what the broker has acknowledged since the start. *)
Record mq_state := mkMq {
  conn_ : option amqp_conn;
  mq_calls : nat;
  confirmed : list mq_message
}.

Definition mq_init : mq_state := mkMq None 0 [].

Section MqClient.
Context {B : Broker}.

(** [MqClient::close]. *)
Definition close (mq : mq_state) : mq_state := mkMq None (mq_calls mq) (confirmed mq).

(** A library call on the connection that, when it succeeds, leaves it as [f] says. *)
Definition amqp_call (f : amqp_conn -> amqp_conn) (mq : mq_state) : bool * mq_state :=
  let ok := amqp_ok (mq_calls mq) in
  (ok, mkMq (if ok then f <$> conn_ mq else conn_ mq) (S (mq_calls mq)) (confirmed mq)).

(** The calls of [ensureConnected] in their order: the exchange is declared before the
    channel enters confirm mode.  The first failure closes the connection. *)
Definition connect_steps : list amqp_setup :=
  [SocketNew; SocketOpen; Login; ChannelOpen; DeclareExchange; ConfirmSelect].

Definition set_up_call (x : amqp_setup) (c : amqp_conn) : amqp_conn := mkConn (set_up c ++ [x]) (unconfirmed c).

Fixpoint run_steps (steps : list amqp_setup) (mq : mq_state) : bool * mq_state :=
  match steps with
  | [] => (true, mq)
  | x :: rest =>
      let '(ok, mq') := amqp_call (set_up_call x) mq in
      if ok then run_steps rest mq' else (false, close mq')
  end.

(** [MqClient::ensureConnected]. *)
Definition ensureConnected (mq : mq_state) : bool * mq_state :=
  match conn_ mq with
  | Some _ => (true, mq)
  | None => run_steps connect_steps (mkMq (Some (mkConn [] [])) (mq_calls mq) (confirmed mq))
  end.

(** [MqClient::waitConfirm]: an ack takes the oldest unconfirmed message. *)
Definition waitConfirm (mq : mq_state) : bool * mq_state :=
  let n := mq_calls mq in
  match amqp_wait n, conn_ mq with
  | FrameMethod true, Some c =>
      (true, mkMq (Some (mkConn (set_up c) (tail (unconfirmed c)))) (S n)
               (confirmed mq ++ take 1 (unconfirmed c)))
  | _, _ => (false, mkMq (conn_ mq) (S n) (confirmed mq))
  end.

(** [MqClient::publish]. *)
Definition publish (exchange routingKey payload : string) (mq : mq_state) : bool * mq_state :=
  let '(ok1, mq1) := ensureConnected mq in
  let '(ok2, mq2) := if ok1 then (true, mq1) else ensureConnected (close mq1) in
  if negb ok2 then (false, mq2)
  else
    let m := (c_str exchange, c_str routingKey, c_str payload) in
    let '(sent, mq3) := amqp_call (fun c => mkConn (set_up c) (unconfirmed c ++ [m])) mq2 in
    if negb sent then (false, close mq3)
    else
      let '(acked, mq4) := waitConfirm mq3 in
      if negb acked then (false, close mq4) else (true, mq4).

(** ** The invariant *)

(** Between two calls an open connection has been set up by these calls and no others:
    the exchange was declared before confirm mode, since the source expects a declaration
    in that mode to be acknowledged like a message; and it owes no acknowledgement. *)
Definition ready_conn : amqp_conn :=
  mkConn [SocketNew; SocketOpen; Login; ChannelOpen; DeclareExchange; ConfirmSelect] [].

Definition mq_inv (mq : mq_state) : Prop :=
  match conn_ mq with Some c => c = ready_conn | None => True end.

(** Something the AMQP library or the broker refused, lost or delayed. *)
Definition broker_fault : Prop :=
  (exists n, amqp_ok n = false) \/ exists n, amqp_wait n <> FrameMethod true.

Lemma run_steps_spec steps mq : forall c, conn_ mq = Some c ->
  let '(ok, mq') := run_steps steps mq in
  confirmed mq' = confirmed mq
  /\ conn_ mq' = (if ok then Some (mkConn (set_up c ++ steps) (unconfirmed c)) else None)
  /\ (ok = false -> broker_fault).
Proof.
  revert mq. induction steps as [|x steps IH]; intros mq c Hc; cbn [run_steps].
  { split; [done |]. split; [| done]. rewrite Hc, app_nil_r. by destruct c. }
  unfold amqp_call. destruct (amqp_ok (mq_calls mq)) eqn:Hcall; [| split_and!; [done.. | intros _; left; by eexists]].
  specialize (IH (mkMq (set_up_call x <$> conn_ mq) (S (mq_calls mq)) (confirmed mq)) (set_up_call x c)).
  cbn [conn_ set_up set_up_call] in IH. rewrite <- app_assoc in IH. apply IH. cbn. by rewrite Hc.
Qed.

Lemma ensureConnected_spec mq : mq_inv mq ->
  let '(ok, mq') := ensureConnected mq in
  confirmed mq' = confirmed mq /\ conn_ mq' = (if ok then Some ready_conn else None)
  /\ (ok = false -> broker_fault).
Proof.
  unfold mq_inv, ensureConnected. destruct (conn_ mq) as [c|] eqn:Hc; [by intros -> |]. intros _.
  pose proof (run_steps_spec connect_steps
    (mkMq (Some (mkConn [] [])) (mq_calls mq) (confirmed mq)) _ eq_refl) as H.
  by destruct (run_steps _ _).
Qed.

Lemma publish_step exchange routingKey payload mq : mq_inv mq ->
  let '(ok, mq') := publish exchange routingKey payload mq in
  mq_inv mq'
  /\ confirmed mq' = confirmed mq ++ (if ok then [(c_str exchange, c_str routingKey, c_str payload)] else [])
  /\ (ok = false -> conn_ mq' = None /\ broker_fault).
Proof.
  intros Hinv. unfold publish. pose proof (ensureConnected_spec mq Hinv) as H1.
  destruct (ensureConnected mq) as [ok1 mq1]. destruct H1 as (Hc1 & Hconn1 & Hf1).
  assert (H2 : let '(ok2, mq2) := if ok1 then (true, mq1) else ensureConnected (close mq1) in
    confirmed mq2 = confirmed mq /\ conn_ mq2 = (if ok2 then Some ready_conn else None)
    /\ (ok2 = false -> broker_fault)).
  { destruct ok1; [done |]. pose proof (ensureConnected_spec (close mq1) I) as H.
    destruct (ensureConnected (close mq1)) as [ok2 mq2]. destruct H as [H ?]. split; [by rewrite H | done]. }
  destruct (if ok1 then (true, mq1) else ensureConnected (close mq1)) as [ok2 mq2]. destruct H2 as (Hc2 & Hconn2 & Hf2).
  destruct ok2; cbn [negb]; [| unfold mq_inv; rewrite Hconn2, Hc2, app_nil_r; auto].
  unfold amqp_call. rewrite Hconn2. destruct (amqp_ok (mq_calls mq2)) eqn:Hcall; cbn [negb fmap option_fmap option_map];
    [| cbn; rewrite Hc2, app_nil_r; split_and!; [done.. | intros _; split; [done | left; by eexists]]].
  unfold waitConfirm. cbn [conn_ mq_calls confirmed].
  destruct (amqp_wait (S (mq_calls mq2))) as [| | [|]] eqn:Hw; cbn; rewrite ?Hc2, ?app_nil_r; split_and!; try done;
    intros _; (split; [done | right; exists (S (mq_calls mq2)); by rewrite Hw]).
Qed.

(** Any number of publishes; the results in order. *)
Fixpoint publish_all (ms : list mq_message) (mq : mq_state) : list bool * mq_state :=
  match ms with
  | [] => ([], mq)
  | (x, k, p) :: rest =>
      let '(ok, mq') := publish x k p mq in
      let '(oks, mq'') := publish_all rest mq' in (ok :: oks, mq'')
  end.

(** The messages reported as delivered. *)
Fixpoint reported (ms : list mq_message) (oks : list bool) : list mq_message :=
  match ms, oks with
  | (x, k, p) :: ms', ok :: oks' =>
      (if ok then [(c_str x, c_str k, c_str p)] else []) ++ reported ms' oks'
  | _, _ => []
  end.

(** C30. A publish reports success exactly for the messages the broker has
    acknowledged, in order, whatever calls fail and whatever frames arrive: an
    acknowledgement is never credited to another message, because a failed or
    late confirm closes the connection, and an open one owes none.  Every open
    connection has been set up by the calls of the code, the exchange declared before
    confirm mode. *)
Theorem publish_attribution ms :
  let '(oks, mq) := publish_all ms mq_init in
  confirmed mq = reported ms oks /\ mq_inv mq.
Proof.
  assert (H : forall mq, mq_inv mq ->
    let '(oks, mq') := publish_all ms mq in confirmed mq' = confirmed mq ++ reported ms oks /\ mq_inv mq').
  { induction ms as [|[[x k] p] ms IH]; intros mq Hinv; cbn [publish_all]; [by rewrite app_nil_r |].
    pose proof (publish_step x k p mq Hinv) as Hp. destruct (publish x k p mq) as [ok mq1].
    destruct Hp as (Hi & Hc & _). specialize (IH mq1 Hi).
    destruct (publish_all ms mq1) as [oks mq2]. destruct IH as [IH Hi2]. split; [| done].
    cbn [reported]. by rewrite IH, Hc, app_assoc. }
  specialize (H mq_init I). by destruct (publish_all ms mq_init).
Qed.
End MqClient.
