(* ===== verification/ThreadPool.v ===== *)
(** * ThreadPool: the workers, the queue and their shutdown

    [src/utils/ThreadPool.cc].  A step is a critical section of [mutex_], a
    notification, or the end of a task; steps of different threads interleave
    freely.  A task is an identifier; whether it returns or throws is part of the
    step that ends it. *)

From S2P Require Import Prelude.

(** ** The code *)

(** A worker: about to take the lock and evaluate the predicate of [cv_.wait];
    asleep in it; running a task; returned. *)
Inductive worker := Ready | Asleep | Running (task : nat) | Exited.

#[export] Instance worker_eq_dec : EqDecision worker.
Proof. solve_decision. Defined.

(** [stopped_], [tasks_], [threads_]; the [notify_one] and [notify_all] calls that
    their threads have still to make; and, for the specification, the tasks
    accepted and the tasks started so far, in order. *)
Record pool := mkPool {
  stopped_ : bool;
  tasks_ : list nat;
  threads_ : list worker;
  notify_ones : nat;
  notify_alls : nat;
  accepted : list nat;
  started : list nat
}.

Definition set_worker (i : nat) (w : worker) (p : pool) : pool :=
  mkPool (stopped_ p) (tasks_ p) (<[i := w]> (threads_ p)) (notify_ones p) (notify_alls p)
    (accepted p) (started p).

(** The constructor. *)
Definition pool_new (threadCount : nat) : pool :=
  mkPool false [] (replicate threadCount Ready) 0 0 [] [].

(** [submit] up to the end of its critical section: the result, and the
    [notify_one] it owes when it accepts.  [None] is an empty [std::function]. *)
Definition submit (task : option nat) (p : pool) : bool * pool :=
  match task with
  | None => (false, p)
  | Some t =>
      if stopped_ p then (false, p)
      else (true, mkPool false (tasks_ p ++ [t]) (threads_ p) (S (notify_ones p)) (notify_alls p)
                    (accepted p ++ [t]) (started p))
  end.

(** The critical section of the destructor. *)
Definition stop (p : pool) : pool :=
  mkPool true (tasks_ p) (threads_ p) (notify_ones p) (S (notify_alls p)) (accepted p) (started p).

(** The destructor's joins have all returned. *)
Definition joined (p : pool) : bool := forallb (fun w => bool_decide (w = Exited)) (threads_ p).

(** The critical section of [workerLoop], for worker [i]. *)
Definition worker_lock (i : nat) (p : pool) : pool :=
  match tasks_ p with
  | [] => if stopped_ p then set_worker i Exited p else set_worker i Asleep p
  | t :: rest =>
      mkPool (stopped_ p) rest (<[i := Running t]> (threads_ p)) (notify_ones p) (notify_alls p)
        (accepted p) (started p ++ [t])
  end.

Inductive ended := Returned | ThrewStd | ThrewOther.

Inductive event :=
  | Submit (task : option nat)
  | Stop
  | Lock (i : nat)
  | End (i : nat) (how : ended)
  | NotifyOne (woken : nat)
  | NotifyAll
  | SpuriousWakeup (i : nat).

Definition wake (w : worker) : worker := match w with Asleep => Ready | _ => w end.

(** One step; [None] when the event cannot happen.  [notify_one] wakes any one of
    the sleeping workers, and is lost when none sleeps. *)
Definition step (e : event) (p : pool) : option pool :=
  match e with
  | Submit task => Some (submit task p).2
  | Stop => Some (stop p)
  | Lock i => if decide (threads_ p !! i = Some Ready) then Some (worker_lock i p) else None
  | End i how =>
      match threads_ p !! i with
      | Some (Running t) =>
          match how with Returned | ThrewStd | ThrewOther => Some (set_worker i Ready p) end
      | _ => None
      end
  | NotifyOne i =>
      match notify_ones p with
      | O => None
      | S n =>
          let p' := mkPool (stopped_ p) (tasks_ p) (threads_ p) n (notify_alls p) (accepted p) (started p) in
          if decide (Asleep ∈ threads_ p)
          then if decide (threads_ p !! i = Some Asleep) then Some (set_worker i Ready p') else None
          else Some p'
      end
  | NotifyAll =>
      match notify_alls p with
      | O => None
      | S n => Some (mkPool (stopped_ p) (tasks_ p) (map wake (threads_ p)) (notify_ones p) n
                       (accepted p) (started p))
      end
  | SpuriousWakeup i =>
      if decide (threads_ p !! i = Some Asleep) then Some (set_worker i Ready p) else None
  end.

Fixpoint run (es : list event) (p : pool) : option pool :=
  match es with
  | [] => Some p
  | e :: es' => p' ← step e p; run es' p'
  end.

Definition reachable (n : nat) (p : pool) : Prop := exists es, run es (pool_new n) = Some p.

(** ** The invariant *)

Definition count (w : worker) (p : pool) : nat := length (filter (w =.) (threads_ p)).

(** The queue is what was accepted and not started; a sleeping worker is never
    forgotten: whoever is awake or about to be woken is enough for the queue, and
    the [notify_all] of a stop is still to come; workers leave only a stopped pool
    with an empty queue. *)
Record pool_inv (n : nat) (p : pool) : Prop := {
  inv_fifo : started p ++ tasks_ p = accepted p;
  inv_threads : length (threads_ p) = n;
  inv_wake : (0 < count Asleep p)%nat -> (length (tasks_ p) <= count Ready p + notify_ones p)%nat;
  inv_stop : stopped_ p = true -> (0 < count Asleep p)%nat -> (0 < notify_alls p)%nat;
  inv_exit : (0 < count Exited p)%nat -> stopped_ p = true /\ tasks_ p = []
}.

(** Replacing one worker moves one unit between two counters. *)
Lemma count_set i w w' v (l : list worker) : l !! i = Some w ->
  (length (filter (v =.) (<[i := w']> l)) + (if decide (v = w) then 1 else 0)
   = length (filter (v =.) l) + (if decide (v = w') then 1 else 0))%nat.
Proof.
  revert i. induction l as [|x l IH]; intros [|i] H; simpl in *; try done.
  - injection H as ->. rewrite !filter_cons. destruct (decide (v = w)), (decide (v = w')); simpl; lia.
  - specialize (IH i H). rewrite !filter_cons. destruct (decide (v = x)); simpl; lia.
Qed.

Lemma count_wake_asleep (l : list worker) : filter (Asleep =.) (map wake l) = [].
Proof. induction l as [|[| | t |] l IH]; simpl; rewrite ?filter_cons; simpl; done. Qed.

Lemma count_wake v (l : list worker) : v <> Asleep -> v <> Ready ->
  filter (v =.) (map wake l) = filter (v =.) l.
Proof.
  intros Ha Hr. induction l as [|w l IH]; [done |]. simpl. rewrite !filter_cons, IH.
  destruct w; simpl; repeat case_decide; congruence.
Qed.

Lemma count_zero_all w (l : list worker) i : length (filter (w =.) l) = 0%nat -> l !! i = Some w -> False.
Proof.
  intros H Hi. apply length_zero_iff_nil in H. apply list_elem_of_lookup_2 in Hi.
  assert (w ∈ filter (w =.) l) as Hf by (by apply list_elem_of_filter). rewrite H in Hf.
  by apply elem_of_nil in Hf.
Qed.

Lemma count_pos w (l : list worker) i : l !! i = Some w -> (0 < length (filter (w =.) l))%nat.
Proof.
  intros Hi. destruct (length (filter (w =.) l)) eqn:H; [| lia]. by destruct (count_zero_all _ _ _ H Hi).
Qed.

(** Counts before and after replacing worker [i]. *)
Ltac recount H w' :=
  let go v := (let C := fresh "C" in pose proof (count_set _ _ w' v _ H) as C;
    repeat ((rewrite decide_True in C by done) || (rewrite decide_False in C by done))) in
  go Ready; go Asleep; go Exited.

(** The fields of [pool_inv] from those before the step and the counts. *)
Ltac inv_tac Hs He :=
  split; unfold count; cbn; rewrite ?length_insert;
  repeat match goal with H : tasks_ _ = [] |- _ => rewrite H | H : stopped_ _ = _ |- _ => rewrite H end;
  try done; cbn; try lia; try solve [intros ? ?; apply Hs; [done | lia]];
  try solve [intros ?; destruct He; [lia | done]].

Lemma step_inv n e p p' : pool_inv n p -> step e p = Some p' -> pool_inv n p'.
Proof.
  intros Hp. pose proof Hp as [Hf Ht Hw Hs He]. unfold count in *.
  destruct e as [[t|] | | i | i how | i | | i]; cbn [step].
  - unfold submit. destruct (stopped_ p) eqn:Hst; cbn; intros [= <-]; [done |].
    split; unfold count; cbn; try done.
    + by rewrite app_assoc, Hf.
    + rewrite length_app. simpl. lia.
    + intros Hx. by apply He in Hx as [? _].
  - by intros [= <-].
  - intros [= <-]. split; unfold count; cbn; try done; [lia |]. intros Hx. by apply He in Hx as [_ ?].
  - case_decide as Hi; [| done]. intros [= <-]. unfold worker_lock.
    destruct (tasks_ p) as [|t rest] eqn:Htasks.
    + destruct (stopped_ p) eqn:Hst.
      * recount Hi Exited. inv_tac Hs He.
      * recount Hi Asleep. inv_tac Hs He.
    + recount Hi (Running t). inv_tac Hs He.
      * by rewrite <- app_assoc.
      * cbn in Hw. lia.
  - destruct (threads_ p !! i) as [[| | t |]|] eqn:Hi; try done.
    recount Hi Ready.
    assert (Hg : pool_inv n (set_worker i Ready p)) by inv_tac Hs He.
    destruct how; by intros [= <-].
  - destruct (notify_ones p) as [|m] eqn:Hm; [done |].
    case_decide as Hex; [case_decide as Hi; [| done] |]; intros [= <-].
    + recount Hi Ready. inv_tac Hs He.
    + split; unfold count; cbn; try done. intros Ha. exfalso. apply Hex.
      destruct (filter (Asleep =.) (threads_ p)) as [|w l] eqn:Hl; [simpl in Ha; lia |].
      assert (Hin : w ∈ filter (Asleep =.) (threads_ p)) by (rewrite Hl; left).
      apply list_elem_of_filter in Hin as [<- Hin]. done.
  - destruct (notify_alls p) as [|m] eqn:Hm; [done |]. intros [= <-].
    split; unfold count; cbn; rewrite ?length_map, ?count_wake_asleep; simpl; try done; try lia.
    by rewrite count_wake.
  - case_decide as Hi; [| done]. intros [= <-]. recount Hi Ready. inv_tac Hs He.
Qed.

Lemma pool_new_inv n : pool_inv n (pool_new n).
Proof.
  assert (H : forall w, w <> Ready -> filter (w =.) (replicate n Ready) = []).
  { intros w Hw. induction n as [|m IH]; [done |]. simpl. rewrite filter_cons, decide_False by done. done. }
  split; unfold count; cbn; rewrite ?length_replicate, ?(H Asleep), ?(H Exited) by done; simpl; try done; lia.
Qed.

Lemma run_inv n es p p' : pool_inv n p -> run es p = Some p' -> pool_inv n p'.
Proof.
  revert p. induction es as [|e es IH]; intros p Hp; cbn; [by intros [= <-] |].
  destruct (step e p) as [p1|] eqn:He; [| done]. cbn. apply IH. by eapply step_inv.
Qed.

Lemma reachable_inv n p : reachable n p -> pool_inv n p.
Proof. intros [es H]. eapply run_inv; [apply pool_new_inv | exact H]. Qed.

(** ** Progress *)

(** A step that a thread of the pool, or a thread that owes a notification, can
    make without outside help. *)
Definition internal (e : event) : bool :=
  match e with Lock _ | End _ _ | NotifyOne _ | NotifyAll => true | _ => false end.

Definition can_progress (p : pool) : Prop := exists e p', internal e = true /\ step e p = Some p'.

Definition worker_weight (w : worker) : nat :=
  match w with Asleep | Running _ => 2 | Ready => 1 | Exited => 0 end.

(** What is left to do once the pool is stopped. *)
Definition work_left (p : pool) : nat :=
  3 * length (tasks_ p) + sum_list_with worker_weight (threads_ p) + notify_ones p + notify_alls p.

Lemma ready_progress i p : threads_ p !! i = Some Ready -> can_progress p.
Proof. intros Hi. exists (Lock i), (worker_lock i p). split; [done |]. cbn. by rewrite decide_True. Qed.

Lemma running_progress i t p : threads_ p !! i = Some (Running t) -> can_progress p.
Proof. intros Hi. exists (End i Returned), (set_worker i Ready p). split; [done |]. cbn. by rewrite Hi. Qed.

Lemma queue_progress n p i w : pool_inv n p -> threads_ p !! i = Some w -> tasks_ p <> [] -> can_progress p.
Proof.
  intros Hinv Hi Ht. destruct w as [| | t |]; [by eapply ready_progress | | by eapply running_progress |].
  - pose proof (count_pos _ _ _ Hi) as Ha. pose proof (inv_wake _ _ Hinv Ha) as Hw.
    destruct (notify_ones p) as [|m] eqn:Hm.
    + destruct (filter (Ready =.) (threads_ p)) as [|w l] eqn:Hl.
      * unfold count in Hw. rewrite Hl in Hw. destruct (tasks_ p); simpl in Hw; [done | lia].
      * assert (Hin : w ∈ filter (Ready =.) (threads_ p)) by (rewrite Hl; left).
        apply list_elem_of_filter in Hin as [<- Hin]. apply list_elem_of_lookup in Hin as [j Hj].
        by eapply ready_progress.
    + exists (NotifyOne i). eexists. split; [done |]. cbn. rewrite Hm.
      rewrite decide_True by (by eapply list_elem_of_lookup_2). by rewrite decide_True.
  - by destruct (inv_exit _ _ Hinv (count_pos _ _ _ Hi)) as [_ He].
Qed.

Lemma not_joined p : joined p = false -> exists i w, threads_ p !! i = Some w /\ w <> Exited.
Proof.
  unfold joined. intros H. induction (threads_ p) as [|w l IH]; [done |]. cbn in H.
  case_bool_decide as Hw; [| by exists 0%nat, w]. destruct (IH H) as (i & w' & Hi & Hne). by exists (S i), w'.
Qed.

Lemma weight_set i w w' l : l !! i = Some w ->
  (sum_list_with worker_weight (<[i := w']> l) + worker_weight w
   = sum_list_with worker_weight l + worker_weight w')%nat.
Proof.
  revert i. induction l as [|x l IH]; intros [|i] H; simpl in *; try done; [injection H as ->; lia |].
  specialize (IH i H). lia.
Qed.

Lemma weight_wake l : (sum_list_with worker_weight (map wake l) <= sum_list_with worker_weight l)%nat.
Proof. induction l as [|[| | t |] l IH]; simpl; lia. Qed.

Lemma work_left_step e p p' : stopped_ p = true -> step e p = Some p' ->
  (internal e = true -> (work_left p' < work_left p)%nat) /\ stopped_ p' = true.
Proof.
  intros Hst. unfold work_left.
  destruct e as [[t|] | | i | i how | i | | i]; cbn [step internal].
  - unfold submit. rewrite Hst. by intros [= <-].
  - by intros [= <-].
  - by intros [= <-].
  - case_decide as Hi; [| done]. intros [= <-]. unfold worker_lock. rewrite Hst.
    destruct (tasks_ p) as [|t rest] eqn:Ht; cbn.
    + rewrite Ht. pose proof (weight_set _ _ Exited _ Hi) as C. cbn in C. split; [cbn; lia | done].
    + pose proof (weight_set _ _ (Running t) _ Hi) as C. cbn in C. split; [lia | done].
  - destruct (threads_ p !! i) as [[| | t |]|] eqn:Hi; try done.
    pose proof (weight_set _ _ Ready _ Hi) as C. cbn in C.
    destruct how; intros [= <-]; cbn; (split; [lia | done]).
  - destruct (notify_ones p) as [|m] eqn:Hm; [done |].
    case_decide as Hex; [case_decide as Hi; [| done] |]; intros [= <-]; cbn; (split; [| done]); [| lia].
    pose proof (weight_set _ _ Ready _ Hi) as C. cbn in C. lia.
  - destruct (notify_alls p) as [|m] eqn:Hm; [done |]. intros [= <-]. cbn.
    pose proof (weight_wake (threads_ p)). split; [lia | done].
  - case_decide as Hi; [| done]. by intros [= <-].
Qed.

Lemma joined_exited p i w : joined p = true -> threads_ p !! i = Some w -> w = Exited.
Proof.
  unfold joined. rewrite forallb_forall. intros H Hi.
  apply list_elem_of_lookup_2, list_elem_of_In, H in Hi. by apply bool_decide_eq_true in Hi.
Qed.

(** ** The properties *)

(** Tasks are started in the order in which they were accepted, each once, and
    none is lost, whatever the interleaving; and while a task waits the pool is
    never stuck: no wake-up is lost. *)
Theorem pool_serves_queue n p : reachable n p -> (0 < n)%nat ->
  started p ++ tasks_ p = accepted p /\ (tasks_ p <> [] -> can_progress p).
Proof.
  intros Hr Hn. pose proof (reachable_inv _ _ Hr) as Hinv. split; [by eapply inv_fifo |]. intros Ht.
  destruct (lookup_lt_is_Some_2 (threads_ p) 0) as [w Hw]; [rewrite (inv_threads _ _ Hinv); lia |].
  by eapply queue_progress.
Qed.

(** C31. Shutdown.  Every step of the pool's threads after a stop is progress
    towards an end, there is one as long as a worker has not returned, and when
    all have been joined every accepted task has been started: none is dropped. *)
Theorem pool_shutdown n p : reachable n p -> (0 < n)%nat -> stopped_ p = true ->
  (forall e p', internal e = true -> step e p = Some p' -> (work_left p' < work_left p)%nat)
  /\ (joined p = false -> can_progress p)
  /\ (joined p = true -> started p = accepted p).
Proof.
  intros Hr Hn Hst. pose proof (reachable_inv _ _ Hr) as Hinv. split_and!.
  - intros e p' Hint Hs. by apply (work_left_step e p p' Hst Hs).
  - intros Hj. destruct (not_joined p Hj) as (i & [| | t |] & Hi & Hne); try done.
    + by eapply ready_progress.
    + destruct (notify_alls p) as [|m] eqn:Hm.
      * pose proof (inv_stop _ _ Hinv Hst (count_pos _ _ _ Hi)). lia.
      * exists NotifyAll. eexists. split; [done |]. cbn. by rewrite Hm.
    + by eapply running_progress.
  - intros Hj. destruct (lookup_lt_is_Some_2 (threads_ p) 0) as [w Hw]; [rewrite (inv_threads _ _ Hinv); lia |].
    pose proof (joined_exited _ _ _ Hj Hw) as ->.
    destruct (inv_exit _ _ Hinv (count_pos _ _ _ Hw)) as [_ Ht].
    by rewrite <- (inv_fifo _ _ Hinv), Ht, app_nil_r.
Qed.

(** ** Witnesses *)

(** Two workers, one asleep; two tasks, the first of which throws; a stop while
    the second is queued. *)
Definition sample_events : list event :=
  [Lock 0; Submit (Some 7%nat); NotifyOne 0; Lock 0; Submit (Some 8%nat); Lock 1; End 1 ThrewStd; Submit None;
   Submit (Some 9%nat); Stop; Submit (Some 10%nat)].

Definition sample_pool : pool := default (pool_new 2) (run sample_events (pool_new 2)).

Lemma sample_reachable : reachable 2 sample_pool.
Proof. by exists sample_events. Qed.

Lemma pool_serves_queue_witness :
  accepted sample_pool = [7; 8; 9]%nat /\ tasks_ sample_pool = [9]%nat
  /\ started sample_pool ++ tasks_ sample_pool = accepted sample_pool
  /\ (tasks_ sample_pool <> [] -> can_progress sample_pool).
Proof.
  split; [by vm_compute |]. split; [by vm_compute |].
  exact (pool_serves_queue 2 sample_pool sample_reachable ltac:(lia)).
Defined.

Lemma pool_shutdown_witness :
  stopped_ sample_pool = true /\ joined sample_pool = false /\ can_progress sample_pool.
Proof.
  split; [by vm_compute |]. split; [by vm_compute |].
  exact (proj1 (proj2 (pool_shutdown 2 sample_pool sample_reachable ltac:(lia) eq_refl)) eq_refl).
Defined.
