(* ===== verification/PeriodicTask.v ===== *)
(** * PeriodicTask: the timer callbacks and their re-entrancy flag

    [MessageRelayTask::runOnce] and [ReconcileTask::runOnce] are the same code: a
    compare-and-swap on [running_] in the event loop, a task submitted to the
    pool, and the flag reset by the statement that follows the round in that task.
    The steps of the event loop and of the pool's threads interleave. *)

From stdpp Require Import relations.
From S2P Require Import Prelude.

(** The flag, and the submitted tasks that wait in the pool or execute. *)
Record periodic := mkPeriodic {
  running_ : bool;
  queued : nat;
  executing : nat
}.

Definition periodic_init : periodic := mkPeriodic false 0 0.

(** [runOnce]: the timer callback; [accepted] is the answer of [ThreadPool::submit],
    which it ignores. *)
Definition runOnce (accepted : bool) (t : periodic) : periodic :=
  if running_ t then t
  else mkPeriodic true (if accepted then S (queued t) else queued t) (executing t).

(** The end of the submitted lambda: an exception of the round leaves it before
    [running_.store(false)]; the worker of the pool catches it. *)
Definition round_ends (returned : bool) (t : periodic) : periodic :=
  mkPeriodic (if returned then false else running_ t) (queued t) (pred (executing t)).

Inductive step : periodic -> periodic -> Prop :=
  | Tick t accepted : step t (runOnce accepted t)
  | RoundStarts t n : queued t = S n -> step t (mkPeriodic (running_ t) n (S (executing t)))
  | RoundEnds t returned : (0 < executing t)%nat -> step t (round_ends returned t).

Definition reachable : periodic -> Prop := rtc step periodic_init.

(** At most one round is under way, and then the flag is set. *)
Definition periodic_inv (t : periodic) : Prop :=
  (queued t + executing t <= 1)%nat /\ (running_ t = false -> (queued t + executing t = 0)%nat).

Lemma periodic_step_inv t t' : periodic_inv t -> step t t' -> periodic_inv t'.
Proof.
  unfold periodic_inv. intros [H1 H2] Hs. destruct Hs as [t accepted | t n Hq | t returned He].
  - unfold runOnce. destruct (running_ t) eqn:Hr; cbn; [by rewrite Hr |]. specialize (H2 eq_refl).
    split; [destruct accepted; lia | done].
  - cbn. split; [lia |]. intros Hr. specialize (H2 Hr). lia.
  - unfold round_ends. destruct returned; cbn; (split; [lia | intros Hr; try specialize (H2 Hr); lia]).
Qed.

Lemma periodic_rtc_inv t t' : periodic_inv t -> rtc step t t' -> periodic_inv t'.
Proof. intros Hi Hs. induction Hs; eauto using periodic_step_inv. Qed.

Lemma periodic_reachable_inv t : reachable t -> periodic_inv t.
Proof. apply periodic_rtc_inv. unfold periodic_inv. cbn. lia. Qed.

(** The flag is up and no round is under way: after a round that threw, and after a
    tick that the stopped pool refused. *)
Lemma thrown_stuck t t' : running_ t = true -> queued t = 0%nat -> executing t = 0%nat -> rtc step t t' -> t' = t.
Proof.
  intros Hr Hq He Hs. induction Hs as [t | t u v Hstep _ IH]; [done |].
  assert (u = t) as ->.
  { destruct Hstep as [t accepted | t n Hn | t ret Hx]; [| congruence | lia]. unfold runOnce. by rewrite Hr. }
  auto.
Qed.

(** Two rounds of a periodic task never overlap, whatever the interleaving of
    the timer and the pool, and when the flag is down none is pending. *)
Theorem rounds_exclusive t : reachable t ->
  (queued t + executing t <= 1)%nat /\ (running_ t = false -> queued t = 0%nat /\ executing t = 0%nat).
Proof. intros Hr. destruct (periodic_reachable_inv t Hr) as [H1 H2]. split; [done |]. intros H. specialize (H2 H). lia. Qed.

(** C34. A round that returns makes the next tick start another, if the pool accepts
    it; a round that throws is the last: the flag stays up, and no later tick submits
    anything.  So it does after a tick that the pool has refused. *)
Theorem round_end_decides t returned accepted : reachable t -> (0 < executing t)%nat ->
  let t' := round_ends returned t in
  if returned && accepted then runOnce accepted t' = mkPeriodic true 1 0
  else forall t'', rtc step (if returned then runOnce accepted t' else t') t'' ->
    queued t'' = 0%nat /\ executing t'' = 0%nat.
Proof.
  intros Hr He t'. destruct (periodic_reachable_inv t Hr) as [H1 H2].
  assert (Hq : queued t = 0%nat) by lia. assert (Hx : executing t = 1%nat) by lia.
  assert (Hrun : running_ t = true) by (destruct (running_ t); [done | specialize (H2 eq_refl); lia]).
  assert (Hend : forall u, running_ u = true -> queued u = 0%nat -> executing u = 0%nat ->
    forall t'', rtc step u t'' -> queued t'' = 0%nat /\ executing t'' = 0%nat).
  { intros u H3 H4 H5 t'' Hs. by rewrite (thrown_stuck u t'' H3 H4 H5 Hs). }
  destruct returned; [destruct accepted |]; cbn [andb].
  - unfold t', runOnce, round_ends. cbn. by rewrite Hq, Hx.
  - apply Hend; unfold t', runOnce, round_ends; cbn; [done | done | by rewrite Hx].
  - apply Hend; unfold t', round_ends; cbn; [done | done | by rewrite Hx].
Qed.

(** ** Witnesses *)

Definition busy : periodic := mkPeriodic true 0 1.

Lemma busy_reachable : reachable busy.
Proof.
  eapply rtc_l; [apply (Tick _ true) |]. eapply rtc_l; [by eapply (RoundStarts (runOnce true periodic_init) 0) |].
  apply rtc_refl.
Qed.

Lemma rounds_exclusive_witness : runOnce true busy = busy /\ (queued busy + executing busy <= 1)%nat.
Proof. split; [reflexivity | exact (proj1 (rounds_exclusive busy busy_reachable))]. Defined.

Lemma round_end_decides_witness :
  runOnce true (round_ends true busy) = mkPeriodic true 1 0
  /\ (forall t, rtc step (runOnce false (round_ends true busy)) t -> queued t = 0%nat /\ executing t = 0%nat)
  /\ forall t, rtc step (runOnce true (runOnce true (round_ends false busy))) t -> queued t = 0%nat /\ executing t = 0%nat.
Proof.
  split_and!.
  - exact (round_end_decides busy true true busy_reachable ltac:(cbn; lia)).
  - exact (round_end_decides busy true false busy_reachable ltac:(cbn; lia)).
  - exact (round_end_decides busy false true busy_reachable ltac:(cbn; lia)).
Defined.
