(* ===== verification/MessageRelay.v ===== *)
(** * MessageRelay: from the outbox table to the broker

    [src/tasks/MessageRelayTask.cc]: a round of [relay] scans the pending messages
    that are due, publishes each and records what happened.  The timer callback is
    in [PeriodicTask]. *)

From S2P Require Import Prelude JsonValue Result Models Database Transaction Daos Invariant Server MqClient.

(** ** The code *)

Definition kBatchLimit : nat := 200.
Definition kMaxRetries : Z := 8.
Definition kBaseBackoffSeconds : Z := 5.

Record MqConfig := mkMqConfig {
  host : string; port : Z; user : string; password : string; vhost : string
}.

Definition default_mq_config : MqConfig := mkMqConfig "127.0.0.1" 5672 "guest" "guest" "/".

Section MessageRelay.
Context {D : MySql} {J : JsonCpp} {E : Env} {B : Broker}.
Context (customConfig : jvalue).

(** [r.isMember(key) ? r[key].asString() : fallback]. *)
Definition string_member (r : jvalue) (key fallback : string) : option string :=
  has_key ← jisMember r key;
  if (has_key : bool) then v ← jget r key; jasString v else Some fallback.

Definition int_member (r : jvalue) (key : string) (fallback : Z) : option Z :=
  has_key ← jisMember r key;
  if (has_key : bool) then v ← jget r key; jasInt v else Some fallback.

(** [loadMqConfig]; [None] is an exception of jsoncpp. *)
Definition loadMqConfig : option MqConfig :=
  let c := default_mq_config in
  has_section ← jisMember customConfig "rabbitmq";
  if (has_section : bool) then
    r ← jget customConfig "rabbitmq";
    h ← string_member r "host" (host c);
    p ← int_member r "port" (port c);
    u ← string_member r "user" (user c);
    w ← string_member r "password" (password c);
    v ← string_member r "vhost" (vhost c);
    Some (mkMqConfig h p u w v)
  else Some c.

(** [kBaseBackoffSeconds * (1 << (next - 1))]. *)
Definition backoff (next : Z) : Z := kBaseBackoffSeconds * Z.shiftl 1 (next - 1).

(** The database update that follows a publish. *)
Definition record_result (msg : LocalMessage) (delivered : bool) : M unit :=
  if delivered then markAcked (m_messageId msg)
  else
    let next := m_retryCount msg + 1 in
    if kMaxRetries <=? next then markGiveUp (m_messageId msg)
    else msg_markFailed (m_messageId msg) next (backoff next).

(** One iteration: an exception ends it, not the batch. *)
Definition relay_one (w : St * mq_state) (msg : LocalMessage) : St * mq_state :=
  let '(st, mq) := w in
  let '(delivered, mq') := publish (m_exchange msg) (m_routingKey msg) (m_payload msg) mq in
  ((run_alone (record_result msg delivered) st).2, mq').

(** [MessageRelayTask::relay]; [client] is the member [mqClient_]. *)
Definition relay (st : St) (client : option mq_state) : outcome unit * St * option mq_state :=
  match (match client with
         | Some mq => Some mq
         | None => _ ← loadMqConfig; Some mq_init
         end) with
  | None => (Throw StdException, st, None)
  | Some mq =>
      match run_alone (scanPending kBatchLimit) st with
      | (Ret messages, st1) =>
          let '(st2, mq2) := fold_left relay_one messages (st1, mq) in (Ret tt, st2, Some mq2)
      | (Throw e, st1) => (Throw e, st1, Some mq)
      | (Hang, st1) => (Hang, st1, Some mq)
      | (Undefined, st1) => (Undefined, st1, Some mq)
      end
  end.

(** ** The specification of a round *)

(** The bytes sent for a row. *)
Definition wire (r : MessageRow) : mq_message :=
  (c_str (mr_exchange r), c_str (mr_routing_key r), c_str (mr_payload r)).

Definition retried (now : Z) (r : MessageRow) : MessageRow :=
  mkMessageRow (mr_message_id r) (mr_biz_type r) (mr_biz_id r) (mr_exchange r)
    (mr_routing_key r) (mr_payload r) (mr_status r) (mr_retry_count r + 1)
    (now + kBaseBackoffSeconds * 2 ^ mr_retry_count r).

(** What a round may do to a pending row, given what the broker has confirmed.  The
    next attempt is due [5 * 2^retries] seconds after the database's clock. *)
Inductive row_step (conf : list mq_message) (r : MessageRow) : MessageRow -> Prop :=
  | RowAcked : mr_status r = kMsgPending -> In (wire r) conf -> row_step conf r (with_status kMsgAcked r)
  | RowRetried now : is_now now -> broker_fault -> mr_status r = kMsgPending -> mr_retry_count r + 1 < kMaxRetries ->
      row_step conf r (retried now r)
  | RowGivenUp : broker_fault -> mr_status r = kMsgPending -> kMaxRetries <= mr_retry_count r + 1 ->
      row_step conf r (with_status kMsgFailed r).

Lemma row_step_mono conf conf' r r' : (forall m, In m conf -> In m conf') ->
  row_step conf r r' -> row_step conf' r r'.
Proof. intros Hm [? ? | now ? ? ? ? | ? ? ?]; [apply RowAcked; auto | by apply RowRetried | by apply RowGivenUp]. Qed.

(** The tables other than the outbox. *)
Definition same_but_outbox (d d' : Db) : Prop := d' = set_local_message (t_local_message d') d.

Lemma update_messages_row id p f d t1 r t2 :
  (forall x, p x = true -> weight (mr_message_id x) = weight id) ->
  NoDup (map (fun m => weight (mr_message_id m)) (t_local_message d)) ->
  t_local_message d = t1 ++ r :: t2 -> p r = true ->
  update_messages p f d = r' ← f r; Some (set_local_message (t1 ++ r' :: t2) d, tt).
Proof.
  intros Hp Hnd Ht Hr. unfold update_messages.
  destruct (sql_update_key (fun m => weight (mr_message_id m)) (weight id) p f (t_local_message d) Hp Hnd)
    as [[Hn _] | (s1 & x & s2 & Hs & Hx & _ & _ & ->)].
  - exfalso. rewrite Ht, existsb_app in Hn. cbn in Hn. by rewrite Hr, orb_true_r in Hn.
  - rewrite Ht in Hnd, Hs.
    destruct (split_unique _ t1 r t2 s1 x s2 Hnd Hs) as (<- & <- & <-); [by rewrite (Hp _ Hr), (Hp _ Hx) |].
    by destruct (f r).
Qed.

(** A statement that updates the row [r]: only a fault leaves it as it is. *)
Lemma wp_update_message L st p f t1 r t2 conf :
  NoDup (map (fun m => weight (mr_message_id m)) (t_local_message (committed st))) ->
  t_local_message (committed st) = t1 ++ r :: t2 ->
  (forall x, p x = true -> weight (mr_message_id x) = weight (mr_message_id r)) -> p r = true ->
  (forall now, is_now now -> exists r', f now r = Some r' /\ row_step conf r r') ->
  wp (exec_client L (fun now => update_messages p (f now)))
    (fun _ st' => (committed st' = committed st /\ fault)
       \/ exists r', row_step conf r r'
            /\ committed st' = set_local_message (t1 ++ r' :: t2) (committed st)) st.
Proof.
  intros Hnd Ht Hp Hr Hf. apply wp_exec_client.
  - intros st1 Hs _ [Hfault | (now & Hnow & Hn)]; [by left |].
    destruct (Hf now Hnow) as (r' & Hr' & _).
    rewrite (update_messages_row (mr_message_id r) _ _ _ t1 r t2) in Hn by done. by rewrite Hr' in Hn.
  - intros now st1 d' u Hu Hnow -> _ _. destruct (Hf now Hnow) as (r' & Hr' & Hstep).
    rewrite (update_messages_row (mr_message_id r) _ _ _ t1 r t2), Hr' in Hu by done.
    injection Hu as <- _. right. by exists r'.
  - intros now st1 d' u Hu Hnow -> _ _. destruct (Hf now Hnow) as (r' & Hr' & Hstep).
    rewrite (update_messages_row (mr_message_id r) _ _ _ t1 r t2), Hr' in Hu by done.
    injection Hu as <- _. right. by exists r'.
Qed.

Lemma wp_record_result st t1 r t2 (ok : bool) conf :
  NoDup (map (fun m => weight (mr_message_id m)) (t_local_message (committed st))) ->
  t_local_message (committed st) = t1 ++ r :: t2 -> mr_status r = kMsgPending -> message_ok r ->
  (if ok then In (wire r) conf else broker_fault) ->
  wp (record_result (message_of_row r) ok)
    (fun _ st' => (committed st' = committed st /\ fault)
       \/ exists r', row_step conf r r'
            /\ committed st' = set_local_message (t1 ++ r' :: t2) (committed st)) st.
Proof.
  intros Hnd Ht Hpend Hcount Hconf. unfold message_ok in Hcount. unfold record_result.
  cbn [m_messageId m_retryCount message_of_row].
  destruct ok; [| destruct (Z.leb_spec kMaxRetries (mr_retry_count r + 1)) as [Hmax | Hmax]];
    apply wp_update_message; try done.
  - intros x Hx. apply andb_true_iff in Hx as [Hx _]. by apply sql_eq_iff.
  - by rewrite sql_eq_refl, bool_decide_true.
  - intros now _. eexists. split; [done |]. apply RowAcked; auto.
  - intros x Hx. by apply sql_eq_iff.
  - by rewrite sql_eq_refl.
  - intros now _. eexists. split; [done |]. by apply RowGivenUp.
  - intros x Hx. by apply sql_eq_iff.
  - by rewrite sql_eq_refl.
  - intros now Hnow. exists (retried now r). unfold kMaxRetries in Hmax. split; [| by apply RowRetried].
    unfold with_retry, retried, backoff. rewrite Z.shiftl_1_l.
    replace (mr_retry_count r + 1 - 1) with (mr_retry_count r) by lia.
    replace (uint_ok (mr_retry_count r + 1)) with true by (unfold uint_ok; lia). done.
Qed.

(** One iteration on the message of the row [r]. *)
Lemma relay_one_step st mq t1 r t2 st' mq' : mq_inv mq ->
  NoDup (map (fun m => weight (mr_message_id m)) (t_local_message (committed st))) ->
  t_local_message (committed st) = t1 ++ r :: t2 -> mr_status r = kMsgPending -> message_ok r ->
  relay_one (st, mq) (message_of_row r) = (st', mq') ->
  mq_inv mq' /\ (forall m, In m (confirmed mq) -> In m (confirmed mq'))
  /\ ((committed st' = committed st /\ fault)
     \/ exists r', row_step (confirmed mq') r r'
          /\ committed st' = set_local_message (t1 ++ r' :: t2) (committed st)).
Proof.
  intros Hinv Hnd Ht Hpend Hcount. unfold relay_one. cbn [m_exchange m_routingKey m_payload message_of_row].
  pose proof (publish_step (mr_exchange r) (mr_routing_key r) (mr_payload r) mq Hinv) as Hp.
  destruct (publish _ _ _ mq) as [ok mq1]. destruct Hp as (Hi & Hconf & Hfail). intros [= <- <-].
  split; [done |]. split; [intros m Hm; rewrite Hconf; apply in_app_iff; by left |].
  apply (wp_record_result st t1 r t2 ok (confirmed mq1)); try done.
  destruct ok; [| by apply Hfail]. rewrite Hconf. apply in_app_iff. right. by left.
Qed.

(** ** A round *)

(** The relation between an outbox row before and after a round over the rows
    [rs]: a scanned row makes a step, unless a fault intervenes; no other moves. *)
Definition relayed (conf : list mq_message) (rs : list MessageRow) (r r' : MessageRow) : Prop :=
  (r' = r /\ (In r rs -> fault)) \/ (In r rs /\ row_step conf r r').

Definition mkey (m : MessageRow) : string := weight (mr_message_id m).

Lemma row_step_key conf r r' : row_step conf r r' -> mkey r' = mkey r.
Proof. by intros [? ? | now ? ? ? ? | ? ? ?]. Qed.

Lemma row_step_ok conf r r' : message_ok r -> row_step conf r r' -> message_ok r'.
Proof. unfold message_ok, kMaxRetries. intros H [? ? | now ? ? ? ? | ? ? ?]; cbn; unfold kMaxRetries in *; lia. Qed.

Lemma relayed_cons conf r rs x x' : relayed conf rs x x' -> x <> r \/ fault -> relayed conf (r :: rs) x x'.
Proof.
  intros [[-> Hf] | [Hin Hs]] Hne; [left | right; split; [by right | done]].
  split; [done |]. intros [-> | H]; [by destruct Hne | auto].
Qed.

Lemma In_key (r : MessageRow) rs : ~ mkey r ∈ map mkey rs -> forall x, In x rs -> mkey x <> mkey r.
Proof. intros Hn x Hx Hk. apply Hn. rewrite <- Hk. apply list_elem_of_In, in_map. done. Qed.

Lemma relay_fold rs : forall st mq st' mq', mq_inv mq ->
  let t := t_local_message (committed st) in
  NoDup (map mkey t) -> NoDup (map mkey rs) -> (forall r, In r rs -> In r t /\ mr_status r = kMsgPending) ->
  Forall message_ok t ->
  fold_left relay_one (map message_of_row rs) (st, mq) = (st', mq') ->
  mq_inv mq' /\ (forall m, In m (confirmed mq) -> In m (confirmed mq'))
  /\ same_but_outbox (committed st) (committed st')
  /\ Forall2 (relayed (confirmed mq') rs) t (t_local_message (committed st')).
Proof.
  induction rs as [|r rs IH]; intros st mq st' mq' Hinv t Hnd Hrs Hin Hok.
  { intros [= <- <-]. split_and!; try done; [unfold same_but_outbox; by destruct (committed st) |].
    apply Forall_Forall2_diag, Forall_forall. intros x _. by left. }
  cbn [map fold_left] in *. apply NoDup_cons in Hrs as [Hnew Hrs].
  assert (Hr := Hin r (or_introl eq_refl)). destruct Hr as [Hr Hpend].
  apply in_split in Hr as (t1 & t2 & Ht).
  destruct (relay_one (st, mq) (message_of_row r)) as [st1 mq1] eqn:Hone.
  apply (relay_one_step _ _ t1 r t2) in Hone; try done;
    [| rewrite List.Forall_forall in Hok; apply Hok; fold t; rewrite Ht, in_app_iff; right; by left].
  destruct Hone as (Hinv1 & Hmono1 & [[Hsame Hfault] | (r' & Hstep & Hset)]); intros Hfold.
  - apply IH in Hfold; rewrite ?Hsame; try done; [| intros x Hx; apply Hin; by right].
    rewrite Hsame in Hfold. destruct Hfold as (Hi & Hm & Ho & H2). split_and!; [done | auto | done |].
    eapply Forall2_impl; [exact H2 |]. intros x x' Hx. apply relayed_cons; auto.
  - assert (Ht1 : t_local_message (committed st1) = t1 ++ r' :: t2) by by rewrite Hset.
    pose proof (row_step_key _ _ _ Hstep) as Hk.
    apply IH in Hfold; rewrite ?Ht1; try done.
    + destruct Hfold as (Hi & Hm & Ho & H2).
      split_and!; [done | auto | unfold same_but_outbox in *; rewrite Ho, Hset; done |].
      rewrite Ht1 in H2. fold t. rewrite Ht. rewrite Ht in Hnd.
      apply Forall2_app_inv_l in H2 as (u1 & u & H1 & H2 & ->).
      apply Forall2_cons_inv_l in H2 as (r'' & u2 & Hr'' & H2 & ->).
      rewrite List.map_app in Hnd. cbn in Hnd. apply NoDup_app in Hnd as (_ & Hd1 & Hd2).
      apply NoDup_cons in Hd2 as [Hd2 _].
      assert (Hne1 : forall x, In x t1 -> x <> r).
      { intros x Hx ->. apply (Hd1 (mkey r)); [apply list_elem_of_In, in_map; done | by left]. }
      assert (Hne2 : forall x, In x t2 -> x <> r).
      { intros x Hx ->. apply Hd2. apply list_elem_of_In, in_map; done. }
      apply Forall2_app; [| constructor].
      * eapply Forall2_impl_In; [exact H1 |]. intros x x' Hx Hr. apply relayed_cons; auto.
      * destruct Hr'' as [[-> _] | [Hbad _]]; [right | by destruct (In_key r rs Hnew r' Hbad)].
        split; [by left | by eapply row_step_mono].
      * eapply Forall2_impl_In; [exact H2 |]. intros x x' Hx Hr. apply relayed_cons; auto.
    + rewrite (split_key mkey _ r) by done. by rewrite <- Ht.
    + intros x Hx. destruct (Hin x (or_intror Hx)) as [Hxt Hxp]. split; [| done]. fold t in Hxt.
      rewrite Ht in Hxt. apply in_app_iff. apply in_app_iff in Hxt as [? | [<- | ?]]; [by left | | by right; right].
      by destruct (In_key r rs Hnew r Hx).
    + eapply split_Forall; [| rewrite <- Ht; exact Hok]. eapply row_step_ok; [| exact Hstep].
      rewrite List.Forall_forall in Hok. apply Hok. fold t. rewrite Ht, in_app_iff. right; by left.
Qed.
(** The rows a round takes: the first 200 that are pending and due. *)
Definition scanned (now : Z) (d : Db) : list MessageRow :=
  take kBatchLimit (sql_select (message_due now) (t_local_message d)).

Lemma scanned_pending now d r : In r (scanned now d) -> In r (t_local_message d) /\ mr_status r = kMsgPending.
Proof.
  unfold scanned, sql_select. intros Hr. apply list_elem_of_In in Hr.
  eapply subseteq_take, list_elem_of_In, filter_In in Hr as [Hin Hdue]. split; [done |].
  apply andb_true_iff in Hdue as [Hp _]. by apply bool_decide_eq_true in Hp.
Qed.

Lemma scanned_NoDup now d : NoDup (map mkey (t_local_message d)) -> NoDup (map mkey (scanned now d)).
Proof.
  intros Hnd. eapply sublist_NoDup; [exact Hnd |]. apply (fmap_sublist mkey). unfold scanned.
  etrans; [apply sublist_take | apply sql_select_sublist].
Qed.

Definition client_inv (client : option mq_state) : Prop :=
  match client with Some mq => mq_inv mq | None => True end.

Definition client_confirmed (client : option mq_state) : list mq_message :=
  match client with Some mq => confirmed mq | None => [] end.

Definition relay_post (st : St) (client : option mq_state) (r : outcome unit) (st' : St)
    (client' : option mq_state) : Prop :=
  match r with
  | Ret _ => exists now, is_now now
      /\ same_but_outbox (committed st) (committed st')
      /\ Forall2 (relayed (client_confirmed client') (scanned now (committed st)))
           (t_local_message (committed st)) (t_local_message (committed st'))
  | Throw StdException => client = None /\ loadMqConfig = None /\ st' = st
  | Throw DbException => committed st' = committed st /\ fault
  | _ => False
  end
  /\ client_inv client'
  /\ (forall m, In m (client_confirmed client) -> In m (client_confirmed client')).

Lemma relay_partial st client r st' client' : db_wf (committed st) -> client_inv client ->
  relay st client = (r, st', client') -> relay_post st client r st' client'.
Proof.
  intros [K R] Hc. unfold relay, relay_post.
  destruct (match client with Some mq => Some mq | None => _ ← loadMqConfig; Some mq_init end) as [mq|] eqn:Hmq.
  2: { intros [= <- <- <-]. destruct client; [done |]. by destruct loadMqConfig. }
  assert (Hi : mq_inv mq /\ forall m, In m (client_confirmed client) -> In m (confirmed mq)).
  { destruct client; [by injection Hmq as -> |]. by destruct loadMqConfig; [injection Hmq as <- |]. }
  destruct Hi as [Hi Hmono].
  assert (Hscan : wp (scanPending kBatchLimit) (fun r st1 => committed st1 = committed st /\
     match r with Ret ms => exists now, is_now now /\ ms = map message_of_row (scanned now (committed st))
                | Throw e => e = DbException /\ fault | _ => False end) st).
  { apply wp_exec_client_read.
    - by intros now d d' a [= <- _].
    - intros st1 Hs _ [Hf | (now & _ & Hn)]; [done | discriminate].
    - intros now st1 a [= <-] Hn _ Hs _. split; [done |]. by exists now. }
  unfold wp in Hscan. destruct (run_alone (scanPending kBatchLimit) st) as [[ms | e | |] st1]; cbn [fst snd] in Hscan.
  - destruct Hscan as (Hs & now & Hnow & ->).
    destruct (fold_left relay_one _ (st1, mq)) as [st2 mq2] eqn:Hfold. intros [= <- <- <-].
    apply relay_fold in Hfold; rewrite ?Hs in *.
    + destruct Hfold as (Hi2 & Hm2 & Ho & H2). cbn. split_and!; [by exists now | done | auto].
    + done.
    + apply (wf_message _ K).
    + apply scanned_NoDup, (wf_message _ K).
    + apply scanned_pending.
    + apply (wf_messages _ R).
  - destruct Hscan as (Hs & -> & Hf). by intros [= <- <- <-].
  - by destruct Hscan.
  - by destruct Hscan.
Qed.

(** C23. A round of the relay, whatever the database and the broker do: it marks a
    message delivered only if the broker has confirmed those very bytes; a scanned
    message that is not confirmed is counted and due again [5 * 2^retries] seconds
    after the reading of the database's clock by that update, or given up at the
    eighth failure; one whose row could not be written stays as
    it was and will be sent again (at least once); every other row and table is
    untouched.  An exception of the scan changes nothing. *)
Theorem relay_spec st client r st' client' : db_wf (committed st) -> client_inv client ->
  relay st client = (r, st', client') -> relay_post st client r st' client'.
Proof. apply relay_partial. Qed.

(** Delivery: when the database and the broker do not fail, the round returns,
    and every scanned message has been confirmed and is marked so; the others keep
    their rows. *)
Theorem relay_delivers st client r st' client' : db_wf (committed st) -> client_inv client ->
  no_fault -> ~ broker_fault -> loadMqConfig <> None ->
  relay st client = (r, st', client') ->
  exists now, is_now now /\ r = Ret tt
  /\ Forall2 (fun row row' => (~ In row (scanned now (committed st)) /\ row' = row)
               \/ (In row (scanned now (committed st)) /\ row' = with_status kMsgAcked row
                   /\ In (wire row) (client_confirmed client')))
       (t_local_message (committed st)) (t_local_message (committed st')).
Proof.
  intros Hwf Hc Hnf Hbf Hcfg Hr. destruct (relay_partial _ _ _ _ _ Hwf Hc Hr) as [Hpost _].
  destruct r as [[] | [| |] | |]; try done.
  - destruct Hpost as (now & Hnow & _ & H2). exists now. split_and!; [done | done |].
    eapply Forall2_impl; [exact H2 |]. intros x x' [[-> Hf] | [Hin Hs]].
    + left. split; [| done]. intros Hin. exact (no_fault_fault Hnf (Hf Hin)).
    + right. destruct Hs as [? ? | now' ? ? ? ? | ? ? ?]; done.
  - destruct Hpost as [_ Hf]. by destruct (no_fault_fault Hnf Hf).
  - by destruct Hpost as (_ & ? & _).
Qed.

(** ** What a round preserves *)

Lemma relayed_keys conf rs t t' : Forall2 (relayed conf rs) t t' -> map mkey t' = map mkey t.
Proof.
  induction 1 as [|x x' t t' Hx H IH]; [done |]. cbn. rewrite IH. f_equal.
  destruct Hx as [[-> _] | [_ Hs]]; [done | by eapply row_step_key].
Qed.

Lemma relayed_ok conf rs t t' : Forall2 (relayed conf rs) t t' -> Forall message_ok t -> Forall message_ok t'.
Proof.
  induction 1 as [|x x' t t' Hx H IH]; [done |]. rewrite !Forall_cons. intros [Hok Ht]. split; [| auto].
  destruct Hx as [[-> _] | [_ Hs]]; [done | by eapply row_step_ok].
Qed.

Lemma outbox_wf d d' : same_but_outbox d d' -> map mkey (t_local_message d') = map mkey (t_local_message d) ->
  Forall message_ok (t_local_message d') -> db_wf d -> db_wf d'.
Proof.
  unfold same_but_outbox. intros -> Hk Hok [K R]. unfold mkey in Hk. destruct K, R.
  split; constructor; cbn in *; try done. by rewrite Hk.
Qed.
End MessageRelay.

(** ** Witnesses *)

(** A broker that accepts everything, and one that refuses to be reached. *)
Definition willing : Broker := {| amqp_ok _ := true; amqp_wait _ := FrameMethod true |}.
Definition unreachable : Broker := {| amqp_ok n := negb (n mod 3 =? 1)%nat; amqp_wait _ := FrameNone |}.

Definition outbox_row (id : string) (status : MessageStatus) (retries next : Z) : MessageRow :=
  mkMessageRow id "ORDER_PAID" id "trade.exchange" "order.paid" "{}" status retries next.

(** One due message, one on its last attempt, one for later, one delivered. *)
Definition outbox_shop : Db := set_local_message
  [outbox_row "m1" kMsgPending 0 1735718000; outbox_row "m2" kMsgPending 7 1735718000;
   outbox_row "m3" kMsgPending 2 1835718000; outbox_row "m4" kMsgAcked 0 1735718000] Server.shop.

Lemma outbox_shop_wf : db_wf (D := Server.lib) outbox_shop.
Proof.
  destruct Server.shop_wf as [K R]. destruct K, R. split; constructor; try done.
  - Server.solve_nodup.
  - unfold message_ok. cbn. repeat constructor; cbn; lia.
Qed.

Definition run_relay (B : Broker) : outcome unit * St * option mq_state :=
  relay (D := Server.lib) (J := Tree.lib) (E := Server.calm) Tree.JNull (Server.fresh_state outbox_shop) None.

Definition outbox_of (x : outcome unit * St * option mq_state) : list (MessageStatus * Z * Z) :=
  map (fun r => (mr_status r, mr_retry_count r, mr_next_retry_time r)) (t_local_message (committed x.1.2)).

Lemma relay_spec_witness :
  outbox_of (run_relay unreachable)
    = [(kMsgPending, 1, Server.calm.(db_now) 1 + 5); (kMsgFailed, 7, 1735718000); (kMsgPending, 2, 1835718000);
       (kMsgAcked, 0, 1735718000)]
  /\ relay_post (J := Tree.lib) (E := Server.calm) (B := unreachable) Tree.JNull
       (Server.fresh_state outbox_shop) None
       (run_relay unreachable).1.1 (run_relay unreachable).1.2 (run_relay unreachable).2.
Proof.
  split; [by vm_compute |]. unfold run_relay.
  exact (relay_spec (D := Server.lib) (J := Tree.lib) (E := Server.calm) Tree.JNull (Server.fresh_state outbox_shop) None _ _ _ outbox_shop_wf I
           (eq_trans (surjective_pairing _) (f_equal (fun p => (p, _)) (surjective_pairing _)))).
Defined.

Lemma willing_no_fault : ~ broker_fault (B := willing).
Proof. intros [[n H] | [n H]]; [discriminate | by apply H]. Qed.

Lemma relay_delivers_witness :
  outbox_of (run_relay willing) = [(kMsgAcked, 0, 1735718000); (kMsgAcked, 7, 1735718000);
                               (kMsgPending, 2, 1835718000); (kMsgAcked, 0, 1735718000)]
  /\ exists now, is_now (E := Server.calm) now /\ (run_relay willing).1.1 = Ret tt
     /\ Forall2 (fun row row' => (~ In row (scanned now outbox_shop) /\ row' = row)
               \/ (In row (scanned now outbox_shop) /\ row' = with_status kMsgAcked row
                   /\ In (wire row) (client_confirmed (run_relay willing).2)))
       (t_local_message outbox_shop) (t_local_message (committed (run_relay willing).1.2)).
Proof.
  split; [by vm_compute |]. unfold run_relay.
  exact (relay_delivers (D := Server.lib) (J := Tree.lib) Tree.JNull (Server.fresh_state outbox_shop) None _ _ _
           outbox_shop_wf I Server.calm_no_fault willing_no_fault ltac:(discriminate)
           (eq_trans (surjective_pairing _) (f_equal (fun p => (p, _)) (surjective_pairing _)))).
Defined.
