(* ===== verification/NotifyConsumer.v ===== *)
(** * NotifyConsumer: from the queue to the merchant

    [src/consumer/NotifyConsumer.cc].  [process] records the message (which
    deduplicates it), notifies the merchant over HTTP and records the result;
    [handleMessage] turns its answer into an acknowledgement.  The merchant is an
    oracle: what the n-th request is answered.  The connection of the consumer,
    with the topology it declares, closes the file. *)

From S2P Require Import Prelude MoneyUtil IdGenerator JsonValue Result Models Database Transaction Daos Invariant.
From S2P Require Import Server PaymentService MqClient MessageRelay.

(** ** The code *)

Definition kExchange : string := "trade.exchange".
Definition kQueue : string := "trade.notify.queue".
Definition kRoutingKey : string := "order.paid".
Definition kDeadExchange : string := "trade.dead.exchange".
Definition kDeadQueue : string := "trade.dead.queue".
Definition kDeadRoutingKey : string := "order.dead".
Definition kNotifyPath : string := "/api/v1/mock/notify".
Definition kMaxInProcessRetries : Z := 2.

(** A POST: its target, its X-Request-Id header, its body. *)
Record HttpReq := mkHttpReq { rq_base : string; rq_path : string; rq_request_id : string; rq_body : string }.

(** The [ReqResult], and the response if there is one: its status and body. *)
Record HttpReply := mkHttpReply { rp_ok : bool; rp_response : option (Z * string) }.

Class Merchant := { http_reply : nat -> HttpReq -> HttpReply }.

(** What the consumer thread changes: the server's state and the requests sent. *)
Definition World : Type := St * list HttpReq.
Definition C (A : Type) : Type := World -> outcome A * World.

#[export] Instance C_ret : MRet C := fun A a w => (Ret a, w).
#[export] Instance C_bind : MBind C := fun A B k m w =>
  match m w with
  | (Ret a, w') => k a w'
  | (Throw e, w') => (Throw e, w')
  | (Hang, w') => (Hang, w')
  | (Undefined, w') => (Undefined, w')
  end.

Definition lift {E : Env} {A} (m : M A) : C A := fun w => let '(r, st') := run_alone m w.1 in (r, (st', w.2)).

Section NotifyConsumer.
Context {D : MySql} {J : JsonCpp} {E : Env} {Mc : Merchant}.

(** The member [notifyBaseUrl_]. *)
Context (notifyBaseUrl : string).

(** [client->sendRequest], and the wait for the promise. *)
Definition sendRequest (req : HttpReq) : C HttpReply := fun w =>
  (Ret (http_reply (length w.2) req), (w.1, w.2 ++ [req])).

Definition merchant_request (notifyNo orderNo amount : string) : HttpReq :=
  mkHttpReq notifyBaseUrl kNotifyPath notifyNo
    (jtoStyledString (jobject [("orderNo", jstring orderNo); ("amount", jstring amount)])).

(** [result == ReqResult::Ok && resp && resp->getStatusCode() == k200OK]. *)
Definition reply_ok (r : HttpReply) : bool :=
  rp_ok r && match rp_response r with Some (status, _) => status =? 200 | None => false end.

(** [std::string(resp->body())], with the fallback of the failure branch. *)
Definition reply_body (r : HttpReply) : string :=
  match rp_response r with Some (_, b) => b | None => "request failed" end.

(** The loop, from [attempt] on. *)
Fixpoint notify_loop (fuel : nat) (attempt : Z) (notifyNo orderNo amount : string) : C bool :=
  match fuel with
  | O => fun w => (Hang, w)
  | S fuel' =>
      r ← sendRequest (merchant_request notifyNo orderNo amount);
      if reply_ok r then lift (notify_markSuccess notifyNo (reply_body r));; mret true
      else
        let attempt' := attempt + 1 in
        if kMaxInProcessRetries <? attempt' then
          lift (notify_markFailed notifyNo attempt' (reply_body r));; mret false
        else notify_loop fuel' attempt' notifyNo orderNo amount
  end.

(** The body of a message.  [None]: jsoncpp throws; [Some None]: it is malformed or
    lacks a field. *)
Definition parse_message (body : string) : option (option (string * string * string)) :=
  match jparse body with
  | None => Some None
  | Some json =>
      has_id ← jisMember json "messageId";
      has_no ← (if (has_id : bool) then jisMember json "orderNo" else Some false);
      if (has_no : bool) then
        i ← jget json "messageId"; messageId ← jasString i;
        o ← jget json "orderNo"; orderNo ← jasString o;
        has_amount ← jisMember json "amount";
        amount ← (if (has_amount : bool) then a ← jget json "amount"; jasString a else Some "");
        Some (Some (messageId, orderNo, amount))
      else Some None
  end.

(** [NotifyConsumer::process]. *)
Definition process (body : string) : C bool :=
  parsed ← lift (or_throw (parse_message body));
  match parsed with
  | None => mret false
  | Some (messageId, orderNo, amount) =>
      outcome ← lift (notify_insertWithDedup messageId orderNo (notifyBaseUrl +:+ kNotifyPath));
      match outcome with
      | kNotifyDuplicate => mret true
      | kNotifyInserted notifyNo => notify_loop (Z.to_nat (kMaxInProcessRetries + 1)) 0 notifyNo orderNo amount
      end
  end.

(** What [handleMessage] tells the broker; an exception leaves the detached thread,
    which ends the process. *)
Inductive verdict := BasicAck | BasicNack | Terminated (e : exn) | NoVerdict.

(** [NotifyConsumer::handleMessage]. *)
Definition handleMessage (body : string) (w : World) : verdict * World :=
  match process body w with
  | (Ret true, w') => (BasicAck, w')
  | (Ret false, w') => (BasicNack, w')
  | (Throw e, w') => (Terminated e, w')
  | (_, w') => (NoVerdict, w')
  end.

(** [readConfigString] and [start]: the base URL. *)
Definition notify_base_url (customConfig : jvalue) : option string :=
  configValue customConfig "rabbitmq" "notify_base_url" "http://localhost:8080".

(** ** The specification *)

(** [k] requests: all but the last were refused, the last was answered as [ok]
    says; only three refusals give up. *)
Definition attempted (log : list HttpReq) (req : HttpReq) (k : nat) (success : bool) : Prop :=
  (1 <= k <= 3)%nat
  /\ (forall i, (S i < k)%nat -> reply_ok (http_reply (length log + i) req) = false)
  /\ reply_ok (http_reply (length log + (k - 1)) req) = success
  /\ (success = false -> k = 3%nat).

Definition last_body (log : list HttpReq) (req : HttpReq) (k : nat) : string :=
  reply_body (http_reply (length log + (k - 1)) req).

(** The row of a message: as inserted, and as the result leaves it. *)
Definition notify_row_new (notifyNo orderNo messageId : string) : NotifyRow :=
  mkNotifyRow notifyNo orderNo (notifyBaseUrl +:+ kNotifyPath) None 0 0 messageId.

Definition notify_row_end (success : bool) (body : string) (r : NotifyRow) : NotifyRow :=
  mkNotifyRow (nr_notify_no r) (nr_order_no r) (nr_target_url r) (Some body)
    (if success then 1 else 2) (if success then 0 else 3) (nr_message_id r).

Definition add_notify (r : NotifyRow) (d : Db) : Db := set_notify_record (t_notify_record d ++ [r]) d.

(** A message of that id is in the table. *)
Definition recorded (messageId : string) (d : Db) : bool :=
  existsb (fun r => sql_eq (nr_message_id r) messageId) (t_notify_record d).

Definition no_conflict (notifyNo orderNo messageId : string) (d : Db) : Prop :=
  existsb (notify_conflict (notify_row_new notifyNo orderNo messageId)) (t_notify_record d) = false.

(** What the identifier generator answers next. *)
Definition next_number (st : St) : id_result := (nextId system_clock spin_fuel (readings st) (ids st)).1.1.

(** The effect on the database [d] and on the requests sent, when the generator answers
    [gen]: it is the one source of notification numbers. *)
Inductive process_effect (body : string) (gen : id_result) (d : Db) (log : list HttpReq)
    : outcome bool -> Db -> list HttpReq -> Prop :=
  | Malformed : parse_message body = Some None -> process_effect body gen d log (Ret false) d log
  | JsonThrows : parse_message body = None -> process_effect body gen d log (Throw StdException) d log
  | NoNumber r m : parse_message body = Some (Some m) ->
      gen = IdClockBackwards /\ r = Throw StdException \/ gen = IdSpinning /\ r = Hang ->
      process_effect body gen d log r d log
  | NotRecorded messageId orderNo amount notifyNo :
      parse_message body = Some (Some (messageId, orderNo, amount)) -> gen = IdOk notifyNo ->
      fault \/ notify_row notifyNo orderNo (notifyBaseUrl +:+ kNotifyPath) messageId = None ->
      process_effect body gen d log (Throw DbException) d log
  | Duplicate messageId orderNo amount notifyNo :
      parse_message body = Some (Some (messageId, orderNo, amount)) -> gen = IdOk notifyNo ->
      existsb (notify_conflict (notify_row_new notifyNo orderNo messageId)) (t_notify_record d) = true ->
      process_effect body gen d log (Ret true) d log
  | RecordedInDoubt messageId orderNo amount notifyNo :
      parse_message body = Some (Some (messageId, orderNo, amount)) -> gen = IdOk notifyNo ->
      no_conflict notifyNo orderNo messageId d -> fault ->
      process_effect body gen d log (Throw DbException) (add_notify (notify_row_new notifyNo orderNo messageId) d) log
  | Notified messageId orderNo amount notifyNo k success :
      parse_message body = Some (Some (messageId, orderNo, amount)) -> gen = IdOk notifyNo ->
      no_conflict notifyNo orderNo messageId d ->
      let req := merchant_request notifyNo orderNo amount in
      attempted log req k success ->
      process_effect body gen d log (Ret success)
        (add_notify (notify_row_end success (last_body log req k) (notify_row_new notifyNo orderNo messageId)) d)
        (log ++ replicate k req)
  | ResultLost messageId orderNo amount notifyNo k success row :
      parse_message body = Some (Some (messageId, orderNo, amount)) -> gen = IdOk notifyNo ->
      no_conflict notifyNo orderNo messageId d ->
      let req := merchant_request notifyNo orderNo amount in
      attempted log req k success ->
      row = notify_row_new notifyNo orderNo messageId
      \/ row = notify_row_end success (last_body log req k) (notify_row_new notifyNo orderNo messageId) ->
      fault \/ text_ok (last_body log req k) = false ->
      process_effect body gen d log (Throw DbException) (add_notify row d) (log ++ replicate k req).

(** The last statement of [process]. *)
Definition record_reply (notifyNo body : string) (success : bool) : M unit :=
  if success then notify_markSuccess notifyNo body else notify_markFailed notifyNo 3 body.

Lemma notify_loop_eq notifyNo orderNo amount st log :
  let req := merchant_request notifyNo orderNo amount in
  exists k success, attempted log req k success
  /\ notify_loop 3 0 notifyNo orderNo amount (st, log)
     = (lift (record_reply notifyNo (last_body log req k) success);; mret success)
         (st, log ++ replicate k req).
Proof.
  intros req. cbn [notify_loop]. unfold mbind at 1, C_bind at 1, sendRequest at 1. cbn [fst snd]. fold req.
  destruct (reply_ok (http_reply (length log) req)) eqn:H1.
  { exists 1%nat, true. unfold attempted, last_body. rewrite Nat.add_0_r. split_and!; try done; try lia. }
  change (kMaxInProcessRetries <? 0 + 1) with false. cbv iota.
  unfold mbind at 1, C_bind at 1, sendRequest at 1. cbn [fst snd]. rewrite length_app, <- app_assoc. cbn [length app].
  fold req. destruct (reply_ok (http_reply (length log + 1) req)) eqn:H2.
  { exists 2%nat, true. unfold attempted, last_body. split_and!; try done; try lia.
    intros i Hi. replace i with 0%nat by lia. by rewrite Nat.add_0_r. }
  change (kMaxInProcessRetries <? 0 + 1 + 1) with false. cbv iota.
  unfold mbind at 1, C_bind at 1, sendRequest at 1. cbn [fst snd]. rewrite length_app, <- app_assoc. cbn [length app].
  fold req. destruct (reply_ok (http_reply (length log + 2) req)) eqn:H3.
  - exists 3%nat, true. unfold attempted, last_body. split_and!; try done; try lia.
    intros [|i] Hi; [by rewrite Nat.add_0_r |]. by replace (S i) with 1%nat by lia.
  - exists 3%nat, false. unfold attempted, last_body. split_and!; try done; try lia.
    intros [|i] Hi; [by rewrite Nat.add_0_r |]. by replace (S i) with 1%nat by lia.
Qed.

Lemma update_notify_last notifyNo f row d : nr_notify_no row = notifyNo ->
  existsb (notify_conflict row) (t_notify_record d) = false ->
  update_notify notifyNo f (add_notify row d) = r' ← f row; Some (add_notify r' d, tt).
Proof.
  intros <- Hc. unfold update_notify, sql_update, add_notify. cbn [t_notify_record set_notify_record].
  assert (Hn : existsb (fun r => sql_eq (nr_notify_no r) (nr_notify_no row)) (t_notify_record d) = false).
  { apply existsb_false. apply existsb_false in Hc. eapply Forall_impl; [exact Hc |]. intros x Hx.
    unfold notify_conflict in Hx. by apply orb_false_iff in Hx as [? _]. }
  rewrite sql_set_split by (done || apply sql_eq_refl). by destruct (f row).
Qed.

Lemma wp_record_reply notifyNo orderNo messageId d body (success : bool) st :
  let row := notify_row_new notifyNo orderNo messageId in
  existsb (notify_conflict row) (t_notify_record d) = false -> committed st = add_notify row d ->
  wp (record_reply notifyNo body success) (fun r st' =>
    (r = Ret tt /\ committed st' = add_notify (notify_row_end success body row) d)
    \/ (r = Throw DbException
        /\ (committed st' = add_notify row d \/ committed st' = add_notify (notify_row_end success body row) d)
        /\ (fault \/ text_ok body = false))) st.
Proof.
  intros row Hc Hst.
  assert (H : forall f, (forall r', f row = Some r' -> r' = notify_row_end success body row) ->
    (f row = None -> text_ok body = false) ->
    wp (exec_client [KNotifyNo (weight notifyNo)] (fun _ => update_notify notifyNo f)) (fun r st' =>
      (r = Ret tt /\ committed st' = add_notify (notify_row_end success body row) d)
      \/ (r = Throw DbException
          /\ (committed st' = add_notify row d \/ committed st' = add_notify (notify_row_end success body row) d)
          /\ (fault \/ text_ok body = false))) st).
  { intros f Hf Hnone. pose proof (update_notify_last notifyNo f row d eq_refl Hc) as Hu.
    rewrite <- Hst in Hu. apply wp_exec_client.
    - intros st1 Hs1 _ Hwhy. right. split; [done |]. split; [left; congruence |].
      destruct Hwhy as [? | (now & _ & Hn)]; [by left | right]. rewrite Hu in Hn. apply Hnone. by destruct (f row).
    - intros now st1 d' u Hx _ <- _ Hfault. rewrite Hu in Hx. destruct (f row) as [r'|] eqn:Hr; [| done].
      injection Hx as Hx _. right. split; [done |]. split; [right | by left]. by rewrite <- Hx, (Hf r').
    - intros now st1 d' u Hx _ <- _ _. rewrite Hu in Hx. destruct (f row) as [r'|] eqn:Hr; [| done].
      injection Hx as Hx _. left. split; [by destruct u |]. by rewrite <- Hx, (Hf r'). }
  destruct success; apply H; unfold notify_done; cbn [uint_ok]; destruct (text_ok body); try done;
    cbn; by intros r' [= <-].
Qed.

Lemma notify_insert_inv notifyNo orderNo url messageId now d d' n :
  notify_insert_sql notifyNo orderNo url messageId now d = Some (d', n) ->
  let row := mkNotifyRow notifyNo orderNo url None 0 0 messageId in
  (existsb (notify_conflict row) (t_notify_record d) = true /\ d' = d /\ n = 0%nat)
  \/ (existsb (notify_conflict row) (t_notify_record d) = false /\ d' = add_notify row d /\ n = 1%nat).
Proof.
  unfold notify_insert_sql, notify_row. intros H. apply bind_Some in H as (r & Hr & H).
  apply bind_Some in Hr as (u & _ & Hr). injection Hr as <-.
  destruct (sql_insert_noop _ _ _) as [t m] eqn:Hi. injection H as <- <-.
  apply sql_insert_noop_inv in Hi as [(Hc & -> & ->) | (Hc & -> & ->)]; [left | right]; [| done].
  by destruct d.
Qed.

(** Recording the message. *)
Lemma wp_insertWithDedup messageId orderNo st :
  let url := notifyBaseUrl +:+ kNotifyPath in
  let d := committed st in
  wp (notify_insertWithDedup messageId orderNo url) (fun r st' =>
    match next_number st with
    | IdOk notifyNo =>
        let row := notify_row_new notifyNo orderNo messageId in
        match r with
        | Ret (kNotifyInserted no) => no = notifyNo
            /\ existsb (notify_conflict row) (t_notify_record d) = false /\ committed st' = add_notify row d
        | Ret kNotifyDuplicate => committed st' = d /\ existsb (notify_conflict row) (t_notify_record d) = true
        | Throw DbException =>
            (committed st' = d /\ (fault \/ notify_row notifyNo orderNo url messageId = None))
            \/ (fault /\ no_conflict notifyNo orderNo messageId d /\ committed st' = add_notify row d)
        | _ => False
        end
    | IdClockBackwards => r = Throw StdException /\ committed st' = d
    | IdSpinning => r = Hang /\ committed st' = d
    end) st.
Proof.
  intros url d. unfold notify_insertWithDedup. apply wp_bind. unfold wp at 1, next_id. cbn [run_alone].
  unfold run_id, next_number.
  destruct (nextId system_clock spin_fuel (readings st) (ids st)) as [[r ids'] n']. cbn [fst].
  destruct r as [notifyNo | |]; cbn [run_alone mret M_ret throw fst snd committed]; [| done | done].
  apply wp_bind, wp_exec_client; cbn [committed]; fold d.
  - intros st1 Hs1 _ Hwhy. left. split; [exact Hs1 |]. destruct Hwhy as [? | (now & _ & Hn)]; [by left | right].
    unfold notify_insert_sql in Hn. destruct (notify_row notifyNo orderNo url messageId); [| done].
    cbn [mbind option_bind] in Hn. by destruct (sql_insert_noop _ _ _).
  - intros now st1 d' n Hx _ <- _ Hfault. apply notify_insert_inv in Hx as [(_ & -> & _) | (Hc & -> & _)]; [left | right].
    + split; [done | by left].
    + done.
  - intros now st1 d' n Hx _ <- _ _. apply notify_insert_inv in Hx as [(Hc & Hd & ->) | (Hc & Hd & ->)]; cbn [Nat.eqb];
      by apply wp_ret.
Qed.

Lemma process_partial body st log r st' log' :
  process body (st, log) = (r, (st', log')) ->
  process_effect body (next_number st) (committed st) log r (committed st') log'.
Proof.
  unfold process. unfold mbind at 1, C_bind at 1, lift at 1, or_throw at 1. cbn [fst snd].
  destruct (parse_message body) as [[[[messageId orderNo] amount]|]|] eqn:Hp.
  2: { intros [= <- <- <-]. by apply Malformed. }
  2: { intros [= <- <- <-]. by apply JsonThrows. }
  rewrite run_mret. unfold mbind at 1, C_bind at 1, lift at 1. cbn [fst snd].
  pose proof (wp_insertWithDedup messageId orderNo st) as Hi. unfold wp in Hi. cbv zeta in Hi.
  destruct (run_alone (notify_insertWithDedup messageId orderNo (notifyBaseUrl +:+ kNotifyPath)) st) as [r1 st1].
  cbn [fst snd] in Hi. destruct (next_number st) as [notifyNo | |].
  2, 3: destruct Hi as [-> Hd]; intros [= <- <- <-]; rewrite Hd; eapply NoNumber; [done | auto].
  destruct r1 as [[no|] | [c m | |] | |]; try done.
  - destruct Hi as (-> & Hc & Hd). change (Z.to_nat (kMaxInProcessRetries + 1)) with 3%nat.
    destruct (notify_loop_eq notifyNo orderNo amount st1 log) as (k & success & Hk & ->).
    unfold mbind, C_bind, lift. cbn [fst snd].
    pose proof (wp_record_reply notifyNo orderNo messageId (committed st)
      (last_body log (merchant_request notifyNo orderNo amount) k) success st1 Hc Hd) as Hrec.
    unfold wp in Hrec. destruct (run_alone (record_reply _ _ _) st1) as [r2 st2]. cbn [fst snd] in Hrec.
    destruct Hrec as [[-> Hd2] | (-> & Hd2 & Hwhy)]; intros [= <- <- <-].
    + rewrite Hd2. by apply Notified.
    + destruct Hd2 as [-> | ->]; (eapply ResultLost; [done | done | done | done | auto | done]).
  - destruct Hi as [Hd Hc]. intros [= <- <- <-]. rewrite Hd. by eapply Duplicate.
  - intros [= <- <- <-]. destruct Hi as [[-> Hwhy] | (Hf & Hc & ->)]; [by eapply NotRecorded | by eapply RecordedInDoubt].
Qed.

Lemma conflict_of_recorded notifyNo orderNo messageId d : recorded messageId d = true ->
  existsb (notify_conflict (notify_row_new notifyNo orderNo messageId)) (t_notify_record d) = true.
Proof.
  unfold recorded. rewrite !existsb_exists. intros (x & Hx & He). exists x. split; [done |].
  unfold notify_conflict. cbn. by rewrite He, orb_true_r.
Qed.

(** ** The properties *)

(** C24. Processing a message, whatever the database, the clock and the merchant
    do: it is recorded first, under the number that the generator issues, and then the
    merchant is asked at most three times, the same request each time, until one is
    answered 200; the row says how it ended, and the answer (acknowledge, or
    dead-letter) is that of the last request.  A message that is recorded already, or
    whose number is taken, is acknowledged and asks nothing; a malformed one asks
    nothing and records nothing; without a number, or when the row cannot be written,
    the exception says why. *)
Theorem process_spec body st log r st' log' : process body (st, log) = (r, (st', log')) ->
  process_effect body (next_number st) (committed st) log r (committed st') log'.
Proof. apply process_partial. Qed.

(** The merchant hears of a message from one delivery only: once it is
    recorded, a redelivery sends no request and changes nothing, and if it answers
    at all it acknowledges - also when the first delivery was interrupted before
    its notification, which is then never made. *)
Theorem process_redelivery body messageId orderNo amount st log r st' log' :
  parse_message body = Some (Some (messageId, orderNo, amount)) -> recorded messageId (committed st) = true ->
  process body (st, log) = (r, (st', log')) ->
  log' = log /\ committed st' = committed st
  /\ (r = Ret true \/ r = Throw StdException \/ r = Throw DbException \/ r = Hang).
Proof.
  intros Hp Hrec Hr. apply process_partial in Hr. revert Hp Hrec.
  destruct Hr as [Hq | Hq | r m Hq Hr | mid no am n Hq Hg Hwhy | mid no am n Hq Hg Hc | mid no am n Hq Hg Hc Hf
    | mid no am n k ok Hq Hg Hc req Hk | mid no am n k ok row Hq Hg Hc req Hk Hrow Hf]; rewrite Hq; intros [=]; subst;
    intros Hrec; try (unfold no_conflict in Hc; rewrite conflict_of_recorded in Hc by done; discriminate); tauto.
Qed.

(** The payload of [PaymentService] is read back. *)
Lemma message_payload_parse {L : JsonCppLaws} messageId order :
  str_all printable messageId = true -> str_all printable (o_orderNo order) = true ->
  in_i64 (o_totalAmountFen order) -> in_i64 (o_userId order) ->
  parse_message (message_payload messageId order)
  = Some (Some (messageId, o_orderNo order, fenToYuanString (o_totalAmountFen order))).
Proof.
  intros Hm Ho Hamt Hu. unfold message_payload.
  set (fields := [("messageId", SString messageId); ("bizType", SString kBizTypeOrderPaid);
    ("orderNo", SString (o_orderNo order)); ("amount", SString (fenToYuanString (o_totalAmountFen order)));
    ("userId", SInt (o_userId order)); ("status", SInt 1)]).
  assert (Hparse : jparse (jtoStyledString (jobject (map (fun '(k, x) => (k, jscalar x)) fields)))
    = Some (jobject (map (fun '(k, x) => (k, jscalar x)) fields))).
  { apply jparse_styled. unfold in_i64 in Hu. cbn [forallb fields scalar_printable].
    rewrite Hm, Ho, fenToYuanString_printable by done. replace (-2 ^ 63 <=? o_userId order) with true by lia.
    by replace (o_userId order <? 2 ^ 63) with true by lia. }
  unfold parse_message. cbn [map fields jscalar] in Hparse. rewrite Hparse.
  rewrite !jobject_isMember. cbn [mbind option_bind].
  rewrite (jobject_get _ "messageId" (jstring messageId)), (jobject_get _ "orderNo" (jstring (o_orderNo order))),
    (jobject_get _ "amount" (jstring (fenToYuanString (o_totalAmountFen order)))) by done.
  cbn. by rewrite !jasString_string.
Qed.

(** The contract of the two ends of the queue: the consumer reads back from
    the payload of [PaymentService] the message identifier, the order number and
    the amount that the producer put there. *)
Theorem message_contract {L : JsonCppLaws} messageId order :
  str_all printable messageId = true -> str_all printable (o_orderNo order) = true ->
  in_i64 (o_totalAmountFen order) -> in_i64 (o_userId order) ->
  parse_message (message_payload messageId order)
  = Some (Some (messageId, o_orderNo order, fenToYuanString (o_totalAmountFen order))).
Proof. apply message_payload_parse. Qed.
End NotifyConsumer.

(** ** The connection *)

(** What [connectAndSubscribe] asks of the broker. *)
Inductive amqp_command :=
  | ExchangeDeclare (name kind : string) (durable : bool)
  | QueueDeclare (name : string) (durable : bool) (arguments : list (string * string))
  | QueueBind (queue exchange routingKey : string)
  | BasicConsume (queue : string) (no_ack : bool).

(** The exchange, the dead-letter exchange and queue, the queue that dead-letters to
    them, the subscription with manual acknowledgement. *)
Definition topology : list amqp_command :=
  [ExchangeDeclare kExchange "topic" true;
   ExchangeDeclare kDeadExchange "topic" true;
   QueueDeclare kDeadQueue true [];
   QueueBind kDeadQueue kDeadExchange kDeadRoutingKey;
   QueueDeclare kQueue true [("x-dead-letter-exchange", kDeadExchange);
                             ("x-dead-letter-routing-key", kDeadRoutingKey)];
   QueueBind kQueue kExchange kRoutingKey;
   BasicConsume kQueue false].

(** [conn_]; the connections created and not destroyed, each with the commands the
    broker has answered; library calls made so far, connections created so far. *)
Record consumer_state := mkConsumer {
  nc_conn : option nat;
  nc_live : list (nat * list amqp_command);
  nc_calls : nat;
  nc_created : nat
}.

Definition consumer_init : consumer_state := mkConsumer None [] 0 0.

Section Connection.
Context {J : JsonCpp} {B : Broker}.
Context (customConfig : jvalue).

(** The five settings, with the consumer's own defaults. *)
Definition consumer_config : option MqConfig :=
  r ← jget customConfig "rabbitmq";
  h ← string_member r "host" "127.0.0.1";
  p ← int_member r "port" 5673;
  u ← string_member r "user" "guest";
  w ← string_member r "password" "guest";
  v ← string_member r "vhost" "/";
  Some (mkMqConfig h p u w v).

Definition library_call (c : consumer_state) : bool * consumer_state :=
  (amqp_ok (nc_calls c), mkConsumer (nc_conn c) (nc_live c) (S (nc_calls c)) (nc_created c)).

(** [conn_ = amqp_new_connection()]: the old value is overwritten. *)
Definition new_connection (c : consumer_state) : consumer_state :=
  mkConsumer (Some (nc_created c)) ((nc_created c, []) :: nc_live c) (nc_calls c) (S (nc_created c)).

(** [amqp_destroy_connection(conn_); conn_ = nullptr;]. *)
Definition destroy (c : consumer_state) : consumer_state :=
  mkConsumer None
    (match nc_conn c with
     | Some i => filter (fun x => x.1 <> i) (nc_live c)
     | None => nc_live c
     end) (nc_calls c) (nc_created c).

(** The broker has answered [cmd] on the connection [conn_]. *)
Definition answered (cmd : amqp_command) (c : consumer_state) : consumer_state :=
  mkConsumer (nc_conn c)
    (map (fun x => if decide (Some x.1 = nc_conn c) then (x.1, x.2 ++ [cmd]) else x) (nc_live c))
    (nc_calls c) (nc_created c).

(** [if (!rpcOk(conn_)) { return false; }] after each command: the connection is
    kept. *)
Fixpoint declare (cmds : list amqp_command) (c : consumer_state) : bool * consumer_state :=
  match cmds with
  | [] => (true, c)
  | cmd :: rest =>
      let '(ok, c') := library_call c in
      if ok then declare rest (answered cmd c') else (false, c')
  end.

(** The calls whose failure destroys the connection: the socket, [amqp_login],
    [amqp_channel_open]. *)
Fixpoint open_steps (n : nat) (c : consumer_state) : bool * consumer_state :=
  match n with
  | O => (true, c)
  | S n' =>
      let '(ok, c') := library_call c in
      if ok then open_steps n' c' else (false, destroy c')
  end.

(** [connectAndSubscribe]; [None] is an exception of jsoncpp. *)
Definition connectAndSubscribe (c : consumer_state) : option (bool * consumer_state) :=
  let '(socket, c1) := library_call (new_connection c) in
  if negb socket then Some (false, destroy c1)
  else
    _ ← consumer_config;
    let '(opened, c2) := open_steps 3 c1 in
    if negb opened then Some (false, c2) else Some (declare topology c2).

(** One turn of [runLoop]: [consumeLoop] returns when the connection is lost, and
    destroys it. *)
Definition run_turn (c : consumer_state) : option consumer_state :=
  '(ok, c') ← connectAndSubscribe c;
  Some (if (ok : bool) then destroy c' else c').

Definition conn_fresh (c : consumer_state) : Prop := forall x, In x (nc_live c) -> (x.1 < nc_created c)%nat.

Lemma filter_fresh i (l : list (nat * list amqp_command)) : (forall x, In x l -> x.1 <> i) ->
  filter (fun x => x.1 <> i) l = l.
Proof.
  induction l as [|x l IH]; intros H; [done |]. rewrite filter_cons, decide_True by (apply H; by left).
  f_equal. apply IH. intros y Hy. apply H. by right.
Qed.

Lemma answered_fresh cmd i done' l n m : (forall x, In x l -> x.1 <> i) ->
  answered cmd (mkConsumer (Some i) ((i, done') :: l) n m)
  = mkConsumer (Some i) ((i, done' ++ [cmd]) :: l) n m.
Proof.
  intros H. unfold answered. cbn. rewrite decide_True by done. f_equal. f_equal.
  rewrite <- (map_id l) at 2. apply map_ext_in. intros x Hx. rewrite decide_False; [done |].
  intros [= Heq]. by apply (H x Hx).
Qed.

Lemma declare_spec cmds : forall i done' l n m ok c', (forall x, In x l -> x.1 <> i) ->
  declare cmds (mkConsumer (Some i) ((i, done') :: l) n m) = (ok, c') ->
  exists k, nc_conn c' = Some i /\ nc_created c' = m /\ nc_live c' = (i, done' ++ take k cmds) :: l
    /\ (k <= length cmds)%nat /\ (ok = true <-> k = length cmds).
Proof.
  induction cmds as [|cmd cmds IH]; intros i done' l n m ok c' Hf; cbn [declare].
  { intros [= <- <-]. exists 0%nat. cbn. by rewrite app_nil_r. }
  unfold library_call. cbn [nc_calls nc_conn nc_live nc_created]. destruct (amqp_ok n).
  - rewrite answered_fresh by done. intros Hd. apply IH in Hd; [| done].
    destruct Hd as (k & Hc & Hm & Hl & Hk & Hok). exists (S k). cbn [take length].
    rewrite <- app_assoc in Hl. split_and!; try done; [lia |]. rewrite Hok. lia.
  - intros [= <- <-]. exists 0%nat. cbn. rewrite app_nil_r. split_and!; try done; lia.
Qed.

Lemma open_steps_spec k : forall i l n m ok c', (forall x, In x l -> x.1 <> i) ->
  open_steps k (mkConsumer (Some i) ((i, []) :: l) n m) = (ok, c') ->
  nc_created c' = m /\ if ok then nc_conn c' = Some i /\ nc_live c' = (i, []) :: l
                       else nc_conn c' = None /\ nc_live c' = l.
Proof.
  induction k as [|k IH]; intros i l n m ok c' Hf; cbn [open_steps]; [by intros [= <- <-] |].
  unfold library_call. cbn [nc_calls nc_conn nc_live nc_created]. destruct (amqp_ok n); [by apply IH |].
  intros [= <- <-]. unfold destroy. cbn [nc_calls nc_conn nc_live nc_created]. split; [done |]. split; [done |].
  rewrite filter_cons, decide_False by (intros Hn; by apply Hn). by apply filter_fresh.
Qed.

(** A subscription that succeeds has declared the whole topology in order on a
    new connection; one that fails before the declarations leaves nothing behind,
    but one that fails during them leaves its connection open, and the next turn
    overwrites the only pointer to it. *)
Theorem connectAndSubscribe_spec c ok c' : conn_fresh c -> connectAndSubscribe c = Some (ok, c') ->
  conn_fresh c' /\
  (if ok then nc_conn c' = Some (nc_created c) /\ nc_live c' = (nc_created c, topology) :: nc_live c
   else (nc_conn c' = None /\ nc_live c' = nc_live c)
     \/ exists k, (k < length topology)%nat /\ nc_conn c' = Some (nc_created c)
          /\ nc_live c' = (nc_created c, take k topology) :: nc_live c).
Proof.
  intros Hf. unfold connectAndSubscribe, library_call, new_connection. cbn [nc_calls nc_conn nc_live nc_created].
  assert (Hne : forall x, In x (nc_live c) -> x.1 <> nc_created c) by (intros x Hx; specialize (Hf x Hx); lia).
  destruct (amqp_ok (nc_calls c)); cbn [negb].
  2: { intros [= <- <-]. unfold destroy, conn_fresh. cbn [nc_calls nc_conn nc_live nc_created].
       rewrite filter_cons, decide_False, filter_fresh by (done || (intros Hn; by apply Hn)).
       split; [| by left]. intros x Hx. specialize (Hf x Hx). lia. }
  destruct consumer_config as [cfg|]; [| done]. cbn [mbind option_bind].
  destruct (open_steps 3 _) as [opened c2] eqn:Ho. apply open_steps_spec in Ho; [| done].
  destruct Ho as [Hm Ho]. destruct opened; cbn [negb].
  2: { destruct Ho as [Hc Hl]. intros [= <- <-]. split; [| left; by rewrite Hl].
       intros x Hx. rewrite Hl in Hx. specialize (Hf x Hx). lia. }
  destruct Ho as [Hc Hl], c2 as [conn live calls created]. cbn in Hc, Hl, Hm. subst. intros Hd. apply (inj Some) in Hd.
  apply declare_spec in Hd; [| done]. destruct Hd as (k & Hc & Hm & Hl & Hk & Hok). cbn [app] in Hl.
  split.
  { intros x. rewrite Hl, Hm. intros [<- | Hx]; [cbn; lia |]. specialize (Hf x Hx). lia. }
  destruct ok.
  - split; [done |]. rewrite (proj1 Hok eq_refl) in Hl. by rewrite Hl, firstn_all.
  - right. exists k. split; [| done]. destruct (decide (k = length topology)) as [He | Hne']; [| lia].
    apply Hok in He. done.
Qed.
End Connection.

(** ** Witnesses *)

(** The merchant is up at its third request. *)
Definition slow_merchant : Merchant :=
  {| http_reply n _ := if (n <? 2)%nat then mkHttpReply false None else mkHttpReply true (Some (200, "ok")) |}.

Definition paid_order : Order :=
  mkOrder "o1" "aaaabbbbccccdddd" 7 1 3 1999 5997 kPaid "2025-01-01 08:30:00" "".

Definition sample_message : string := message_payload (J := Tree.lib) "m9" paid_order.

Definition run_process (w : World) : outcome bool * World :=
  process (D := Server.lib) (J := Tree.lib) (E := Server.calm) (Mc := slow_merchant)
    "http://localhost:8080" sample_message w.

Definition after_process : World := (run_process (Server.fresh_state Server.shop, [])).2.

Lemma message_contract_witness :
  parse_message (J := Tree.lib) sample_message = Some (Some ("m9", "o1", "59.97")).
Proof.
  exact (message_contract (J := Tree.lib) (L := Tree.lib_laws) "m9" paid_order eq_refl eq_refl
    ltac:(unfold in_i64; cbn; lia) ltac:(unfold in_i64; cbn; lia)).
Defined.

Lemma process_spec_witness :
  map nr_status (t_notify_record (committed after_process.1)) = [1] /\ length after_process.2 = 3%nat
  /\ process_effect (D := Server.lib) (J := Tree.lib) (E := Server.calm) (Mc := slow_merchant)
       "http://localhost:8080" sample_message (IdOk "132633958809735168") Server.shop []
       (run_process (Server.fresh_state Server.shop, [])).1 (committed after_process.1) after_process.2.
Proof.
  split; [by vm_compute |]. split; [by vm_compute |]. unfold after_process, run_process.
  exact (process_spec (D := Server.lib) (J := Tree.lib) (E := Server.calm) (Mc := slow_merchant)
    "http://localhost:8080" sample_message (Server.fresh_state Server.shop) [] _ _ _
    (eq_trans (surjective_pairing _) (f_equal (fun p => (_, p)) (surjective_pairing _)))).
Defined.

Lemma process_redelivery_witness :
  (run_process after_process).1 = Ret true /\ (run_process after_process).2.2 = after_process.2
  /\ committed (run_process after_process).2.1 = committed after_process.1.
Proof.
  split; [by vm_compute |].
  assert (Hrec : recorded (D := Server.lib) "m9" (committed after_process.1) = true) by (by vm_compute).
  assert (Hp : parse_message (J := Tree.lib) sample_message = Some (Some ("m9", "o1", "59.97"))) by (by vm_compute).
  destruct (process_redelivery (D := Server.lib) (J := Tree.lib) (E := Server.calm) (Mc := slow_merchant)
    "http://localhost:8080" sample_message "m9" "o1" "59.97" after_process.1 after_process.2
    (run_process after_process).1 (run_process after_process).2.1 (run_process after_process).2.2 Hp Hrec)
    as (H1 & H2 & _); [by vm_compute | by split].
Defined.

(** The fifth library call fails. *)
Definition shaky_broker : Broker :=
  {| amqp_ok n := negb (n =? 4)%nat; amqp_wait _ := FrameMethod true |}.

Definition subscribe (c : consumer_state) : option (bool * consumer_state) :=
  connectAndSubscribe (J := Tree.lib) (B := shaky_broker) Tree.JNull c.

Definition first_turn : consumer_state :=
  default consumer_init (run_turn (J := Tree.lib) (B := shaky_broker) Tree.JNull consumer_init).

(** The first turn fails in the declarations; the second has two connections. *)
Lemma connectAndSubscribe_spec_witness :
  nc_live first_turn = [(0%nat, [])]
  /\ exists c', subscribe first_turn = Some (true, c')
     /\ nc_conn c' = Some 1%nat /\ nc_live c' = [(1%nat, topology); (0%nat, [])].
Proof.
  split; [by vm_compute |].
  assert (Hf : conn_fresh first_turn) by (intros x Hx; vm_compute in Hx; destruct Hx as [<- | []]; cbn; lia).
  destruct (subscribe first_turn) as [[ok c']|] eqn:Hs; [| vm_compute in Hs; discriminate].
  pose proof (connectAndSubscribe_spec (J := Tree.lib) (B := shaky_broker) Tree.JNull first_turn ok c' Hf Hs) as [_ H].
  destruct ok; [| vm_compute in Hs; discriminate]. exists c'. split; [done |]. destruct H as [-> ->]. by split.
Defined.
