(* ===== verification/ConsumerLoop.v ===== *)
(** * ConsumerLoop: the thread of the notification consumer

    [runLoop], [consumeLoop] and [handleMessage] of
    [src/consumer/NotifyConsumer.cc].  The broker is at-least-once: the deliveries
    are an arbitrary sequence, in which a message may come again after a lost
    connection, under another tag; a delivery is one result of
    [amqp_consume_message]. *)

From S2P Require Import Prelude MoneyUtil IdGenerator JsonValue Result RequestId BeijingTime SignUtil Models.
From S2P Require Import Database Transaction Daos Invariant Server OrderService PaymentService MqClient MessageRelay NotifyConsumer.




Section ConsumerLoop.
Context {D : MySql} {J : JsonCpp} {E : Env} {Mc : Merchant} {B : Broker}.
Context (customConfig : jvalue) (notifyBaseUrl : string).




(** ** One delivery *)










(** ** The whole thread *)









End ConsumerLoop.

(** ** Witness: the acknowledgement of the first delivery is lost *)



