(* ===== verification/Controllers.v ===== *)
(** * Controllers: the HTTP endpoints

    [src/controllers]: what a handler checks on the event loop, what it submits to
    the thread pool, and the response the client gets - or does not get, when an
    exception leaves the submitted task.  [serve] runs the request filter in front of
    a handler; what a client gets is specified in [Endpoints], and the routing tables
    are in [Routes]. *)

From S2P Require Import Prelude MoneyUtil IdGenerator JsonValue Result RequestId BeijingTime SignUtil Models.
From S2P Require Import Database Transaction Daos Invariant Server OrderService PaymentService ReconcileService.
From S2P Require Import MqClient MessageRelay NotifyConsumer.

Section Controllers.
Context {D : MySql} {J : JsonCpp} {O : OpenSsl} {E : Env}.
Context (customConfig : jvalue) (open_file : string -> option string).

(** [ThreadPool::submit] accepts: the pool is not stopped. *)
Context (pool_running : bool).

(** ** The code *)

(** [a && b] on tests that may throw. *)
Definition andalso (a b : option bool) : option bool := x ← a; if (x : bool) then b else Some false.

Definition badRequest (code : ErrCode) (message requestId : string) : HttpResponse :=
  let body : Result Z := fail code message requestId in
  setStatusCode 400 (newHttpJsonResponse (toJson body)).

Definition serviceUnavailable (requestId : string) : HttpResponse :=
  let body : Result Z := fail kInternalError "服务正在关闭，请稍后重试" requestId in
  setStatusCode 503 (newHttpJsonResponse (toJson body)).

Definition hasPositiveInt (json : jvalue) (key : string) : option bool :=
  andalso (jisMember json key)
    (v ← jget json key; if jisNumeric v then z ← jasInt64 v; Some (0 <? z) else Some false).

Definition hasNonEmptyString (json : jvalue) (key : string) : option bool :=
  andalso (jisMember json key)
    (v ← jget json key; if jisString v then s ← jasString v; Some (negb (bool_decide (s = ""))) else Some false).

Definition int64_member (json : jvalue) (key : string) : option Z := v ← jget json key; jasInt64 v.
Definition str_member (json : jvalue) (key : string) : option string := v ← jget json key; jasString v.

(** A task submitted to the pool: its response is queued to the loop at its end; an
    exception of the service ends in the worker, and nobody answers. *)
Definition submit_task (job : M HttpResponse) (requestId : string) : M (option HttpResponse) :=
  if pool_running then
    try_catch (resp ← job; mret (Some resp)) (fun _ => mret None)
  else mret (Some (serviceUnavailable requestId)).

(** The request of [OrderController::createOrder]; [Some None] is a bad request. *)
Definition order_request (req : HttpRequest) : option (option CreateOrderReq) :=
  match jsonObject req with
  | None => Some None
  | Some json =>
      good ← andalso (hasPositiveInt json "productId")
               (andalso (hasPositiveInt json "quantity") (hasPositiveInt json "userId"));
      if (good : bool) then
        product ← int64_member json "productId";
        quantity ← int64_member json "quantity";
        user ← int64_member json "userId";
        Some (Some (mkCreateOrderReq (requestIdOf req) (sha256Hex (req_body req)) (u64 user) (u64 product) quantity))
      else Some None
  end.

Definition order_response (o : CreateOrderOutcome) : HttpResponse :=
  match o with
  | kCached body => mkResponse 200 body
  | kExecuted res => newHttpJsonResponse (toJson res)
  end.

(** [OrderController::createOrder]. *)
Definition createOrder_endpoint (req : HttpRequest) : M (option HttpResponse) :=
  parsed ← or_throw (order_request req);
  match parsed with
  | None => mret (Some (badRequest kParamInvalid "productId/quantity/userId 必须为正整数" (requestIdOf req)))
  | Some oreq => submit_task (o ← createOrder oreq; mret (order_response o)) (requestIdOf req)
  end.

(** The request of [PaymentCallbackController::handleCallback]. *)
Definition callback_request (req : HttpRequest) : option (option PaymentCallbackReq) :=
  match jsonObject req with
  | None => Some None
  | Some json =>
      good ← andalso (hasNonEmptyString json "orderNo") (andalso (hasNonEmptyString json "channel")
             (andalso (hasNonEmptyString json "channelTradeNo") (andalso (hasNonEmptyString json "amount")
             (andalso (hasNonEmptyString json "sign") (andalso (jisMember json "timestamp")
               (t ← jget json "timestamp"; Some (jisNumeric t)))))));
      if (good : bool) then
        orderNo ← str_member json "orderNo";
        channel ← str_member json "channel";
        tradeNo ← str_member json "channelTradeNo";
        amount ← str_member json "amount";
        timestamp ← int64_member json "timestamp";
        sign ← str_member json "sign";
        Some (Some (mkPaymentCallbackReq (requestIdOf req) orderNo channel tradeNo amount (to_string timestamp) sign))
      else Some None
  end.

(** [PaymentCallbackController::handleCallback]. *)
Definition callback_endpoint (req : HttpRequest) : M (option HttpResponse) :=
  parsed ← or_throw (callback_request req);
  match parsed with
  | None => mret (Some (badRequest kParamInvalid
                  "orderNo/channel/channelTradeNo/amount/timestamp/sign 缺失或非法" (requestIdOf req)))
  | Some creq =>
      submit_task (res ← handleCallback customConfig creq (req_body req);
                   mret (newHttpJsonResponse (toJson res))) (requestIdOf req)
  end.

(** [submitToPool]. *)
Definition submitToPool (work : M (Result jvalue)) (requestId : string) : M (option HttpResponse) :=
  submit_task (res ← work; mret (newHttpJsonResponse (toJson res))) requestId.

(** The request of [AdminController::runReconcile]. *)
Definition run_request (req : HttpRequest) : option (option string) :=
  match jsonObject req with
  | None => Some None
  | Some json =>
      good ← hasNonEmptyString json "billDate";
      if (good : bool) then d ← str_member json "billDate"; Some (Some d) else Some None
  end.

(** [AdminController::runReconcile]. *)
Definition runReconcile_endpoint (req : HttpRequest) : M (option HttpResponse) :=
  billDate ← or_throw (run_request req);
  match billDate with
  | None => mret (Some (badRequest kParamInvalid "billDate(YYYY-MM-DD) 必填" (requestIdOf req)))
  | Some d => submitToPool (run open_file d) (requestIdOf req)
  end.

(** [AdminController::listDiffs]. *)
Definition listDiffs_endpoint (req : HttpRequest) : M (option HttpResponse) :=
  let batchNo := parameters req "batchNo" in
  if bool_decide (batchNo = "")
  then mret (Some (badRequest kParamInvalid "batchNo 查询参数必填" (requestIdOf req)))
  else submitToPool (listDiffs batchNo 200) (requestIdOf req).

(** The request of [AdminController::handleDiff]: action and remark. *)
Definition handleDiff_request (req : HttpRequest) : option (option (string * string)) :=
  match jsonObject req with
  | None => Some None
  | Some json =>
      good ← andalso (jisMember json "action") (v ← jget json "action"; Some (jisString v));
      if (good : bool) then
        action ← str_member json "action";
        has_remark ← jisMember json "remark";
        remark ← (if (has_remark : bool) then str_member json "remark" else Some "");
        Some (Some (action, remark))
      else Some None
  end.

(** [AdminController::handleDiff]; [diffId] comes from the path. *)
Definition handleDiff_endpoint (diffId : Z) (req : HttpRequest) : M (option HttpResponse) :=
  args ← or_throw (handleDiff_request req);
  match args with
  | None => mret (Some (badRequest kParamInvalid "action(verify/ignore) 必填" (requestIdOf req)))
  | Some (action, remark) => submitToPool (handleDiff diffId action remark) (requestIdOf req)
  end.

(** [MockNotifyController::notify]; it touches no state. *)
Definition mock_notify (req : HttpRequest) : option HttpResponse :=
  _ ← (match jsonObject req with
       | None => Some "unknown"
       | Some json => has ← jisMember json "orderNo";
                      if (has : bool) then str_member json "orderNo" else Some "unknown"
       end);
  failing ← (match jsonObject req with
             | None => Some false
             | Some json => andalso (jisMember json "fail") (v ← jget json "fail"; jasBool v)
             end);
  if (failing : bool) then
    let body : Result Z := fail kInternalError "mock merchant internal error" (requestIdOf req) in
    Some (setStatusCode 500 (newHttpJsonResponse (toJson body)))
  else Some (newHttpJsonResponse (toJson (ok 1 (requestIdOf req)))).

(** [HealthController::health]. *)
Definition health (req : HttpRequest) : HttpResponse :=
  newHttpJsonResponse (toJson (ok (jobject [("status", jstring "up")]) (header_rid req))).

(** A request on a route with the filter. *)
Definition serve (endpoint : HttpRequest -> M (option HttpResponse)) (req : HttpRequest)
  : M (option HttpResponse) :=
  match doFilter req with
  | Answer resp => mret (Some resp)
  | Pass req' => endpoint req'
  end.

(** ** Lemmas *)

Lemma andalso_true a b : andalso a b = Some true <-> a = Some true /\ b = Some true.
Proof.
  unfold andalso. destruct a as [[|]|]; cbn; (split; [intros H; first [discriminate | by split] | by intros [? ?]]).
Qed.

Lemma hasPositiveInt_true json key : hasPositiveInt json key = Some true ->
  exists z, int64_member json key = Some z /\ 0 < z.
Proof.
  unfold hasPositiveInt, int64_member. rewrite andalso_true. intros [_ H].
  destruct (jget json key) as [v|]; cbn in *; [| done]. destruct (jisNumeric v); [| done].
  destruct (jasInt64 v) as [z|]; cbn in *; [| done]. injection H as H%Z.ltb_lt. by exists z.
Qed.

(** A well-formed order request carries positive numbers. *)
Lemma order_request_inv req oreq : order_request req = Some (Some oreq) ->
  cr_requestId oreq = requestIdOf req /\ cr_requestHash oreq = sha256Hex (req_body req) /\ 0 < cr_quantity oreq.
Proof.
  unfold order_request. destruct (jsonObject req) as [json|]; [| done].
  intros H. apply bind_Some in H as ([|] & Hg & H); [| done]. simplify_opt. rewrite !andalso_true in Hg.
  destruct Hg as (_ & Hq & _). apply hasPositiveInt_true in Hq as (z & Hz & Hpos). split_and!; [done | done |].
  cbn. congruence.
Qed.

(** A POST that the filter lets through has a valid identifier. *)
Lemma serve_post (endpoint : HttpRequest -> M (option HttpResponse)) req : method req = Post ->
  (isValidRequestId (header_rid req) = true /\ serve endpoint req = endpoint (set_attr (header_rid req) req))
  \/ exists resp, statusCode resp = 400 /\ serve endpoint req = mret (Some resp).
Proof.
  intros Hm. unfold serve, doFilter. rewrite Hm. cbn [orb].
  change (bool_decide (Post = Get) || bool_decide (Post = Head) || bool_decide (Post = Options)) with false.
  destruct (isValidRequestId (header_rid req)); [by left | right]. eexists. split; [| reflexivity]. done.
Qed.

(** The handler on a request that parses, with the pool running. *)
Lemma order_endpoint_run req oreq st : method req = Post -> isValidRequestId (header_rid req) = true ->
  order_request (set_attr (header_rid req) req) = Some (Some oreq) -> pool_running = true ->
  run_alone (serve createOrder_endpoint req) st
  = match run_alone (createOrder oreq) st with
    | (Ret o, st') => (Ret (Some (order_response o)), st')
    | (Throw _, st') => (Ret None, st')
    | (Hang, st') => (Hang, st')
    | (Undefined, st') => (Undefined, st')
    end.
Proof.
  intros Hm Hv Hreq Hpool. unfold serve, doFilter. rewrite Hm, Hv. cbn [orb].
  change (bool_decide (Post = Get) || bool_decide (Post = Head) || bool_decide (Post = Options)) with false.
  unfold createOrder_endpoint, submit_task. rewrite Hreq, Hpool.
  unfold try_catch. rewrite run_bind. cbn [or_throw]. rewrite run_mret, run_graft, !run_bind.
  by destruct (run_alone (createOrder oreq) st) as [[| | |] ?].
Qed.

(** Byte-for-byte idempotency, end to end: when a POST has created an order, any
    later POST with the same X-Request-Id that passes the handler's checks is
    answered with the same status and the same bytes, and changes nothing. *)
Theorem order_endpoint_replay {L : JsonCppLaws} req oreq o st st1 req' oreq' :
  no_fault -> keys_wf (committed st) -> pool_running = true ->
  method req = Post -> isValidRequestId (header_rid req) = true ->
  order_request (set_attr (header_rid req) req) = Some (Some oreq) ->
  run_alone (createOrder oreq) st = (Ret (kExecuted o), st1) -> isOk o = true ->
  method req' = Post -> header_rid req' = header_rid req ->
  order_request (set_attr (header_rid req') req') = Some (Some oreq') -> cr_quantity oreq' <= kMaxQuantity ->
  is_Some (idempotent_row (buildIdempotentRecord (system_clock (readings st1)) oreq')) ->
  run_alone (serve createOrder_endpoint req) st = (Ret (Some (order_response (kExecuted o))), st1)
  /\ exists st2, run_alone (serve createOrder_endpoint req') st1 = (Ret (Some (order_response (kExecuted o))), st2)
    /\ committed st2 = committed st1.
Proof.
  intros Hnf K Hpool Hm Hv Hreq Hfirst Hok Hm' Hid Hreq' Hq' Hrow.
  split; [by rewrite (order_endpoint_run req oreq st Hm Hv Hreq Hpool), Hfirst |].
  pose proof (order_request_inv _ _ Hreq) as (Hr & _ & _).
  pose proof (order_request_inv _ _ Hreq') as (Hr' & _ & Hpos').
  destruct (createOrder_again oreq o st st1 oreq' Hnf K Hfirst Hok) as (st2 & Hagain & Hc); [| lia | done |].
  { rewrite Hr, Hr'. cbn. congruence. }
  exists st2. split; [| done]. rewrite (order_endpoint_run req' oreq' st1 Hm'), Hagain by (done || congruence). done.
Qed.

(** ** The notification and the merchant's endpoint *)

(** The consumer's request as the server that receives it sees it. *)
Definition received (r : HttpReq) : HttpRequest :=
  mkRequest Post (rq_request_id r) None (jparse (rq_body r)) (rq_body r) (fun _ => "").

(** The consumer's notification reaches the mock merchant: an identifier of the
    generator passes the request filter, and the endpoint answers 200, so that the
    first attempt settles the message. *)
Theorem notification_accepted {L : JsonCppLaws} base ms seq orderNo amount :
  ms_in_range ms -> 0 <= seq <= kMaxSequence -> kEpochMs + 3 * 86400000 <= ms ->
  str_all printable orderNo = true -> str_all printable amount = true ->
  exists req resp,
    doFilter (received (merchant_request base (to_string (compose_id ms seq)) orderNo amount)) = Pass req
    /\ mock_notify req = Some resp /\ statusCode resp = 200
    /\ reply_ok (mkHttpReply true (Some (statusCode resp, resp_body resp))) = true.
Proof.
  intros Hms Hseq Hday Ho Ha. set (rid := to_string (compose_id ms seq)).
  assert (Hv : isValidRequestId rid = true) by (by apply issued_id_valid).
  set (fields := [("orderNo", SString orderNo); ("amount", SString amount)]).
  assert (Hparse : jparse (jtoStyledString (jobject (map (fun '(k, x) => (k, jscalar x)) fields)))
    = Some (jobject (map (fun '(k, x) => (k, jscalar x)) fields))).
  { apply jparse_styled. cbn [forallb fields scalar_printable]. by rewrite Ho, Ha. }
  exists (set_attr rid (received (merchant_request base rid orderNo amount))), (newHttpJsonResponse (toJson (ok 1 rid))).
  split_and!; [| | done | done].
  - unfold doFilter. cbn [method received header_rid rq_request_id merchant_request]. by rewrite Hv.
  - unfold mock_notify, str_member. cbn [jsonObject set_attr received merchant_request rq_body].
    cbn [map fields jscalar] in Hparse. rewrite Hparse. unfold andalso. rewrite !jobject_isMember.
    rewrite (jobject_get _ "orderNo" (jstring orderNo)) by done. cbn. by rewrite jasString_string.
Qed.

End Controllers.

(** ** Requests for the witnesses *)

Definition post (rid : string) (body : string) (fields : list (string * Tree.json)) : HttpRequest (J := Tree.lib) :=
  mkRequest (J := Tree.lib) Post rid None (Some (jobject (J := Tree.lib) fields)) body (fun _ => "b").

Definition tea_post (body : string) : HttpRequest (J := Tree.lib) :=
  post "aaaabbbbccccdddd" body
    [("productId", Tree.JInt 1); ("quantity", Tree.JInt 3); ("userId", Tree.JInt 7)].

Definition serve_order (req : HttpRequest (J := Tree.lib)) (st : St) :=
  run_alone (E := Server.calm) (serve (J := Tree.lib)
    (createOrder_endpoint (D := Server.lib) (J := Tree.lib) (O := SignUtil.Plain.lib) true) req) st.

Definition open_st : St := Server.fresh_state Server.shop.

(** The two requests of the replay. *)
Definition tea_req (hash : string) : CreateOrderReq := mkCreateOrderReq "aaaabbbbccccdddd" hash 7 1 3.

Definition tea_result : Result Order :=
  order_decision (tea_req "78") Server.shop "132633958813929472" (system_clock (Env := Server.calm) 2).

Lemma order_endpoint_replay_witness : exists st2,
  serve_order (tea_post "y") (serve_order (tea_post "x") open_st).2
  = (Ret (Some (order_response (J := Tree.lib) (kExecuted tea_result))), st2).
Proof.
  destruct (order_endpoint_replay (D := Server.lib) (J := Tree.lib) (O := SignUtil.Plain.lib) (E := Server.calm)
    true (L := Tree.lib_laws) (tea_post "x") (tea_req "78") tea_result open_st
    (serve_order (tea_post "x") open_st).2 (tea_post "y") (tea_req "79")) as [_ (st2 & H & _)];
    [apply Server.calm_no_fault | apply Server.shop_wf | reflexivity | reflexivity | vm_compute; reflexivity
    | vm_compute; reflexivity | vm_compute; reflexivity | vm_compute; reflexivity | reflexivity | reflexivity
    | vm_compute; reflexivity | vm_compute; congruence | eexists; vm_compute; reflexivity |].
  by exists st2.
Defined.

Definition callback_post : HttpRequest (J := Tree.lib) :=
  post "ffff0000ffff0000" "{}"
    [("orderNo", Tree.JStr "132633958813929472"); ("channel", Tree.JStr "MOCK"); ("channelTradeNo", Tree.JStr "T100");
     ("amount", Tree.JStr "59.97"); ("timestamp", Tree.JInt 1735689700);
     ("sign", Tree.JStr (cb_sign sample_callback))].

Definition serve_callback (st : St) :=
  run_alone (E := Server.calm) (serve (J := Tree.lib)
    (callback_endpoint (D := Server.lib) (J := Tree.lib) (O := SignUtil.Plain.lib) sample_config true)
    callback_post) st.

Definition verify_post : HttpRequest (J := Tree.lib) := post "ffff0000ffff0000" "{}" [("action", Tree.JStr "verify")].

(** The connection breaks at the update of the difference. *)
Definition broken : Env := {|
  db_configured := true; system_clock := system_clock (Env := Server.calm); spin_fuel := 16;
  db_now := db_now (Env := Server.calm); stmt_ok n := (n =? 0)%nat; fate _ := CommitApplied
|}.

Definition serve_verify (st : St) :=
  run_alone (E := broken)
    (serve (J := Tree.lib) (handleDiff_endpoint (D := Server.lib) (J := Tree.lib) true 1) verify_post) st.
