(* ===== verification/Endpoints.v ===== *)
(** * Endpoints: what a client gets from the HTTP endpoints

    The specifications of the handlers of [Controllers], behind the request filter.
    What a body carries is defined here on the JSON value alone ([carries_order],
    [carries_callback], [carries_handle]), whatever the order in which a handler
    tests its members; an endpoint is then the filter, the complaint, the pool, and
    one call of the service on what the body carries. *)

From S2P Require Import Prelude MoneyUtil IdGenerator JsonValue Result RequestId BeijingTime SignUtil Models.
From S2P Require Import Database Transaction Daos Invariant Server OrderService PaymentService ReconcileService.
From S2P Require Import Controllers.

(** ** Programs that can only hang in the identifier generator *)

Fixpoint hangs_in_generator {A} (m : M A) : Prop :=
  match m with
  | Done r => match r with Hang => False | _ => True end
  | ReadClock k => forall z, hangs_in_generator (k z)
  | NextId k => forall r, r <> IdSpinning -> hangs_in_generator (k r)
  | Exec _ _ k => forall x, hangs_in_generator (k x)
  | Query _ k => forall x, hangs_in_generator (k x)
  | Client _ _ k => forall x, hangs_in_generator (k x)
  | Begin k => forall e, hangs_in_generator (k e)
  | Commit k => forall e, hangs_in_generator (k e)
  | Close k => hangs_in_generator k
  end.


Section Spinning.
Context {E : Env}.













Lemma generator_next_id : hangs_in_generator next_id.
Proof. by intros [id | |] Hr. Qed.
End Spinning.

Create HintDb spinning.
#[export] Hint Resolve generator_next_id : spinning.


Section Services.
Context {D : MySql} {J : JsonCpp} {O : OpenSsl} {E : Env}.
Context (customConfig : jvalue) (open_file : string -> option string).




End Services.

(** ** What a body carries *)

Section Carried.
Context {J : JsonCpp}.














End Carried.

(** ** An endpoint, in general *)

Section Endpoints.
Context {D : MySql} {J : JsonCpp} {O : OpenSsl} {E : Env}.
Context (customConfig : jvalue) (open_file : string -> option string) (pool_running : bool).





(** ** The specifications *)

Abbreviation json_response := (fun res => newHttpJsonResponse (toJson res)).







End Endpoints.

(** ** Witnesses *)







