(* ===== verification/Routes.v ===== *)
(** * Routes: from a request to its handler

    The routing tables of the controllers' headers ([METHOD_LIST_BEGIN] ...
    [METHOD_LIST_END]) put in front of [Controllers].  The matching of paths is
    drogon's: a class with the documented laws the theorems use, and an instance for
    the witnesses. *)

From S2P Require Import Prelude MoneyUtil IdGenerator JsonValue Result RequestId BeijingTime SignUtil Models.
From S2P Require Import Database Transaction Daos Invariant Server OrderService PaymentService ReconcileService.
From S2P Require Import MqClient MessageRelay NotifyConsumer Controllers.

(** ** The router of the framework *)

(** A path without placeholder, and the value of one. *)
Definition literal (p : string) : bool := str_all (fun c => negb (bool_decide (c = "{"%char))) p.
Definition segment (s : string) : bool :=
  negb (bool_decide (s = "")) && str_all (fun c => negb (bool_decide (c = "/"%char))) s.

(** [route_for]: the place of the route that takes the request in the list of the
    registered methods and patterns, and the values of its placeholders;
    [path_int64]: the conversion of a value to a handler's [std::int64_t]. *)
Class Router := {
  route_for : list (http_method * string) -> http_method -> string -> option (nat * list string);
  path_int64 : string -> option Z;
  no_route : http_method -> string -> HttpResponse;  (* 404, 405 *)
  bad_parameter : HttpResponse
}.

Class RouterLaws `{Router} := {
  (** HEAD is served by the handler of GET. *)
  route_method table m path i args : route_for table m path = Some (i, args) ->
    exists m' p, table !! i = Some (m', p) /\ (m' = m \/ (m = Head /\ m' = Get));
  (** A path without placeholder is looked up first, and exactly. *)
  route_literal table m p i : NoDup (map snd table) -> literal p = true -> table !! i = Some (m, p) ->
    route_for table m p = Some (i, []);
  (** A placeholder takes one segment of the path. *)
  route_segment table m pre seg post i : NoDup (map snd table) ->
    literal pre = true -> literal post = true -> segment seg = true -> String.prefix "/" post = true ->
    table !! i = Some (m, pre +:+ "{1}" +:+ post) ->
    (forall j m' p', table !! j = Some (m', p') -> j = i \/ (literal p' = true /\ p' <> pre +:+ seg +:+ post)) ->
    route_for table m (pre +:+ seg +:+ post) = Some (i, [seg])
}.

(** ** A concrete router *)

Module Paths.
(** The text before and after the first [c]. *)
Fixpoint split_char (c : ascii) (s : string) : option (string * string) :=
  match s with
  | EmptyString => None
  | String a rest =>
      if bool_decide (a = c) then Some ("", rest)
      else '(x, y) ← split_char c rest; Some (String a x, y)
  end.

Fixpoint strip (pre s : string) : option string :=
  match pre, s with
  | EmptyString, _ => Some s
  | String a pre', String b s' => if bool_decide (a = b) then strip pre' s' else None
  | _, _ => None
  end.

Fixpoint break_slash (s : string) : string * string :=
  match s with
  | EmptyString => ("", "")
  | String a rest => if bool_decide (a = "/"%char) then ("", s) else let '(x, y) := break_slash rest in (String a x, y)
  end.

(** The value that makes [path] an instance of the pattern [p]. *)
Definition fill (p path : string) : option string :=
  '(pre, rest) ← split_char "{" p;
  '(_, post) ← split_char "}" rest;
  tail ← strip pre path;
  let '(seg, post') := break_slash tail in
  if bool_decide (post' = post) && segment seg then Some seg else None.

Definition takes (m m' : http_method) : Prop := m' = m \/ (m = Head /\ m' = Get).

Definition find_route (table : list (http_method * string)) (m : http_method) (path : string)
  : option (nat * list string) :=
  match list_find (fun r => takes m r.1 /\ r.2 = path /\ literal r.2 = true) table with
  | Some (i, _) => Some (i, [])
  | None =>
      '(i, r) ← list_find (fun r => takes m r.1 /\ is_Some (fill r.2 path)) table;
      Some (i, [default "" (fill r.2 path)])
  end.

#[export] Instance router : Router := {|
  route_for := find_route;
  path_int64 s := if str_all is_digit s && negb (bool_decide (s = "")) then Some (dec_val s) else None;
  no_route _ _ := mkResponse 404 "";
  bad_parameter := mkResponse 500 ""
|}.

Lemma split_char_none s : literal s = true -> split_char "{" s = None.
Proof.
  unfold literal. induction s as [|a s IH]; [done |]. cbn. case_bool_decide; [done |]. intros Hs.
  by rewrite (IH Hs).
Qed.

Lemma split_char_app c pre rest : str_all (fun a => negb (bool_decide (a = c))) pre = true ->
  split_char c (pre +:+ String c rest) = Some (pre, rest).
Proof.
  induction pre as [|a pre IH]; cbn; [by rewrite bool_decide_eq_true_2 |].
  case_bool_decide; [done |]. intros Hs. by rewrite (IH Hs).
Qed.

Lemma strip_app pre s : strip pre (pre +:+ s) = Some s.
Proof. induction pre as [|a pre IH]; [done |]. cbn. by rewrite bool_decide_eq_true_2. Qed.

Lemma break_slash_app seg post : str_all (fun c => negb (bool_decide (c = "/"%char))) seg = true ->
  String.prefix "/" post = true -> break_slash (seg +:+ post) = (seg, post).
Proof.
  intros Hs Hp. induction seg as [|a seg IH].
  - destruct post as [|b post]; [done |]. cbn [String.prefix] in Hp. destruct (ascii_dec _ b) as [<- |]; [| done].
    cbn. by rewrite bool_decide_eq_true_2.
  - cbn in Hs |- *. revert Hs. case_bool_decide; [done |]. intros Hs. by rewrite (IH Hs).
Qed.

Lemma fill_literal p path : literal p = true -> fill p path = None.
Proof. intros H. unfold fill. by rewrite split_char_none. Qed.

Lemma fill_segment pre seg post : literal pre = true -> segment seg = true -> String.prefix "/" post = true ->
  fill (pre +:+ "{1}" +:+ post) (pre +:+ seg +:+ post) = Some seg.
Proof.
  intros Hpre Hseg Hpost. unfold fill. change ("{1}" +:+ post) with (String "{" (String "1" (String "}" post))).
  rewrite split_char_app by done. cbn [mbind option_bind].
  change (String "1" (String "}" post)) with ("1" +:+ String "}" post). rewrite split_char_app by done.
  cbn [mbind option_bind]. rewrite strip_app. cbn [mbind option_bind].
  rewrite break_slash_app; [| by apply andb_true_iff in Hseg as [_ ?] | done].
  by rewrite bool_decide_eq_true_2, Hseg.
Qed.

Lemma same_place {A B : Type} (l : list (A * B)) i j x y : NoDup (map snd l) -> l !! i = Some x -> l !! j = Some y ->
  x.2 = y.2 -> i = j.
Proof.
  intros Hnd Hi Hj E. eapply (NoDup_lookup (map snd l)); [done | |]; rewrite list_lookup_fmap.
  - by rewrite Hi.
  - rewrite Hj. cbn. by rewrite <- E.
Qed.

#[export] Instance router_laws : RouterLaws.
Proof.
  split; cbn [route_for router]; unfold find_route.
  - intros table m path i args H.
    destruct (list_find _ table) as [[j r]|] eqn:E1.
    + injection H as <- <-. apply list_find_Some in E1 as (Hj & (Ht & _) & _). destruct r as [m' p]. by exists m', p.
    + apply bind_Some in H as ([j r] & E2 & [= <- <-]). apply list_find_Some in E2 as (Hj & (Ht & _) & _).
      destruct r as [m' p]. by exists m', p.
  - intros table m p i Hnd Hl Hi.
    destruct (list_find _ table) as [[j r]|] eqn:E1.
    + apply list_find_Some in E1 as (Hj & (_ & Hp & _) & _). do 2 f_equal. by eapply same_place.
    + eapply list_find_None, Forall_lookup_1 in E1; [| exact Hi]. destruct E1. by split; [left |].
  - intros table m pre seg post i Hnd Hpre Hpost Hseg Hslash Hi Hothers.
    assert (Hpat : literal (pre +:+ "{1}" +:+ post) = false).
    { unfold literal in *. rewrite !str_all_app, Hpre. done. }
    destruct (list_find _ table) as [[j [m' p']]|] eqn:E1.
    { apply list_find_Some in E1 as (Hj & (_ & Hp & Hlit) & _). cbn [snd] in Hp, Hlit. exfalso.
      destruct (Hothers j m' p' Hj) as [-> | [_ Hne]]; [| done].
      rewrite Hi in Hj. apply Some_inj, pair_equal_spec in Hj as [_ E]. congruence. }
    destruct (list_find (fun r => takes m r.1 /\ is_Some (fill r.2 (pre +:+ seg +:+ post))) table)
      as [[j [m' p']]|] eqn:E2.
    + apply list_find_Some in E2 as (Hj & (_ & Hf) & _). cbn [snd mbind option_bind] in Hf |- *.
      destruct (Hothers j m' p' Hj) as [-> | [Hlit _]].
      * rewrite Hi in Hj. apply Some_inj, pair_equal_spec in Hj as [_ <-]. by rewrite fill_segment.
      * rewrite fill_literal in Hf by done. by destruct Hf.
    + eapply list_find_None, Forall_lookup_1 in E2; [| exact Hi]. destruct E2. cbn [fst snd].
      split; [by left |]. rewrite fill_segment by done. by eexists.
Qed.
End Paths.

(** ** The routing tables *)

Section Routes.
Context {D : MySql} {J : JsonCpp} {O : OpenSsl} {E : Env} {Ro : Router}.
Context (customConfig : jvalue) (open_file : string -> option string) (pool_running : bool).

(** One [ADD_METHOD_TO]: the method, the pattern, whether [common::RequestIdFilter] is
    listed, the handler on the values of the placeholders. *)
Record Route := mkRoute {
  rt_method : http_method;
  rt_pattern : string;
  rt_filtered : bool;
  rt_handler : list string -> HttpRequest -> M (option HttpResponse)
}.

(** The [std::int64_t diffId] of [AdminController::handleDiff] comes from the path. *)
Definition handleDiff_handler (args : list string) (req : HttpRequest) : M (option HttpResponse) :=
  match args with
  | [arg] =>
      match path_int64 arg with
      | Some diffId => handleDiff_endpoint pool_running diffId req
      | None => mret (Some bad_parameter)
      end
  | _ => mret (Some bad_parameter)
  end.

Definition admin_routes : list Route :=
  [mkRoute Post "/api/v1/reconcile/run" true (fun _ => runReconcile_endpoint open_file pool_running);
   mkRoute Get "/api/v1/reconcile/diffs" false (fun _ => listDiffs_endpoint pool_running);
   mkRoute Post "/api/v1/reconcile/diffs/{1}/handle" true handleDiff_handler].

Definition health_routes : list Route :=
  [mkRoute Get "/health" false (fun _ req => mret (Some (health req)))].

Definition mock_routes : list Route :=
  [mkRoute Post "/api/v1/mock/notify" true (fun _ req => resp ← or_throw (mock_notify req); mret (Some resp))].

Definition order_routes : list Route :=
  [mkRoute Post "/api/v1/orders" true (fun _ => createOrder_endpoint pool_running)].

Definition callback_routes : list Route :=
  [mkRoute Post "/api/v1/payment/callback" true (fun _ => callback_endpoint customConfig pool_running)].

Definition routes : list Route :=
  admin_routes ++ health_routes ++ mock_routes ++ order_routes ++ callback_routes.

Definition route_table : list (http_method * string) := map (fun rt => (rt_method rt, rt_pattern rt)) routes.

(** The whole way of a request through the server. *)
Definition handle_request (path : string) (req : HttpRequest) : M (option HttpResponse) :=
  match ('(i, args) ← route_for route_table (method req) path; rt ← routes !! i; Some (rt, args)) with
  | None => mret (Some (no_route (method req) path))
  | Some (rt, args) =>
      if rt_filtered rt then serve (rt_handler rt args) req else rt_handler rt args req
  end.

(** ** Who can change the database *)

(** The program leaves the committed database as it is. *)
Definition quiet {A} (m : M A) (st : St) : Prop := wp m (fun _ st' => committed st' = committed st) st.

Lemma quiet_ret {A} (a : A) st : quiet (mret a) st.
Proof. done. Qed.

Lemma quiet_or_throw {A B} (o : option A) (k : A -> M B) st : (forall a, quiet (k a) st) -> quiet (o' ← or_throw o; k o') st.
Proof. intros Hk. apply wp_bind, wp_or_throw; [intros a _; apply Hk | done]. Qed.

Lemma quiet_submit job rid st : pool_running = false -> quiet (submit_task pool_running job rid) st.
Proof. intros Hp. unfold submit_task. by rewrite Hp. Qed.

Lemma quiet_listDiffs req st : quiet (listDiffs_endpoint pool_running req) st.
Proof.
  unfold listDiffs_endpoint. case_bool_decide; [done |]. unfold submitToPool, submit_task.
  destruct pool_running; [| done].
  apply wp_try_catch, wp_bind, wp_bind. unfold listDiffs. apply wp_try_catch, wp_bind.
  apply wp_exec_client_read; [by intros now d0 d' a [-> _]%read_inv | |].
  - intros st1 Hs _ _. by do 3 apply wp_ret.
  - intros now st1 a _ _ _ Hs _. by do 3 apply wp_ret.
Qed.

(** While the pool refuses tasks every handler is quiet. *)
Lemma quiet_handler args req st : pool_running = false ->
  Forall (fun rt => quiet (rt_handler rt args req) st) routes.
Proof.
  intros Hp. repeat apply List.Forall_cons; [.. | constructor]; cbn [rt_handler].
  - apply quiet_or_throw. intros [d|]; [by apply quiet_submit | done].
  - apply quiet_listDiffs.
  - unfold handleDiff_handler. destruct args as [|a [|]]; try done. destruct (path_int64 a); [| done].
    apply quiet_or_throw. intros [[action remark]|]; [by apply quiet_submit | done].
  - done.
  - by apply quiet_or_throw.
  - apply quiet_or_throw. intros [oreq|]; [by apply quiet_submit | done].
  - apply quiet_or_throw. intros [creq|]; [by apply quiet_submit | done].
Qed.

(** A route is behind the filter and for POST, or its handler only reads. *)
Lemma routes_guarded : Forall (fun rt =>
  (rt_method rt = Post /\ rt_filtered rt = true)
  \/ (rt_method rt = Get /\ rt_filtered rt = false /\ forall args req st, quiet (rt_handler rt args req) st)) routes.
Proof.
  repeat apply List.Forall_cons; [.. | constructor];
    first [by left | right; split; [done |]; split; [done |]; intros; first [apply quiet_listDiffs | done]].
Qed.

(** What may change the database: a POST with a valid identifier, while the pool
    runs. *)
Definition privileged (req : HttpRequest) : Prop :=
  method req = Post /\ isValidRequestId (header_rid req) = true /\ pool_running = true.

Lemma quiet_request path req st {Rl : RouterLaws} : ~ privileged req -> quiet (handle_request path req) st.
Proof.
  intros Hn. unfold handle_request.
  destruct ('(i, args) ← route_for _ _ _; _) as [[rt args]|] eqn:Hr; [| done].
  apply bind_Some in Hr as ([i args'] & Hr & H). apply bind_Some in H as (rt' & Hi & [= -> ->]).
  apply route_method in Hr as (m' & p & Ht & Hm). unfold route_table in Ht.
  rewrite list_lookup_fmap, Hi in Ht. injection Ht as <- <-.
  destruct (Forall_lookup_1 _ _ _ _ routes_guarded Hi) as [[Hpost ->] | (Hget & -> & Hq)]; [| apply Hq].
  assert (Hmeth : method req = Post) by (destruct Hm as [E1 | [_ E1]]; congruence).
  destruct (serve_post (rt_handler rt args) req Hmeth) as [[Hv ->] | (resp & _ & ->)]; [| done].
  refine (Forall_lookup_1 _ _ _ _ (quiet_handler _ _ _ _) Hi).
  destruct pool_running eqn:Hp; [| done]. by destruct Hn.
Qed.

(** C18. Nothing that arrives over HTTP changes the database - whatever its path,
    method and body - unless it is a POST with a valid X-Request-Id and the pool
    still accepts tasks: no route that writes is without the filter. *)
Theorem changes_are_identified {Rl : RouterLaws} path req st r st' :
  run_alone (handle_request path req) st = (r, st') -> committed st' <> committed st -> privileged req.
Proof.
  intros Hrun Hne. destruct (decide (privileged req)) as [Hp | Hn]; [done |].
  by destruct Hne; apply (wp_elim _ (fun _ st' => committed st' = committed st) _ _ _ (quiet_request path req st Hn) Hrun).
Qed.

(** ** Where requests arrive *)

Lemma route_patterns : NoDup (map snd route_table).
Proof. unfold route_table. rewrite List.map_map. by vm_nodup. Qed.

Lemma handle_request_literal {Rl : RouterLaws} i m p filtered handler req :
  routes !! i = Some (mkRoute m p filtered handler) -> literal p = true -> method req = m ->
  handle_request p req = if filtered then serve (handler []) req else handler [] req.
Proof.
  intros Hi Hl Hm. unfold handle_request.
  rewrite (route_literal route_table (method req) p i); [cbn [mbind option_bind]; by rewrite Hi | apply route_patterns | done |].
  unfold route_table. by rewrite list_lookup_fmap, Hi, Hm.
Qed.

(** Each registered path leads to its handler, behind the filter where the table
    lists it. *)
Theorem endpoints_routed {Rl : RouterLaws} req :
  (method req = Post ->
     handle_request "/api/v1/orders" req = serve (createOrder_endpoint pool_running) req
     /\ handle_request "/api/v1/payment/callback" req = serve (callback_endpoint customConfig pool_running) req
     /\ handle_request "/api/v1/reconcile/run" req = serve (runReconcile_endpoint open_file pool_running) req
     /\ (forall arg diffId, segment arg = true -> path_int64 arg = Some diffId ->
          handle_request ("/api/v1/reconcile/diffs/" +:+ arg +:+ "/handle") req
          = serve (handleDiff_endpoint pool_running diffId) req))
  /\ (method req = Get ->
        handle_request "/api/v1/reconcile/diffs" req = listDiffs_endpoint pool_running req
        /\ handle_request "/health" req = mret (Some (health req))).
Proof.
  split; intros Hm; [split; [| split; [| split]] | split].
  - exact (handle_request_literal 5 _ _ true (fun _ => createOrder_endpoint pool_running) req eq_refl eq_refl Hm).
  - exact (handle_request_literal 6 _ _ true (fun _ => callback_endpoint customConfig pool_running) req eq_refl eq_refl Hm).
  - exact (handle_request_literal 0 _ _ true (fun _ => runReconcile_endpoint open_file pool_running) req eq_refl eq_refl Hm).
  - intros arg diffId Hs Hid. unfold handle_request.
    rewrite (route_segment route_table (method req) "/api/v1/reconcile/diffs/" arg "/handle" 2);
      [| apply route_patterns | done | done | done | done | by rewrite Hm |].
    + cbn. unfold handleDiff_handler, serve. by rewrite Hid.
    + intros [|[|[|[|[|[|[|k]]]]]]] m' p' H; cbn in H; try discriminate H; injection H as _ <-;
        first [by left | right; split; [done |]; by intros ?].
  - exact (handle_request_literal 1 _ _ false (fun _ => listDiffs_endpoint pool_running) req eq_refl eq_refl Hm).
  - exact (handle_request_literal 3 _ _ false (fun _ req => mret (Some (health req))) req eq_refl eq_refl Hm).
Qed.

(** The consumer's notification arrives: sent to this server, its path is routed
    to the mock merchant, an identifier of the generator passes the request filter,
    and the endpoint answers 200 without touching the database, so that the first
    attempt settles the message. *)
Theorem notification_routed {Rl : RouterLaws} {Jl : JsonCppLaws} base ms seq orderNo amount st :
  ms_in_range ms -> 0 <= seq <= kMaxSequence -> kEpochMs + 3 * 86400000 <= ms ->
  str_all printable orderNo = true -> str_all printable amount = true ->
  let rq := merchant_request base (to_string (compose_id ms seq)) orderNo amount in
  exists resp, run_alone (handle_request (rq_path rq) (received rq)) st = (Ret (Some resp), st)
    /\ reply_ok (mkHttpReply true (Some (statusCode resp, resp_body resp))) = true.
Proof.
  intros Hms Hseq Hday Ho Ha rq.
  destruct (notification_accepted base ms seq orderNo amount Hms Hseq Hday Ho Ha) as (req & resp & Hf & Hr & _ & Hok).
  exists resp. split; [| exact Hok].
  change (rq_path rq) with "/api/v1/mock/notify".
  rewrite (handle_request_literal 4 Post _ true (fun _ req => resp ← or_throw (mock_notify req); mret (Some resp)))
    by done.
  unfold serve, rq. rewrite Hf. by rewrite Hr.
Qed.
End Routes.

(** ** Witnesses *)

Definition request_at (path : string) (req : HttpRequest (J := Tree.lib)) (st : St) :=
  run_alone (E := Server.calm)
    (handle_request (D := Server.lib) (J := Tree.lib) (O := SignUtil.Plain.lib) (Ro := Paths.router)
      sample_config sample_files true path req) st.

Lemma changes_are_identified_witness :
  map pr_stock (t_product (committed (request_at "/api/v1/orders" (tea_post "x") open_st).2)) = [7; 3]
  /\ privileged (J := Tree.lib) true (tea_post "x").
Proof.
  split; [by vm_compute |].
  assert (Hne : committed (request_at "/api/v1/orders" (tea_post "x") open_st).2 <> committed open_st).
  { intros H. apply (f_equal (fun d => map pr_stock (t_product d))) in H. by vm_compute in H. }
  exact (changes_are_identified (D := Server.lib) (J := Tree.lib) (O := SignUtil.Plain.lib) (E := Server.calm)
    (Ro := Paths.router) sample_config sample_files true (Rl := Paths.router_laws) "/api/v1/orders" (tea_post "x") open_st
    _ _ (surjective_pairing _) Hne).
Defined.

Lemma notification_routed_witness : exists resp,
  run_alone (E := Server.calm) (handle_request (D := Server.lib) (J := Tree.lib) (O := SignUtil.Plain.lib)
    (Ro := Paths.router) sample_config sample_files true kNotifyPath
    (received (J := Tree.lib) (merchant_request (J := Tree.lib) "http://localhost:8080"
      (to_string (compose_id 1760000000000 7)) "o1" "59.97"))) open_st = (Ret (Some resp), open_st).
Proof.
  destruct (notification_routed (D := Server.lib) (J := Tree.lib) (O := SignUtil.Plain.lib) (E := Server.calm)
    (Ro := Paths.router) sample_config sample_files true (Rl := Paths.router_laws) (Jl := Tree.lib_laws)
    "http://localhost:8080" 1760000000000 7 "o1" "59.97" open_st) as (resp & H & _);
    [vm_compute; split; congruence | vm_compute; split; congruence | vm_compute; congruence | reflexivity | reflexivity |].
  by exists resp.
Defined.
