(* ===== verification/ReconcileTask.v ===== *)
(** * ReconcileTask: the daily trigger

    [src/tasks/ReconcileTask.cc]: a round looks for the bill of the Beijing day and
    runs the reconciliation unless a batch exists.  The timer callback is in
    [PeriodicTask]. *)

From S2P Require Import Prelude IdGenerator BeijingTime JsonValue Result Models Database Transaction Daos Invariant.
From S2P Require Import Server Reconcile ReconcileService.

Section ReconcileTask.
Context {D : MySql} {J : JsonCpp} {E : Env}.
Context (open_file : string -> option string).

(** [todayBeijing()], with its reading of the clock. *)
Definition today : M string := now ← read_clock; mret (todayBeijing now).

(** [ReconcileTask::checkAndRun]; the task's channel is the service's. *)
Definition checkAndRun : M unit :=
  billDate ← today;
  match open_file (bill_path billDate) with
  | None => mret tt
  | Some _ =>
      exists' ← hasBatchForDate billDate kChannel;
      if (exists' : bool) then mret tt
      else _ ← run open_file billDate; mret tt
  end.

Definition checkAndRun_post (billDate : string) (d : Db) (r : outcome unit) (st' : St) : Prop :=
  match r with
  | Ret _ => committed st' = d
      \/ (hasBatch_sql billDate kChannel d = Some false /\ is_Some (open_file (bill_path billDate))
          /\ exists rows batch, reconcile_effect billDate rows batch d (committed st'))
  | Throw e => e = DbException /\ committed st' = d /\ (fault \/ parse_date billDate = None)
  | Hang => committed st' = d
  | Undefined => False
  end.

Lemma checkAndRun_partial st :
  wp checkAndRun (checkAndRun_post (todayBeijing (system_clock (readings st))) (committed st)) st.
Proof.
  unfold checkAndRun, today. apply wp_bind, wp_bind. unfold wp at 1, read_clock.
  cbn [run_alone run_clock mret M_ret fst snd]. apply wp_ret.
  set (day := todayBeijing (system_clock (readings st))).
  destruct (open_file (bill_path day)) as [content|] eqn:Hfile; [| apply wp_ret; by left].
  apply wp_bind. apply wp_exec_client_read; [by intros now d0 d' a [-> _]%read_inv | |]; cbn [committed].
  - intros st1 Hs _ [Hf | (now & _ & Hn)]; (split; [done |]); (split; [exact Hs |]); [by left | right].
    unfold read, hasBatch_sql in Hn. by destruct (parse_date day).
  - intros now st1 b Hb _ _ Hs _. apply read_inv in Hb as [_ Hb]. cbn [committed] in Hb.
    assert (Hc : committed st1 = committed st) by exact Hs.
    destruct b; [apply wp_ret; by left |].
    apply wp_bind. eapply wp_mono; [apply run_partial |]. rewrite Hc.
    intros [res | e | |] st2 Hpost; cbn [run_post] in Hpost; [| done | done | done].
    apply wp_ret. destruct (isOk res).
    + destruct Hpost as (c & rows & batch & _ & _ & _ & Heff). right. split; [done |]. split; [by eexists |].
      by exists rows, batch.
    + destruct Hpost as [Hpost | (_ & rows & batch & Heff)]; [by left | right].
      split; [done |]. split; [by eexists |]. by exists rows, batch.
Qed.

(** A round of the daily task reconciles the Beijing day of its clock, only
    when its bill is there and no batch of that day is: either one batch with its
    differences is added, or nothing changes.  The only exception is that of the
    check, when the database fails or cannot read the date, and it leaves
    everything as it was. *)
Theorem checkAndRun_spec st r st' : run_alone checkAndRun st = (r, st') ->
  checkAndRun_post (todayBeijing (system_clock (readings st))) (committed st) r st'.
Proof. apply wp_elim, checkAndRun_partial. Qed.
End ReconcileTask.

(** ** Witness *)

Definition run_task (st : St) : outcome unit * St :=
  run_alone (E := Server.calm) (checkAndRun (D := Server.lib) (J := Tree.lib)
    (fun path => if String.eqb path "scripts/bills/bill_2025-01-01.csv" then Some (bill_text sample_bill) else None)) st.

Lemma checkAndRun_spec_witness :
  length (t_reconcile_batch (committed (run_task (Server.fresh_state sample_day)).2)) = 1%nat
  /\ checkAndRun_post (D := Server.lib) (E := Server.calm)
       (fun path => if String.eqb path "scripts/bills/bill_2025-01-01.csv" then Some (bill_text sample_bill) else None)
       "2025-01-01" sample_day
       (run_task (Server.fresh_state sample_day)).1 (run_task (Server.fresh_state sample_day)).2.
Proof.
  split; [by vm_compute |]. unfold run_task.
  exact (checkAndRun_spec (D := Server.lib) (J := Tree.lib) (E := Server.calm) _
    (Server.fresh_state sample_day) _ _ (surjective_pairing _)).
Defined.
