(* ===== verification/System.v ===== *)
(** * System: the whole server over time

    The entry points composed: what clients, the channel, the administrator, the
    timers and the queue may make the server do, in any order, any number of times,
    with the failures of the oracles at any statement.  Every transaction is one
    step (the services' own theorems say what a step leaves, failures included);
    the invariants below are those that a buyer, a merchant and an auditor rely
    on. *)

From stdpp Require Import relations.
From S2P Require Import Prelude MoneyUtil IdGenerator JsonValue Result RequestId BeijingTime SignUtil Models.
From S2P Require Import Database Transaction Daos Invariant Server OrderService PaymentService Books.
From S2P Require Import Reconcile ReconcileService MqClient MessageRelay NotifyConsumer ReconcileTask.

(** ** The steps *)

(** The server's state, the relay's client, the requests sent to the merchant. *)
Record Sys := mkSys { srv : St; mq : option mq_state; sent_log : list HttpReq }.

Section System.
Context {D : MySql} {J : JsonCpp} {O : OpenSsl} {E : Env} {B : Broker} {Mc : Merchant}.
Context (customConfig : jvalue) (open_file : string -> option string) (notifyBaseUrl : string).

Definition db_of (s : Sys) : Db := committed (srv s).

Inductive step : Sys -> Sys -> Prop :=
  | StepOrder req s r st' : run_alone (createOrder req) (srv s) = (r, st') -> step s (mkSys st' (mq s) (sent_log s))
  | StepCallback req rawBody s r st' : run_alone (handleCallback customConfig req rawBody) (srv s) = (r, st') ->
      step s (mkSys st' (mq s) (sent_log s))
  | StepReconcile billDate s r st' : run_alone (run open_file billDate) (srv s) = (r, st') ->
      step s (mkSys st' (mq s) (sent_log s))
  | StepDaily s r st' : run_alone (checkAndRun open_file) (srv s) = (r, st') -> step s (mkSys st' (mq s) (sent_log s))
  | StepHandle id action remark s r st' : run_alone (handleDiff id action remark) (srv s) = (r, st') ->
      step s (mkSys st' (mq s) (sent_log s))
  | StepRelay s r st' client' : relay customConfig (srv s) (mq s) = (r, st', client') ->
      step s (mkSys st' client' (sent_log s))
  | StepConsume body s r st' log' : process notifyBaseUrl body (srv s, sent_log s) = (r, (st', log')) ->
      step s (mkSys st' (mq s) log').

Definition steps : Sys -> Sys -> Prop := rtc step.

(** ** What a step does to the database *)

Inductive db_change (conf : list mq_message) : Db -> Db -> Prop :=
  | ChNothing d : db_change conf d d
  | ChOrder req o d d' : order_effect req o d d' -> db_change conf d d'
  | ChPayment req rawBody d d' : payment_effect req rawBody d d' -> db_change conf d d'
  | ChReconcile billDate rows batch d d' : reconcile_effect billDate rows batch d d' -> db_change conf d d'
  | ChHandle id action remark s d d' : handle_effect id action remark s d d' -> db_change conf d d'
  | ChOutbox rs d d' : same_but_outbox d d' ->
      Forall2 (relayed conf rs) (t_local_message d) (t_local_message d') -> db_change conf d d'
  | ChNotify row d : existsb (notify_conflict row) (t_notify_record d) = false ->
      db_change conf d (add_notify row d).

Lemma step_change {L : MySqlLaws} s s' : db_wf (db_of s) -> client_inv (mq s) -> step s s' ->
  client_inv (mq s') /\ (forall m, In m (client_confirmed (mq s)) -> In m (client_confirmed (mq s')))
  /\ db_change (client_confirmed (mq s')) (db_of s) (db_of s').
Proof.
  intros Hwf Hc Hs. unfold db_of in *.
  destruct Hs as [req s r st' H | req raw s r st' H | day s r st' H | s r st' H | id act rem s r st' H
    | s r st' client' H | body s r st' log' H]; cbn [srv mq sent_log] in *;
    try (split; [exact Hc |]; split; [done |]).
  - apply createOrder_partial in H; [| apply Hwf].
    destruct r as [[res | b] | e | |]; cbn [createOrder_post] in H; try done; [| | rewrite H; by apply ChNothing].
    + destruct (isOk res); [destruct H as (o & _ & H); by eapply ChOrder |].
      destruct H as [-> | (_ & o & H)]; [by apply ChNothing | by eapply ChOrder].
    + destruct H as [-> _]. by apply ChNothing.
  - apply (wp_elim _ _ _ _ _ (handleCallback_partial customConfig req raw (srv s) Hwf)) in H.
    destruct r as [res | e | |]; cbn [handleCallback_post] in H; [| destruct H as (_ & _ & ->); by apply ChNothing
      | rewrite H; by apply ChNothing | done].
    destruct (isOk res).
    + destruct H as (_ & [(_ & -> & _) | (_ & H)]); [by apply ChNothing | by eapply ChPayment].
    + destruct H as (_ & [-> | (_ & _ & H)]); [by apply ChNothing | by eapply ChPayment].
  - apply (wp_elim _ _ _ _ _ (run_partial open_file day (srv s))) in H.
    destruct r as [res | e | |]; cbn [run_post] in H; try done; [| rewrite H; by apply ChNothing].
    destruct (isOk res).
    + destruct H as (c & rows & batch & _ & _ & _ & H). by eapply ChReconcile.
    + destruct H as [-> | (_ & rows & batch & H)]; [by apply ChNothing | by eapply ChReconcile].
  - apply (wp_elim _ _ _ _ _ (checkAndRun_partial open_file (srv s))) in H.
    destruct r as [u | e | |]; cbn [checkAndRun_post] in H;
      [| destruct H as (_ & -> & _); by apply ChNothing | rewrite H; by apply ChNothing | done].
    destruct H as [-> | (_ & _ & rows & batch & H)]; [by apply ChNothing | by eapply ChReconcile].
  - apply (wp_elim _ _ _ _ _ (handleDiff_partial id act rem (srv s) (proj1 Hwf))) in H.
    destruct r as [res | e | |]; cbn [handleDiff_post] in H; try done.
    + destruct (isOk res); [destruct H as (sta & H & _); by eapply ChHandle | destruct H as [-> _]; by apply ChNothing].
    + destruct H as (_ & [-> | (_ & sta & H)]); [by apply ChNothing | by eapply ChHandle].
  - destruct (relay_partial customConfig _ _ _ _ _ Hwf Hc H) as (Hpost & Hc' & Hmono).
    split; [done |]. split; [done |].
    destruct r as [[] | [| |] | |]; try done.
    + destruct Hpost as (now & _ & Ho & H2). by eapply ChOutbox.
    + destruct Hpost as [-> _]. by apply ChNothing.
    + destruct Hpost as (_ & _ & ->). by apply ChNothing.
  - apply process_partial in H.
    destruct H as [Hq | Hq | r m Hq Hr | mid no am n Hq Hg Hwhy | mid no am n Hq Hg Hcf | mid no am n Hq Hg Hcf Hf
      | mid no am n k ok Hq Hg Hcf req Hk | mid no am n k ok row Hq Hg Hcf req Hk Hrow Hf]; try by apply ChNothing.
    + by apply ChNotify.
    + by apply ChNotify.
    + by destruct Hrow as [-> | ->]; apply ChNotify.
Qed.

(** ** What every change preserves *)

Lemma handle_effect_wf id action remark s d d' : handle_effect id action remark s d d' -> db_wf d -> db_wf d'.
Proof.
  intros [s0 d0 t1 x t2 now Ha Ht Hid Hp] [K R]. destruct K, R. rewrite Ht in *.
  split; constructor; try done; cbn.
  - by rewrite (split_key dr_id _ x).
  - eapply split_Forall; [| exact wf_diff_auto]. rewrite Forall_app, Forall_cons in wf_diff_auto. by cbn; apply wf_diff_auto.
Qed.

Lemma add_notify_wf row d : existsb (notify_conflict row) (t_notify_record d) = false -> db_wf d -> db_wf (add_notify row d).
Proof.
  intros Hc [K R]. destruct K, R. split; constructor; try done; cbn.
  - eapply insert_NoDup; [| exact Hc | done]. intros x Hx. unfold notify_conflict.
    by rewrite (proj2 (sql_eq_iff _ _) Hx).
  - eapply insert_NoDup; [| exact Hc | done]. intros x Hx. unfold notify_conflict.
    by rewrite (proj2 (sql_eq_iff _ _) Hx), orb_true_r.
Qed.

Lemma change_wf {L : MySqlLaws} conf d d' : db_change conf d d' -> db_wf d -> db_wf d'.
Proof.
  intros [d0 | req o d0 d1 H | req raw d0 d1 H | day rows batch d0 d1 H | id act rem s d0 d1 H
    | rs d0 d1 Ho H | row d0 H] Hwf.
  - done.
  - by eapply order_effect_wf.
  - by eapply payment_effect_wf.
  - by eapply reconcile_effect_wf.
  - by eapply handle_effect_wf.
  - eapply outbox_wf; [exact Ho | by eapply relayed_keys | | done].
    eapply relayed_ok; [exact H |]. apply (wf_messages _ (proj2 Hwf)).
  - by apply add_notify_wf.
Qed.

(** Every change is a step of the books. *)
Lemma relayed_messages conf rs w d d' : Forall2 (relayed conf rs) (t_local_message d) (t_local_message d') ->
  messages w d' = messages w d.
Proof.
  unfold messages. intros H. induction H as [|x x' t t' Hx H IH]; [done |].
  unfold sum_of in *. cbn. rewrite IH. f_equal.
  by destruct Hx as [[-> _] | [_ [? ? | now ? ? ? | ? ? ?]]].
Qed.

Lemma change_books conf d d' : db_change conf d d' ->
  books_step d d' /\ (t_local_message d' = t_local_message d
    \/ (exists r, t_local_message d' = t_local_message d ++ [r] /\ mr_status r = kMsgPending)
    \/ exists rs, Forall2 (relayed conf rs) (t_local_message d) (t_local_message d')).
Proof.
  intros [d0 | req o d0 d1 H | req raw d0 d1 H | day rows batch d0 d1 H | id act rem s d0 d1 H
    | rs d0 d1 Ho H | row d0 H].
  - split; [by apply BooksSame; [split_and! |] | by left].
  - split; [by eapply BooksOrder | left]. by apply order_effect_pending in H as (_ & _ & _ & -> & _).
  - split; [by eapply BooksPayment | right; left]. destruct H. eexists. by split.
  - destruct H as (localRows & _ & Hb). destruct Hb. split; [by apply BooksSame; [split_and! |] | by left].
  - destruct H. split; [by apply BooksSame; [split_and! |] | by left].
  - split; [| right; right; by exists rs]. apply BooksSame; [| intros w; by eapply relayed_messages].
    unfold same_but_outbox in Ho. rewrite Ho. by split_and!.
  - split; [by apply BooksSame; [split_and! |] | by left].
Qed.

(** Every message marked delivered was confirmed by the broker. *)
Definition acked_confirmed (conf : list mq_message) (d : Db) : Prop :=
  Forall (fun r => mr_status r = kMsgAcked -> In (wire r) conf) (t_local_message d).

Lemma change_acked conf conf' d d' : (forall m, In m conf -> In m conf') -> db_change conf' d d' ->
  acked_confirmed conf d -> acked_confirmed conf' d'.
Proof.
  unfold acked_confirmed. intros Hmono Hch Hinv.
  assert (Hinv' : Forall (fun r => mr_status r = kMsgAcked -> In (wire r) conf') (t_local_message d)).
  { eapply Forall_impl; [exact Hinv |]. cbn. auto. }
  apply change_books in Hch as [_ [-> | [(r & -> & Hr) | [rs Hm]]]].
  - done.
  - apply Forall_app. split; [done |]. apply Forall_singleton. congruence.
  - induction Hm as [|x x' t t' Hx H IH]; [done |]. apply Forall_cons in Hinv' as [Hx0 Ht].
    apply Forall_cons in Hinv as [_ Hinv]. constructor; [| auto].
    destruct Hx as [[-> _] | [_ [? ? | now ? Hp ? | ? ? ?]]]; first [done | cbn; congruence].
Qed.

(** ** Reachable states *)

(** A property of the database that every change preserves holds for ever. *)
Lemma steps_preserve {L : MySqlLaws} (I : list mq_message -> Db -> Prop) :
  (forall conf conf' d d', (forall m, In m conf -> In m conf') -> db_wf d -> db_change conf' d d' ->
     I conf d -> I conf' d') ->
  forall s s', steps s s' -> db_wf (db_of s) -> client_inv (mq s) -> I (client_confirmed (mq s)) (db_of s) ->
  db_wf (db_of s') /\ I (client_confirmed (mq s')) (db_of s').
Proof.
  intros HI s s' Hs. induction Hs as [s | s u s' Hstep _ IH]; [done |]. intros Hwf Hc Hinv.
  destruct (step_change s u Hwf Hc Hstep) as (Hc' & Hmono & Hch). apply IH; [| done |].
  - by eapply change_wf.
  - by eapply HI.
Qed.

(** The tables stay well formed, and the books evolve by their steps. *)
Lemma steps_books {L : MySqlLaws} s s' : steps s s' -> db_wf (db_of s) -> client_inv (mq s) ->
  db_wf (db_of s') /\ rtc books_step (db_of s) (db_of s').
Proof.
  intros Hs Hwf Hc. apply (steps_preserve (fun _ d => rtc books_step (db_of s) d)) with (s := s); [| done..|].
  - intros conf conf' d d' _ _ Hch Hr. eapply rtc_r; [exact Hr | apply (change_books _ _ _ Hch)].
  - apply rtc_refl.
Qed.

(** ** The properties *)

(** Whatever happens, in any order and with any failures, the tables keep what
    the schema promises: unique keys (order and request numbers, one payment per
    channel trade number, one flow per request, one batch per day and channel, one
    notification per message), stock and balances in range and never negative,
    totals equal to price times quantity. *)
Theorem system_wf {L : MySqlLaws} s s' : steps s s' -> db_wf (db_of s) -> client_inv (mq s) -> db_wf (db_of s').
Proof. intros Hs Hwf Hc. apply (steps_books s s' Hs Hwf Hc). Qed.

(** No product is oversold: in every reachable state the pieces in stock and
    the pieces in orders add up to what they were, and the stock is not negative. *)
Theorem no_oversell {L : MySqlLaws} s s' pid : steps s s' -> db_wf (db_of s) -> client_inv (mq s) ->
  in_stock pid (db_of s') + in_orders pid (db_of s') = in_stock pid (db_of s) + in_orders pid (db_of s)
  /\ 0 <= in_stock pid (db_of s').
Proof.
  intros Hs Hwf Hc. destruct (steps_books s s' Hs Hwf Hc) as [Hwf' Hb].
  split; [by apply books_steps_stock | by apply stock_nonneg].
Qed.

(** Money is conserved: for each user, what the accounts hold and what the paid
    orders cost add up to what they were, and no account is overdrawn. *)
Theorem money_conserved {L : MySqlLaws} s s' uid : steps s s' -> db_wf (db_of s) -> client_inv (mq s) ->
  balance_of uid (db_of s') + spent uid (db_of s') = balance_of uid (db_of s) + spent uid (db_of s)
  /\ 0 <= balance_of uid (db_of s').
Proof.
  intros Hs Hwf Hc. destruct (steps_books s s' Hs Hwf Hc) as [Hwf' Hb].
  split; [by apply books_steps_money | by apply balance_nonneg].
Qed.

(** Paid exactly once: if the books agree, they agree for ever - each order
    number has as many payments, account flows and outbox messages as paid orders,
    of the same amounts - and that number is at most one, however often the channel
    repeats its callback. *)
Theorem paid_once {L : MySqlLaws} s s' w : steps s s' -> db_wf (db_of s) -> client_inv (mq s) ->
  ledger_inv (db_of s) ->
  ledger_inv (db_of s') /\ 0 <= payments w (fun _ => 1) (db_of s') <= 1
  /\ 0 <= flows w (fun _ => 1) (db_of s') <= 1 /\ 0 <= messages w (db_of s') <= 1.
Proof.
  intros Hs Hwf Hc Hl. destruct (steps_books s s' Hs Hwf Hc) as [Hwf' Hb].
  pose proof (books_steps_ledger _ _ Hb Hl) as Hl'. split; [done |].
  destruct (Hl' w) as (-> & -> & -> & _). pose proof (paid_at_most_once w _ Hwf'). done.
Qed.

(** The history of orders: an order once placed is never lost, and never
    changes except to become paid, once, with its price, quantity and owner
    untouched; a paid order stays as it is. *)
Theorem order_history {L : MySqlLaws} s s' : steps s s' -> db_wf (db_of s) -> client_inv (mq s) ->
  exists kept new, t_order (db_of s') = kept ++ new /\ Forall2 order_later (t_order (db_of s)) kept.
Proof.
  intros Hs Hwf Hc. apply books_steps_orders. by apply (steps_books s s' Hs Hwf Hc).
Qed.

(** At least once: in every reachable state, a message marked delivered has been
    confirmed by the broker with the bytes of its row. *)
Theorem delivered_confirmed {L : MySqlLaws} s s' : steps s s' -> db_wf (db_of s) -> client_inv (mq s) ->
  acked_confirmed (client_confirmed (mq s)) (db_of s) ->
  acked_confirmed (client_confirmed (mq s')) (db_of s').
Proof.
  intros Hs Hwf Hc Ha. apply (steps_preserve acked_confirmed) with (s := s); [| done..].
  intros conf conf' d d' Hm _ Hch. by apply (change_acked _ _ _ _ Hm Hch).
Qed.
End System.

(** ** Witnesses *)

(** A day of the shop: an order, its payment, the payment's callback again, a round
    of the relay, the delivery of the message, and the bill of the day. *)
Definition day_start : Sys := mkSys (Server.fresh_state Server.shop) None [].

Definition day_order (s : Sys) : Sys := mkSys (run_order Server.tea_request (srv s)).2 (mq s) (sent_log s).
Definition day_callback (s : Sys) : Sys := mkSys (run_callback sample_callback (srv s)).2 (mq s) (sent_log s).
Definition day_relay (s : Sys) : Sys :=
  let x := relay (D := Server.lib) (J := Tree.lib) (E := Server.calm) (B := willing) sample_config (srv s) (mq s) in
  mkSys x.1.2 x.2 (sent_log s).
Definition day_consume (s : Sys) : Sys :=
  let x := run_process (srv s, sent_log s) in mkSys x.2.1 (mq s) x.2.2.

Definition day_end : Sys := day_consume (day_relay (day_callback (day_callback (day_order day_start)))).

Definition day_step : Sys -> Sys -> Prop :=
  step (D := Server.lib) (J := Tree.lib) (O := SignUtil.Plain.lib) (E := Server.calm) (B := willing)
    (Mc := slow_merchant) sample_config sample_files "http://localhost:8080".

Lemma day_order_step s : day_step s (day_order s).
Proof. unfold day_order, run_order. eapply StepOrder. apply surjective_pairing. Qed.

Lemma day_callback_step s : day_step s (day_callback s).
Proof. unfold day_callback, run_callback. eapply StepCallback. apply surjective_pairing. Qed.

Lemma pair3 {X Y Z : Type} (x : X * Y * Z) : x = (x.1.1, x.1.2, x.2).
Proof. by destruct x as [[? ?] ?]. Qed.

Lemma pair3' {X Y Z : Type} (x : X * (Y * Z)) : x = (x.1, (x.2.1, x.2.2)).
Proof. by destruct x as [? [? ?]]. Qed.

Lemma day_relay_step s : day_step s (day_relay s).
Proof. unfold day_relay. eapply StepRelay. apply pair3. Qed.

Lemma day_consume_step s : day_step s (day_consume s).
Proof. unfold day_consume, run_process. eapply StepConsume. apply pair3'. Qed.

Lemma day_after_order : rtc day_step (day_order day_start) day_end.
Proof.
  unfold day_end.
  apply (rtc_l _ _ (day_callback (day_order day_start)) _ (day_callback_step _)).
  apply (rtc_l _ _ (day_callback (day_callback (day_order day_start))) _ (day_callback_step _)).
  apply (rtc_l _ _ (day_relay (day_callback (day_callback (day_order day_start)))) _ (day_relay_step _)).
  apply rtc_once, day_consume_step.
Qed.

Lemma day_happens : rtc day_step day_start day_end.
Proof. exact (rtc_l _ _ (day_order day_start) _ (day_order_step _) day_after_order). Qed.

Lemma shop_ledger : ledger_inv (D := Server.lib) Server.shop.
Proof. intros w. by split_and!. Qed.

Lemma system_wf_witness : db_wf (D := Server.lib) (db_of day_end).
Proof.
  exact (system_wf (D := Server.lib) (J := Tree.lib) (O := SignUtil.Plain.lib) (E := Server.calm) (B := willing)
    (Mc := slow_merchant) sample_config sample_files "http://localhost:8080" (L := Server.lib_laws)
    day_start day_end day_happens Server.shop_wf I).
Defined.

Lemma no_oversell_witness : in_stock 1 (db_of day_end) = 7 /\ in_orders 1 (db_of day_end) = 3
  /\ in_stock 1 (db_of day_end) + in_orders 1 (db_of day_end) = 10.
Proof.
  split; [by vm_compute |]. split; [by vm_compute |].
  exact (proj1 (no_oversell (D := Server.lib) (J := Tree.lib) (O := SignUtil.Plain.lib) (E := Server.calm)
    (B := willing) (Mc := slow_merchant) sample_config sample_files "http://localhost:8080" (L := Server.lib_laws)
    day_start day_end 1 day_happens Server.shop_wf I)).
Defined.

Lemma money_conserved_witness : spent 7 (db_of day_end) = 5997
  /\ balance_of 7 (db_of day_end) + spent 7 (db_of day_end) = 100000.
Proof.
  split; [by vm_compute |].
  exact (proj1 (money_conserved (D := Server.lib) (J := Tree.lib) (O := SignUtil.Plain.lib) (E := Server.calm)
    (B := willing) (Mc := slow_merchant) sample_config sample_files "http://localhost:8080" (L := Server.lib_laws)
    day_start day_end 7 day_happens Server.shop_wf I)).
Defined.

(** The callback came twice. *)
Lemma paid_once_witness : payments (D := Server.lib) "132633958813929472" (fun _ => 1) (db_of day_end) = 1
  /\ ledger_inv (D := Server.lib) (db_of day_end).
Proof.
  split; [by vm_compute |].
  exact (proj1 (paid_once (D := Server.lib) (J := Tree.lib) (O := SignUtil.Plain.lib) (E := Server.calm)
    (B := willing) (Mc := slow_merchant) sample_config sample_files "http://localhost:8080" (L := Server.lib_laws)
    day_start day_end "132633958813929472" day_happens Server.shop_wf I shop_ledger)).
Defined.

Lemma order_wf : db_wf (D := Server.lib) (db_of (day_order day_start)).
Proof.
  exact (proj1 (steps_books (D := Server.lib) (J := Tree.lib) (O := SignUtil.Plain.lib) (E := Server.calm) (B := willing)
    (Mc := slow_merchant) sample_config sample_files "http://localhost:8080" (L := Server.lib_laws)
    day_start (day_order day_start) (rtc_once _ _ (day_order_step day_start)) Server.shop_wf I)).
Qed.

Lemma order_history_witness : exists o, t_order (db_of (day_order day_start)) = [o]
  /\ exists kept new, t_order (db_of day_end) = kept ++ new /\ Forall2 order_later [o] kept.
Proof.
  eexists. split; [vm_compute; reflexivity |].
  exact (order_history (D := Server.lib) (J := Tree.lib) (O := SignUtil.Plain.lib) (E := Server.calm)
    (B := willing) (Mc := slow_merchant) sample_config sample_files "http://localhost:8080" (L := Server.lib_laws)
    (day_order day_start) day_end day_after_order
    order_wf I).
Defined.

Lemma delivered_confirmed_witness :
  map mr_status (t_local_message (db_of day_end)) = [kMsgAcked]
  /\ acked_confirmed (client_confirmed (mq day_end)) (db_of day_end).
Proof.
  split; [by vm_compute |].
  exact (delivered_confirmed (D := Server.lib) (J := Tree.lib) (O := SignUtil.Plain.lib) (E := Server.calm)
    (B := willing) (Mc := slow_merchant) sample_config sample_files "http://localhost:8080" (L := Server.lib_laws)
    day_start day_end day_happens Server.shop_wf I (Forall_nil_2 _)).
Defined.
