(* ===== verification/EndToEnd.v ===== *)
(** * EndToEnd: from the payment to the merchant

    The chain through four components: a callback pays an order and leaves a message
    in the outbox ([PaymentService]), the relay publishes it ([MessageRelay]), the
    broker delivers it any number of times, the consumer tells the merchant
    ([NotifyConsumer]).  What the merchant hears is true, and each order is told
    with one request. *)

From stdpp Require Import relations.
From S2P Require Import Prelude MoneyUtil IdGenerator JsonValue Result RequestId BeijingTime SignUtil Models.
From S2P Require Import Database Transaction Daos Invariant Server OrderService PaymentService Books.
From S2P Require Import Reconcile ReconcileService MqClient MessageRelay NotifyConsumer ReconcileTask System.

Lemma Forall2_In_r {X Y : Type} (P : X -> Y -> Prop) l l' y : Forall2 P l l' -> In y l' -> exists x, In x l /\ P x y.
Proof.
  induction 1 as [| a b l l' Hab _ IH]; [done |]. intros [<- | Hy]; [exists a; split; [by left | done] |].
  destruct (IH Hy) as (x & Hx & Hxy). exists x. split; [by right | done].
Qed.

Lemma Forall2_In_l {X Y : Type} (P : X -> Y -> Prop) l l' x : Forall2 P l l' -> In x l -> exists y, In y l' /\ P x y.
Proof. intros H Hx. apply Forall2_flip in H. by apply (Forall2_In_r _ _ _ x H). Qed.

Section EndToEnd.
Context {D : MySql} {J : JsonCpp} {O : OpenSsl} {E : Env} {B : Broker} {Mc : Merchant}.
Context (customConfig : jvalue) (open_file : string -> option string) (notifyBaseUrl : string).


(** The queue holds what the relay publishes: the bytes of a row of the outbox.
    The broker may deliver them at any time, again, and in any order. *)
Definition deliverable (d : Db) (body : string) : Prop :=
  exists r, In r (t_local_message d) /\ body = (wire r).2.

Inductive chain_step : Sys -> Sys -> Prop :=
  | ChainServer s s' : step customConfig open_file notifyBaseUrl s s' -> sent_log s' = sent_log s -> chain_step s s'
  | ChainDelivery body s r st' log' : deliverable (db_of s) body ->
      process notifyBaseUrl body (srv s, sent_log s) = (r, (st', log')) -> chain_step s (mkSys st' (mq s) log').

Definition chain : Sys -> Sys -> Prop := rtc chain_step.

Lemma chain_step_step s s' : chain_step s s' -> step customConfig open_file notifyBaseUrl s s'.
Proof. intros [? ? H _ | body ? r st' log' _ H]; [done | by eapply StepConsume]. Qed.

Lemma chain_steps s s' : chain s s' -> steps customConfig open_file notifyBaseUrl s s'.
Proof. induction 1 as [|s u s' H _ IH]; [apply rtc_refl |]. eapply rtc_l; [by apply chain_step_step | done]. Qed.

(** ** The outbox tells of paid orders *)

Record vouches (o : OrderRow) (r : MessageRow) : Prop := {
  vo_paid : or_status o = kPaid;
  vo_biz : weight (mr_biz_id r) = weight (or_order_no o);
  vo_payload : exists o', mr_payload r = message_payload (mr_message_id r) o'
    /\ o_orderNo o' = or_order_no o /\ o_totalAmountFen o' = or_total_amount o
    /\ in_i64 (o_totalAmountFen o') /\ in_i64 (o_userId o')
}.

Definition outbox_true (d : Db) : Prop :=
  forall r, In r (t_local_message d) -> exists o, In o (t_order d) /\ vouches o r.

Lemma orders_kept_paid t t' o : orders_kept t t' -> In o t -> or_status o = kPaid -> In o t'.
Proof.
  intros (kept & new & -> & H) Hin Hp. apply in_app_iff. left. induction H as [|x y t k Hxy _ IH]; [done |].
  destruct Hin as [-> | Hin]; [| right; auto]. destruct Hxy as [-> | [Hpend _]]; [by left | congruence].
Qed.

Lemma vouches_same o r r' : mr_message_id r' = mr_message_id r -> mr_biz_id r' = mr_biz_id r ->
  mr_payload r' = mr_payload r -> vouches o r -> vouches o r'.
Proof. intros E1 E2 E3 [H1 H2 H3]. split; [done | by rewrite E2 |]. by rewrite E1, E3. Qed.

Lemma relayed_same conf rs r r' : relayed conf rs r r' ->
  mr_message_id r' = mr_message_id r /\ mr_biz_id r' = mr_biz_id r /\ mr_payload r' = mr_payload r.
Proof. by intros [[-> _] | [_ [? ? | now ? ? ? | ? ? ?]]]. Qed.

Lemma order_ok_i64 o : order_ok o -> in_i64 (or_total_amount o) /\ in_i64 (u64 (or_user_id o)).
Proof.
  intros (Hq & Hp & Ht & Hu & _). unfold in_i64, price_limit, u64 in *. rewrite Ht.
  rewrite Z.mod_small by lia. nia.
Qed.

Lemma change_outbox_true conf d d' : db_wf d -> db_change conf d d' -> outbox_true d -> outbox_true d'.
Proof.
  intros Hwf Hch Ho. pose proof (books_orders _ _ (proj1 (change_books _ _ _ Hch))) as Hkept.
  assert (Hold : forall r r', In r (t_local_message d) -> mr_message_id r' = mr_message_id r ->
    mr_biz_id r' = mr_biz_id r -> mr_payload r' = mr_payload r -> exists o, In o (t_order d') /\ vouches o r').
  { intros r r' Hr E1 E2 E3. destruct (Ho r Hr) as (o & Hin & Hv). exists o.
    split; [eapply orders_kept_paid; [exact Hkept | done | apply Hv] | by eapply vouches_same]. }
  destruct Hch as [d0 | req o d0 d1 H | req raw d0 d1 H | day rows batch d0 d1 H | id act rem s d0 d1 H
    | rs d0 d1 Hsame H | row d0 H]; intros r Hr.
  - by eapply Hold.
  - apply order_effect_pending in H as (_ & _ & _ & Hm & _). rewrite Hm in Hr. by eapply Hold.
  - destruct H as [d0 o1 o o2 a1 a a2 amount now now' cbt pno mid ex rk py Hto Hno Hpend Hamt Htot Hpos
      Hta Hu Hst Hbal Htime Hpy Hpc fr Hfc Hm].
    cbn [t_local_message set_local_message] in Hr. apply in_app_iff in Hr as [Hr | [<- | []]]; [by eapply Hold |].
    exists (paid_row now o). split; [apply in_app_iff; right; by left |].
    assert (Hok : order_ok o).
    { pose proof (wf_orders _ (proj2 Hwf)) as Hall. rewrite List.Forall_forall in Hall. apply Hall.
      rewrite Hto. apply in_app_iff. right. by left. }
    destruct (order_ok_i64 _ Hok). apply sql_eq_iff in Hno.
    split; [done | by symmetry | by exists (order_of_row o)].
  - destruct H as (localRows & _ & Hb). destruct Hb. by eapply Hold.
  - destruct H. by eapply Hold.
  - destruct (Forall2_In_r _ _ _ r H Hr) as (r0 & Hin & Hx%relayed_same). destruct Hx as (? & ? & ?). by eapply Hold.
  - by eapply Hold.
Qed.

(** ** The merchant hears what the outbox says *)

(** The request [q] tells the message [r], under the number of its row [n]. *)
Definition tells (q : HttpReq) (r : MessageRow) (n : NotifyRow) : Prop :=
  exists amount, parse_message (wire r).2 = Some (Some (nr_message_id n, nr_order_no n, amount))
  /\ q = merchant_request notifyBaseUrl (nr_notify_no n) (nr_order_no n) amount.

Definition log_true (d : Db) (log : list HttpReq) : Prop :=
  forall q, In q log -> exists r n, In r (t_local_message d) /\ In n (t_notify_record d) /\ tells q r n.

(** The messages and the notifications of [d] are in [d'], but for their states. *)
Record rows_kept (d d' : Db) : Prop := {
  rk_messages r : In r (t_local_message d) -> exists r', In r' (t_local_message d') /\ mr_payload r' = mr_payload r;
  rk_notify n : In n (t_notify_record d) -> In n (t_notify_record d')
}.

Lemma log_true_kept d d' log : rows_kept d d' -> log_true d log -> log_true d' log.
Proof.
  intros [Hm Hn] H q (r & n & Hr & Hin & (amount & Hp & Hq))%H. destruct (Hm r Hr) as (r' & Hr' & Hpay).
  exists r', n. split; [done |]. split; [by apply Hn |]. exists amount. unfold wire in *. cbn [snd] in *. by rewrite Hpay.
Qed.

Lemma change_rows_kept conf d d' : db_change conf d d' -> rows_kept d d'.
Proof.
  intros [d0 | req o d0 d1 H | req raw d0 d1 H | day rows batch d0 d1 H | id act rem s d0 d1 H
    | rs d0 d1 Hsame H | row d0 H].
  - split; [by eauto | done].
  - destruct H. split; [by eauto | done].
  - destruct H. split; [| done]. intros r Hr. exists r. cbn. rewrite in_app_iff. auto.
  - destruct H as (localRows & _ & Hb). destruct Hb. split; [by eauto | done].
  - destruct H. split; [by eauto | done].
  - split.
    + intros r Hr. destruct (Forall2_In_l _ _ _ r H Hr) as (r' & Hin & Hx%relayed_same). exists r'. by split; [| apply Hx].
    + unfold same_but_outbox in Hsame. rewrite Hsame. done.
  - split; [by eauto |]. intros n Hn. cbn. rewrite in_app_iff. auto.
Qed.

(** A delivery adds requests that tell its message. *)
Lemma delivery_log_true body st log r st' log' : deliverable (committed st) body -> log_true (committed st) log ->
  process notifyBaseUrl body (st, log) = (r, (st', log')) -> log_true (committed st') log'.
Proof.
  intros (m & Hm & ->) Hlog Hp. apply process_partial in Hp. remember (committed st') as d' eqn:Hd'.
  assert (Hadd : forall mid no am n row k, parse_message (wire m).2 = Some (Some (mid, no, am)) ->
    nr_notify_no row = n -> nr_message_id row = mid -> nr_order_no row = no ->
    log_true (add_notify row (committed st)) (log ++ replicate k (merchant_request notifyBaseUrl n no am))).
  { intros mid no am n row k Hq <- <- <- q [Hin | Hin]%in_app_iff.
    - revert q Hin. change (log_true (add_notify row (committed st)) log). eapply log_true_kept; [| exact Hlog].
      split; [by eauto |]. intros x Hx. cbn. rewrite in_app_iff. auto.
    - apply list_elem_of_In, elem_of_replicate_inv in Hin as ->. exists m, row. cbn. rewrite in_app_iff. split; [done |].
      split; [right; by left |]. by exists am. }
  destruct Hp as [Hq | Hq | r m0 Hq Hr | mid no am n Hq Hg Hwhy | mid no am n Hq Hg Hcf | mid no am n Hq Hg Hcf Hf
    | mid no am n k ok Hq Hg Hcf req Hk | mid no am n k ok row Hq Hg Hcf req Hk Hrow Hf]; try done.
  - rewrite <- (app_nil_r log). by apply (Hadd mid no am n _ 0%nat).
  - by apply (Hadd mid no am n _ k).
  - destruct Hrow as [-> | ->]; by apply (Hadd mid no am n _ k).
Qed.

(** ** The chain *)

Lemma chain_true {L : MySqlLaws} s s' : chain s s' -> db_wf (db_of s) -> client_inv (mq s) ->
  outbox_true (db_of s) -> log_true (db_of s) (sent_log s) ->
  outbox_true (db_of s') /\ log_true (db_of s') (sent_log s').
Proof.
  induction 1 as [s | s u s' Hstep _ IH]; [done |]. intros Hwf Hc Ho Hl.
  destruct (step_change customConfig open_file notifyBaseUrl s u Hwf Hc (chain_step_step _ _ Hstep)) as (Hc' & _ & Hch).
  apply IH; [by eapply change_wf | done | by eapply change_outbox_true |].
  destruct Hstep as [s u Hs Hlog | body s r st' log' Hd Hp].
  - rewrite Hlog. eapply log_true_kept; [by eapply change_rows_kept | done].
  - by eapply delivery_log_true.
Qed.

(** The request [q] tells the payment of the order [o]. *)
Definition told (d : Db) (q : HttpReq) (o : OrderRow) : Prop :=
  exists r n, In r (t_local_message d) /\ vouches o r /\ In n (t_notify_record d) /\ tells q r n.

(** The identifiers in the outbox and the order numbers are printable, and the
    payloads have no NUL byte. *)
Definition printed (d : Db) : Prop :=
  Forall (fun r => str_all printable (mr_message_id r) = true /\ c_str (mr_payload r) = mr_payload r) (t_local_message d)
  /\ Forall (fun o => str_all printable (or_order_no o) = true) (t_order d).

Definition printed_dec (d : Db) : bool :=
  forallb (fun r => str_all printable (mr_message_id r) && String.eqb (c_str (mr_payload r)) (mr_payload r)) (t_local_message d)
  && forallb (fun o => str_all printable (or_order_no o)) (t_order d).

Lemma printed_check d : printed_dec d = true -> printed d.
Proof.
  intros [Hm Ho]%andb_true_iff. rewrite forallb_forall in Hm, Ho. split; apply List.Forall_forall; [| exact Ho].
  intros r [H1 H2%String.eqb_eq]%Hm%andb_true_iff. by split.
Qed.

(** What a message that vouches for an order says. *)
Lemma vouches_parse {JL : JsonCppLaws} d o r : printed d -> In o (t_order d) -> In r (t_local_message d) ->
  vouches o r -> parse_message (wire r).2
    = Some (Some (mr_message_id r, or_order_no o, fenToYuanString (or_total_amount o))).
Proof.
  intros [Hm Ho] Hino Hinr [_ _ (o' & Hpay & Hno & Htot & Ht & Hu)]. rewrite List.Forall_forall in Hm, Ho.
  destruct (Hm r Hinr) as [Hid Hc]. specialize (Ho o Hino). cbn [wire snd]. rewrite Hc, Hpay.
  rewrite message_payload_parse by (done || by rewrite Hno). by rewrite Hno, Htot.
Qed.

(** A request that tells a row of the outbox tells the payment of an order. *)
Lemma heard_told {JL : JsonCppLaws} d q : outbox_true d -> printed d ->
  (exists r n, In r (t_local_message d) /\ In n (t_notify_record d) /\ tells q r n) ->
  exists o n, In o (t_order d) /\ or_status o = kPaid /\ told d q o
    /\ q = merchant_request notifyBaseUrl n (or_order_no o) (fenToYuanString (or_total_amount o)).
Proof.
  intros Ho Hprint (r & n & Hr & Hn & Ht). destruct (Ho r Hr) as (o & Hin & Hv).
  exists o, (nr_notify_no n). split; [done |]. split; [apply Hv |]. split; [by exists r, n |].
  destruct Ht as (amount & Hp & ->). rewrite (vouches_parse _ o r Hprint Hin Hr Hv) in Hp.
  by injection Hp as _ <- <-.
Qed.

(** An order has one message. *)
Lemma one_message {L : MySqlLaws} d o r r' : db_wf d -> ledger_inv d ->
  In r (t_local_message d) -> vouches o r -> In r' (t_local_message d) -> vouches o r' -> r = r'.
Proof.
  intros Hwf Hl Hr Hv Hr' Hv'.
  apply (count_unique (fun m => of_order (weight (or_order_no o)) (mr_biz_id m)) (t_local_message d));
    [| done | done | unfold of_order; by rewrite (vo_biz _ _ Hv), bool_decide_eq_true
     | unfold of_order; by rewrite (vo_biz _ _ Hv'), bool_decide_eq_true].
  destruct (Hl (weight (or_order_no o))) as (_ & _ & Hm & _). unfold messages in Hm. rewrite Hm.
  by apply paid_at_most_once.
Qed.

(** The requests that tell of an order are one request. *)
Lemma told_once {L : MySqlLaws} d o q q' : db_wf d -> ledger_inv d -> told d q o -> told d q' o -> q = q'.
Proof.
  intros Hwf Hl (r & n & Hr & Hv & Hn & (am & Hp & ->)) (r' & n' & Hr' & Hv' & Hn' & (am' & Hp' & ->)).
  assert (r = r') as <- by (by eapply one_message).
  rewrite Hp in Hp'. injection Hp' as Hid Hno ->.
  assert (n = n') as <-; [| done].
  eapply (key_unique (fun n => weight (nr_message_id n)));
    [apply (wf_notify_message _ (proj1 Hwf)) | done | done | by rewrite Hid].
Qed.

(** What the merchant hears, through the callback, the outbox, the broker and
    the consumer, with any failures, retries and redeliveries: every request tells
    the number and the amount of an order that has been paid, and all the requests
    that tell of an order are the same request, under one notification number. *)
Theorem merchant_told {L : MySqlLaws} {JL : JsonCppLaws} s s' : chain s s' ->
  db_wf (db_of s) -> client_inv (mq s) -> ledger_inv (db_of s) ->
  outbox_true (db_of s) -> log_true (db_of s) (sent_log s) -> printed (db_of s') ->
  (forall q, In q (sent_log s') -> exists o n,
     In o (t_order (db_of s')) /\ or_status o = kPaid /\ told (db_of s') q o
     /\ q = merchant_request notifyBaseUrl n (or_order_no o) (fenToYuanString (or_total_amount o)))
  /\ forall o q q', told (db_of s') q o -> told (db_of s') q' o -> q = q'.
Proof.
  intros Hch Hwf Hc Hl Ho Hlog Hprint.
  destruct (chain_true s s' Hch Hwf Hc Ho Hlog) as [Ho' Hlog'].
  destruct (steps_books _ _ _ s s' (chain_steps _ _ Hch) Hwf Hc) as [Hwf' Hb].
  pose proof (books_steps_ledger _ _ Hb Hl) as Hl'. split.
  - intros q Hq. by apply heard_told; [.. | apply Hlog'].
  - intros o q q'. by apply told_once.
Qed.
End EndToEnd.

(** ** Witness: the day of the shop, with a second delivery *)

Definition shop_chain : Sys -> Sys -> Prop :=
  chain (D := Server.lib) (J := Tree.lib) (O := SignUtil.Plain.lib) (E := Server.calm) (B := willing)
    (Mc := slow_merchant) sample_config sample_files "http://localhost:8080".

Definition queue_body (s : Sys) : string :=
  match t_local_message (db_of s) with r :: _ => (wire r).2 | [] => "" end.

Definition deliver (s : Sys) : Sys :=
  let x := process (D := Server.lib) (J := Tree.lib) (E := Server.calm) (Mc := slow_merchant)
             "http://localhost:8080" (queue_body s) (srv s, sent_log s) in
  mkSys x.2.1 (mq s) x.2.2.

Definition paid_day : Sys := day_relay (day_callback (day_order day_start)).
Definition told_day : Sys := deliver (deliver paid_day).

Lemma deliver_step s : t_local_message (db_of s) <> [] ->
  chain_step (D := Server.lib) (J := Tree.lib) (O := SignUtil.Plain.lib) (E := Server.calm) (B := willing)
    (Mc := slow_merchant) sample_config sample_files "http://localhost:8080" s (deliver s).
Proof.
  intros Hne. eapply (ChainDelivery (J := Tree.lib) sample_config sample_files "http://localhost:8080" (queue_body s)).
  - unfold deliverable, queue_body. destruct (t_local_message (db_of s)) as [|r t]; [done |]. exists r. split; [by left | done].
  - apply pair3'.
Qed.

Lemma told_day_chain : shop_chain day_start told_day.
Proof.
  unfold shop_chain, told_day, paid_day.
  eapply rtc_l; [apply ChainServer; [apply day_order_step | reflexivity] |].
  eapply rtc_l; [apply ChainServer; [apply day_callback_step | reflexivity] |].
  eapply rtc_l; [apply ChainServer; [apply day_relay_step | reflexivity] |].
  eapply rtc_l; [apply deliver_step; by vm_compute |].
  apply rtc_once, deliver_step. by vm_compute.
Qed.

Lemma told_day_printed : printed (db_of told_day).
Proof. apply printed_check. by vm_compute. Qed.

Lemma merchant_told_witness : length (sent_log told_day) = 3%nat
  /\ forall q, In q (sent_log told_day) -> exists o n, In o (t_order (db_of told_day)) /\ or_status o = kPaid
       /\ q = merchant_request (J := Tree.lib) "http://localhost:8080" n (or_order_no o)
                (fenToYuanString (or_total_amount o)).
Proof.
  split; [by vm_compute |]. intros q Hq.
  destruct (proj1 (merchant_told (D := Server.lib) (J := Tree.lib) (O := SignUtil.Plain.lib) (E := Server.calm)
    (B := willing) (Mc := slow_merchant) sample_config sample_files "http://localhost:8080" (L := Server.lib_laws)
    (JL := Tree.lib_laws) day_start told_day told_day_chain Server.shop_wf I shop_ledger
    (fun r Hr => match Hr with end) (fun q Hq => match Hq with end) told_day_printed) q Hq)
    as (o & n & Ho & Hp & _ & Hreq).
  exists o, n. split; [exact Ho |]. split; [exact Hp | exact Hreq].
Defined.
