(* ===== verification/Concurrency.v ===== *)
(** * Concurrency: the services side by side

    The programs of [OrderService] and [PaymentService], and the statements of the
    relay and of the consumer, as threads of [Interleaving]. *)

From stdpp Require Import relations.
From S2P Require Import Prelude MoneyUtil IdGenerator JsonValue Result RequestId BeijingTime SignUtil Models.
From S2P Require Import Database Transaction Daos Invariant Locks Interleaving RelyGuarantee Server OrderService PaymentService Books.
From S2P Require Import Reconcile ReconcileService MqClient MessageRelay NotifyConsumer System.

(** ** Reading a snapshot *)

Lemma overlay_table_In {R K : Type} `{EqDecision R, EqDecision K} (key : R -> K) snap base work r :
  In r (overlay_table key snap base work) -> In r snap \/ (In r work /\ ~ In r base).
Proof.
  unfold overlay_table. intros (x & Hx & Hr)%in_flat_map. unfold overlay_row in Hr.
  case_bool_decide as Hb.
  - destruct (find _ snap) as [y|] eqn:Hf; [| done]. destruct Hr as [<- | []].
    apply find_some in Hf as [Hin _]. by left.
  - destruct Hr as [<- | []]. right. split; [done | by rewrite <- list_elem_of_In].
Qed.

Lemma head_select {R : Type} (p : R -> bool) t r : head (sql_select p t) = Some r -> In r t /\ p r = true.
Proof.
  intros H. apply sql_select_In. destruct (sql_select p t) as [|x l]; [done |]. injection H as <-. by left.
Qed.

(** A snapshot that is not stale shows the transaction's own view. *)

Lemma NoDup_of_image {R K K' : Type} (f : R -> K) (g : K -> K') (t : list R) :
  NoDup (map (fun r => g (f r)) t) -> NoDup (map f t).
Proof. intros H. apply (NoDup_fmap_1 g). by rewrite <- list_fmap_compose. Qed.

Lemma find_own {R K : Type} `{EqDecision K} (key : R -> K) t r : NoDup (map key t) -> r ∈ t ->
  find (fun x => bool_decide (key x = key r)) t = Some r.
Proof.
  intros Hnd Hr. induction t as [|x t IH]; [by apply elem_of_nil in Hr |]. cbn [find map] in *.
  apply NoDup_cons in Hnd as [Hx Hnd]. apply elem_of_cons in Hr as [-> | Hr].
  - by rewrite bool_decide_eq_true_2.
  - rewrite bool_decide_eq_false_2; [by apply IH |]. intros E. apply Hx. rewrite E.
    apply list_elem_of_fmap. by exists r.
Qed.

Lemma overlay_table_same {R K : Type} `{EqDecision R, EqDecision K} (key : R -> K) base work :
  NoDup (map key base) -> overlay_table key base base work = work.
Proof.
  intros Hnd. unfold overlay_table. induction work as [|r work IH]; [done |]. cbn [flat_map]. rewrite IH.
  unfold overlay_row. case_bool_decide as Hr; [| done]. by rewrite find_own.
Qed.

Lemma overlay_same {D : MySql} d work : keys_wf d -> overlay d d work = work.
Proof.
  intros K. unfold overlay. rewrite !overlay_table_same; [by destruct work | ..];
    first [apply K | eapply (NoDup_of_image _ weight), K | eapply (NoDup_of_image _ snd), (wf_account_user d K)
      | eapply (NoDup_of_image _ (fun p => (weight p.1, p.2))), K].
Qed.

(** ** The protocol *)

(** What the threads may take for confirmed by the broker.  A message is marked as
    acknowledged only when it is; where nothing is known of the broker, every message
    may be taken for confirmed. *)
Class Oversight := { confirmed_msg : mq_message -> Prop }.

#[export] Instance trusting : Oversight | 100 := {| confirmed_msg := fun _ => True |}.

Section Protocol.
Context {D : MySql} {J : JsonCpp} {Ov : Oversight}.

(** What the relay changes of a message. *)
Definition same_message (r r' : MessageRow) : Prop :=
  mr_message_id r' = mr_message_id r /\ mr_biz_type r' = mr_biz_type r /\ mr_biz_id r' = mr_biz_id r
  /\ mr_exchange r' = mr_exchange r /\ mr_routing_key r' = mr_routing_key r /\ mr_payload r' = mr_payload r.

#[export] Instance same_message_preorder : PreOrder same_message.
Proof.
  split; [done |]. intros x y z (? & ? & ? & ? & ? & ?) (? & ? & ? & ? & ? & ?). split_and!; congruence.
Qed.

(** What the consumer does not change of a notification. *)
Definition same_notify (n n' : NotifyRow) : Prop :=
  nr_notify_no n' = nr_notify_no n /\ nr_order_no n' = nr_order_no n /\ nr_message_id n' = nr_message_id n.

#[export] Instance same_notify_preorder : PreOrder same_notify.
Proof. split; [done |]. intros x y z (? & ? & ?) (? & ? & ?). split_and!; congruence. Qed.

(** What the relay does to a message. *)
Definition outbox_step (r r' : MessageRow) : Prop :=
  same_message r r' /\ (mr_status r' = kMsgAcked -> mr_status r = kMsgAcked \/ confirmed_msg (wire r))
  /\ (mr_retry_count r' = mr_retry_count r \/ 0 <= mr_retry_count r' < kMaxRetries).

(** Every row of [t] has a later version in [t']. *)
Definition rows_later {R : Type} (P : R -> R -> Prop) (t t' : list R) : Prop :=
  forall x, In x t -> exists y, In y t' /\ P x y.

(** The commits that the services make. *)
Inductive service_commit : Db -> Db -> Prop :=
  | CommitOrder req o d d' : order_effect req o d d' -> service_commit d d'
  | CommitPayment req rawBody d d' : payment_effect req rawBody d d' -> service_commit d d'
  | CommitOutbox d t : Forall2 outbox_step (t_local_message d) t -> Forall message_ok t ->
      service_commit d (set_local_message t d)
  | CommitNotify d t : rows_later same_notify (t_notify_record d) t ->
      NoDup (map (fun n => weight (nr_notify_no n)) t) ->
      NoDup (map (fun n => weight (nr_message_id n)) t) -> service_commit d (set_notify_record t d)
  | CommitHandle id action remark s d d' : handle_effect id action remark s d d' -> service_commit d d'
  | CommitBatch billDate localRows channelRows batch d d' :
      batch_effect billDate localRows channelRows batch d d' -> service_commit d d'
  | CommitRead d : service_commit d d.

Context {L : MySqlLaws}.

Lemma outbox_commit_wf d t : Forall2 outbox_step (t_local_message d) t -> Forall message_ok t ->
  db_wf d -> db_wf (set_local_message t d).
Proof.
  intros Hm Hok Hwf. eapply outbox_wf; [reflexivity | | done | exact Hwf].
  cbn [t_local_message set_local_message]. clear -Hm.
  induction Hm as [|x x' l l' [(Hx & _) _] _ IH]; [done |]. cbn. rewrite IH. unfold mkey. by rewrite Hx.
Qed.

Lemma service_commit_wf d d' : db_wf d -> service_commit d d' -> db_wf d'.
Proof.
  intros Hwf H. revert Hwf.
  destruct H as [req o d0 d1 H | req raw d0 d1 H | d0 t Hm Hok | d0 t Hl H1 H2 | id act rem s d0 d1 H | day lo ch b d0 d1 H | d0]; intros Hwf.
  - by eapply order_effect_wf.
  - by eapply payment_effect_wf.
  - by apply outbox_commit_wf.
  - destruct Hwf as [K R], K, R. by split; constructor.
  - by eapply handle_effect_wf.
  - by eapply batch_effect_wf.
  - done.
Qed.

#[export] Instance services : Protocol := {|
  db_inv := db_wf;
  may_commit := service_commit;
  may_commit_inv := service_commit_wf
|}.

(** ** What never changes *)

(** What a commit leaves of a product and of an account. *)
Definition same_product (p q : ProductRow) : Prop :=
  pr_id q = pr_id p /\ pr_price q = pr_price p /\ pr_status q = pr_status p.
Definition same_account (a b : AccountRow) : Prop :=
  ar_account_no b = ar_account_no a /\ ar_user_id b = ar_user_id a.

(** A difference that has been handled stays as it is. *)
Definition diff_later (x y : DiffRow) : Prop :=
  dr_id y = dr_id x /\ (y = x \/ dr_handle_status x = kHandlePending).

#[export] Instance diff_later_preorder : PreOrder diff_later.
Proof.
  split; [by split; [| left] |].
  intros x y z [E1 [-> | H1]] [E2 [-> | H2]]; (split; [congruence |]); auto.
Qed.

#[export] Instance same_product_preorder : PreOrder same_product.
Proof. split; [done |]. intros p q r (? & ? & ?) (? & ? & ?). split_and!; congruence. Qed.
#[export] Instance same_account_preorder : PreOrder same_account.
Proof. split; [done |]. intros a b c (? & ?) (? & ?). split; congruence. Qed.

#[export] Instance rows_later_preorder {R : Type} (P : R -> R -> Prop) `{!PreOrder P} : PreOrder (rows_later P).
Proof.
  split.
  - intros t x Hx. by exists x.
  - intros t1 t2 t3 H1 H2 x (y & (z & Hz & Hyz)%H2 & Hxy)%H1. exists z. split; [done | by etransitivity].
Qed.

Lemma rows_later_app {R : Type} (P : R -> R -> Prop) `{!PreOrder P} t u : rows_later P t (t ++ u).
Proof. intros x Hx. exists x. rewrite in_app_iff. split; [auto | reflexivity]. Qed.

Lemma rows_later_replaced {R : Type} (P : R -> R -> Prop) `{!PreOrder P} t1 r r' t2 : P r r' ->
  rows_later P (t1 ++ r :: t2) (t1 ++ r' :: t2).
Proof.
  intros Hr x. rewrite in_app_iff. cbn. intros [Hx | [<- | Hx]].
  - exists x. rewrite in_app_iff. split; [auto | reflexivity].
  - exists r'. rewrite in_app_iff. cbn. auto.
  - exists x. rewrite in_app_iff. cbn. split; [auto | reflexivity].
Qed.

(** The rows of a past database in a later one. *)
Record later (s d : Db) : Prop := {
  later_product : rows_later same_product (t_product s) (t_product d);
  later_account : rows_later same_account (t_account s) (t_account d);
  later_order : rows_later order_later (t_order s) (t_order d);
  later_idempotent : rows_later eq (t_idempotent s) (t_idempotent d);
  later_payment : rows_later eq (t_payment s) (t_payment d);
  later_batch : rows_later eq (t_reconcile_batch s) (t_reconcile_batch d);
  later_diff : rows_later diff_later (t_reconcile_diff s) (t_reconcile_diff d);
  later_message : rows_later same_message (t_local_message s) (t_local_message d);
  later_notify : rows_later same_notify (t_notify_record s) (t_notify_record d)
}.

#[export] Instance later_preorder : PreOrder later.
Proof.
  split; [intros d; split; reflexivity |].
  intros a b c [P1 A1 O1 I1 Y1 B1 D1 M1 N1] [P2 A2 O2 I2 Y2 B2 D2 M2 N2]. split; etransitivity; eauto.
Qed.

Lemma Forall2_rows_later {R : Type} (P : R -> R -> Prop) t t' : Forall2 P t t' -> rows_later P t t'.
Proof.
  induction 1 as [|r r' t t' Hs _ IH]; [by intros x [] |]. intros x [<- | Hx].
  - exists r'. split; [by left | done].
  - destruct (IH x Hx) as (y & Hy & Hxy). exists y. split; [by right | done].
Qed.

Lemma outbox_later t t' : Forall2 outbox_step t t' -> rows_later same_message t t'.
Proof. intros H. apply Forall2_rows_later. eapply Forall2_impl; [exact H |]. by intros r r' [? _]. Qed.

Lemma service_commit_later d d' : service_commit d d' -> later d d'.
Proof.
  intros [req o dx dy H | req raw dx dy H | dx t Hm Hok | dx t Hl H1 H2 | id act rem s dx dy H
      | day lo ch b dx dy H | dx];
    [| | | by split | | | reflexivity].
  - destruct H as [d0 t1 p t2 no ms orow irow Hq Ht Hid Hs Hst oo Hrow Hc Hi Hst' Hb Hf].
    split; cbn; try apply rows_later_app; try reflexivity; try apply _.
    rewrite Ht. by apply rows_later_replaced; [apply _ |].
  - destruct H as [d0 o1 o o2 a1 a a2 amount now now' cbt pno mid ex rk py Hto Hno Hpend Hamt Htot Hpos
      Hta Hu Hst Hbal Htime Hpy Hpc fr Hfc Hm].
    split; cbn; try apply rows_later_app; try reflexivity; try apply _.
    + rewrite Hta. by apply rows_later_replaced; [apply _ |].
    + rewrite Hto. apply rows_later_replaced; [apply _ |]. right. split; [done | by exists now].
  - split; try done. cbn. by apply outbox_later.
  - destruct H as [s dx t1 x t2 now Ha Ht Hid Hp]. split; cbn; try reflexivity.
    rewrite Ht. apply rows_later_replaced; [apply _ |]. split; [done | by right].
  - destruct H as [dx batchNo brow drows classified batch Hbrow Hbc Hd].
    split; cbn; try reflexivity; apply rows_later_app; apply _.
Qed.

Lemma commits_later d d' : rtc service_commit d d' -> later d d'.
Proof. induction 1 as [d | d u d' H _ IH]; [reflexivity |]. etransitivity; [by apply service_commit_later | done]. Qed.
End Protocol.

(** ** Creating an order among others *)

Section Order.
Context {D : MySql} {J : JsonCpp} {Ov : Oversight} {L : MySqlLaws} (iso : isolation).

(** The effect on the database is that of one of the thread's commits. *)
Definition ordered (req : CreateOrderReq) (o : Order) (cs : list (Db * Db)) : Prop :=
  exists d0 d1, cs = [(d0, d1)] /\ order_effect req o d0 d1.

(** What [createOrder] may answer, with its commits [cs], when the committed
    database has become [d]. *)
Definition order_ends (req : CreateOrderReq) (r : outcome CreateOrderOutcome) (cs : list (Db * Db)) (d : Db) : Prop :=
  match r with
  | Ret (kCached body) =>
      cs = [] /\ exists x, In x (t_idempotent d) /\ sql_eq (id_request_id x) (cr_requestId req) = true
        /\ id_status x = kIdemSuccess /\ body = default "" (id_response_body x)
  | Ret (kExecuted res) =>
      if isOk res then exists o, res = ok o (cr_requestId req) /\ ordered req o cs
      else cs = [] \/ (res = fail kDbError (toMessage kDbError) (cr_requestId req) /\ exists o, ordered req o cs)
  | Hang => cs = []
  | Throw _ | Undefined => False
  end.

(** What the scope of the guard may answer. *)
Definition order_scope (req : CreateOrderReq) (r : outcome CreateOrderOutcome) (_ : TxState Tx)
  (cs : list (Db * Db)) (d : Db) : Prop :=
  match r with
  | Throw (BizException c _) => c <> kSuccess /\ cs = []
  | Throw DbException => cs = [] \/ exists o, ordered req o cs
  | Throw StdException => cs = []
  | r => order_ends req r cs d
  end.

(** The statements of [createOrder], executed on a database [d], have the effect
    of the order. *)
Lemma order_log_effect req p nowMs orderNo o now1 now2 now3 now4 nowi d work :
  db_wf d -> 0 < cr_quantity req <= kMaxQuantity ->
  rows_later same_product [p] (t_product d) -> pr_id p = wrap64 (cr_productId req) ->
  o = build_order req (product_of_row p) orderNo nowMs ->
  replays [Entry [KIdempotent (weight (cr_requestId req))] (acquire_sql (buildIdempotentRecord nowi req) now1) 1%nat;
           Entry [KProduct (wrap64 (cr_productId req))] (deductStock_sql (cr_productId req) (cr_quantity req) now2) 1%nat;
           Entry [KOrderNo (weight orderNo); KOrderRequest (weight (cr_requestId req))] (order_insert_sql o now3) tt;
           Entry [KIdempotent (weight (cr_requestId req))]
             (idem_markSuccess_sql (cr_requestId req) (response_snapshot (ok o (cr_requestId req))) now4) tt] d work ->
  order_effect req o d work.
Proof.
  intros [K _] Hq Hp Hpid -> (d1 & H1 & d2 & H2 & d3 & H3 & d4 & H4 & ->).
  apply acquire_inv in H1 as (irow & Hrow & [(? & _) | (_ & -> & Hfresh)]); [done |].
  apply deductStock_inv in H2; [| apply K]. cbn [t_product set_idempotent] in H2.
  destruct H2 as [(? & _) | (_ & t1 & q & t2 & Ht & Hq' & Hstock & Hsale & Hok & ->)]; [done |].
  apply order_insert_inv in H3 as (orow & Horow & Hconf & ->).
  apply idempotent_row_inv in Hrow as [Hirid Hist].
  eapply idem_markSuccess_inv in H4; [| done | exact Hirid | done | done].
  destruct H4 as (irow' & Hirow & ->). unfold success_row in Hirow. apply bind_Some in Hirow as (? & _ & [= <-]).
  destruct (Hp p) as (q' & Hin & Hid & Hprice & _); [by left |].
  rewrite Ht in Hin. assert (q' = q) as ->.
  { eapply (In_split_key (wrap64 (cr_productId req))); [| done | exact Hin | congruence]. rewrite <- Ht. apply K. }
  replace (build_order req (product_of_row p) orderNo nowMs)
    with (build_order req (product_of_row q) orderNo nowMs) in *
    by (unfold build_order; cbn; by rewrite Hprice).
  by apply (OrderEffect req d t1 q t2 orderNo nowMs orow).
Qed.

Lemma safe_tryAcquire i cs d (Q : outcome IdempotentOutcome -> TxState Tx -> list (Db * Db) -> Db -> Prop) :
  (forall tx d', Q (Throw DbException) tx cs d') ->
  (forall now d', rely (TxOpen tx_begin) d d' ->
     Q (Ret kAcquired) (TxOpen (mkTx None [Entry [KIdempotent (weight (i_requestId i))] (acquire_sql i now) 1%nat])) cs d') ->
  (forall tx d', Q (Ret kProcessing) tx cs d') ->
  (forall x tx d', In x (t_idempotent d') -> sql_eq (id_request_id x) (i_requestId i) = true ->
     id_status x = kIdemSuccess -> Q (Ret (kCachedSuccess (default "" (id_response_body x)))) tx cs d') ->
  safe iso (tryAcquire i) (TxOpen tx_begin) cs d Q.
Proof.
  intros Hdb Hacq Hproc Hcached. unfold tryAcquire. apply safe_bind, safe_exec; [auto with locks | done |].
  intros d1 work now d2 n R W F. cbn in W. subst work.
  destruct (Nat.eqb_spec n 1) as [-> | Hn]; [by apply Hacq |].
  apply safe_bind, safe_query; [by intros s | done |].
  intros d3 work s q R3 W3 Hs Hq. apply replays_snoc in W3 as (w & -> & Hw).
  apply acquire_inv in Hw as (row & _ & [(_ & -> & _) | (? & _)]); [| done]. injection Hq as Hq.
  destruct q as [x|]; [| apply Hproc]. case_bool_decide as Hst; [| apply Hproc].
  apply head_select in Hq as [Hin Hx]. apply overlay_table_In in Hin as [Hin | [? ?]]; [| done].
  destruct (Hs s eq_refl) as [_ Hr]. apply commits_later in Hr.
  destruct (later_idempotent _ _ Hr x Hin) as (? & Hin' & <-). by apply Hcached.
Qed.

Lemma safe_createOrder_place req p so nowi now1 now2 d :
  0 < cr_quantity req <= kMaxQuantity -> pr_id p = wrap64 (cr_productId req) ->
  rows_later same_product [p] (t_product d) ->
  safe iso (createOrder_place req (product_of_row p))
    (TxOpen (mkTx so
      [Entry [KIdempotent (weight (cr_requestId req))] (acquire_sql (buildIdempotentRecord nowi req) now1) 1%nat;
       Entry [KProduct (wrap64 (cr_productId req))] (deductStock_sql (cr_productId req) (cr_quantity req) now2) 1%nat]))
    [] d (order_scope req).
Proof.
  intros Hq Hpid Hp. unfold createOrder_place.
  apply safe_bind, safe_next_id; [intros orderNo | done | done].
  apply safe_bind, safe_read_clock. intros nowMs.
  apply safe_bind, safe_exec; [auto with locks | by left |]. intros d3 work3 now3 w3 [] R3 _ _.
  apply safe_bind, safe_exec; [auto with locks | by left |]. intros d4 work4 now4 w4 [] R4 _ _.
  apply safe_bind, safe_commit; [by left |]. intros d5 work R5 W.
  assert (Heff : order_effect req (build_order req (product_of_row p) orderNo nowMs) d5 work).
  { eapply order_log_effect; [apply R5 | done | | done | done | exact W].
    assert (Hl : later d d5).
    { apply commits_later. etransitivity; [apply R3 |]. etransitivity; [apply R4 | apply R5]. }
    etransitivity; [exact Hp | apply Hl]. }
  assert (Hord : exists o, ordered req o [(d5, work)]) by (eexists; by exists d5, work).
  split; [by eapply CommitOrder |]. split; [| by right].
  apply safe_ret. eexists. split; [done |]. by exists d5, work.
Qed.

Lemma safe_createOrder_execute req nowi now1 d :
  0 < cr_quantity req <= kMaxQuantity ->
  safe iso (createOrder_execute req)
    (TxOpen (mkTx None
      [Entry [KIdempotent (weight (cr_requestId req))] (acquire_sql (buildIdempotentRecord nowi req) now1) 1%nat]))
    [] d (order_scope req).
Proof.
  intros Hq. unfold createOrder_execute.
  apply safe_bind, safe_query; [by intros s | by left |]. intros d1 work s q R1 W1 Hs Hget.
  injection Hget as <-. destruct (head _) as [p|] eqn:Hhead; cbn [fmap option_fmap option_map]; [| by split].
  unfold onSale. destruct (p_status (product_of_row p) =? 1); cbn [negb]; [| by split].
  apply head_select in Hhead as [Hin Hpid%Z.eqb_eq].
  apply overlay_table_In in Hin as [Hin | [Hin Hbase]].
  2: { destruct W1 as (w & Hw & ->). apply acquire_inv in Hw as (row & _ & [(? & _) | (_ & -> & _)]); done. }
  apply safe_bind, safe_exec; [auto with locks | by left |]. intros d2 work2 now2 w2 n R2 W2 F2.
  assert (Hp : rows_later same_product [p] (t_product d2)).
  { intros x [<- | []]. destruct (Hs s eq_refl) as [_ Hr].
    assert (Hl : later s d2) by (apply commits_later; etransitivity; [exact Hr | apply R2]).
    by apply (later_product _ _ Hl). }
  destruct (Nat.eqb_spec n 0) as [-> | Hn]; [by split |].
  assert (n = 1%nat) as ->.
  { destruct W2 as (w & Hw & ->). apply acquire_inv in Hw as (row & _ & [(? & _) | (_ & -> & _)]); [done |].
    apply deductStock_inv in F2; [| apply R2]. by destruct F2 as [(-> & _) | (-> & _)]. }
  by apply safe_createOrder_place.
Qed.

(** Creating an order is safe among others. *)
Lemma safe_createOrder req d : safe iso (createOrder req) NoTx [] d (fun r _ cs d' => order_ends req r cs d').
Proof.
  unfold createOrder.
  destruct ((cr_quantity req <=? 0) || (kMaxQuantity <? cr_quantity req)) eqn:Hqty; [by left |].
  apply orb_false_iff in Hqty as [Hq0%Z.leb_gt Hq1%Z.ltb_ge].
  eapply safe_try_catch; [apply (safe_with_guard _ _ (order_scope req)); [done | done | by left |] |].
  - unfold createOrder_body. apply safe_bind, safe_read_clock. intros nowi.
    apply safe_bind, safe_tryAcquire; [by left | | by left |].
    + intros now1 d1 R1. cbn [i_requestId buildIdempotentRecord]. by apply safe_createOrder_execute.
    + intros x tx d1 Hin Hx Hst. split; [done |]. by exists x.
  - intros [[res | b] | [c m | |] | |] tx cs d'; cbn [order_scope]; try done.
    + intros [Hc ->]. apply safe_ret. cbn [order_ends catch_result]. rewrite isOk_fail by done. by left.
    + intros [-> | Ho]; apply safe_ret; [by left | by right].
    + intros ->. apply safe_ret. by left.
Qed.
End Order.

(** ** A payment callback among others *)

Lemma overlay_row_key {R K : Type} `{EqDecision R, EqDecision K} (key : R -> K) snap base x y :
  In y (overlay_row key snap base x) -> key y = key x.
Proof.
  unfold overlay_row. case_bool_decide; [| by intros [<- | []]].
  destruct (find _ snap) as [z|] eqn:Hf; [| done]. intros [<- | []].
  apply find_some in Hf as [_ Hz]. by apply bool_decide_eq_true in Hz.
Qed.

(** The balance read back after the debit is the transaction's own. *)
Lemma getByUserId_own a1 a a2 amount uid s base work :
  t_account base = a1 ++ a :: a2 -> t_account work = a1 ++ debited amount a :: a2 ->
  NoDup (map ar_user_id (t_account base)) -> ar_user_id a = wrap64 uid ->
  getByUserId_sql uid (overlay s base work) = Some (Some (account_of_row (debited amount a))).
Proof.
  intros Hb Hw Hnd Hu. unfold getByUserId_sql. cbn [t_account overlay]. rewrite Hw. rewrite Hb in Hnd |- *.
  set (key := fun r => (ar_account_no r, ar_user_id r)). set (p := fun r => ar_user_id r =? wrap64 uid).
  assert (Hother : forall l, ~ In (ar_user_id a) (map ar_user_id l) ->
    existsb p (overlay_table key (t_account s) (a1 ++ a :: a2) l) = false).
  { intros l Hl. apply existsb_false. rewrite List.Forall_forall. intros y (x & Hx & Hy)%in_flat_map.
    apply overlay_row_key in Hy. unfold key in Hy. injection Hy as _ Hk. apply Z.eqb_neq. rewrite Hk, <- Hu. intros Heq.
    apply Hl. rewrite <- Heq. by apply in_map. }
  assert (Hown : overlay_row key (t_account s) (a1 ++ a :: a2) (debited amount a) = [debited amount a]).
  { unfold overlay_row. rewrite bool_decide_false; [done |]. rewrite list_elem_of_In. intros Hin.
    apply in_split in Hin as (l1 & l2 & Heq). symmetry in Heq. rewrite <- Heq in Hnd.
    destruct (split_unique ar_user_id _ _ _ _ _ _ Hnd Heq) as (_ & Ha & _); [done |].
    apply (f_equal ar_version) in Ha. cbn in Ha. lia. }
  unfold overlay_table in *. rewrite flat_map_app. cbn [flat_map]. rewrite Hown. cbn [app].
  apply NoDup_ListNoDup in Hnd. rewrite List.map_app in Hnd. apply NoDup_remove_2 in Hnd.
  rewrite in_app_iff in Hnd. rewrite sql_select_split; [done | | |].
  - unfold p. by rewrite <- Hu, Z.eqb_refl.
  - apply Hother. tauto.
  - apply Hother. tauto.
Qed.

Section Callback.
Context {D : MySql} {J : JsonCpp} {Ov : Oversight} {O : OpenSsl} {L : MySqlLaws} (iso : isolation).
Context (customConfig : jvalue).

(** The statements of a callback, with the answers that let it go on. *)
Definition e_record (p : Payment) (now : Z) : entry :=
  Entry [KPaymentNo (weight (pay_paymentNo p)); KTrade (weight (pay_channel p)) (weight (pay_channelTradeNo p))]
    (payment_insert_sql p now) 1%nat.
Definition e_paid (orderNo : string) (now : Z) : entry :=
  Entry [KOrderNo (weight orderNo)] (markPaid_sql orderNo now) 1%nat.
Definition e_debit (accountNo : string) (amount now : Z) : entry :=
  Entry [KAccount (weight accountNo)] (deduct_sql accountNo amount now) 1%nat.
Definition e_flow (f : AccountFlow) (now : Z) : entry :=
  Entry [KFlow (weight (f_requestId f)) (f_bizType f)] (insertFlow_sql f now) tt.
Definition e_message (m : LocalMessage) (now : Z) : entry :=
  Entry [KMessage (weight (m_messageId m))] (message_insert_sql m now) tt.

Definition callback_payment (req : PaymentCallbackReq) (rawBody : string) (amount : Z) (paymentNo callbackTime : string)
  : Payment :=
  mkPayment paymentNo (cb_orderNo req) (cb_channel req) (cb_channelTradeNo req) amount kPaySuccess
    callbackTime rawBody.

(** The first three statements on a database [d]. *)
Lemma debit_log_inv req p accountNo amount now1 now2 now3 d work : db_wf d -> Z.abs amount < decimal_limit ->
  replays [e_record p now1; e_paid (cb_orderNo req) now2; e_debit accountNo amount now3] d work ->
  exists py o1 o o2 a1 a a2,
    payment_row p = Some py /\ existsb (payment_conflict py) (t_payment d) = false
    /\ t_order d = o1 ++ o :: o2 /\ sql_eq (or_order_no o) (cb_orderNo req) = true
    /\ or_status o = kPendingPayment
    /\ t_account d = a1 ++ a :: a2 /\ sql_eq (ar_account_no a) accountNo = true
    /\ ar_status a = 0 /\ amount <= ar_balance a
    /\ work = set_account (a1 ++ debited amount a :: a2)
                (set_order (o1 ++ paid_row now2 o :: o2) (set_payment (t_payment d ++ [py]) d)).
Proof.
  intros [K _] Habs (d1 & H1 & d2 & H2 & d3 & H3 & ->).
  apply payment_insert_inv in H1 as (py & Hpy & [(? & _) | (_ & -> & Hpc)]); [done |].
  apply markPaid_inv in H2; [| apply K]. cbn [t_order set_payment] in H2.
  destruct H2 as [(? & _) | (_ & o1 & o & o2 & Hto & Hno & Hpend & ->)]; [done |].
  eapply (deduct_inv _ _ amount) in H3; [| apply K | by apply cast_decimal_fen].
  destruct H3 as [(? & _) | (_ & a1 & a & a2 & Hta & Hano & Hst & Hbal & ->)]; [done |].
  by exists py, o1, o, o2, a1, a, a2.
Qed.

(** The order read in the snapshot is the order that is paid. *)
Lemma pending_order_same o0 o o1 o2 d : db_wf d -> rows_later order_later [o0] (t_order d) ->
  t_order d = o1 ++ o :: o2 -> sql_eq (or_order_no o) (or_order_no o0) = true ->
  or_status o = kPendingPayment -> o = o0.
Proof.
  intros [K _] Hl Ht Hno Hpend. destruct (Hl o0) as (o' & Hin & Hlater); [by left |].
  assert (Hsame : or_order_no o' = or_order_no o0) by (by destruct Hlater as [-> | [_ [n ->]]]).
  apply in_split in Hin as (l1 & l2 & Heq). pose proof (wf_order_no _ K) as Hnd. rewrite Ht in Hnd, Heq.
  destruct (split_unique (fun o => weight (or_order_no o)) _ _ _ _ _ _ Hnd Heq) as (_ & -> & _).
  - rewrite Hsame. by apply sql_eq_iff.
  - by destruct Hlater as [-> | [_ [n ->]]].
Qed.

(** The account read in the snapshot is the account that is debited. *)
Lemma account_same a0 a a1 a2 d : db_wf d -> rows_later same_account [a0] (t_account d) ->
  t_account d = a1 ++ a :: a2 -> sql_eq (ar_account_no a) (ar_account_no a0) = true -> same_account a0 a.
Proof.
  intros [K _] Hl Ht Hno. destruct (Hl a0) as (b & Hin & Hsame); [by left |].
  apply in_split in Hin as (l1 & l2 & Heq). pose proof (wf_account_no _ K) as Hnd. rewrite Ht in Hnd, Heq.
  destruct (split_unique (fun a => weight (ar_account_no a)) _ _ _ _ _ _ Hnd Heq) as (_ & -> & _); [| done].
  rewrite (proj1 Hsame). by apply sql_eq_iff.
Qed.

Lemma account_slice no a1 a a2 d : db_wf d -> t_account d = a1 ++ a :: a2 ->
  sql_eq (ar_account_no a) no = true -> slice (KAccount (weight no)) d = [a].
Proof.
  intros [K _] Ht Hno. pose proof (wf_account_no _ K) as Hnd. cbn [slice]. rewrite Ht in Hnd |- *.
  assert (Hother : forall l, ~ In (weight (ar_account_no a)) (map (fun a => weight (ar_account_no a)) l) ->
    existsb (fun r => has_weight (weight no) (ar_account_no r)) l = false).
  { intros l Hl. apply existsb_false. rewrite List.Forall_forall. intros x Hx. apply not_true_iff_false.
    intros Hw%has_weight_iff. apply Hl. apply sql_eq_iff in Hno. rewrite Hno, <- Hw.
    by apply (in_map (fun a => weight (ar_account_no a))). }
  apply NoDup_ListNoDup in Hnd. rewrite List.map_app in Hnd. apply NoDup_remove_2 in Hnd.
  rewrite in_app_iff in Hnd.
  change (sql_select (fun r => has_weight (weight no) (ar_account_no r)) (a1 ++ a :: a2) = [a]).
  rewrite sql_select_split; [done | exact Hno | apply Hother; tauto | apply Hother; tauto].
Qed.

(** The five statements of a callback, executed on a database [d], have the effect
    of the payment. *)
Lemma payment_log_effect req rawBody o0 a0 a amount pno cbt mid ex rk now1 now2 now3 now4 now5 d work :
  db_wf d -> rows_later order_later [o0] (t_order d) -> rows_later same_account [a0] (t_account d) ->
  sql_eq (or_order_no o0) (cb_orderNo req) = true ->
  yuanStringToFen (cb_amount req) = Some amount -> or_total_amount o0 = amount ->
  epochToBeijing (cb_timestamp req) = Some cbt -> ar_user_id a0 = or_user_id o0 ->
  slice (KAccount (weight (ar_account_no a0))) d = [a] ->
  replays [e_record (callback_payment req rawBody amount pno cbt) now1; e_paid (cb_orderNo req) now2;
           e_debit (ar_account_no a0) amount now3;
           e_flow (mkAccountFlow (ar_account_no a0) kPayment kOut amount
             (wrap64 (ar_balance a - amount + amount)) (ar_balance a - amount) (cb_orderNo req) (cb_requestId req)) now4;
           e_message (mkLocalMessage mid kBizTypeOrderPaid (cb_orderNo req) ex rk
             (message_payload mid (order_of_row o0)) kMsgPending 0 "") now5] d work ->
  payment_effect req rawBody d work.
Proof.
  intros Hwf Hlo Hla Hno Hamt Htot Htime Huid Hslice W.
  pose proof (yuanStringToFen_abs _ _ Hamt) as Habs. unfold max_parsed_fen in Habs.
  assert (Hlim : Z.abs amount < decimal_limit) by (unfold decimal_limit; lia).
  apply (replays_snoc [_; _; _; _]) in W as (w4 & W & Hm).
  apply (replays_snoc [_; _; _]) in W as (w3 & W & Hf).
  apply (debit_log_inv _ _ _ _ _ _ _ _ _ Hwf Hlim) in W
    as (py & o1 & o & o2 & a1 & b & a2 & Hpy & Hpc & Hto & Hono & Hpend & Hta & Hbno & Hst & Hbal & ->).
  assert (b = a) as ->.
  { rewrite (account_slice _ _ _ _ _ Hwf Hta Hbno) in Hslice. congruence. }
  assert (o = o0) as ->.
  { eapply pending_order_same; try done. apply sql_eq_iff. apply sql_eq_iff in Hno, Hono. congruence. }
  destruct (account_same _ _ _ _ _ Hwf Hla Hta Hbno) as [Eno Eu].
  assert (Ha : account_ok a).
  { pose proof (wf_accounts _ (proj2 Hwf)) as Hall. rewrite Hta, Forall_app, Forall_cons in Hall. tauto. }
  assert (Hpositive : 0 <= amount).
  { pose proof (wf_orders _ (proj2 Hwf)) as Hall. rewrite Hto, Forall_app, Forall_cons in Hall.
    destruct Hall as (_ & Ho & _). unfold order_ok in Ho. nia. }
  unfold account_ok in Ha.
  apply insertFlow_inv in Hf as (fr & Hfr & Hfc & ->). rewrite <- Eno in Hfr.
  rewrite wrap64_small in Hfr by (unfold decimal_limit in *; unfold in_i64; lia).
  replace (ar_balance a - amount + amount) with (ar_balance a) in Hfr by lia.
  apply flow_row_inv in Hfr as [Hpos ->]; cbn [f_amountFen f_beforeFen f_afterFen] in *; try (unfold decimal_limit in *; lia).
  apply message_insert_inv in Hm as [Hmid ->]. cbn in Hmid.
  apply (PaymentEffect req rawBody d o1 o0 o2 a1 a a2 amount now2 now5 cbt pno mid ex rk py); try done.
  congruence.
Qed.

(** The effect on the database is that of one of the thread's commits. *)
Definition settled (req : PaymentCallbackReq) (rawBody : string) (cs : list (Db * Db)) : Prop :=
  exists d0 d1, cs = [(d0, d1)] /\ payment_effect req rawBody d0 d1.

(** What the scope of the guard may answer. *)
Definition callback_scope (req : PaymentCallbackReq) (rawBody : string) (r : outcome (Result jvalue))
  (_ : TxState Tx) (cs : list (Db * Db)) (d : Db) : Prop :=
  match r with
  | Ret res =>
      (res = ok jnull (cb_requestId req) /\ cs = [] /\ already_processed req d)
      \/ (res = ok (paid_data req) (cb_requestId req) /\ settled req rawBody cs)
  | Throw (BizException c _) => c <> kSuccess /\ cs = []
  | Throw DbException => cs = [] \/ settled req rawBody cs
  | Throw StdException | Hang => cs = []
  | Undefined => False
  end.

(** What [handleCallback] may answer, with its commits [cs], when the committed
    database has become [d]. *)
Definition callback_ends (req : PaymentCallbackReq) (rawBody : string) (r : outcome (Result jvalue))
  (cs : list (Db * Db)) (d : Db) : Prop :=
  match r with
  | Ret res =>
      if isOk res then
        genuine customConfig req
        /\ ((res = ok jnull (cb_requestId req) /\ cs = [] /\ already_processed req d)
            \/ (res = ok (paid_data req) (cb_requestId req) /\ settled req rawBody cs))
      else
        data res = None
        /\ (cs = [] \/ (res = fail kDbError (toMessage kDbError) (cb_requestId req)
                        /\ genuine customConfig req /\ settled req rawBody cs))
  | Throw e => e = StdException /\ configValue customConfig "mock_channel" "secret" "" = None /\ cs = []
  | Hang => cs = []
  | Undefined => False
  end.

(** What a callback has learnt of its order and of the account, on a database [d]. *)
Record learnt (req : PaymentCallbackReq) (o0 : OrderRow) (amount : Z) (cbt : string) (d : Db) : Prop := {
  learnt_order : rows_later order_later [o0] (t_order d);
  learnt_no : sql_eq (or_order_no o0) (cb_orderNo req) = true;
  learnt_amount : yuanStringToFen (cb_amount req) = Some amount;
  learnt_total : or_total_amount o0 = amount;
  learnt_time : epochToBeijing (cb_timestamp req) = Some cbt
}.

Lemma learnt_later req o0 amount cbt d d' : learnt req o0 amount cbt d -> later d d' ->
  learnt req o0 amount cbt d'.
Proof. intros [H1 H2 H3 H4 H5] Hl. split; try done. etransitivity; [exact H1 | apply Hl]. Qed.

Lemma rely_later tx d d' : rely tx d d' -> later d d'.
Proof. intros (_ & H & _). by apply commits_later. Qed.

(** The flow of a debit that left [balance]. *)
Definition debit_flow (req : PaymentCallbackReq) (a0 : AccountRow) (amount balance : Z) : AccountFlow :=
  mkAccountFlow (ar_account_no a0) kPayment kOut amount (wrap64 (balance + amount)) balance
    (cb_orderNo req) (cb_requestId req).

Ltac find_key := cbn; repeat first [apply list_elem_of_here | apply list_elem_of_further].

Lemma safe_callback_notify req rawBody o0 a0 a amount pno cbt so now1 now2 now3 now4 d :
  learnt req o0 amount cbt d -> rows_later same_account [a0] (t_account d) ->
  ar_user_id a0 = or_user_id o0 -> slice (KAccount (weight (ar_account_no a0))) d = [a] ->
  safe iso (callback_notify customConfig req (order_of_row o0))
    (TxOpen (mkTx so
      [e_record (callback_payment req rawBody amount pno cbt) now1; e_paid (cb_orderNo req) now2;
       e_debit (ar_account_no a0) amount now3; e_flow (debit_flow req a0 amount (ar_balance a - amount)) now4]))
    [] d (callback_scope req rawBody).
Proof.
  intros Hl Ha Hu Hslice. unfold callback_notify.
  apply safe_bind, safe_next_id; [intros mid | done | done].
  apply safe_bind, safe_or_throw; [intros ex _ | done].
  apply safe_bind, safe_or_throw; [intros rk _ | done].
  apply safe_bind, safe_exec; [auto with locks | by left |]. intros d5 work5 now5 w5 [] R5 _ _.
  apply safe_bind, safe_commit; [by left |]. intros d6 work R6 W.
  assert (Hlater : later d d6) by (etransitivity; by eapply rely_later).
  assert (Heff : payment_effect req rawBody d6 work).
  { destruct (learnt_later _ _ _ _ _ _ Hl Hlater) as [H1 H2 H3 H4 H5].
    eapply (payment_log_effect req rawBody o0 a0 a amount pno cbt mid ex rk); try done.
    - apply R6.
    - etransitivity; [exact Ha | apply Hlater].
    - transitivity (slice (KAccount (weight (ar_account_no a0))) d); [symmetry | exact Hslice].
      transitivity (slice (KAccount (weight (ar_account_no a0))) d5).
      + apply R5. find_key.
      + apply R6. find_key.
    - exact W. }
  assert (Hset : settled req rawBody [(d6, work)]) by (by exists d6, work).
  split; [by eapply CommitPayment |]. split; [| by right].
  apply safe_ret. right. by split.
Qed.

(** A row that a transaction reads without having written its table comes from its
    snapshot. *)
Lemma read_snapshot {R K : Type} `{EqDecision R, EqDecision K} (key : R -> K) (p : R -> bool) snap t r :
  head (sql_select p (overlay_table key snap t t)) = Some r -> In r snap /\ p r = true.
Proof. intros [[Hin | [? ?]]%overlay_table_In Hp]%head_select; done. Qed.

Lemma paid_log_accounts p no now1 now2 d work : db_wf d ->
  replays [e_record p now1; e_paid no now2] d work -> t_account work = t_account d.
Proof.
  intros [K _] (w1 & H1 & w2 & H2 & ->).
  apply payment_insert_inv in H1 as (py & _ & [(? & _) | (_ & -> & _)]); [done |].
  apply markPaid_inv in H2; [| apply K]. by destruct H2 as [(? & _) | (_ & ? & ? & ? & _ & _ & _ & ->)].
Qed.

Lemma safe_callback_debit req rawBody o0 amount pno cbt s now1 now2 d :
  learnt req o0 amount cbt d -> 0 <= or_user_id o0 < 2 ^ 63 -> fresh (Some s) d -> db_wf d ->
  safe iso (callback_debit customConfig req (order_of_row o0) amount)
    (TxOpen (mkTx (Some s)
      [e_record (callback_payment req rawBody amount pno cbt) now1; e_paid (cb_orderNo req) now2]))
    [] d (callback_scope req rawBody).
Proof.
  intros Hl Huid Hs Hwf. unfold callback_debit. cbn [o_userId order_of_row].
  pose proof (yuanStringToFen_abs _ _ (learnt_amount _ _ _ _ _ Hl)) as Habs. unfold max_parsed_fen in Habs.
  assert (Hlim : Z.abs amount < decimal_limit) by (unfold decimal_limit; lia).
  apply safe_bind, safe_query; [done | by left |]. intros d1 work1 s1 acc R1 W1 Hs1 Hacc.
  injection Hacc as <-. destruct (head _) as [a0|] eqn:Hhead; cbn [fmap option_fmap option_map]; [| by split].
  cbn [t_account overlay] in Hhead. rewrite (paid_log_accounts _ _ _ _ _ _ (proj1 R1) W1) in Hhead. apply read_snapshot in Hhead as [Hin Hu%Z.eqb_eq].
  rewrite wrap64_u64 in Hu by done. cbn [a_accountNo account_of_row].
  apply safe_bind, safe_exec; [auto with locks | by left |]. intros d2 work2 now3 w3 n R2 W2 F2.
  destruct (Nat.eqb_spec n 0) as [-> | Hn]; [by split |].
  assert (n = 1%nat) as ->.
  { eapply (deduct_inv _ _ amount) in F2; [| | by apply cast_decimal_fen].
    - by destruct F2 as [(-> & _) | (-> & _)].
    - rewrite (paid_log_accounts _ _ _ _ _ _ (proj1 R2) W2). apply R2. }
  assert (Ha2 : rows_later same_account [a0] (t_account d2)).
  { intros x [<- | []]. destruct (Hs1 s1 eq_refl) as [_ Hr].
    assert (Hlt : later s1 d2) by (etransitivity; [by apply commits_later | by eapply rely_later]).
    by apply (later_account _ _ Hlt). }
  apply safe_bind, safe_query; [eapply fresh_later; [exact Hs1 | apply R2] | by left |].
  intros d3 work3 s3 after' R3 W3 Hs3 Hafter.
  assert (Ha3 : rows_later same_account [a0] (t_account d3)).
  { etransitivity; [exact Ha2 |]. apply (later_account d2 d3). by eapply rely_later. }
  destruct (debit_log_inv _ _ _ _ _ _ _ _ _ (proj1 R3) Hlim W3)
    as (py & o1 & o & o2 & a1 & a & a2 & _ & _ & _ & _ & _ & Hta & Hano & _ & _ & ->).
  destruct (account_same _ _ _ _ _ (proj1 R3) Ha3 Hta Hano) as [Eno Eu].
  rewrite (getByUserId_own a1 a a2 amount) in Hafter; [| exact Hta | done | apply R3 | by rewrite wrap64_u64, Eu].
  injection Hafter as <-. cbn [deref]. apply safe_bind, safe_ret.
  apply safe_bind, safe_exec; [auto with locks | by left |]. intros d4 work4 now4 w4 [] R4 _ _.
  eapply (safe_callback_notify req rawBody o0 a0 a amount pno cbt).
  - eapply learnt_later; [exact Hl |]. etransitivity; [by eapply rely_later |].
    etransitivity; [by eapply rely_later |]. etransitivity; by eapply rely_later.
  - etransitivity; [exact Ha3 |]. apply (later_account d3 d4). by eapply rely_later.
  - done.
  - rewrite <- (account_slice _ _ _ _ _ (proj1 R3) Hta Hano). symmetry. apply R4. find_key.
Qed.

(** A payment that was found is recorded; an order that was paid stays paid. *)
Lemma paid_later o0 s d : In o0 (t_order s) -> later s d -> or_status o0 = kPaid -> In o0 (t_order d).
Proof.
  intros Hin Hl Hp. destruct (later_order _ _ Hl o0 Hin) as (o' & Hin' & [-> | [Hpend _]]); [done | congruence].
Qed.

Lemma safe_callback_settle req rawBody o0 amount pno cbt s now1 d :
  learnt req o0 amount cbt d -> 0 <= or_user_id o0 < 2 ^ 63 -> fresh (Some s) d -> db_wf d ->
  safe iso (callback_settle customConfig req (order_of_row o0) amount)
    (TxOpen (mkTx (Some s) [e_record (callback_payment req rawBody amount pno cbt) now1]))
    [] d (callback_scope req rawBody).
Proof.
  intros Hl Huid Hs Hwf. unfold callback_settle.
  apply safe_bind, safe_exec; [auto with locks | by left |]. intros d1 work1 now2 w1 n R1 W1 F1.
  assert (Hn : (n = 0%nat /\ w1 = work1) \/ n = 1%nat).
  { destruct W1 as (w & H1 & ->). apply payment_insert_inv in H1 as (py & _ & [(? & _) | (_ & -> & _)]); [done |].
    apply markPaid_inv in F1; [| apply R1]. destruct F1 as [(-> & -> & _) | (-> & _)]; auto. }
  destruct Hn as [[-> ->] | ->]; cbn [Nat.eqb].
  - apply safe_bind, safe_query; [eapply fresh_later; [exact Hs | apply R1] | by left |].
    intros d2 work2 s2 cur R2 W2 Hs2 Hcur. injection Hcur as <-.
    destruct (head _) as [c|] eqn:Hhead; cbn [fmap option_fmap option_map]; [| by split].
    assert (Hbase : t_order work2 = t_order d2).
    { destruct W2 as (w & H1 & w' & H2 & ->).
      apply payment_insert_inv in H1 as (py & _ & [(? & _) | (_ & -> & _)]); [done |].
      apply markPaid_inv in H2; [| apply R2]. by destruct H2 as [(_ & -> & _) | (? & _)]. }
    cbn [t_order overlay] in Hhead. rewrite Hbase in Hhead. apply read_snapshot in Hhead as [Hin Hno].
    cbn [o_status order_of_row]. case_bool_decide as Hpaid; [| by split].
    apply safe_ret. left. split; [done |]. split; [done |]. right. exists c. split; [| done].
    destruct (Hs2 s2 eq_refl) as [_ Hr]. eapply paid_later; [exact Hin | by apply commits_later | done].
  - eapply safe_callback_debit; [| done | eapply fresh_later; [exact Hs | apply R1] | apply R1].
    eapply learnt_later; [exact Hl | by eapply rely_later].
Qed.

Lemma safe_callback_record req rawBody o0 amount s d :
  (forall cbt, epochToBeijing (cb_timestamp req) = Some cbt -> learnt req o0 amount cbt d) ->
  0 <= or_user_id o0 < 2 ^ 63 -> fresh (Some s) d -> db_wf d ->
  safe iso (callback_record customConfig req rawBody (order_of_row o0) amount)
    (TxOpen (mkTx (Some s) [])) [] d (callback_scope req rawBody).
Proof.
  intros Hl Huid Hs Hwf. unfold callback_record.
  apply safe_bind, safe_next_id; [intros pno | done | done].
  apply safe_bind, safe_or_throw; [intros cbt Htime | done].
  apply safe_bind. unfold payment_insertWithDedup. apply safe_bind.
  apply safe_exec; [auto with locks | by left |]. intros d1 work1 now1 w1 n R1 W1 F1. cbn in W1. subst work1.
  destruct (Nat.eqb_spec n 1) as [-> | Hn]; apply safe_ret.
  - eapply safe_callback_settle; [| done | eapply fresh_later; [exact Hs | apply R1] | apply R1].
    eapply learnt_later; [by apply Hl | by eapply rely_later].
  - apply safe_bind, safe_query; [eapply fresh_later; [exact Hs | apply R1] | by left |].
    intros d2 work2 s2 ex R2 W2 Hs2 Hex. injection Hex as <-.
    destruct (head _) as [p|] eqn:Hhead; cbn [fmap option_fmap option_map]; [| by split].
    destruct W2 as (w & H1 & ->). apply payment_insert_inv in H1 as (py & _ & [(_ & -> & _) | (? & _)]); [| done].
    apply read_snapshot in Hhead as [Hin [Hch Htn]%andb_true_iff]. cbn [pay_orderNo payment_of_row].
    case_bool_decide as Hsame; [| by split].
    apply safe_ret. left. split; [done |]. split; [done |]. left.
    destruct (Hs2 s2 eq_refl) as [_ Hr]. apply commits_later in Hr.
    destruct (later_payment _ _ Hr p Hin) as (p' & Hin' & <-). by exists p.
Qed.

Lemma safe_callback_body req rawBody d :
  safe iso (callback_body customConfig req rawBody) (TxOpen tx_begin) [] d (callback_scope req rawBody).
Proof.
  unfold callback_body. apply safe_bind, safe_query; [by intros s | by left |].
  intros d1 work1 s found R1 W1 Hs Hf. cbn in W1. subst work1. injection Hf as <-.
  destruct (head _) as [o0|] eqn:Hhead; cbn [fmap option_fmap option_map]; [| by split].
  apply read_snapshot in Hhead as [Hin Hno].
  destruct (yuanStringToFen (cb_amount req)) as [amount|] eqn:Hamt; [| by split].
  destruct (Z.eqb_spec amount (o_totalAmountFen (order_of_row o0))) as [Heq | Hne]; [| by split].
  destruct (Hs s eq_refl) as [Hwfs Hr].
  assert (Ho : order_ok o0).
  { pose proof (wf_orders _ (proj2 Hwfs)) as Hall. rewrite List.Forall_forall in Hall. by apply Hall. }
  apply safe_callback_record; [| apply Ho | done | apply R1].
  intros cbt Htime. split; try done. intros x [<- | []]. by apply (later_order _ _ (commits_later _ _ Hr)).
Qed.

(** A callback is safe among others. *)
Lemma safe_handleCallback req rawBody d :
  safe iso (handleCallback customConfig req rawBody) NoTx [] d (fun r _ cs d' => callback_ends req rawBody r cs d').
Proof.
  unfold handleCallback. case_bool_decide as Hch; cbn [negb]; [| apply safe_ret; by split; [| left]].
  apply safe_bind, safe_or_throw; [intros secret Hsecret | done].
  case_bool_decide as Hempty; cbn [orb]; [apply safe_ret; by split; [| left] |].
  destruct (verifyMockSign _ _ _ _ _ _) eqn:Hsign; cbn [negb]; [| apply safe_ret; by split; [| left]].
  assert (Hgen : genuine customConfig req) by (split; [done | by exists secret]).
  eapply safe_try_catch;
    [apply (safe_with_guard _ _ (callback_scope req rawBody)); [done | done | by left | apply safe_callback_body] |].
  intros [res | [c m | |] | |] tx cs d'; cbn [callback_scope]; try done.
  - intros H. cbn. assert (Hok : isOk res = true) by (destruct H as [(-> & _) | (-> & _)]; done).
    rewrite Hok. by split.
  - intros [Hc ->]. apply safe_ret. cbn [callback_ends catch_result]. rewrite isOk_fail by done. by split; [| left].
  - intros [-> | Ho]; apply safe_ret; (split; [done |]); [by left | by right].
  - intros ->. apply safe_ret. split; [done | by left].
Qed.

End Callback.
