(* ===== verification/Backoffice.v ===== *)
(** * Backoffice: reconciliation side by side with the shop

    The daily batch and the handling of differences, [ReconcileService], as threads
    of [Interleaving]: what they may answer and with which commits, and why neither a
    day nor a difference is settled twice. *)

From stdpp Require Import relations.
From S2P Require Import Prelude MoneyUtil IdGenerator JsonValue Result RequestId BeijingTime SignUtil Models.
From S2P Require Import Database Transaction Daos Invariant Locks Interleaving RelyGuarantee Server OrderService PaymentService Books.
From S2P Require Import Reconcile ReconcileService MqClient MessageRelay NotifyConsumer ReconcileTask System Concurrency.

(** ** Commits of a thread *)

(** Commits that change nothing. *)
Definition idle (cs : list (Db * Db)) : Prop := Forall (fun c => c.2 = c.1) cs.

(** Some commit of the thread has changed the database. *)
Definition acted (cs : list (Db * Db)) : Prop := Exists (fun c => c.2 <> c.1) cs.

Lemma acted_commits cs : acted cs -> cs <> [].
Proof. by intros H ->; inversion H. Qed.

Lemma idle_not_acted cs : idle cs -> acted cs -> False.
Proof. intros Hi (c & Hin & Hne)%Exists_exists. unfold idle in Hi. rewrite Forall_forall in Hi. by apply Hne, Hi. Qed.

Section Backoffice.
Context {D : MySql} {J : JsonCpp} {Ov : Oversight} {L : MySqlLaws} (iso : isolation).

(** ** Handling a difference among others *)

(** One of the commits handles the difference, and no other changes anything. *)
Definition handled_by (id : Z) (action remark : string) (s : HandleStatus) (cs : list (Db * Db)) : Prop :=
  exists before d0 d1, cs = before ++ [(d0, d1)] /\ idle before /\ handle_effect id action remark s d0 d1.

(** What [handleDiff] may answer: success after the one effect, else nothing has
    changed; a database exception is not caught, and leaves either. *)
Definition handle_ends (id : Z) (action remark : string) (r : outcome (Result jvalue)) (cs : list (Db * Db)) : Prop :=
  match r with
  | Ret res =>
      if isOk res then exists s, handled_by id action remark s cs
        /\ res = ok (jobject [("diffId", jint id); ("handleStatus", jint (handle_status_int s))]) ""
      else data res = None /\ idle cs
  | Throw e => e = DbException /\ (idle cs \/ exists s, handled_by id action remark s cs)
  | Hang | Undefined => False
  end.

Lemma handle_ends_lost id action remark cs : idle cs -> handle_ends id action remark (Throw DbException) cs.
Proof. intros H. split; [done | by left]. Qed.

(** Handling a difference is safe among others. *)
Lemma safe_handleDiff id action remark d :
  safe iso (handleDiff id action remark) NoTx [] d (fun r _ cs _ => handle_ends id action remark r cs).
Proof.
  assert (H0 : idle []) by constructor.
  unfold handleDiff. destruct (action_status action) as [s|] eqn:Hs; [| by split].
  apply safe_bind, safe_client; [intros now; apply read_framed | by apply handle_ends_lost |].
  intros d1 now d1' found _ [-> _]%read_inv.
  assert (H1 : idle ([] ++ [(d1, d1)])) by (by constructor).
  split; [constructor |]. split; [| by apply handle_ends_lost].
  destruct found as [x|]; [| by split].
  apply safe_bind, safe_client; [intros now'; apply handleDiff_framed | by apply handle_ends_lost |].
  intros d2 now2 d2' n ((K & _) & _) F. apply handleDiff_sql_inv in F; [| apply K].
  destruct F as [(-> & -> & _) | (-> & t1 & y & t2 & Ht & Hid & Hp & ->)]; cbn [Nat.eqb].
  - assert (H2 : idle (([] ++ [(d1, d1)]) ++ [(d2, d2)])) by (apply Forall_app; split; [exact H1 | by constructor]).
    split; [constructor |]. split; [by split | by apply handle_ends_lost].
  - pose proof (HandleEffect id action remark s d2 t1 y t2 now2 Hs Ht Hid Hp) as Heff.
    assert (Hby : handled_by id action remark s (([] ++ [(d1, d1)]) ++ [(d2, _)])) by (by eexists _, d2, _).
    split; [by eapply CommitHandle |]. split; [by exists s |]. split; [done |]. right. by exists s.
Qed.

(** A difference cannot be handled twice. *)
Lemma handle_effect_again id action remark s d0 d1 action' remark' s' d0' d1' :
  handle_effect id action remark s d0 d1 -> handle_effect id action' remark' s' d0' d1' ->
  db_wf d0 -> db_wf d0' -> rtc service_commit d1 d0' -> False.
Proof.
  intros H H' [K0 _] [K _] Hr%commits_later.
  apply handle_effect_settled in H as (_ & t1 & x & t2 & Ht & Hid & Hst); [| apply K0].
  destruct (later_diff _ _ Hr x) as (y & Hin & Hy & [-> | Hp]); [rewrite Ht; apply in_elt | | done].
  destruct H' as [s' d0' u1 z u2 now _ Hu Hzid Hzp].
  assert (x = z) as ->; [| done].
  apply (key_unique dr_id (t_reconcile_diff d0')); [apply K | done | rewrite Hu; apply in_elt | congruence].
Qed.

(** ** The daily batch among others *)

(** The first SELECT of a transaction that has changed nothing sees the committed
    database of that moment, at either isolation level. *)
Lemma safe_first_query {X} (g : Db -> option X) cs d
  (Q : outcome X -> TxState Tx -> list (Db * Db) -> Db -> Prop) :
  Q (Throw DbException) TxAborted cs d ->
  (forall d' a, rely (TxOpen tx_begin) d d' -> g d' = Some a -> Q (Ret a) (TxOpen (mkTx (Some d') [])) cs d') ->
  safe iso (query g) (TxOpen tx_begin) cs d Q.
Proof.
  intros Hfail Hok. split; [exact Hfail |]. intros d' work a R W snap F. cbn in W. subst work.
  assert (Hs : snap = d') by (by unfold snap; destruct iso). rewrite Hs in F |- *. clear snap Hs.
  rewrite overlay_same in F by (apply (proj1 R)). by apply (Hok d' a).
Qed.

(** The statements that insert the differences. *)
Definition diff_entries (batchNo : string) : list ClassifiedDiff -> list entry -> Prop :=
  Forall2 (fun c e => exists now, e = Entry [KDiffAuto] (insertDiff_sql (build_diff batchNo c) now) tt).

Lemma safe_insert_diffs batchNo classified so cs (Q : outcome unit -> TxState Tx -> list (Db * Db) -> Db -> Prop) :
  (forall d', Q (Throw DbException) TxAborted cs d') -> forall log d,
  (forall es d', diff_entries batchNo classified es -> rtc service_commit d d' ->
     Q (Ret tt) (TxOpen (mkTx so (log ++ es))) cs d') ->
  safe iso (insert_diffs batchNo classified) (TxOpen (mkTx so log)) cs d Q.
Proof.
  intros Hfail. induction classified as [|c rest IH]; intros log d Hok; cbn [insert_diffs].
  - apply safe_ret. rewrite <- (app_nil_r log). by apply Hok; [constructor | apply rtc_refl].
  - apply safe_bind, safe_exec; [auto with locks | done |]. intros d1 work now d2 [] R _ _. unfold push. cbn.
    apply IH. intros es d' He Hr. rewrite <- app_assoc. apply Hok; [| etransitivity; [apply R | exact Hr]].
    constructor; [by exists now | done].
Qed.

Lemma replays_diffs batchNo classified : forall es d work, diff_entries batchNo classified es -> replays es d work ->
  exists drows, diff_rows (t_reconcile_diff_auto d) batchNo classified = Some drows
    /\ work = set_reconcile_diff (t_reconcile_diff d ++ drows) (t_reconcile_diff_auto d + Z.of_nat (length drows)) d.
Proof.
  induction classified as [|c rest IH]; intros es d work He W.
  - inversion He; subst. cbn in W. subst work. exists []. rewrite app_nil_r, Z.add_0_r. by destruct d.
  - inversion He as [|c' e rest' es' [now ->] He']; subst. destruct W as (d1 & H1 & W).
    apply insertDiff_inv in H1 as (r & Hr & ->). destruct (IH _ _ _ He' W) as (drows & Hd & ->).
    exists (r :: drows). cbn [diff_rows]. rewrite Hr. cbn in Hd |- *. rewrite Hd. split; [done |].
    rewrite <- app_assoc. cbn [length]. unfold set_reconcile_diff; cbn. f_equal. lia.
Qed.

(** The batch of the payments that were committed at some moment between the search
    for an earlier batch, in [e], and the commit. *)
Definition batched (billDate : string) (channelRows : list ReconcileSideRow) (batch : ReconcileBatch)
  (cs : list (Db * Db)) : Prop :=
  exists e s d0 d1 localRows, cs = [(e, e); (d0, d1)]
    /\ rtc service_commit e s /\ rtc service_commit s d0 /\ localRows_sql billDate s = Some localRows
    /\ batch_effect billDate localRows channelRows batch d0 d1.

Section Run.
Context (open_file : string -> option string).

(** What [run] may answer. *)
Definition run_ends (billDate : string) (r : outcome (Result jvalue)) (cs : list (Db * Db)) : Prop :=
  match r with
  | Ret res =>
      if isOk res then
        exists content channelRows batch, open_file (bill_path billDate) = Some content
          /\ parse_bill content = Some channelRows /\ res = ok (batch_data batch) billDate
          /\ batched billDate channelRows batch cs
      else idle cs \/ (res = fail kDbError (toMessage kDbError) billDate
             /\ exists channelRows batch, batched billDate channelRows batch cs)
  | Hang => idle cs
  | Throw _ | Undefined => False
  end.

(** What the scope of the guard may answer. *)
Definition run_scope (billDate : string) (channelRows : list ReconcileSideRow) (r : outcome (Result jvalue))
  (_ : TxState Tx) (cs : list (Db * Db)) (_ : Db) : Prop :=
  match r with
  | Ret res => exists batch, res = ok (batch_data batch) billDate /\ batched billDate channelRows batch cs
  | Throw (BizException c _) => c <> kSuccess /\ idle cs
  | Throw DbException => idle cs \/ exists batch, batched billDate channelRows batch cs
  | Throw StdException | Hang => idle cs
  | Undefined => False
  end.

Lemma safe_run_body billDate channelRows d :
  safe iso (run_body billDate channelRows) (TxOpen tx_begin) [] d (run_scope billDate channelRows).
Proof.
  assert (H0 : idle []) by constructor. unfold run_body, hasBatchForDate.
  apply safe_bind, safe_client; [intros now; apply read_framed | by left |].
  intros e now e' b _ [-> _]%read_inv.
  assert (H1 : idle ([] ++ [(e, e)])) by (by constructor).
  split; [constructor |]. split; [| by left]. destruct b; [by apply safe_throw |].
  apply safe_bind, safe_first_query; [by left |]. intros s localRows Rs Hlocal.
  apply safe_bind, safe_next_id; [intros batchNo | done | done].
  apply safe_bind, safe_exec; [auto with locks | by left |]. intros d2 work2 now2 w2 [] R2 _ _.
  apply safe_bind, safe_insert_diffs; [by left |]. intros es d3 He R3.
  apply safe_bind, safe_commit; [by left |]. intros d4 work R4 W.
  destruct W as (w & Hw & W). apply insertBatch_inv in Hw as (brow & Hbrow & Hbc & ->).
  apply (replays_diffs batchNo (classifyReconcileDiffs localRows channelRows)) in W as (drows & Hd & ->); [| done].
  pose proof (BatchEffect billDate localRows channelRows d4 batchNo brow drows Hbrow Hbc Hd) as Heff.
  split; [by eapply CommitBatch |].
  assert (Hb : forall d', batch_effect billDate localRows channelRows
      (build_batch batchNo billDate localRows channelRows (classifyReconcileDiffs localRows channelRows)) d4 d' ->
    batched billDate channelRows
      (build_batch batchNo billDate localRows channelRows (classifyReconcileDiffs localRows channelRows))
      (([] ++ [(e, e)]) ++ [(d4, d')])).
  { intros d' H. exists e, s, d4, d', localRows. split; [done |]. split; [apply Rs |]. split; [| by split].
    etransitivity; [apply R2 |]. etransitivity; [exact R3 | apply R4]. }
  split; [apply safe_ret; eexists; split; [done | by apply Hb] | right; eexists; by apply Hb].
Qed.

(** The daily batch is safe among others. *)
Lemma safe_run billDate d : safe iso (run open_file billDate) NoTx [] d (fun r _ cs _ => run_ends billDate r cs).
Proof.
  assert (H0 : idle []) by constructor. unfold run.
  destruct (open_file (bill_path billDate)) as [content|] eqn:Hfile; [| by left].
  destruct (parse_bill content) as [channelRows|] eqn:Hparse; [| by left].
  eapply safe_try_catch; [apply (safe_with_guard _ _ (run_scope billDate channelRows));
    [done | done | by left | apply safe_run_body] |].
  intros [res | [c m | |] | |] tx cs d'; cbn [run_scope]; try done.
  - intros (batch & -> & Hb). by exists content, channelRows, batch.
  - intros [Hc Hi]. apply safe_ret. cbn [run_ends catch_result]. rewrite isOk_fail by done. by left.
  - intros [Hi | [batch Hb]]; apply safe_ret; [by left | right]. split; [done |]. by exists channelRows, batch.
  - intros Hi. apply safe_ret. by left.
Qed.

(** What a round of the daily task may do: look for a batch, and run the
    reconciliation of its day. *)
Definition daily_ends (r : outcome unit) (cs : list (Db * Db)) : Prop :=
  match r with
  | Ret _ => idle cs \/ exists day before ran res, cs = before ++ ran /\ idle before /\ run_ends day (Ret res) ran
  | Throw e => e = DbException /\ idle cs
  | Hang => idle cs
  | Undefined => False
  end.

Lemma safe_checkAndRun d : safe iso (checkAndRun open_file) NoTx [] d (fun r _ cs _ => daily_ends r cs).
Proof.
  unfold checkAndRun, today. apply safe_bind, safe_bind, safe_read_clock. intros now. apply safe_ret.
  set (day := todayBeijing now). destruct (open_file (bill_path day)); [| left; constructor].
  apply safe_bind. unfold hasBatchForDate.
  apply safe_client; [intros z; apply read_framed | by split; [| constructor] |].
  intros e z e' b _ [-> _]%read_inv. split; [constructor |].
  assert (Hi : idle [(e, e)]) by (by constructor).
  split; [| by split]. destruct b; [by left |]. apply safe_bind.
  change (safe iso (run open_file day) NoTx ([(e, e)] ++ []) e (fun r tx' cs' d' =>
    match r with
    | Ret a => safe iso (mret tt) tx' cs' d' (fun r _ cs _ => daily_ends r cs)
    | Throw x => daily_ends (Throw x) cs'
    | Hang => daily_ends Hang cs'
    | Undefined => daily_ends Undefined cs'
    end)).
  eapply safe_mono; [apply safe_after, safe_run |]. intros [res | x | |] tx' cs' d' (mine & -> & H); [| done | | done].
  - apply safe_ret. right. by exists day, [(e, e)], mine, res.
  - by apply Forall_app.
Qed.
End Run.

(** A day cannot have two batches. *)
Lemma batch_effect_again billDate localRows channelRows batch d0 d1 billDate' localRows' channelRows' batch' d0' d1' :
  batch_effect billDate localRows channelRows batch d0 d1 ->
  batch_effect billDate' localRows' channelRows' batch' d0' d1' ->
  rtc service_commit d1 d0' -> parse_date billDate = parse_date billDate' -> False.
Proof.
  intros [dx no brow drows classified b Hbrow Hbc Hd] [dy no' brow' drows' classified' b' Hbrow' Hbc' Hd'] Hr%commits_later Hday.
  destruct (later_batch _ _ Hr brow) as (x & Hin & <-); [cbn; apply in_elt |].
  assert (Hkey : forall bb r, batch_row bb = Some r ->
    parse_date (b_billDate bb) = Some (br_bill_date r) /\ br_channel r = b_channel bb).
  { intros bb r H. unfold batch_row in H. apply bind_Some in H as (day & Hpd & H). by simplify_opt. }
  destruct (Hkey _ _ Hbrow) as [E1 E2], (Hkey _ _ Hbrow') as [E1' E2']. cbn in E1, E2, E1', E2'.
  apply existsb_false in Hbc'. rewrite List.Forall_forall in Hbc'. specialize (Hbc' brow Hin).
  assert (Hsame : br_bill_date brow = br_bill_date brow') by congruence.
  unfold batch_conflict in Hbc'. rewrite Hsame, Z.eqb_refl, E2, E2', sql_eq_refl, orb_true_r in Hbc'. done.
Qed.

End Backoffice.
