(* ===== verification/Jobs.v ===== *)
(** * Jobs: the requests to the services, side by side

    What a thread of the server may be asked to do, what it promises when it ends
    among others, and that no two of them have the same effect twice. *)

From stdpp Require Import relations.
From S2P Require Import Prelude MoneyUtil IdGenerator JsonValue Result RequestId BeijingTime SignUtil Models.
From S2P Require Import Database Transaction Daos Invariant Locks Interleaving RelyGuarantee Server OrderService PaymentService Books.
From S2P Require Import Reconcile ReconcileService MqClient MessageRelay NotifyConsumer ReconcileTask System Concurrency Backoffice.

Section Jobs.
Context {D : MySql} {J : JsonCpp} {Ov : Oversight} {O : OpenSsl} {L : MySqlLaws} (iso : isolation).
Context (customConfig : jvalue) (open_file : string -> option string).

(** ** The statements of the relay and of the consumer *)

Lemma sql_set_rows {R : Type} (p : R -> bool) f (t : list R) : forall t', sql_set p f t = Some t' ->
  Forall2 (fun r r' => r' = r \/ (p r = true /\ f r = Some r')) t t'.
Proof.
  induction t as [|r t IH]; intros t'; cbn [sql_set]; [by intros [= <-] |].
  intros H. apply bind_Some in H as (r' & Hr & H). apply bind_Some in H as (rest & Hrest & [= <-]).
  constructor; [| by apply IH]. destruct (p r) eqn:Hp; [by right | left; congruence].
Qed.

Lemma update_messages_commit p f d d' u : db_wf d ->
  (forall r r', In r (t_local_message d) -> p r = true -> message_ok r -> f r = Some r' -> outbox_step r r' /\ message_ok r') ->
  update_messages p f d = Some (d', u) -> service_commit d d'.
Proof.
  intros [_ R] Hf. unfold update_messages, sql_update. destruct (sql_set p f _) as [t|] eqn:Ht; [| done].
  intros [= <- _]. apply sql_set_rows in Ht. pose proof (wf_messages _ R) as Hok.
  assert (Hall : Forall2 (fun r r' => outbox_step r r' /\ message_ok r') (t_local_message d) t).
  { revert Hok Hf. generalize (t_local_message d) Ht. clear. intros t0 Ht Hok Hf.
    induction Ht as [|r r' t0 t' Hr _ IH]; [done |]. apply Forall_cons in Hok as [H0 Hok].
    constructor; [| apply IH; [done |]; intros x x' Hx; apply Hf; by right].
    destruct Hr as [-> | [Hp Hr]]; [split; [split; [reflexivity | split; by left] | done] |].
    apply Hf; [by left | done..]. }
  apply CommitOutbox; [eapply Forall2_impl; [exact Hall |]; by intros r r' [H _] |].
  eapply (Forall2_Forall_r (fun r r' => outbox_step r r' /\ message_ok r')); [exact Hall |].
  apply Forall_forall. by intros r _ r' [_ H].
Qed.

(** The relay marks a message as acknowledged only when the broker has confirmed it:
    whatever row the statement finds later. *)
Definition confirmed_row (msg : LocalMessage) (d : Db) : Prop :=
  forall d' r, db_wf d' -> later d d' -> In r (t_local_message d') ->
    sql_eq (mr_message_id r) (m_messageId msg) = true -> confirmed_msg (wire r).

Lemma confirmed_row_later msg d d' : later d d' -> confirmed_row msg d -> confirmed_row msg d'.
Proof. intros Hl H d2 r Hwf Hl2. apply H; [done | by etransitivity]. Qed.

(** The message of a row that is confirmed. *)
Lemma confirmed_row_intro msg r d : In r (t_local_message d) -> m_messageId msg = mr_message_id r ->
  confirmed_msg (wire r) -> confirmed_row msg d.
Proof.
  intros Hin Hm Hc d' r' [K _] Hl Hr' Hid%sql_eq_iff. rewrite Hm in Hid.
  destruct (later_message _ _ Hl r Hin) as (r2 & Hr2 & E1 & _ & _ & E2 & E3 & E4).
  assert (r2 = r') as <-.
  { eapply (key_unique (fun m => weight (mr_message_id m))); [apply K | done | done | by rewrite E1]. }
  unfold wire in *. by rewrite E2, E3, E4.
Qed.

Lemma safe_record_result msg (delivered : bool) d : (delivered = true -> confirmed_row msg d) ->
  safe iso (record_result msg delivered) NoTx [] d
    (fun r _ _ _ => match r with Ret _ | Throw _ => True | _ => False end).
Proof.
  intros Hconf. unfold record_result.
  destruct delivered; [| destruct (Z.leb_spec kMaxRetries (m_retryCount msg + 1)) as [Hmax | Hmax]]; apply safe_client; try done.
  - intros now. apply local_framed, update_messages_local; [by intros r [? _]%andb_true_iff | by intros r r' [= <-]].
  - intros d' now d1 a R F. split; [| done]. eapply update_messages_commit; [apply R | | exact F].
    intros r r' Hin [Hid _]%andb_true_iff Hok [= <-]. split; [| done].
    split; [by split_and! | split; [intros _; right | by left]].
    apply (Hconf eq_refl d'); [apply R | by eapply rely_later | done..].
  - intros now. apply local_framed, update_messages_local; [done | by intros r r' [= <-]].
  - intros d' now d1 a R F. split; [| done]. eapply update_messages_commit; [apply R | | exact F].
    intros r r' _ _ Hok [= <-]. split; [| done]. split; [by split_and! | split; [done | by left]].
  - intros now. apply local_framed, update_messages_local; [done |]. intros r r' H. unfold with_retry in H. by simplify_opt.
  - intros d' now d1 a R F. split; [| done]. eapply update_messages_commit; [apply R | | exact F].
    intros r r' _ _ Hok H. unfold with_retry in H. simplify_opt. unfold message_ok, uint_ok, kMaxRetries in *. cbn.
    split; [| lia]. split; [by split_and! | split; [by left | right; cbn; unfold kMaxRetries; lia]].
Qed.

(** A scan reads messages of the outbox. *)
Lemma scanPending_inv limit now d d' ms : scanPending_sql limit now d = Some (d', ms) ->
  d' = d /\ forall m, m ∈ ms -> exists r, m = message_of_row r /\ In r (t_local_message d).
Proof.
  intros [= <- <-]. split; [done |]. intros m Hm.
  apply list_elem_of_In, in_map_iff in Hm as (r & <- & Hr). exists r. split; [done |].
  apply list_elem_of_In, (subseteq_take limit), list_elem_of_In in Hr. by apply sql_select_In in Hr as [? _].
Qed.

Definition from_outbox (ms : list LocalMessage) (d : Db) : Prop :=
  Forall (fun m => exists r r', m = message_of_row r /\ In r' (t_local_message d) /\ same_message r r') ms.

Lemma from_outbox_later ms d d' : later d d' -> from_outbox ms d -> from_outbox ms d'.
Proof.
  intros Hl H. eapply Forall_impl; [exact H |]. intros m (r & r' & Hm & Hin & Hs).
  destruct (later_message _ _ Hl r' Hin) as (r2 & Hin2 & Hs2). exists r, r2. split; [done |]. split; [done |].
  by etransitivity.
Qed.

Lemma safe_scanPending limit d :
  safe iso (scanPending limit) NoTx [] d (fun r _ cs d' =>
    idle cs /\ match r with Ret ms => from_outbox ms d' | Throw e => e = DbException | _ => False end).
Proof.
  unfold scanPending. apply safe_client; [| by split; [constructor |] |].
  { intros now d0 d' ms [-> _]%scanPending_inv. done. }
  intros d' now d1 ms R [-> Hms]%scanPending_inv. split; [constructor |].
  assert (Hi : idle ([] ++ [(d', d')])) by (by constructor).
  split; (split; [exact Hi |]); [| done]. apply Forall_forall. intros m (r & -> & Hr)%Hms. exists r, r. by split_and!.
Qed.

Lemma update_notify_commit no f d d' u : db_wf d ->
  (forall r r', f r = Some r' -> same_notify r r') ->
  update_notify no f d = Some (d', u) -> service_commit d d'.
Proof.
  intros [K _] Hf. unfold update_notify, sql_update. destruct (sql_set _ f _) as [t|] eqn:Ht; [| done].
  intros [= <- _]. apply sql_set_rows in Ht.
  assert (Hsame : Forall2 same_notify (t_notify_record d) t).
  { eapply Forall2_impl; [exact Ht |]. intros r r' [-> | [_ Hr]]; [reflexivity | by apply Hf]. }
  assert (Hkeys : forall (g : NotifyRow -> string), (forall r r', same_notify r r' -> g r' = g r) ->
    map g t = map g (t_notify_record d)).
  { intros g Hg. clear -Hsame Hg. induction Hsame as [|r r' t0 t' Hr _ IH]; [done |]. cbn. rewrite IH. f_equal. by apply Hg. }
  apply CommitNotify; rewrite ?Hkeys; try apply K; try (intros r r' (E1 & E2 & E3); congruence).
  by apply Forall2_rows_later.
Qed.

Lemma notify_done_keys status n body r r' : notify_done status n body r = Some r' -> same_notify r r'.
Proof. unfold notify_done. intros H. by simplify_opt. Qed.

Lemma same_notify_keys r r' : same_notify r r' ->
  nr_notify_no r' = nr_notify_no r /\ nr_message_id r' = nr_message_id r.
Proof. by intros (? & ? & ?). Qed.

Lemma safe_record_reply no body success d :
  safe iso (record_reply no body success) NoTx [] d
    (fun r _ _ _ => match r with Ret _ | Throw _ => True | _ => False end).
Proof.
  unfold record_reply. destruct success; apply safe_client; try done.
  - intros now. apply local_framed, update_notify_local. intros r r' H. by apply notify_done_keys, same_notify_keys in H.
  - intros d' now d1 a R F. split; [| done]. eapply update_notify_commit; [apply R | | exact F].
    intros r r'. apply notify_done_keys.
  - intros now. apply local_framed, update_notify_local. intros r r' H. by apply notify_done_keys, same_notify_keys in H.
  - intros d' now d1 a R F. split; [| done]. eapply update_notify_commit; [apply R | | exact F].
    intros r r'. apply notify_done_keys.
Qed.

(** A notification that is new gets a row of its own, by the one commit of the thread. *)
Definition noted (mid orderNo no : string) (cs : list (Db * Db)) (d : Db) : Prop :=
  exists d0 d1 url, cs = [(d0, d1)]
    /\ let row := mkNotifyRow no orderNo url None 0 0 mid in
       existsb (notify_conflict row) (t_notify_record d0) = false
       /\ exists n, In n (t_notify_record d) /\ same_notify row n.

Lemma noted_later mid orderNo no cs d d' : later d d' -> noted mid orderNo no cs d -> noted mid orderNo no cs d'.
Proof.
  intros Hl (d0 & d1 & url & Hc & Hn & n & Hin & Hs). exists d0, d1, url. split; [done |]. split; [done |].
  destruct (later_notify _ _ Hl n Hin) as (n' & Hin' & Hs'). exists n'. split; [done | by etransitivity].
Qed.

Lemma safe_insertWithDedup mid orderNo url d :
  safe iso (notify_insertWithDedup mid orderNo url) NoTx [] d (fun r _ cs d' =>
    match r with Ret (kNotifyInserted no) => noted mid orderNo no cs d' | Undefined => False | _ => True end).
Proof.
  unfold notify_insertWithDedup. apply safe_bind, safe_next_id; [intros no | done | done].
  apply safe_bind, safe_client; [intros now; apply local_framed; auto with locks | done |].
  intros d' now d1 n ((K & _) & _) F.
  apply notify_insert_inv in F as [(_ & -> & ->) | (Hc & -> & ->)]; cbn [Nat.eqb].
  - split; [| done]. replace d' with (set_notify_record (t_notify_record d') d') at 2 by (by destruct d').
    apply CommitNotify; [reflexivity | apply K..].
  - split.
    { unfold add_notify. apply CommitNotify; [by apply rows_later_app; apply _ | |].
      - eapply insert_NoDup; [| exact Hc | apply K]. intros x Hx. unfold notify_conflict.
        by rewrite (proj2 (sql_eq_iff _ _) Hx).
      - eapply insert_NoDup; [| exact Hc | apply K]. intros x Hx. unfold notify_conflict.
        by rewrite (proj2 (sql_eq_iff _ _) Hx), orb_true_r. }
    split; [| done]. apply safe_ret. eexists d', _, url. split; [reflexivity |]. split; [done |].
    eexists. split; [apply in_app_iff; right; by left | reflexivity].
Qed.

(** ** The requests *)

(** What a thread is asked to do: a request to a service, the scan of the relay and its
    update for one message, the insert and the update of one delivery to the
    consumer. *)
Inductive job :=
  | JobOrder (req : CreateOrderReq)
  | JobCallback (req : PaymentCallbackReq) (rawBody : string)
  | JobScan
  | JobDelivery (msg : LocalMessage) (delivered : bool)
  | JobNotify (messageId orderNo targetUrl : string)
  | JobReply (notifyNo body : string) (success : bool)
  | JobHandle (id : Z) (action remark : string)
  | JobRun (billDate : string)
  | JobDaily.

Inductive reply :=
  | ROrder (o : CreateOrderOutcome)
  | RCallback (res : Result jvalue)
  | RHandle (res : Result jvalue)
  | RRun (res : Result jvalue)
  | RScan (messages : list LocalMessage)
  | RNotify (outcome : NotifyInsertResult)
  | RDone.

Definition job_program (j : job) : M reply :=
  match j with
  | JobOrder req => o ← createOrder req; mret (ROrder o)
  | JobCallback req rawBody => res ← handleCallback customConfig req rawBody; mret (RCallback res)
  | JobScan => ms ← scanPending kBatchLimit; mret (RScan ms)
  | JobDelivery msg delivered => record_result msg delivered;; mret RDone
  | JobNotify messageId orderNo url => no ← notify_insertWithDedup messageId orderNo url; mret (RNotify no)
  | JobReply notifyNo body success => record_reply notifyNo body success;; mret RDone
  | JobHandle id action remark => res ← handleDiff id action remark; mret (RHandle res)
  | JobRun billDate => res ← run open_file billDate; mret (RRun res)
  | JobDaily => checkAndRun open_file;; mret RDone
  end.

(** What a thread that has ended with [r], after the commits [cs], promises of the
    committed database [d]. *)
Definition job_ends (j : job) (r : outcome reply) (cs : list (Db * Db)) (d : Db) : Prop :=
  match j, r with
  | JobOrder req, Ret (ROrder o) => order_ends req (Ret o) cs d
  | JobOrder req, Throw e => order_ends req (Throw e) cs d
  | JobOrder req, Hang => order_ends req Hang cs d
  | JobCallback req raw, Ret (RCallback res) => callback_ends customConfig req raw (Ret res) cs d
  | JobCallback req raw, Throw e => callback_ends customConfig req raw (Throw e) cs d
  | JobCallback req raw, Hang => callback_ends customConfig req raw Hang cs d
  | JobHandle id action remark, Ret (RHandle res) => handle_ends id action remark (Ret res) cs
  | JobHandle id action remark, Throw e => handle_ends id action remark (Throw e) cs
  | JobRun billDate, Ret (RRun res) => run_ends open_file billDate (Ret res) cs
  | JobRun billDate, Throw e => run_ends open_file billDate (Throw e) cs
  | JobRun billDate, Hang => run_ends open_file billDate Hang cs
  | JobDaily, Ret RDone => daily_ends open_file (Ret tt) cs
  | JobDaily, Throw e => daily_ends open_file (Throw e) cs
  | JobDaily, Hang => daily_ends open_file Hang cs
  | JobScan, Ret (RScan ms) => idle cs /\ from_outbox ms d
  | JobScan, Throw e => e = DbException /\ idle cs
  | JobNotify mid orderNo _, Ret (RNotify (kNotifyInserted no)) => noted mid orderNo no cs d
  | JobNotify _ _ _, Ret (RNotify kNotifyDuplicate) => True
  | JobDelivery _ _, Ret RDone | JobReply _ _ _, Ret RDone => True
  | JobDelivery _ _, Throw _ | JobReply _ _ _, Throw _ | JobNotify _ _ _, Throw _ | JobNotify _ _ _, Hang => True
  | _, _ => False
  end.

(** A job may be given to a thread when the database is [d]: only an update of the
    relay asks for something. *)
Definition allowed (j : job) (d : Db) : Prop :=
  match j with JobDelivery msg true => confirmed_row msg d | _ => True end.

Lemma allowed_later j d d' : later d d' -> allowed j d -> allowed j d'.
Proof. intros Hl. destruct j as [| | | msg [] | | | | |]; try done. by apply confirmed_row_later. Qed.

Lemma already_processed_later req d d' : already_processed req d -> later d d' -> already_processed req d'.
Proof.
  intros [(p & Hin & H) | (o & Hin & Hno & Hp)] Hl.
  - left. destruct (later_payment _ _ Hl p Hin) as (p' & Hin' & <-). by exists p.
  - right. exists o. split; [by eapply paid_later | done].
Qed.

Lemma order_ends_later req r cs d d' : later d d' -> order_ends req r cs d -> order_ends req r cs d'.
Proof.
  intros Hl. destruct r as [[res | body] | e | |]; cbn [order_ends]; try done.
  intros (Hc & x & Hin & H). split; [done |]. exists x. split; [| done].
  by destruct (later_idempotent _ _ Hl x Hin) as (x' & Hin' & <-).
Qed.

Lemma callback_ends_later req raw r cs d d' : later d d' ->
  callback_ends customConfig req raw r cs d -> callback_ends customConfig req raw r cs d'.
Proof.
  intros Hl. destruct r as [res | e | |]; cbn [callback_ends]; try done.
  destruct (isOk res); [| done]. intros (Hg & [(Hr & Hc & Ha) | H]); (split; [done |]); [left | by right].
  split; [done |]. split; [done |]. by eapply already_processed_later.
Qed.

Lemma job_ends_later j r cs d d' : later d d' -> job_ends j r cs d -> job_ends j r cs d'.
Proof.
  intros Hr. destruct j, r as [[| | | | | [] |] | e | |]; cbn [job_ends]; try done;
    first [by apply order_ends_later | by apply callback_ends_later | by eapply noted_later
      | intros [? ?]; split; [done | by eapply from_outbox_later]].
Qed.

Lemma job_safe j d : allowed j d ->
  safe iso (job_program j) NoTx [] d (fun r _ cs d' => job_ends j r cs d').
Proof.
  intros Ha. destruct j as [req | req raw | | msg delivered | mid no url | no body success
    | id action remark | billDate |]; cbn [job_program].
  - eapply safe_graft; [apply safe_createOrder |]. by intros [].
  - eapply safe_graft; [apply safe_handleCallback |]. by intros [].
  - eapply safe_graft; [apply safe_scanPending |]. intros [ms | e | |] ? ? ? [Hi H]; by try split.
  - eapply safe_graft; [apply safe_record_result; by intros -> |]. intros [] ? ? ? H; try done; apply H.
  - eapply safe_graft; [apply safe_insertWithDedup |]. by intros [[] | | |].
  - eapply safe_graft; [apply safe_record_reply |]. by intros [].
  - eapply safe_graft; [apply safe_handleDiff |]. by intros [].
  - eapply safe_graft; [apply safe_run |]. by intros [].
  - eapply safe_graft; [apply safe_checkAndRun |]. by intros [[] | | |].
Qed.

(** ** Requests that have had an effect *)

Lemma sql_eq_comm a b : sql_eq a b = sql_eq b a.
Proof. unfold sql_eq. by apply bool_decide_ext. Qed.

Lemma order_ends_effect req r cs d : order_ends req r cs d -> cs <> [] -> exists o, ordered req o cs.
Proof.
  destruct r as [[res | body] | e | |]; cbn [order_ends]; try done; [| by intros [-> _]].
  destruct (isOk res); [intros (o & _ & H) _; by exists o |]. intros [-> | (_ & H)] Hne; done.
Qed.

Lemma callback_ends_effect req raw r cs d : callback_ends customConfig req raw r cs d -> cs <> [] -> settled req raw cs.
Proof.
  destruct r as [res | e | |]; cbn [callback_ends]; try done; [| by intros (_ & _ & ->)].
  destruct (isOk res).
  - intros (_ & [(_ & -> & _) | (_ & H)]) Hne; done.
  - intros (_ & [-> | (_ & _ & H)]) Hne; done.
Qed.

(** Two orders with the same request identifier cannot both be placed, the second
    one after the first. *)
Lemma order_effect_again req o d0 d1 req' o' d0' d1' : order_effect req o d0 d1 -> order_effect req' o' d0' d1' ->
  rtc service_commit d1 d0' -> sql_eq (cr_requestId req) (cr_requestId req') = true -> False.
Proof.
  intros [dx t1 p t2 no ms orow irow Hq Ht Hid Hs Hst oo Hrow Hc Hi Hist Hb Hf]
    [dy t1' p' t2' no' ms' orow' irow' Hq' Ht' Hid' Hs' Hst' oo' Hrow' Hc' Hi' Hist' Hb' Hf'] Hr%commits_later Heq.
  destruct (later_idempotent _ _ Hr irow) as (x & Hin & <-).
  { cbn. apply in_app_iff. right. by left. }
  apply existsb_false in Hf'. rewrite List.Forall_forall in Hf'. specialize (Hf' irow Hin).
  by rewrite Hi, Heq in Hf'.
Qed.

(** An order cannot be paid twice. *)
Lemma payment_effect_again req raw d0 d1 req' raw' d0' d1' : payment_effect req raw d0 d1 ->
  payment_effect req' raw' d0' d1' -> db_wf d0' -> rtc service_commit d1 d0' ->
  sql_eq (cb_orderNo req) (cb_orderNo req') = true -> False.
Proof.
  intros [dx o1 o o2 a1 a a2 amount now now2 cbt pno mid ex rk py Hto Hno Hpend Hamt Htot Hpos
      Hta Hu Hst Hbal Htime Hpy Hpc fr Hfc Hm] H' [K _] Hr%commits_later Heq.
  destruct H' as [dy o1' o' o2' a1' a' a2' amount' now' now2' cbt' pno' mid' ex' rk' py' Hto' Hno' Hpend' Hamt' Htot' Hpos'
      Hta' Hu' Hst' Hbal' Htime' Hpy' Hpc' fr' Hfc' Hm'].
  destruct (later_order _ _ Hr (paid_row now o)) as (x & Hin & Hx).
  { cbn. apply in_app_iff. right. by left. }
  assert (Hpaid : or_status x = kPaid /\ weight (or_order_no x) = weight (or_order_no o)).
  { destruct Hx as [-> | [Hp _]]; [by split | done]. }
  destruct Hpaid as [Hpaid Hxno]. rewrite Hto' in Hin.
  apply sql_eq_iff in Hno, Hno', Heq.
  pose proof (wf_order_no _ K) as Hnd. rewrite Hto' in Hnd.
  assert (x = o') as ->; [| congruence].
  eapply (key_unique (fun o => weight (or_order_no o))); [exact Hnd | done | apply in_app_iff; right; by left | congruence].
Qed.

(** What one of the commits of a request does, when it does something. *)
Inductive job_effect : job -> Db -> Db -> Prop :=
  | EffectOrder req o d d' : order_effect req o d d' -> job_effect (JobOrder req) d d'
  | EffectCallback req raw d d' : payment_effect req raw d d' -> job_effect (JobCallback req raw) d d'
  | EffectHandle id action remark s d d' :
      handle_effect id action remark s d d' -> job_effect (JobHandle id action remark) d d'
  | EffectRun billDate localRows channelRows batch d d' :
      batch_effect billDate localRows channelRows batch d d' -> job_effect (JobRun billDate) d d'.

(** Two requests for the same thing. *)
Definition rivals (j j' : job) : Prop :=
  match j, j' with
  | JobOrder req, JobOrder req' => sql_eq (cr_requestId req) (cr_requestId req') = true
  | JobCallback req _, JobCallback req' _ => sql_eq (cb_orderNo req) (cb_orderNo req') = true
  | JobHandle id _ _, JobHandle id' _ _ => id = id'
  | JobRun billDate, JobRun billDate' => parse_date billDate = parse_date billDate'
  | _, _ => False
  end.

Lemma rivals_sym j j' : rivals j j' -> rivals j' j.
Proof. destruct j, j'; cbn; try done; by rewrite sql_eq_comm. Qed.

Lemma rivals_once j j' d0 d1 d0' d1' : rivals j j' -> job_effect j d0 d1 -> job_effect j' d0' d1' ->
  db_wf d0 -> db_wf d0' -> rtc service_commit d1 d0' -> False.
Proof.
  intros Hriv H H' W W' Hr.
  destruct H as [req o ? ? H | req raw ? ? H | id action remark s ? ? H | billDate lo ch b ? ? H],
    H' as [req' o' ? ? H' | req' raw' ? ? H' | id' action' remark' s' ? ? H' | billDate' lo' ch' b' ? ? H'];
    cbn [rivals] in Hriv; try done.
  - by eapply (order_effect_again req o _ _ req' o').
  - by eapply (payment_effect_again req raw _ _ req' raw').
  - subst id'. by eapply (handle_effect_again id action remark s _ _ action' remark' s').
  - by eapply (batch_effect_again billDate lo ch b _ _ billDate' lo' ch' b').
Qed.

Lemma run_ends_acted billDate r cs : run_ends open_file billDate r cs -> acted cs ->
  exists d0 d1, (d0, d1) ∈ cs /\ job_effect (JobRun billDate) d0 d1.
Proof.
  intros H Ha. assert (Hb : exists channelRows batch, batched billDate channelRows batch cs).
  { destruct r as [res | e | |]; cbn [run_ends] in H; try done.
    - destruct (isOk res).
      + destruct H as (content & channelRows & batch & _ & _ & _ & Hb). by exists channelRows, batch.
      + destruct H as [Hi | [_ Hb]]; [by destruct (idle_not_acted cs Hi Ha) | done].
    - by destruct (idle_not_acted cs H Ha). }
  destruct Hb as (channelRows & batch & e & s & d0 & d1 & localRows & -> & _ & _ & _ & Heff).
  exists d0, d1. split; [by right; left | by eapply EffectRun].
Qed.

Lemma handle_ends_acted id action remark r cs : handle_ends id action remark r cs -> acted cs ->
  exists d0 d1, (d0, d1) ∈ cs /\ job_effect (JobHandle id action remark) d0 d1.
Proof.
  intros H Ha. assert (Hby : exists s, handled_by id action remark s cs).
  { destruct r as [res | e | |]; cbn [handle_ends] in H; try done.
    - destruct (isOk res); [destruct H as (s & H & _); by exists s |].
      by destruct (idle_not_acted cs (proj2 H) Ha).
    - destruct H as [_ [H | H]]; [by destruct (idle_not_acted cs H Ha) | done]. }
  destruct Hby as (s & before & d0 & d1 & -> & _ & Heff). exists d0, d1. split; [| by eapply EffectHandle].
  apply elem_of_app. right. by left.
Qed.

Lemma order_ends_acted req r cs d : order_ends req r cs d -> acted cs ->
  exists d0 d1, (d0, d1) ∈ cs /\ job_effect (JobOrder req) d0 d1.
Proof.
  intros H Ha%acted_commits. apply order_ends_effect in H as (o & d0 & d1 & -> & H); [| done].
  exists d0, d1. split; [by left | by eapply EffectOrder].
Qed.

Lemma callback_ends_acted req raw r cs d : callback_ends customConfig req raw r cs d -> acted cs ->
  exists d0 d1, (d0, d1) ∈ cs /\ job_effect (JobCallback req raw) d0 d1.
Proof.
  intros H Ha%acted_commits. apply callback_ends_effect in H as (d0 & d1 & -> & H); [| done].
  exists d0, d1. split; [by left | by apply EffectCallback].
Qed.

(** A request that has a rival, and has changed something, has had its effect. *)
Lemma job_ends_acted j j' r cs d : rivals j j' -> job_ends j r cs d -> acted cs ->
  exists d0 d1, (d0, d1) ∈ cs /\ job_effect j d0 d1.
Proof.
  destruct j, j'; cbn [rivals]; try done; intros _ H;
    destruct r as [[] | e | |]; cbn [job_ends] in H; try done;
    first [by eapply order_ends_acted | by eapply callback_ends_acted | by eapply handle_ends_acted
      | by eapply run_ends_acted].
Qed.
End Jobs.
