(* ===== verification/Frontdoor.v ===== *)
(** * Frontdoor: HTTP requests as threads

    The whole way of an HTTP request - routing, filter, handler, task, service - as a
    program among others.  [requested] reads off a request the job it asks the
    services for; [http_ends] says how the answer of the job becomes the response. *)

From stdpp Require Import relations.
From S2P Require Import Prelude MoneyUtil IdGenerator JsonValue Result RequestId BeijingTime SignUtil Models.
From S2P Require Import Database Transaction Daos Invariant Locks Interleaving RelyGuarantee Server OrderService PaymentService Books.
From S2P Require Import Reconcile ReconcileService MqClient MessageRelay NotifyConsumer Controllers Routes System.
From S2P Require Import Concurrency Backoffice Jobs.

Section Frontdoor.
Context {D : MySql} {J : JsonCpp} {Ov : Oversight} {O : OpenSsl} {L : MySqlLaws} {Ro : Router} (iso : isolation).
Context (customConfig : jvalue) (open_file : string -> option string).

(** ** What a request asks for *)

(** The job of a request that a route has taken. *)
Definition asked (pattern : string) (args : list string) (req : HttpRequest) : option job :=
  if String.eqb pattern "/api/v1/orders" then
    match order_request req with Some (Some oreq) => Some (JobOrder oreq) | _ => None end
  else if String.eqb pattern "/api/v1/payment/callback" then
    match callback_request req with Some (Some creq) => Some (JobCallback creq (req_body req)) | _ => None end
  else if String.eqb pattern "/api/v1/reconcile/run" then
    match run_request req with Some (Some billDate) => Some (JobRun billDate) | _ => None end
  else if String.eqb pattern "/api/v1/reconcile/diffs/{1}/handle" then
    match args, handleDiff_request req with
    | [arg], Some (Some (action, remark)) => diffId ← path_int64 arg; Some (JobHandle diffId action remark)
    | _, _ => None
    end
  else None.

(** The request as the handler gets it. *)
Definition let_in (rt : Route) (req : HttpRequest) : option HttpRequest :=
  if rt_filtered rt then match doFilter req with Pass req' => Some req' | Answer _ => None end else Some req.

(** The job of a request, when the pool accepts it. *)
Definition requested (running : bool) (path : string) (req : HttpRequest) : option job :=
  if running then
    '(i, args) ← route_for (route_table customConfig open_file running) (method req) path;
    rt ← routes customConfig open_file running !! i;
    req' ← let_in rt req;
    asked (rt_pattern rt) args req'
  else None.

(** The response that carries the answer of a job. *)
Definition render (rep : reply) : HttpResponse :=
  match rep with
  | ROrder o => order_response o
  | RCallback res | RHandle res | RRun res => newHttpJsonResponse (toJson res)
  | RScan _ | RNotify _ | RDone => mkResponse 200 ""
  end.

(** A task that throws leaves its client without an answer. *)
Definition respond (r : outcome reply) : outcome (option HttpResponse) :=
  match r with
  | Ret rep => Ret (Some (render rep))
  | Throw _ => Ret None
  | Hang => Hang
  | Undefined => Undefined
  end.

(** How the end of a job [j], or of no job, ends the request. *)
Definition answered (j : option job) (r : outcome (option HttpResponse)) (cs : list (Db * Db)) (d : Db) : Prop :=
  match j with
  | Some j => exists r', job_ends customConfig open_file j r' cs d /\ r = respond r'
  | None => idle cs /\ match r with Ret (Some _) | Throw StdException => True | _ => False end
  end.

Definition http_ends (running : bool) (path : string) (req : HttpRequest) (r : outcome (option HttpResponse))
  (cs : list (Db * Db)) (d : Db) : Prop := answered (requested running path req) r cs d.

(** ** Every handler is safe *)

Definition safely (j : option job) (m : M (option HttpResponse)) : Prop :=
  forall d, safe iso m NoTx [] d (fun r _ cs d' => answered j r cs d').

Lemma safely_ret resp : safely None (mret (Some resp)).
Proof. intros d. split; [constructor | done]. Qed.

Lemma safely_throw : safely None (throw StdException).
Proof. intros d. split; [constructor | done]. Qed.

Definition relabel {A} (wrap : A -> reply) (r : outcome A) : outcome reply :=
  match r with Ret a => Ret (wrap a) | Throw e => Throw e | Hang => Hang | Undefined => Undefined end.

(** A task of the pool answers what its job answers. *)
Lemma safely_task {A} (running : bool) (j : job) (work : M A) (wrap : A -> reply) (show : A -> HttpResponse) rid :
  (forall a, render (wrap a) = show a) ->
  (forall d, safe iso work NoTx [] d (fun r _ cs d' => job_ends customConfig open_file j (relabel wrap r) cs d')) ->
  safely (if running then Some j else None) (submit_task running (a ← work; mret (show a)) rid).
Proof.
  intros Hshow Hsafe d. unfold submit_task. destruct running; [| apply safely_ret].
  apply (safe_try_catch _ _ _ (fun r _ cs d' =>
    match r with
    | Ret o => exists a, o = Some (show a) /\ job_ends customConfig open_file j (Ret (wrap a)) cs d'
    | Throw e => job_ends customConfig open_file j (Throw e) cs d'
    | Hang => job_ends customConfig open_file j Hang cs d'
    | Undefined => job_ends customConfig open_file j Undefined cs d'
    end)).
  - apply safe_bind, safe_bind. eapply safe_mono; [apply Hsafe |].
    intros [a | e | |] tx cs d'; cbn [relabel]; intros H; [| done..].
    do 2 apply safe_ret. by exists a.
  - intros [o | e | |] tx cs d'.
    + intros (a & -> & H). exists (Ret (wrap a)). split; [done |]. cbn. by rewrite Hshow.
    + intros H. apply safe_ret. by exists (Throw e).
    + intros H. by exists Hang.
    + intros H. by exists Undefined.
Qed.

(** A handler parses its request before it submits a task. *)
Lemma safely_parsed {X} (running : bool) (o : option (option X)) (mk : X -> job) bad (k : X -> M (option HttpResponse)) :
  (forall x, safely (if running then Some (mk x) else None) (k x)) ->
  safely (if running then match o with Some (Some x) => Some (mk x) | _ => None end else None)
    (p ← or_throw o; match p with None => mret (Some bad) | Some x => k x end).
Proof.
  intros Hk d. destruct o as [[x|]|]; cbn [or_throw]; [exact (Hk x d) | |]; destruct running;
    first [exact (safely_throw d) | exact (safely_ret bad d)].
Qed.

Lemma safely_listDiffs running req : safely None (listDiffs_endpoint running req).
Proof.
  intros d. unfold listDiffs_endpoint. case_bool_decide; [apply safely_ret |].
  unfold submitToPool, submit_task. destruct running; [| apply safely_ret].
  apply (safe_try_catch _ _ _ (fun r _ cs _ => idle cs /\ exists o, r = Ret (Some o))).
  - apply safe_bind, safe_bind. unfold listDiffs.
    apply (safe_try_catch _ _ _ (fun r _ cs _ => idle cs /\ ((exists res, r = Ret res) \/ r = Throw DbException))).
    + apply safe_bind. unfold dao_listDiffs. apply safe_client; [intros now; apply read_framed | |].
      * split; [constructor | by right].
      * intros d1 now d1' a R [-> _]%read_inv. split; [constructor |].
        split; (split; [by constructor |]); [left; by eexists | by right].
    + intros r tx cs d' [Hi [[res ->] | ->]]; [| apply safe_ret]; do 2 apply safe_ret; split; try done; by eexists.
  - intros r tx cs d' [Hi [o ->]]. by split.
Qed.

Lemma safely_handler (running : bool) args req :
  Forall (fun rt => safely (if running then asked (rt_pattern rt) args req else None) (rt_handler rt args req))
    (routes customConfig open_file running).
Proof.
  unfold routes, admin_routes, health_routes, mock_routes, order_routes, callback_routes.
  repeat apply List.Forall_cons; [.. | constructor]; cbn [rt_handler rt_pattern].
  - apply (safely_parsed running (run_request req) JobRun). intros billDate. unfold submitToPool.
    apply (safely_task running (JobRun billDate) _ RRun); [done |]. intros d.
    eapply safe_mono; [apply safe_run |]. by intros [].
  - assert (E : asked "/api/v1/reconcile/diffs" args req = None) by done. rewrite E.
    destruct running; apply safely_listDiffs.
  - unfold handleDiff_handler. destruct args as [|arg [|]]; [by destruct running; apply safely_ret | | by destruct running; apply safely_ret].
    destruct (path_int64 arg) as [diffId|] eqn:Hid.
    + assert (E : asked "/api/v1/reconcile/diffs/{1}/handle" [arg] req
        = match handleDiff_request req with Some (Some x) => Some (JobHandle diffId x.1 x.2) | _ => None end).
      { unfold asked. cbn. rewrite Hid. by destruct (handleDiff_request req) as [[[]|]|]. }
      rewrite E. apply (safely_parsed running (handleDiff_request req) (fun x => JobHandle diffId x.1 x.2) _
        (fun '(action, remark) => submitToPool running (handleDiff diffId action remark) (requestIdOf req))).
      intros [action remark]. unfold submitToPool.
      apply (safely_task running (JobHandle diffId action remark) _ RHandle); [done |]. intros d.
      eapply safe_mono; [apply safe_handleDiff |]. by intros [].
    + assert (E : asked "/api/v1/reconcile/diffs/{1}/handle" [arg] req = None).
      { unfold asked. cbn. rewrite Hid. by destruct (handleDiff_request req) as [[[]|]|]. }
      rewrite E. destruct running; apply safely_ret.
  - destruct running; apply safely_ret.
  - intros d. destruct (mock_notify req) as [resp|]; destruct running;
      first [exact (safely_throw d) | exact (safely_ret resp d)].
  - apply (safely_parsed running (order_request req) JobOrder). intros oreq.
    apply (safely_task running (JobOrder oreq) _ ROrder); [done |]. intros d.
    eapply safe_mono; [apply safe_createOrder |]. by intros [].
  - apply (safely_parsed running (callback_request req) (fun creq => JobCallback creq (req_body req))). intros creq.
    apply (safely_task running (JobCallback creq (req_body req)) _ RCallback); [done |]. intros d.
    eapply safe_mono; [apply safe_handleCallback |]. by intros [].
Qed.

(** ** Every request is safe *)

Lemma safe_request running path req d :
  safe iso (handle_request customConfig open_file running path req) NoTx [] d
    (fun r _ cs d' => http_ends running path req r cs d').
Proof.
  revert d. change (safely (requested running path req) (handle_request customConfig open_file running path req)).
  unfold requested, handle_request.
  destruct (route_for _ _ _) as [[i args]|]; cbn [mbind option_bind]; [| destruct running; apply safely_ret].
  destruct (routes _ _ running !! i) as [rt|] eqn:Hi; cbn [mbind option_bind]; [| destruct running; apply safely_ret].
  pose proof (fun req => Forall_lookup_1 _ _ _ _ (safely_handler running args req) Hi) as Hsafe. cbn beta in Hsafe.
  unfold let_in, serve. destruct (rt_filtered rt); [| apply Hsafe].
  destruct (doFilter req) as [req' | resp]; [apply Hsafe | destruct running; apply safely_ret].
Qed.

Lemma answered_later j r cs d d' : later d d' -> answered j r cs d -> answered j r cs d'.
Proof.
  intros Hl. destruct j as [j|]; [| done]. intros (r' & H & Hr). exists r'. split; [| done].
  by eapply job_ends_later.
Qed.
End Frontdoor.
