(* ===== verification/Workload.v ===== *)
(** * Workload: every interleaving of the server

    Requests arrive over HTTP at any time, the relay, the consumer and the timers do
    their jobs beside them, and the threads take steps in any order, at either
    isolation level and with any failures.  The theorems say what each reply promises
    and what the tables keep. *)

From stdpp Require Import relations.
From S2P Require Import Prelude MoneyUtil IdGenerator JsonValue Result RequestId BeijingTime SignUtil Models.
From S2P Require Import Database Transaction Daos Invariant Locks Interleaving RelyGuarantee Server OrderService PaymentService Books.
From S2P Require Import Reconcile ReconcileService MqClient MessageRelay NotifyConsumer Controllers Routes System.
From S2P Require Import Concurrency Backoffice Jobs Frontdoor.

Section Visits.
Context {D : MySql} {J : JsonCpp} {Ov : Oversight} {O : OpenSsl} {L : MySqlLaws} {Ro : Router} (iso : isolation).
Context (customConfig : jvalue) (open_file : string -> option string).

(** ** What threads do *)

(** A job of the server's own threads, or an HTTP request, which the pool accepts or
    refuses. *)
Inductive visit :=
  | Internal (j : job)
  | Http (running : bool) (path : string) (req : HttpRequest).

Inductive answer :=
  | Done_job (rep : reply)
  | Response (resp : option HttpResponse).

Definition program (v : visit) : M answer :=
  match v with
  | Internal j => rep ← job_program customConfig open_file j; mret (Done_job rep)
  | Http running path req => resp ← handle_request customConfig open_file running path req; mret (Response resp)
  end.

(** What a thread that has ended with [r], after the commits [cs], promises of the
    committed database [d]. *)
Definition visit_ends (v : visit) (r : outcome answer) (cs : list (Db * Db)) (d : Db) : Prop :=
  match v, r with
  | Internal j, Ret (Done_job rep) => job_ends customConfig open_file j (Ret rep) cs d
  | Internal j, Throw e => job_ends customConfig open_file j (Throw e) cs d
  | Internal j, Hang => job_ends customConfig open_file j Hang cs d
  | Http running path req, Ret (Response resp) => http_ends customConfig open_file running path req (Ret resp) cs d
  | Http running path req, Throw e => http_ends customConfig open_file running path req (Throw e) cs d
  | Http running path req, Hang => http_ends customConfig open_file running path req Hang cs d
  | _, _ => False
  end.

Lemma visit_ends_stable v r cs d d' : db_inv d' -> rtc may_commit d d' -> visit_ends v r cs d -> visit_ends v r cs d'.
Proof.
  intros _ Hr%commits_later. destruct v, r as [[] | e | |]; cbn [visit_ends]; try done;
    first [by apply job_ends_later | by apply answered_later].
Qed.

Lemma job_not_undefined j cs d : ~ job_ends customConfig open_file j Undefined cs d.
Proof. intros H. by destruct j. Qed.

Lemma respond_not_undefined j cs d : ~ answered customConfig open_file j Undefined cs d.
Proof.
  destruct j as [j|]; [| by intros [_ ?]]. intros ([rep | e | |] & H & E); try discriminate E.
  by destruct (job_not_undefined j cs d).
Qed.

(** What may be asked of a thread when the database is [d]. *)
Definition admissible (v : visit) (d : Db) : Prop :=
  match v with Internal j => allowed j d | Http _ _ _ => True end.

Lemma visit_safe v d : admissible v d -> safe iso (program v) NoTx [] d (ends visit_ends v).
Proof.
  intros Hv. destruct v as [j | running path req]; cbn [program].
  - eapply safe_graft; [by apply job_safe |]. intros [rep | e | |] ? ? ? H; [done.. |]. by destruct (job_not_undefined _ _ _ H).
  - eapply safe_graft; [apply safe_request |]. intros [resp | e | |] ? ? ? H; [done.. |].
    by destruct (respond_not_undefined _ _ _ H).
Qed.

End Visits.

(** Whoever trusts the relay may ask for anything. *)
Lemma trusted_admissible {D : MySql} {J : JsonCpp} v d : admissible v d.
Proof. destruct v as [[| | | msg [] | | | | |] | running path req]; done. Qed.

Section Workload.
Context {D : MySql} {J : JsonCpp} {O : OpenSsl} {L : MySqlLaws} {Ro : Router} (iso : isolation).
Context (customConfig : jvalue) (open_file : string -> option string).

Lemma program_safe v d : db_inv d -> safe iso (program customConfig open_file v) NoTx [] d
  (ends (visit_ends customConfig open_file) v).
Proof. intros _. apply visit_safe, trusted_admissible. Qed.

(** A server that starts with no thread running. *)
Definition runs (d : Db) (w : Conf visit answer) : Prop := rtc (conf_step iso (program customConfig open_file)) (mkConf d []) w.

Lemma runs_safe d w : db_wf d -> runs d w ->
  db_wf (cf_db w) /\ rtc service_commit d (cf_db w)
  /\ forall t r, t ∈ cf_threads w -> th_prog t = Done r -> visit_ends customConfig open_file (th_request t) r (th_commits t) (cf_db w).
Proof. intros Hd Hw. apply (conf_safe iso _ _ (visit_ends_stable customConfig open_file) program_safe d w Hd Hw). Qed.

(** ** What every commit preserves *)

Lemma same_message_biz {Ov : Oversight} w t t' : Forall2 outbox_step t t' ->
  sum_of (fun m => if of_order w (mr_biz_id m) then 1 else 0) t'
  = sum_of (fun m => if of_order w (mr_biz_id m) then 1 else 0) t.
Proof.
  induction 1 as [|x x' t t' [(_ & _ & Hx & _) _] _ IH]; [done |]. unfold sum_of in *. cbn. by rewrite IH, Hx.
Qed.

Lemma commit_books {Ov : Oversight} d d' : service_commit d d' -> books_step d d'.
Proof.
  intros [req o d0 d1 H | req raw d0 d1 H | d0 t Hm Hok | d0 t Hl H1 H2 | id action remark s d0 d1 H
    | day localRows channelRows batch d0 d1 H | d0].
  - by eapply BooksOrder.
  - by eapply BooksPayment.
  - apply BooksSame; [by split_and! |]. intros w. by apply same_message_biz.
  - by apply BooksSame; [split_and! |].
  - destruct H. by apply BooksSame; [split_and! |].
  - destruct H. by apply BooksSame; [split_and! |].
  - by apply BooksSame; [split_and! |].
Qed.

Lemma runs_books d w : db_wf d -> runs d w -> db_wf (cf_db w) /\ rtc books_step d (cf_db w).
Proof.
  intros Hd Hw. destruct (runs_safe d w Hd Hw) as (Hwf & Hr & _). split; [done |].
  clear -Hr. induction Hr as [d | d u d' H _ IH]; [apply rtc_refl |].
  eapply rtc_l; [by apply commit_books | done].
Qed.

(** ** The properties *)

(** Whatever the requests, their order, the interleaving of their commands, the
    failures and the isolation level: the tables stay well formed, no product is
    oversold, money is conserved and no account overdrawn, the payments, flows and
    outbox messages are those of the paid orders, each order is paid at most once,
    and orders never disappear or change except to become paid. *)
Theorem concurrent_books d w pid uid no : runs d w -> db_wf d -> ledger_inv d ->
  db_wf (cf_db w)
  /\ in_stock pid (cf_db w) + in_orders pid (cf_db w) = in_stock pid d + in_orders pid d
  /\ 0 <= in_stock pid (cf_db w)
  /\ balance_of uid (cf_db w) + spent uid (cf_db w) = balance_of uid d + spent uid d
  /\ 0 <= balance_of uid (cf_db w)
  /\ ledger_inv (cf_db w)
  /\ 0 <= payments no (fun _ => 1) (cf_db w) <= 1
  /\ orders_kept (t_order d) (t_order (cf_db w)).
Proof.
  intros Hw Hd Hl. destruct (runs_books d w Hd Hw) as [Hwf Hb].
  pose proof (books_steps_ledger _ _ Hb Hl) as Hl'.
  split; [done |]. split; [by apply books_steps_stock |]. split; [by apply stock_nonneg |].
  split; [by apply books_steps_money |]. split; [by apply balance_nonneg |]. split; [done |].
  split; [| by apply books_steps_orders]. destruct (Hl' no) as (-> & _). by apply paid_at_most_once.
Qed.

(** C4. What a request that runs among others may be answered.  Over HTTP: the
    response is that of the one job the request asks for, an unanswered request is one
    whose job threw, and a request that asks for no job gets a response and changes
    nothing.  An order request ends with a cached answer, after one commit that has
    the effect of the order, or, without effect, with an error (a lost commit answers
    a database error); a callback with success when its order is paid by its own
    single commit or was paid before, else with an error that says nothing; an
    administrator with success when its own update moved the difference from pending,
    a reconciliation with success when its own transaction added the batch of the
    payments of some moment of its run, else with an error and nothing changed. *)
Theorem concurrent_replies d w t r : runs d w -> db_wf d -> t ∈ cf_threads w -> th_prog t = Done r ->
  match th_request t, r with
  | Http running path req, Ret (Response resp) =>
      match requested customConfig open_file running path req with
      | Some j => exists r', job_ends customConfig open_file j r' (th_commits t) (cf_db w) /\ Ret resp = respond r'
      | None => idle (th_commits t) /\ is_Some resp
      end
  | Http running path req, Throw e => e = StdException /\ idle (th_commits t)
  | Http running path req, Hang => exists j, requested customConfig open_file running path req = Some j
      /\ job_ends customConfig open_file j Hang (th_commits t) (cf_db w)
  | Internal j, Ret (Done_job rep) => job_ends customConfig open_file j (Ret rep) (th_commits t) (cf_db w)
  | Internal j, Throw e => job_ends customConfig open_file j (Throw e) (th_commits t) (cf_db w)
  | Internal j, Hang => job_ends customConfig open_file j Hang (th_commits t) (cf_db w)
  | _, _ => False
  end.
Proof.
  intros Hw Hd Hin Hp. destruct (runs_safe d w Hd Hw) as (_ & _ & H). specialize (H t r Hin Hp).
  destruct (th_request t) as [j | running path req], r as [[rep | resp] | e | |]; cbn [visit_ends] in H; try done;
    unfold http_ends, answered in H; destruct (requested _ _ _ _ _) as [j|].
  - done.
  - destruct H as [Hi H]. split; [done |]. by destruct resp.
  - by destruct H as ([] & _ & ?).
  - destruct H as [Hi H]. by destruct e.
  - destruct H as ([] & H & ?); try done. by exists j.
  - by destruct H.
Qed.

(** The threads of a configuration that is reached. *)
Lemma runs_threads d w : runs d w -> db_wf d -> conf_ok iso (visit_ends customConfig open_file) w.
Proof.
  intros Hw Hd. assert (H0 : conf_ok iso (visit_ends customConfig open_file) (mkConf d [])) by (split; [done | by intros [] u]).
  apply (conf_steps_ok iso _ _ (visit_ends_stable customConfig open_file) program_safe _ _ H0 Hw).
Qed.

Lemma runs_history d w : runs d w -> db_wf d -> history_ok w.
Proof.
  intros Hw Hd. eapply (conf_steps_history iso _ _ (visit_ends_stable customConfig open_file) program_safe); [| | exact Hw].
  - split; [done | by intros [] u].
  - split; [by intros [] u | by intros []].
Qed.

Lemma runs_disjoint d w : runs d w -> db_wf d -> forall i t, cf_threads w !! i = Some t ->
  forall k, k ∈ tx_locks (th_tx t) -> k ∉ held_by_others i (cf_threads w).
Proof. intros Hw Hd i t Ht. by apply (runs_threads d w Hw Hd). Qed.

(** A check of the model of transactions: at every instant the statements that an open
    transaction has executed under locks can be replayed on the committed database,
    whatever other threads have committed since, and no other transaction holds a
    lock of it.  The SELECTs, which take no lock, are not among them
    ([duplicate_callback_snapshot] shows a stale one). *)
Theorem transactions_isolated d w i t x : runs d w -> db_wf d ->
  cf_threads w !! i = Some t -> th_tx t = TxOpen x ->
  (exists work, replays (tx_log x) (cf_db w) work)
  /\ forall j u, j <> i -> cf_threads w !! j = Some u ->
       forall k, k ∈ tx_locks (th_tx u) -> k ∉ tx_locks (TxOpen x).
Proof.
  intros Hw Hd Hi Hx. destruct (runs_threads d w Hw Hd) as [_ Hts].
  destruct (Hts i t Hi) as [[_ Hopen] Hdis]. rewrite Hx in Hopen, Hdis. split; [apply Hopen |].
  intros j u Hj Hu k Hk Hin. apply (Hdis k Hin), held_by_others_spec. by exists j, u.
Qed.

(** ** Requests that have had an effect *)

(** The job that a thread is asked to do. *)
Definition asks (v : visit) : option job :=
  match v with
  | Internal j => Some j
  | Http running path req => requested customConfig open_file running path req
  end.

(** Two threads asked for the same thing. *)
Definition rival_visits (v v' : visit) : Prop :=
  match asks v, asks v' with Some j, Some j' => rivals j j' | _, _ => False end.

Lemma visit_ends_acted v j j' r cs d : asks v = Some j -> rivals j j' -> visit_ends customConfig open_file v r cs d -> acted cs ->
  exists d0 d1, (d0, d1) ∈ cs /\ job_effect j d0 d1.
Proof.
  destruct v as [j0 | running path req]; cbn [asks].
  - intros [= ->] Hriv H Ha. assert (Hans : exists r', job_ends customConfig open_file j r' cs d).
    { destruct r as [[] | e | |]; cbn [visit_ends] in H; try done; by eexists. }
    destruct Hans as [r' Hj]. by eapply (job_ends_acted customConfig open_file).
  - intros Hreq Hriv H Ha.
    assert (Hans : exists r', answered customConfig open_file (Some j) r' cs d).
    { rewrite <- Hreq. destruct r as [[] | e | |]; cbn [visit_ends] in H; try done; by eexists. }
    destruct Hans as (_ & r'' & Hj & _). by eapply (job_ends_acted customConfig open_file).
Qed.

(** C12. Exactly once: of all the requests - over HTTP or not - that carry the same
    identifier at most one places an order, of all the callbacks for an order at most
    one pays it, of all the administrators that settle a difference at most one does,
    and of all the reconciliations of a day at most one adds its batch, however they
    overlap. *)
Theorem served_once d w i j t u r r' : runs d w -> db_wf d -> i <> j ->
  cf_threads w !! i = Some t -> cf_threads w !! j = Some u ->
  th_prog t = Done r -> th_prog u = Done r' -> acted (th_commits t) -> acted (th_commits u) ->
  ~ rival_visits (th_request t) (th_request u).
Proof.
  intros Hw Hd Hne Hi Hj Hr Hr' Ha Ha' Hriv. destruct (runs_safe d w Hd Hw) as (_ & _ & Hends).
  pose proof (Hends t r (list_elem_of_lookup_2 _ _ _ Hi) Hr) as H1.
  pose proof (Hends u r' (list_elem_of_lookup_2 _ _ _ Hj) Hr') as H2.
  unfold rival_visits in Hriv.
  destruct (asks (th_request t)) as [a|] eqn:Ea, (asks (th_request u)) as [b|] eqn:Eb; try done.
  apply (visit_ends_acted _ a b) in H1 as (d0 & d1 & I1 & F1); [| done..].
  apply (visit_ends_acted _ b a) in H2 as (d0' & d1' & I2 & F2); [| done | by apply rivals_sym | done].
  destruct (runs_history d w Hw Hd) as [Hpast Hapart].
  destruct (Hpast i t _ Hi I1) as [W1 _], (Hpast j u _ Hj I2) as [W2 _].
  destruct (Hapart i j t u _ _ Hne Hi Hj I1 I2) as [Ho | Ho];
    [by eapply (rivals_once a b) | by eapply (rivals_once b a); [apply rivals_sym | ..]].
Qed.
End Workload.

(** ** A repeated callback that overlaps the first *)

Section Turns.
Context (iso : isolation) {Q A : Type}.

(** A thread takes its turns one after another, beside others that hold [held]. *)
Fixpoint solo (held : list row_key) (cs : list chance) (d : Db) (t : Thread Q A) : option (Db * Thread Q A) :=
  match cs with
  | [] => Some (d, t)
  | c :: cs' => '(d', t') ← thread_step iso c held d t; solo held cs' d' t'
  end.

(** The turns, one command each. *)
Lemma solo_begin held c cs d v (k : option exn -> M A) l : ch_client c = true -> ch_ok c = true ->
  solo held (c :: cs) d (mkThread v (Begin k) NoTx l) = solo held cs d (mkThread v (k None) (TxOpen tx_begin) l).
Proof. intros H1 H2. cbn [solo]. unfold thread_step. cbn [th_prog]. by rewrite H1, H2. Qed.

Lemma solo_query {X} held c cs d v (g : Db -> option X) (k : option X -> M A) x l work a : ch_ok c = true ->
  replay (tx_log x) d = Some work -> g (overlay (snapshot_of iso x d) d work) = Some a ->
  solo held (c :: cs) d (mkThread v (Query g k) (TxOpen x) l)
  = solo held cs d (mkThread v (k (Some a)) (TxOpen (mkTx (Some (snapshot_of iso x d)) (tx_log x))) l).
Proof. intros H1 H2 H3. cbn [solo]. unfold thread_step. cbn [th_prog th_tx]. rewrite H1, H2. cbn. by rewrite H3. Qed.

Lemma solo_exec {X} held c cs d v L f (k : option X -> M A) x l work d' a : ch_ok c = true -> unlocked L held = true ->
  replay (tx_log x) d = Some work -> f (ch_now c) work = Some (d', a) ->
  solo held (c :: cs) d (mkThread v (Exec L f k) (TxOpen x) l)
  = solo held cs d (mkThread v (k (Some a)) (TxOpen (push L (f (ch_now c)) a x)) l).
Proof. intros H1 H2 H3 H4. cbn [solo]. unfold thread_step. cbn [th_prog th_tx]. rewrite H1, H2, H3. cbn. by rewrite H4. Qed.

Lemma solo_next_id held c cs d v (k : id_result -> M A) tx l :
  solo held (c :: cs) d (mkThread v (NextId k) tx l) = solo held cs d (mkThread v (k (ch_id c)) tx l).
Proof. done. Qed.

Lemma solo_close held c cs d v (m : M A) tx l :
  solo held (c :: cs) d (mkThread v (Close m) tx l) = solo held cs d (mkThread v m NoTx l).
Proof. done. Qed.

Lemma schedule_solo i cs : forall w t d' t', cf_threads w !! i = Some t ->
  solo (held_by_others i (cf_threads w)) cs (cf_db w) t = Some (d', t') ->
  schedule iso (map (pair i) cs) w = Some (mkConf d' (<[i := t']> (cf_threads w))).
Proof.
  induction cs as [|c cs IH]; intros [d ts] t d' t' Ht; cbn [solo schedule map cf_db cf_threads] in *.
  { intros [= <- <-]. by rewrite list_insert_id. }
  intros H. apply bind_Some in H as ([d1 t1] & Hstep & H). unfold turn. cbn [cf_db cf_threads].
  rewrite Ht. cbn. rewrite Hstep. cbn.
  rewrite (IH _ t1 d' t'); cbn [cf_threads cf_db].
  - by rewrite list_insert_insert_eq.
  - rewrite list_lookup_insert_eq; [done |]. by eapply lookup_lt_Some.
  - by rewrite held_by_others_insert.
Qed.

(** The turns of the others leave a thread alone. *)
Lemma schedule_other i turns : forall (w w' : Conf Q A), Forall (fun t => t.1 <> i) turns -> schedule iso turns w = Some w' ->
  cf_threads w' !! i = cf_threads w !! i.
Proof.
  induction turns as [|[j c] turns IH]; intros w w' Hne; cbn [schedule]; [by intros [= ->] |].
  apply Forall_cons in Hne as [Hj Hne]. intros H. apply bind_Some in H as (w1 & H1 & H).
  rewrite (IH _ _ Hne H). unfold turn in H1. apply bind_Some in H1 as (t & Ht & H1).
  apply bind_Some in H1 as ([d t'] & _ & [= <-]). cbn [cf_threads]. by apply list_lookup_insert_ne.
Qed.

Lemma schedule_app turns turns' (w : Conf Q A) : schedule iso (turns ++ turns') w = (w' ← schedule iso turns w; schedule iso turns' w').
Proof.
  revert w. induction turns as [|[j c] turns IH]; intros w; cbn [app schedule]; [done |].
  destruct (turn iso j c w) as [w1|]; cbn; [apply IH | done].
Qed.
End Turns.

Section Overlap.
Context {D : MySql} {J : JsonCpp} {O : OpenSsl} {Ro : Router} (iso : isolation).
Context (customConfig : jvalue) (open_file : string -> option string).
Context (req : PaymentCallbackReq) (rawBody : string).

(** The client is there and the statement is executed. *)
Definition fair (c : chance) : Prop := ch_client c = true /\ ch_ok c = true.

(** The payment has the trade number of the callback. *)
Definition same_trade (p : PaymentRow) : bool :=
  sql_eq (py_channel p) (cb_channel req) && sql_eq (py_channel_trade_no p) (cb_channelTradeNo req).

Definition this_visit : visit := Internal (JobCallback req rawBody).

(** What is left of the visit when [m] is left of the scope of the guard. *)
Definition rest (m : M (Result jvalue)) : M answer :=
  rep ← (res ← try_catch
           (graft (fun r => match r with Ret _ | Throw _ => Close (Done r) | _ => Done r end) m)
           (fun e => mret (catch_result e (cb_requestId req)));
         mret (RCallback res));
  mret (Done_job rep).

Lemma genuine_program : genuine customConfig req -> exists k,
  program customConfig open_file this_visit = Begin k /\ k None = rest (callback_body customConfig req rawBody).
Proof.
  intros (Hch & secret & Hsecret & Hne & Hsign). unfold program, this_visit, job_program, handleCallback.
  rewrite bool_decide_true by done. cbn [negb]. rewrite Hsecret. cbn [or_throw mret M_ret mbind M_bind graft].
  rewrite bool_decide_false by done. rewrite Hsign. cbn [negb orb].
  eexists. split; [reflexivity |]. reflexivity.
Qed.

(** The thread after it has read its order [o] in the database [d]. *)
Definition order_read (o : OrderRow) (d : Db) : Thread visit answer :=
  mkThread this_visit (rest (callback_record customConfig req rawBody (order_of_row o) (or_total_amount o))) (TxOpen (mkTx (Some d) [])) [].

Lemma solo_order_read held c1 c2 d o : genuine customConfig req -> keys_wf d ->
  In o (t_order d) -> sql_eq (or_order_no o) (cb_orderNo req) = true ->
  yuanStringToFen (cb_amount req) = Some (or_total_amount o) -> fair c1 -> fair c2 ->
  solo iso held [c1; c2] d (mkThread this_visit (program customConfig open_file this_visit) NoTx [])
  = Some (d, order_read o d).
Proof.
  intros Hgen K Hin Hno Ham [F1 F1'] [_ F2]. destruct (genuine_program Hgen) as (k & -> & Hk).
  rewrite solo_begin, Hk by done.
  eapply eq_trans; [apply (solo_query iso held c2 [] d _ (getByOrderNo_sql (cb_orderNo req)) _ tx_begin [] d
    (Some (order_of_row o))); [done | done |] |].
  - replace (snapshot_of iso tx_begin d) with d by (by destruct iso). rewrite overlay_same by done.
    unfold getByOrderNo_sql. rewrite (sql_head_unique (fun o => weight (or_order_no o)) (weight (cb_orderNo req)) _ _ o);
      [done | by intros r ?%sql_eq_iff | apply K | done | done].
  - cbn. rewrite Ham, Z.eqb_refl. by destruct iso.
Qed.

(** The answer to the repetition: what its last SELECT sees decides. *)
Definition repetition_answer (p : PaymentRow) : Result jvalue :=
  match iso with
  | RepeatableRead => fail kChannelTradeConflict "渠道交易号已绑定其他订单" (cb_requestId req)
  | ReadCommitted => replay_answer p req
  end.

Lemma same_trade_key p : same_trade p = true ->
  (weight (py_channel p), weight (py_channel_trade_no p)) = (weight (cb_channel req), weight (cb_channelTradeNo req)).
Proof. unfold same_trade. intros [H1%sql_eq_iff H2%sql_eq_iff]%andb_true_iff. congruence. Qed.

(** The SELECT of the payment: the snapshot under REPEATABLE READ, the present one
    under READ COMMITTED. *)
Lemma payment_seen d0 d p log : keys_wf d ->
  Forall (fun x => same_trade x = false) (t_payment d0) -> In p (t_payment d) -> same_trade p = true ->
  getByChannelTradeNo_sql (cb_channel req) (cb_channelTradeNo req)
    (overlay (snapshot_of iso (mkTx (Some d0) log) d) d d)
  = Some match iso with RepeatableRead => None | ReadCommitted => Some (payment_of_row p) end.
Proof.
  intros K Hnone Hin Hp. unfold getByChannelTradeNo_sql. fold same_trade. f_equal.
  destruct iso; cbn [snapshot_of tx_snapshot default from_option id].
  - rewrite sql_select_none; [done |]. apply existsb_false, List.Forall_forall. cbn [t_payment overlay].
    intros r [Hr | [Hr Hno]]%overlay_table_In; [| done]. by eapply List.Forall_forall in Hnone.
  - rewrite overlay_same by done. by erewrite (sql_head_unique
      (fun p => (weight (py_channel p), weight (py_channel_trade_no p)))
      (weight (cb_channel req), weight (cb_channelTradeNo req)) _ _ p); [| apply same_trade_key | apply K | ..].
Qed.

(** A payment row that the callback would write, under the identifier [id]. *)
Definition row_fits (o : OrderRow) (id : string) : Prop := exists callbackTime,
  epochToBeijing (cb_timestamp req) = Some callbackTime
  /\ is_Some (payment_row (mkPayment id (cb_orderNo req) (cb_channel req) (cb_channelTradeNo req) (or_total_amount o)
       kPaySuccess callbackTime rawBody)).

(** The INSERT of a payment whose trade number is there changes nothing. *)
Lemma insert_repeated o id callbackTime now d p row : In p (t_payment d) -> same_trade p = true ->
  payment_row (mkPayment id (cb_orderNo req) (cb_channel req) (cb_channelTradeNo req) (or_total_amount o)
    kPaySuccess callbackTime rawBody) = Some row ->
  payment_insert_sql (mkPayment id (cb_orderNo req) (cb_channel req) (cb_channelTradeNo req) (or_total_amount o)
    kPaySuccess callbackTime rawBody) now d = Some (d, 0%nat).
Proof.
  intros Hin Hp Hrow. destruct (payment_insert_sql _ now d) as [[d' n]|] eqn:Hins.
  - apply payment_insert_inv in Hins as (py & Hpy & [(-> & -> & _) | (_ & _ & Hx)]); [done |].
    apply payment_row_inv in Hpy as (_ & _ & Ech & Etn & _). cbn in Ech, Etn.
    apply existsb_false in Hx. rewrite List.Forall_forall in Hx. specialize (Hx p Hin).
    unfold payment_conflict, same_trade in *. rewrite Ech, Etn, Hp, orb_true_r in Hx. done.
  - unfold payment_insert_sql in Hins. rewrite Hrow in Hins. cbn in Hins. by destruct (sql_insert_noop _ _ _).
Qed.

Lemma solo_repetition held c3 c4 c5 c6 d0 d o p id : keys_wf d -> row_fits o id ->
  Forall (fun x => same_trade x = false) (t_payment d0) -> In p (t_payment d) -> same_trade p = true ->
  ch_id c3 = IdOk id -> fair c4 -> fair c5 ->
  unlocked [KPaymentNo (weight id); KTrade (weight (cb_channel req)) (weight (cb_channelTradeNo req))] held = true ->
  solo iso held [c3; c4; c5; c6] d (order_read o d0)
  = Some (d, mkThread this_visit (Done (Ret (Done_job (RCallback (repetition_answer p))))) NoTx []).
Proof.
  intros K (callbackTime & Hct & row & Hrow) Hnone Hin Hp Hid [_ F4] [_ F5] Hfree. unfold order_read.
  set (pay := mkPayment id (cb_orderNo req) (cb_channel req) (cb_channelTradeNo req) (or_total_amount o)
    kPaySuccess callbackTime rawBody) in *.
  pose proof (fun now => insert_repeated o id callbackTime now d p row Hin Hp Hrow) as Hins. fold pay in Hins.
  eapply eq_trans; [apply solo_next_id |]. rewrite Hid. cbn [mret M_ret graft]. rewrite Hct.
  eapply eq_trans; [apply (solo_exec iso held c4 [c5; c6] d this_visit _ (payment_insert_sql pay) _ (mkTx (Some d0) [])
    [] d d 0%nat); [done | exact Hfree | done | apply Hins] |].
  eapply eq_trans; [apply (solo_query iso held c5 [c6] d this_visit
    (getByChannelTradeNo_sql (cb_channel req) (cb_channelTradeNo req)) _ _ [] d
    match iso with RepeatableRead => None | ReadCommitted => Some (payment_of_row p) end);
      [done | cbn; by rewrite Hins | by apply (payment_seen d0 d p)] |].
  unfold repetition_answer, replay_answer. destruct iso; [done |].
  cbn. by case_bool_decide.
Qed.

(** C26. A repeated callback that overlaps the first, in general.  A thread handles a
    genuine callback: it has opened its transaction and read its order, of the amount
    received, at a moment when no payment has the trade number.  Whatever the other
    threads have done since, if the payment of that trade number has been committed
    when the thread goes on, and nobody holds its keys, then its INSERT does nothing,
    and it ends without having changed anything - answering, under REPEATABLE READ,
    the default of MySQL, that the trade number is bound to another order, even if it
    is bound to the order of the callback: the SELECT that should find the payment
    reads the transaction's first snapshot, which is older.  Under READ COMMITTED it
    finds the payment and answers as the code means to: success for the same order. *)
Theorem duplicate_callback_snapshot i w0 c1 c2 w1 w2 c3 c4 c5 c6 o p id :
  genuine customConfig req -> keys_wf (cf_db w0) -> keys_wf (cf_db w2) ->
  cf_threads w0 !! i = Some (mkThread this_visit (program customConfig open_file this_visit) NoTx []) ->
  In o (t_order (cf_db w0)) -> sql_eq (or_order_no o) (cb_orderNo req) = true ->
  yuanStringToFen (cb_amount req) = Some (or_total_amount o) ->
  Forall (fun x => same_trade x = false) (t_payment (cf_db w0)) ->
  fair c1 -> fair c2 -> schedule iso [(i, c1); (i, c2)] w0 = Some w1 ->
  cf_threads w2 !! i = cf_threads w1 !! i ->
  In p (t_payment (cf_db w2)) -> same_trade p = true ->
  ch_id c3 = IdOk id -> row_fits o id -> fair c4 -> fair c5 ->
  unlocked [KPaymentNo (weight id); KTrade (weight (cb_channel req)) (weight (cb_channelTradeNo req))]
    (held_by_others i (cf_threads w2)) = true ->
  schedule iso [(i, c3); (i, c4); (i, c5); (i, c6)] w2
  = Some (mkConf (cf_db w2)
      (<[i := mkThread this_visit (Done (Ret (Done_job (RCallback (repetition_answer p))))) NoTx []]> (cf_threads w2))).
Proof.
  intros Hgen K0 K2 Ht Ho Hno Ham Hnone F1 F2 Hw1 Hsame Hp Htn Hid Hrow F4 F5 Hfree.
  pose proof (lookup_lt_Some _ _ _ Ht) as Hlt.
  pose proof (schedule_solo iso i [c1; c2] w0 _ _ _ Ht
    (solo_order_read _ c1 c2 _ o Hgen K0 Ho Hno Ham F1 F2)) as Hw1'.
  cbn [map] in Hw1'. rewrite Hw1 in Hw1'. injection Hw1' as ->. cbn [cf_threads] in Hsame.
  rewrite list_lookup_insert_eq in Hsame by done.
  by apply (schedule_solo iso i [c3; c4; c5; c6] w2 _ _ _ Hsame), (solo_repetition _ _ _ _ _ (cf_db w0) _ o _ id).
Qed.
End Overlap.

(** ** Witnesses: the channel repeats its callback at once *)

Definition luck (id : string) : chance := mkChance 1735718400000 (IdOk id) 1735718400 true true CommitApplied.

(** [n] commands of one of the two threads. *)
Definition first (n : nat) : list (nat * chance) := repeat (0%nat, luck "900") n.
Definition second (n : nat) : list (nat * chance) := repeat (1%nat, luck "901") n.

Definition shop_program : visit (J := Tree.lib) -> M (answer (J := Tree.lib)) :=
  program (D := Server.lib) (J := Tree.lib) (O := SignUtil.Plain.lib) (Ro := Paths.router) sample_config sample_files.

Definition internal (v : visit (J := Tree.lib)) : option job :=
  match v with Internal j => Some j | Http _ _ _ => None end.

Lemma internal_spec v j : internal v = Some j -> v = Internal j.
Proof. destruct v as [j' |]; [by intros [= ->] | done]. Qed.

Definition two_callbacks : Conf (visit (J := Tree.lib)) (answer (J := Tree.lib)) :=
  arrive shop_program (Internal (JobCallback sample_callback "{}"))
    (arrive shop_program (Internal (JobCallback sample_callback "{}")) (mkConf Server.ordered_shop [])).

Definition isSome {A} (o : option A) : bool := match o with Some _ => true | None => false end.

Definition after (iso : isolation) (turns : list (nat * chance)) : Conf (visit (J := Tree.lib)) (answer (J := Tree.lib)) :=
  default two_callbacks (schedule iso turns two_callbacks).

(** Both requests read the pending order before either pays it. *)
Definition overlapping : list (nat * chance) := second 2 ++ first 13 ++ second 4.
(** The second request comes after the answer to the first. *)
Definition in_turn : list (nat * chance) := first 13 ++ second 6.

(** The replies of the threads that have ended, as codes. *)
Definition codes (w : Conf (visit (J := Tree.lib)) (answer (J := Tree.lib))) : list (option Z) :=
  map (fun t => match th_prog t with Done (Ret (Done_job (RCallback res))) => Some (code res) | _ => None end) (cf_threads w).

Lemma after_runs iso turns : isSome (schedule iso turns two_callbacks) = true ->
  runs (D := Server.lib) (J := Tree.lib) (O := SignUtil.Plain.lib) (Ro := Paths.router) iso sample_config sample_files Server.ordered_shop (after iso turns).
Proof.
  intros H. eapply rtc_l; [apply CfArrive |]. eapply rtc_l; [apply CfArrive |].
  apply (schedule_rtc iso _ turns two_callbacks). unfold after. by destruct (schedule iso turns two_callbacks).
Qed.

Lemma overlapping_scheduled : isSome (schedule RepeatableRead overlapping two_callbacks) = true.
Proof. by vm_compute. Qed.

(** The repetition on the shop, evaluated: answered a conflict when it overlaps, and
    success under READ COMMITTED or when it comes later.  The order is paid once in
    every case. *)
Example overlapping_callbacks :
  codes (after RepeatableRead overlapping) = [Some (intCode kSuccess); Some (intCode kChannelTradeConflict)]
  /\ codes (after ReadCommitted overlapping) = [Some (intCode kSuccess); Some (intCode kSuccess)]
  /\ codes (after RepeatableRead in_turn) = [Some (intCode kSuccess); Some (intCode kSuccess)]
  /\ Forall (fun w => map ar_balance (t_account (cf_db w)) = [94003; 50] /\ length (t_payment (cf_db w)) = 1%nat)
       [after RepeatableRead overlapping; after ReadCommitted overlapping; after RepeatableRead in_turn].
Proof. split_and!; [by vm_compute.. |]. repeat constructor; by vm_compute. Qed.

Lemma sample_genuine : genuine (J := Tree.lib) (O := SignUtil.Plain.lib) sample_config sample_callback.
Proof. split; [by vm_compute |]. eexists. split_and!; [vm_compute; reflexivity | done | by vm_compute]. Qed.

Lemma schedule_after iso turns : isSome (schedule iso turns two_callbacks) = true ->
  schedule iso turns two_callbacks = Some (after iso turns).
Proof. unfold after. by destruct (schedule iso turns two_callbacks). Qed.

(** The first callback goes through between the two halves of the second. *)
Lemma first_goes_through :
  cf_threads (after RepeatableRead (second 2 ++ first 13)) !! 1%nat = cf_threads (after RepeatableRead (second 2)) !! 1%nat.
Proof.
  apply (schedule_other RepeatableRead 1 (first 13)); [by repeat constructor |].
  assert (H : schedule RepeatableRead (second 2 ++ first 13) two_callbacks
    = Some (after RepeatableRead (second 2 ++ first 13))) by (apply schedule_after; by vm_compute).
  rewrite schedule_app, schedule_after in H by (by vm_compute). exact H.
Qed.

Lemma first_paid : exists p, In p (t_payment (cf_db (after RepeatableRead (second 2 ++ first 13))))
  /\ same_trade (D := Server.lib) sample_callback p = true /\ py_order_no p = cb_orderNo sample_callback.
Proof.
  assert (H : map (fun p => (same_trade (D := Server.lib) sample_callback p, py_order_no p))
    (t_payment (cf_db (after RepeatableRead (second 2 ++ first 13)))) = [(true, cb_orderNo sample_callback)]) by (by vm_compute).
  revert H. destruct (t_payment (cf_db _)) as [|p [|]]; intros [=]. exists p. split_and!; [by left | done | done].
Qed.

Lemma sample_row_fits o : or_total_amount o = 5997 -> row_fits (D := Server.lib) sample_callback "{}" o "901".
Proof. unfold row_fits. intros ->. eexists. split; [vm_compute; reflexivity | eexists; vm_compute; reflexivity]. Qed.

Definition pending_order : OrderRow :=
  mkOrderRow "132633958813929472" "aaaabbbbccccdddd" 7 1 3 1999 5997 kPendingPayment 1735720200 None.

Lemma duplicate_callback_snapshot_witness :
  exists (w2 w3 : Conf (visit (J := Tree.lib)) (answer (J := Tree.lib))) t,
  (exists p, In p (t_payment (cf_db w2)) /\ py_order_no p = cb_orderNo sample_callback)
  /\ schedule RepeatableRead (second 4) w2 = Some w3 /\ cf_threads w3 !! 1%nat = Some t
  /\ th_prog t = Done (Ret (Done_job (J := Tree.lib) (RCallback
       (fail kChannelTradeConflict "渠道交易号已绑定其他订单" (cb_requestId sample_callback))))).
Proof.
  assert (H1 : schedule RepeatableRead (second 2) two_callbacks = Some (after RepeatableRead (second 2)))
    by (apply schedule_after; by vm_compute).
  assert (Hdb : keys_wf (D := Server.lib) (cf_db (after RepeatableRead (second 2 ++ first 13)))).
  { assert (Hs : isSome (schedule RepeatableRead (second 2 ++ first 13) two_callbacks) = true) by (by vm_compute).
    apply (runs_safe (D := Server.lib) (J := Tree.lib) (O := SignUtil.Plain.lib) (Ro := Paths.router) (L := Server.lib_laws)
      RepeatableRead sample_config sample_files Server.ordered_shop _ Server.ordered_shop_wf (after_runs _ _ Hs)). }
  assert (Hfree : unlocked [KPaymentNo (weight (MySql := Server.lib) "901");
      KTrade (weight (MySql := Server.lib) (cb_channel sample_callback))
        (weight (MySql := Server.lib) (cb_channelTradeNo sample_callback))]
    (held_by_others 1 (cf_threads (after RepeatableRead (second 2 ++ first 13)))) = true) by (by vm_compute).
  destruct first_paid as (p & Hp & Htn & Hno).
  pose proof (duplicate_callback_snapshot (D := Server.lib) (J := Tree.lib) (O := SignUtil.Plain.lib) (Ro := Paths.router)
    RepeatableRead sample_config sample_files sample_callback "{}" 1 two_callbacks
    (luck "901") (luck "901") _ (after RepeatableRead (second 2 ++ first 13))
    (luck "901") (luck "901") (luck "901") (luck "901") pending_order p "901"
    sample_genuine (proj1 Server.ordered_shop_wf) Hdb eq_refl (or_introl eq_refl) eq_refl eq_refl (List.Forall_nil _)
    (conj eq_refl eq_refl) (conj eq_refl eq_refl) H1 first_goes_through Hp Htn eq_refl
    (sample_row_fits pending_order eq_refl) (conj eq_refl eq_refl) (conj eq_refl eq_refl) Hfree) as H.
  eexists _, _, _. split; [exists p; split; [exact Hp | exact Hno] |]. split; [exact H |].
  split; [cbn [cf_threads]; apply list_lookup_insert_eq | reflexivity]. apply Nat.ltb_lt. by vm_compute.
  Defined.

Lemma ordered_shop_ledger : ledger_inv (D := Server.lib) Server.ordered_shop.
Proof. intros w. split_and!; try done; unfold paid_orders, sum_of; cbn; by rewrite andb_false_r. Qed.

Lemma concurrent_books_witness :
  codes (after RepeatableRead overlapping) = [Some 0; Some 50003]
  /\ spent 7 (cf_db (after RepeatableRead overlapping)) = 5997
  /\ balance_of 7 (cf_db (after RepeatableRead overlapping)) + spent 7 (cf_db (after RepeatableRead overlapping))
     = 100000.
Proof.
  split; [by vm_compute |]. split; [by vm_compute |].
  destruct (concurrent_books (D := Server.lib) (J := Tree.lib) (O := SignUtil.Plain.lib) (Ro := Paths.router) (L := Server.lib_laws)
    RepeatableRead sample_config sample_files Server.ordered_shop _ 1 7 "132633958813929472"
    (after_runs _ _ overlapping_scheduled) Server.ordered_shop_wf ordered_shop_ledger) as (_ & _ & _ & H & _).
  exact H.
Defined.

Lemma second_ended : exists t res, cf_threads (after RepeatableRead overlapping) !! 1%nat = Some t
  /\ th_request t = Internal (JobCallback sample_callback "{}")
  /\ th_prog t = Done (Ret (Done_job (RCallback res))) /\ code res = intCode kChannelTradeConflict.
Proof.
  assert (Hc : codes (after RepeatableRead overlapping) !! 1%nat = Some (Some 50003)) by (by vm_compute).
  assert (Hq : map (fun t => internal (th_request t)) (cf_threads (after RepeatableRead overlapping)) !! 1%nat
    = Some (Some (JobCallback sample_callback "{}"))) by (by vm_compute).
  revert Hc Hq. unfold codes. generalize (after RepeatableRead overlapping). intros w Hc Hq.
  rewrite list_lookup_fmap in Hc. rewrite list_lookup_fmap in Hq.
  destruct (cf_threads w !! 1%nat) as [t|] eqn:Ht; [| done]. cbn in Hc, Hq.
  destruct (th_prog t) as [[[[| res | | | | |] |] | | |] | | | | | | | |] eqn:Hp; try done.
  injection Hc as Hc. injection Hq as Hq%internal_spec. by exists t, res.
Qed.

Lemma concurrent_replies_witness :
  exists (t : Thread (visit (J := Tree.lib)) (answer (J := Tree.lib))) res, th_prog t = Done (Ret (Done_job (RCallback res))) /\ code res = intCode kChannelTradeConflict
  /\ callback_ends (D := Server.lib) (J := Tree.lib) (O := SignUtil.Plain.lib) sample_config
       sample_callback "{}" (Ret res) (th_commits t) (cf_db (after RepeatableRead overlapping)).
Proof.
  destruct second_ended as (t & res & Ht & Hq & Hp & Hc). exists t, res.
  split; [exact Hp |]. split; [exact Hc |].
  pose proof (concurrent_replies (D := Server.lib) (J := Tree.lib) (O := SignUtil.Plain.lib) (Ro := Paths.router) (L := Server.lib_laws)
    RepeatableRead sample_config sample_files Server.ordered_shop _ t _ (after_runs _ _ overlapping_scheduled)
    Server.ordered_shop_wf (list_elem_of_lookup_2 _ _ _ Ht) Hp) as H.
  rewrite Hq in H. exact H.
Defined.

(** The first request has paid the order and has not committed; the second one
    has read the order. *)
Definition halfway : list (nat * chance) := second 2 ++ first 9.

Lemma halfway_scheduled : isSome (schedule RepeatableRead halfway two_callbacks) = true.
Proof. by vm_compute. Qed.

Definition statements (t : Thread (visit (J := Tree.lib)) (answer (J := Tree.lib))) : nat :=
  match th_tx t with TxOpen x => length (tx_log x) | _ => 0%nat end.

Lemma first_open : exists t x, cf_threads (after RepeatableRead halfway) !! 0%nat = Some t
  /\ th_tx t = TxOpen x /\ length (tx_log x) = 4%nat.
Proof.
  assert (Hs : map statements (cf_threads (after RepeatableRead halfway)) !! 0%nat = Some 4%nat) by (by vm_compute).
  revert Hs. generalize (after RepeatableRead halfway). intros w Hs.
  rewrite list_lookup_fmap in Hs. destruct (cf_threads w !! 0%nat) as [t|] eqn:Ht; [| done].
  cbn in Hs. unfold statements in Hs. destruct (th_tx t) as [| x | |] eqn:Hx; try done.
  exists t, x. by simplify_eq.
Qed.

Lemma transactions_isolated_witness :
  exists (t : Thread (visit (J := Tree.lib)) (answer (J := Tree.lib))) x, th_tx t = TxOpen x /\ length (tx_log x) = 4%nat
  /\ exists work, replays (tx_log x) (cf_db (after RepeatableRead halfway)) work.
Proof.
  destruct first_open as (t & x & Ht & Hx & Hs). exists t, x. split; [exact Hx |]. split; [exact Hs |].
  exact (proj1 (transactions_isolated (D := Server.lib) (J := Tree.lib) (O := SignUtil.Plain.lib) (Ro := Paths.router)
    (L := Server.lib_laws) RepeatableRead sample_config sample_files Server.ordered_shop _ _ t x
    (after_runs _ _ halfway_scheduled) Server.ordered_shop_wf Ht Hx)).
Defined.

(** Two orders for the last ten pieces, side by side. *)
Definition cup_request : CreateOrderReq := mkCreateOrderReq "eeeeffff00001111" "00ff" 8 1 7.

Definition two_orders : Conf (visit (J := Tree.lib)) (answer (J := Tree.lib)) :=
  arrive shop_program (Internal (JobOrder cup_request))
    (arrive shop_program (Internal (JobOrder Server.tea_request)) (mkConf Server.shop [])).

Definition orders_done : Conf (visit (J := Tree.lib)) (answer (J := Tree.lib)) :=
  default two_orders (schedule RepeatableRead (second 3 ++ first 11 ++ second 8) two_orders).

Lemma orders_done_runs :
  runs (D := Server.lib) (J := Tree.lib) (O := SignUtil.Plain.lib) (Ro := Paths.router) RepeatableRead sample_config sample_files Server.shop orders_done.
Proof.
  eapply rtc_l; [apply CfArrive |]. eapply rtc_l; [apply CfArrive |].
  apply (schedule_rtc RepeatableRead _ (second 3 ++ first 11 ++ second 8) two_orders). unfold orders_done.
  assert (H : isSome (schedule RepeatableRead (second 3 ++ first 11 ++ second 8) two_orders) = true) by (by vm_compute).
  by destruct (schedule _ _ two_orders).
Qed.

(** The thread has ended and one of its commits has added an order. *)
Definition finished (t : Thread (visit (J := Tree.lib)) (answer (J := Tree.lib))) : bool :=
  match th_prog t with
  | Done _ => existsb (fun c => negb (length (t_order c.2) =? length (t_order c.1))%nat) (th_commits t)
  | _ => false
  end.

Lemma finished_spec t : finished t = true -> exists r, th_prog t = Done r /\ acted (th_commits t).
Proof.
  unfold finished. destruct (th_prog t) as [r | | | | | | | |]; try done.
  intros (c & Hin & Hc)%existsb_exists. exists r. split; [done |]. apply Exists_exists. exists c.
  split; [by apply list_elem_of_In |]. intros E. by rewrite E, Nat.eqb_refl in Hc.
Qed.

Lemma orders_done_threads : exists t u, cf_threads orders_done = [t; u] /\ finished t = true /\ finished u = true
  /\ th_request t = Internal (JobOrder Server.tea_request) /\ th_request u = Internal (JobOrder cup_request).
Proof.
  assert (Hf : map finished (cf_threads orders_done) = [true; true]) by (by vm_compute).
  assert (Hq : map (fun t => internal (th_request t)) (cf_threads orders_done)
    = [Some (JobOrder Server.tea_request); Some (JobOrder cup_request)])
    by (by vm_compute).
  revert Hf Hq. generalize orders_done. intros w Hf Hq.
  destruct (cf_threads w) as [|t [|u [|]]]; try done. injection Hf as Ht Hu. injection Hq as Hqt%internal_spec Hqu%internal_spec.
  by exists t, u.
Qed.

Lemma served_once_witness :
  map pr_stock (t_product (cf_db orders_done)) = [0; 3]
  /\ sql_eq (D := Server.lib) (cr_requestId Server.tea_request) (cr_requestId cup_request) = false.
Proof.
  split; [by vm_compute |]. destruct orders_done_threads as (t & u & Hts & Ht & Hu & Hqt & Hqu).
  destruct (finished_spec t Ht) as (r & Hr & Hc). destruct (finished_spec u Hu) as (r' & Hr' & Hc').
  pose proof (served_once (D := Server.lib) (J := Tree.lib) (O := SignUtil.Plain.lib) (Ro := Paths.router) (L := Server.lib_laws)
    RepeatableRead sample_config sample_files Server.shop orders_done 0%nat 1%nat t u r r' orders_done_runs Server.shop_wf
    ltac:(discriminate) ltac:(by rewrite Hts) ltac:(by rewrite Hts) Hr Hr' Hc Hc') as H.
  rewrite Hqt, Hqu in H. exact (not_true_is_false _ H).
Defined.

(** Two administrators read the pending difference side by side: the first update
    verifies it, the second one finds nothing to do. *)
Definition two_administrators : Conf (visit (J := Tree.lib)) (answer (J := Tree.lib)) :=
  arrive shop_program (Internal (JobHandle 1 "ignore" "b"))
    (arrive shop_program (Internal (JobHandle 1 "verify" "a")) (mkConf diff_shop [])).

Definition handle_codes (w : Conf (visit (J := Tree.lib)) (answer (J := Tree.lib))) : list (option Z) :=
  map (fun t => match th_prog t with Done (Ret (Done_job (RHandle res))) => Some (code res) | _ => None end) (cf_threads w).

Lemma administrators_overlap :
  let w := default two_administrators (schedule RepeatableRead (second 1 ++ first 2 ++ second 1) two_administrators) in
  handle_codes w = [Some (intCode kSuccess); Some (intCode kReconcileDiffAlreadyHandled)]
  /\ map dr_handle_status (t_reconcile_diff (cf_db w)) = [kHandleVerified; kHandleIgnored].
Proof. split; by vm_compute. Qed.

(** A reconciliation that is started twice at once: the batch is added once, and the
    second run, which had found none, meets the unique key on the day. *)
Definition two_runs : Conf (visit (J := Tree.lib)) (answer (J := Tree.lib)) :=
  arrive shop_program (Internal (JobRun "2025-01-01")) (arrive shop_program (Internal (JobRun "2025-01-01")) (mkConf sample_day [])).

Definition run_codes (w : Conf (visit (J := Tree.lib)) (answer (J := Tree.lib))) : list (option Z) :=
  map (fun t => match th_prog t with Done (Ret (Done_job (RRun res))) => Some (code res) | _ => None end) (cf_threads w).

Lemma runs_overlap :
  let w := default two_runs (schedule RepeatableRead (second 3 ++ first 9 ++ second 3) two_runs) in
  run_codes w = [Some (intCode kSuccess); Some (intCode kDbError)]
  /\ length (t_reconcile_batch (cf_db w)) = 1%nat /\ map dr_diff_amount (t_reconcile_diff (cf_db w)) = [-100; 7].
Proof. split_and!; by vm_compute. Qed.

(** Over HTTP: the same order is posted twice at once.  The second request waits for
    the first at the insert of the identifier, and then gets its stored response. *)
Definition two_posts : Conf (visit (J := Tree.lib)) (answer (J := Tree.lib)) :=
  arrive shop_program (Http true "/api/v1/orders" (tea_post "x"))
    (arrive shop_program (Http true "/api/v1/orders" (tea_post "x")) (mkConf Server.shop [])).

Definition responses (w : Conf (visit (J := Tree.lib)) (answer (J := Tree.lib))) : list (option HttpResponse) :=
  map (fun t => match th_prog t with Done (Ret (Response resp)) => resp | _ => None end) (cf_threads w).

Lemma post_twice :
  let w := default two_posts (schedule RepeatableRead (second 2 ++ first 11 ++ second 3) two_posts) in
  (exists resp, responses w = [Some resp; Some resp] /\ statusCode resp = 200)
  /\ map pr_stock (t_product (cf_db w)) = [7; 3].
Proof. split; [eexists; split; [by vm_compute | done] | by vm_compute]. Qed.
