(* ===== verification/Progress.v ===== *)
(** * Progress: no deadlock, and every request comes to an end

    All the programs of the services lock the tables in one order.  [orderly] is the
    verification condition of that order, by recursion on the commands of a program;
    the theorems follow for every configuration that the services can reach: some
    thread can always move, and the moves come to an end. *)

From stdpp Require Import relations.
From S2P Require Import Prelude MoneyUtil IdGenerator JsonValue Result RequestId BeijingTime SignUtil Models.
From S2P Require Import Database Transaction Daos Invariant Locks Interleaving RelyGuarantee Server OrderService PaymentService Books.
From S2P Require Import Reconcile ReconcileService MqClient MessageRelay NotifyConsumer ReconcileTask Controllers Routes System.
From S2P Require Import Concurrency Backoffice Jobs Frontdoor Workload.

(** ** Moves come to an end *)

(** The programs that [m] may become by one answer. *)
Definition next_program {A} (m' m : M A) : Prop :=
  match m with
  | Done _ => False
  | ReadClock k => exists z, m' = k z
  | NextId k => exists r, m' = k r
  | Exec _ _ k => exists x, m' = k x
  | Query _ k => exists x, m' = k x
  | Client _ _ k => exists x, m' = k x
  | Begin k => exists e, m' = k e
  | Commit k => exists e, m' = k e
  | Close k => m' = k
  end.

Lemma next_program_wf {A} (m : M A) : Acc next_program m.
Proof.
  induction m as [r | k IH | k IH | X L f k IH | X g k IH | X L f k IH | k IH | k IH | k IH];
    constructor; intros m'; cbn.
  1: intros [].
  all: first [intros [? ->]; apply IH | intros ->; exact IH].
Qed.

(** One element of a list takes a step. *)
Definition one_step {T} (R : T -> T -> Prop) (l' l : list T) : Prop :=
  exists i x x', l !! i = Some x /\ R x' x /\ l' = <[i := x']> l.

Lemma one_step_wf {T} (R : T -> T -> Prop) (l : list T) : Forall (Acc R) l -> Acc (one_step R) l.
Proof.
  induction 1 as [| x l Hx _ Hl]; [by constructor; intros l' (i & x & x' & ? & _) |].
  revert l Hl. induction Hx as [x _ IHx]. intros l Hl. induction Hl as [l Hl IHl].
  constructor. intros l' ([|i] & y & y' & Hy & HR & ->); cbn in *.
  - injection Hy as ->. apply IHx; [done |]. by constructor.
  - apply IHl. by exists i, y, y'.
Qed.

Section Moves.
Context (iso : isolation) {Q A : Type}.

Lemma thread_step_next c held d (t : Thread Q A) d' t' :
  thread_step iso c held d t = Some (d', t') -> next_program (th_prog t') (th_prog t).
Proof.
  unfold thread_step. destruct (th_prog t) as [r | k | k | X L f k | X g k | X L f k | k | k | k]; cbn [next_program];
    intros H; repeat case_match; try discriminate H; injection H as <- <-; cbn; first [by eexists | done].
Qed.

(** [w'] comes from [w] by a move of a thread. *)
Definition moves (w' w : Conf Q A) : Prop := exists i c, turn iso i c w = Some w'.

Lemma moves_programs w' w : moves w' w ->
  one_step next_program (map th_prog (cf_threads w')) (map th_prog (cf_threads w)).
Proof.
  intros (i & c & H). unfold turn in H. apply bind_Some in H as (t & Ht & H).
  apply bind_Some in H as ([d' t'] & H & [= <-]). apply thread_step_next in H.
  exists i, (th_prog t), (th_prog t'). split; [| split; [done |]].
  - by rewrite list_lookup_fmap, Ht.
  - apply (list_fmap_insert th_prog).
Qed.

Lemma moves_wf w : Acc moves w.
Proof.
  assert (H : Acc (one_step next_program) (map th_prog (cf_threads w))).
  { apply one_step_wf, Forall_forall. intros m _. apply next_program_wf. }
  remember (map th_prog (cf_threads w)) as l eqn:Hl. revert w Hl.
  induction H as [l _ IH]. intros w ->. constructor. intros w' Hw. by eapply IH; [apply moves_programs |].
Qed.
End Moves.

(** ** Locks are taken in order *)

Section Order.
Context (rank : row_key -> nat).

(** The keys [L] are among those held already, or come after them all. *)
Definition in_order (held L : list row_key) : Prop :=
  forall k, k ∈ L -> k ∈ held \/ forall h, h ∈ held -> (rank h < rank k)%nat.

(** A statement that changes nothing. *)
Definition reads {X} (f : Z -> Db -> option (Db * X)) : Prop := forall now d d' x, f now d = Some (d', x) -> d' = d.

(** The program takes its locks in order, whatever the answers; [held] are those of
    its open transaction.  Beside it, a transaction may read on the client as long
    as it has locked nothing. *)
Fixpoint orderly {A} (m : M A) (held : option (list row_key))
  (Q : outcome A -> option (list row_key) -> Prop) : Prop :=
  match m with
  | Done r => Q r held
  | ReadClock k => forall z, orderly (k z) held Q
  | NextId k => forall r, orderly (k r) held Q
  | Exec L _ k =>
      orderly (k None) None Q
      /\ match held with
         | Some H => in_order H L /\ forall x, orderly (k (Some x)) (Some (H ++ L)) Q
         | None => True
         end
  | Query _ k =>
      orderly (k None) None Q
      /\ match held with Some H => forall x, orderly (k (Some x)) held Q | None => True end
  | Client _ f k => (held = None \/ (held = Some [] /\ reads f)) /\ forall x, orderly (k x) held Q
  | Begin k => (forall e, orderly (k (Some e)) held Q) /\ orderly (k None) (Some []) Q
  | Commit k => forall e, orderly (k e) None Q
  | Close k => orderly k None Q
  end.

Section Rules.
Context {A B : Type}.

Lemma orderly_graft (h : outcome A -> M B) R (m : M A) Q held :
  orderly m held Q -> (forall r held, Q r held -> orderly (h r) held R) -> orderly (graft h m) held R.
Proof.
  intros Hm HQ. revert held Hm.
  induction m as [r | k IH | k IH | X L f k IH | X g k IH | X L f k IH | k IH | k IH | k IH];
    intros held Hm; cbn [graft orderly] in *; [by apply HQ | by eauto.. | | | | | |].
  - destruct Hm as [H1 H2]. split; [by apply IH |]. destruct held; [| done].
    destruct H2 as [H2 H3]. split; [done |]. eauto.
  - destruct Hm as [H1 H2]. split; [by apply IH |]. destruct held; [| done]. eauto.
  - destruct Hm as [Hc Hm]. split; [done |]. eauto.
  - destruct Hm as [H1 H2]. split; eauto.
  - eauto.
  - eauto.
Qed.

Lemma orderly_mono (m : M A) Q R held : orderly m held Q -> (forall r held, Q r held -> R r held) -> orderly m held R.
Proof.
  intros Hm HQ. revert held Hm.
  induction m as [r | k IH | k IH | X L f k IH | X g k IH | X L f k IH | k IH | k IH | k IH];
    intros held Hm; cbn [orderly] in *; [by apply HQ | by eauto.. | | | | | |].
  - destruct Hm as [H1 H2]. split; [by apply IH |]. destruct held; [| done].
    destruct H2 as [H2 H3]. split; [done |]. eauto.
  - destruct Hm as [H1 H2]. split; [by apply IH |]. destruct held; [| done]. eauto.
  - destruct Hm as [Hc Hm]. split; [done |]. eauto.
  - destruct Hm as [H1 H2]. split; eauto.
  - eauto.
  - eauto.
Qed.

Lemma orderly_bind (m : M A) (k : A -> M B) R held :
  orderly m held (fun r held' =>
    match r with
    | Ret a => orderly (k a) held' R
    | Throw e => R (Throw e) held'
    | Hang => R Hang held'
    | Undefined => R Undefined held'
    end) -> orderly (m ≫= k) held R.
Proof. intros H. eapply orderly_graft; [exact H |]. by intros []. Qed.
End Rules.

Lemma orderly_try_catch {A} (m : M A) h R held :
  orderly m held (fun r held' => match r with Throw e => orderly (h e) held' R | r => R r held' end) ->
  orderly (try_catch m h) held R.
Proof. intros H. eapply orderly_graft; [exact H |]. by intros []. Qed.

Lemma orderly_ret {A} (a : A) (Q : outcome A -> option (list row_key) -> Prop) held :
  Q (Ret a) held -> orderly (mret a) held Q.
Proof. done. Qed.

Lemma orderly_throw {A} e (Q : outcome A -> option (list row_key) -> Prop) held :
  Q (Throw e) held -> orderly (throw e) held Q.
Proof. done. Qed.

Lemma orderly_read_clock held (Q : outcome Z -> option (list row_key) -> Prop) :
  (forall z, Q (Ret z) held) -> orderly read_clock held Q.
Proof. done. Qed.

Lemma orderly_exec {X} L (f : Z -> Db -> option (Db * X)) H Q : in_order H L ->
  Q (Throw DbException) None -> (forall x, Q (Ret x) (Some (H ++ L))) -> orderly (exec L f) (Some H) Q.
Proof. intros Hin Hfail Hok. by split. Qed.

Lemma orderly_query {X} (g : Db -> option X) H (Q : outcome X -> option (list row_key) -> Prop) :
  Q (Throw DbException) None -> (forall x, Q (Ret x) (Some H)) -> orderly (query g) (Some H) Q.
Proof. intros Hfail Hok. by split. Qed.

Lemma orderly_client {X} L (f : Z -> Db -> option (Db * X)) Q :
  Q (Throw DbException) None -> (forall x, Q (Ret x) None) -> orderly (exec_client L f) None Q.
Proof. intros Hfail Hok. split; [by left |]. by intros [x|]; [apply Hok |]. Qed.

Lemma orderly_client_read {X} L (f : Z -> Db -> option (Db * X)) (Q : outcome X -> option (list row_key) -> Prop) :
  reads f -> Q (Throw DbException) (Some []) -> (forall x, Q (Ret x) (Some [])) -> orderly (exec_client L f) (Some []) Q.
Proof. intros Hr Hfail Hok. split; [by right |]. by intros [x|]; [apply Hok |]. Qed.

Lemma orderly_commit held (Q : outcome unit -> option (list row_key) -> Prop) :
  (forall e, Q (Throw e) None) -> Q (Ret tt) None -> orderly guard_commit held Q.
Proof. intros Hfail Hok. by intros [e|]; [apply Hfail |]. Qed.

Lemma orderly_next_id held (Q : outcome string -> option (list row_key) -> Prop) :
  (forall id, Q (Ret id) held) -> Q (Throw StdException) held -> Q Hang held -> orderly next_id held Q.
Proof. intros H1 H2 H3. by intros []; cbn. Qed.

Lemma orderly_or_throw {A} (o : option A) held (Q : outcome A -> option (list row_key) -> Prop) :
  (forall a, Q (Ret a) held) -> Q (Throw StdException) held -> orderly (or_throw o) held Q.
Proof. intros H1 H2. by destruct o; [apply H1 |]. Qed.

Lemma orderly_deref {A} (o : option A) held (Q : outcome A -> option (list row_key) -> Prop) :
  (forall a, Q (Ret a) held) -> Q Undefined held -> orderly (deref o) held Q.
Proof. intros H1 H2. by destruct o; [apply H1 |]. Qed.

Lemma orderly_with_guard {A} (body : M A) (Q : outcome A -> option (list row_key) -> Prop) :
  (forall e, Q (Throw e) None) ->
  orderly body (Some []) (fun r held => match r with Ret _ | Throw _ => Q r None | _ => Q r held end) ->
  orderly (with_guard body) None Q.
Proof.
  intros Hfail Hbody. apply orderly_bind. split; [intros e; apply Hfail |].
  eapply orderly_graft; [exact Hbody |]. by intros [].
Qed.
End Order.

(** ** Some thread can move *)

Section Deadlock.
Context (rank : row_key -> nat) (top : nat) (rank_top : forall k, (rank k < top)%nat).
Context (iso : isolation) {Q A : Type}.

Definition held_of (tx : TxState Tx) : option (list row_key) :=
  match tx with TxOpen x => Some (flat_map entry_locks (tx_log x)) | _ => None end.

(** A program that returns or throws has closed its transaction. *)
Definition released (r : outcome A) (held : option (list row_key)) : Prop :=
  match r with Ret _ | Throw _ => held = None | _ => True end.

Definition thread_orderly (t : Thread Q A) : Prop :=
  orderly rank (th_prog t) (held_of (th_tx t)) released.

Lemma thread_step_orderly c held d t d' t' : thread_step iso c held d t = Some (d', t') ->
  thread_orderly t -> thread_orderly t'.
Proof.
  unfold thread_orderly, thread_step.
  destruct t as [q m tx cs]. destruct m as [r | k | k | X L f k | X g k | X L f k | k | k | k];
    cbn [th_prog th_tx th_request th_commits orderly]; intros H Ho.
  - done.
  - injection H as <- <-. apply Ho.
  - injection H as <- <-. apply Ho.
  - destruct Ho as [Hfail Hok], tx; cbn [held_of] in *; repeat case_match; simplify_eq; cbn; try done.
    rewrite flat_map_app. cbn. rewrite app_nil_r. apply Hok.
  - destruct Ho as [Hfail Hok], tx; cbn [held_of] in *; repeat case_match; simplify_eq; cbn; done.
  - destruct Ho as [_ Hok]; repeat case_match; simplify_eq; cbn; apply Hok.
  - destruct Ho as [Hfail Hok]; repeat case_match; simplify_eq; cbn; first [apply Hfail | apply Hok].
  - destruct tx; repeat case_match; simplify_eq; cbn; apply Ho.
  - injection H as <- <-. apply Ho.
Qed.

(** A thread that cannot move has ended, or waits for a key that a transaction
    holds. *)
Definition wants (t : Thread Q A) : list row_key :=
  match th_prog t with Exec L _ _ | Client L _ _ => L | _ => [] end.

Lemma locked_key L held : unlocked L held = false -> exists k, k ∈ L /\ k ∈ held.
Proof.
  unfold unlocked. induction L as [|k L IH]; cbn; [done |].
  intros [H | H]%andb_false_iff.
  - exists k. apply bool_decide_eq_false, dec_stable in H. split; [by left | done].
  - destruct (IH H) as (k' & Hk & Hh). exists k'. split; [by right | done].
Qed.

Lemma thread_step_none c held d t : ch_ok c = true -> thread_orderly t ->
  thread_step iso c held d t = None ->
  (exists r, th_prog t = Done r)
  \/ exists k, k ∈ wants t /\ k ∈ held /\ in_order rank (tx_locks (th_tx t)) [k].
Proof.
  intros Hok Ho H. unfold thread_orderly, thread_step, wants in *. rewrite Hok in H.
  destruct t as [q m tx cs]. destruct m as [r | k | k | X L f k | X g k | X L f k | k | k | k];
    cbn [th_prog th_tx th_request th_commits orderly negb] in *; [by left; eexists | done | done | | | | | | done].
  - right. destruct tx as [| x | |]; try done. destruct Ho as [_ [Hin _]]. cbn [held_of tx_locks] in *.
    destruct (unlocked L held) eqn:Hun; [repeat case_match; done |].
    apply locked_key in Hun as (k0 & Hk & Hh). exists k0. split; [done |]. split; [done |].
    intros k1 ->%list_elem_of_singleton. by apply Hin.
  - destruct tx; repeat case_match; done.
  - right. destruct Ho as [Hnone _].
    assert (Hl : tx_locks tx = []) by (destruct Hnone as [Hn | [Hn _]], tx; cbn in *; congruence).
    rewrite Hl in *. cbn [app] in H.
    destruct (unlocked L held) eqn:Hun; [repeat case_match; done |].
    apply locked_key in Hun as (k0 & Hk & Hh). exists k0. split; [done |]. split; [done |].
    intros k1 _. right. by intros h ?%elem_of_nil.
  - repeat case_match; done.
  - destruct tx; repeat case_match; done.
Qed.

(** The transactions of different threads hold different keys. *)
Definition disjoint_locks (ts : list (Thread Q A)) : Prop :=
  forall i t k, ts !! i = Some t -> k ∈ tx_locks (th_tx t) -> k ∉ held_by_others i ts.

(** The chain of the threads that wait for each other climbs the ranks, so it has
    an end, and the thread there moves. *)
Lemma chain_moves c (w : Conf Q A) : ch_ok c = true -> disjoint_locks (cf_threads w) ->
  Forall thread_orderly (cf_threads w) ->
  (forall t r, t ∈ cf_threads w -> th_prog t = Done r -> tx_locks (th_tx t) = []) ->
  forall n i t k, cf_threads w !! i = Some t -> k ∈ tx_locks (th_tx t) -> (top <= n + rank k)%nat ->
  exists j w', turn iso j c w = Some w'.
Proof.
  intros Hc Hdis Ho Hdone n. induction n as [|n IH]; intros i t k Ht Hk Hn; [specialize (rank_top k); lia |].
  destruct (thread_step iso c (held_by_others i (cf_threads w)) (cf_db w) t) as [[d' t']|] eqn:Hstep.
  { eexists i, _. unfold turn. rewrite Ht. cbn. rewrite Hstep. reflexivity. }
  destruct (thread_step_none _ _ _ _ Hc (Forall_lookup_1 _ _ _ _ Ho Ht) Hstep) as [[r Hr] | (k' & _ & Hk' & Hin)].
  { rewrite (Hdone t r) in Hk; [by apply elem_of_nil in Hk | by eapply list_elem_of_lookup_2 | done]. }
  destruct (Hin k' (list_elem_of_here _ _)) as [Hown | Hlt]; [by destruct (Hdis i t k' Ht Hown) |].
  specialize (Hlt k Hk). apply held_by_others_spec in Hk' as (j & u & _ & Hu & Hku).
  apply (IH j u k' Hu Hku). lia.
Qed.

Lemma some_thread_moves c (w : Conf Q A) : ch_ok c = true -> disjoint_locks (cf_threads w) ->
  Forall thread_orderly (cf_threads w) ->
  (forall t r, t ∈ cf_threads w -> th_prog t = Done r -> tx_locks (th_tx t) = []) ->
  (exists t, t ∈ cf_threads w /\ forall r, th_prog t <> Done r) ->
  exists j w', turn iso j c w = Some w'.
Proof.
  intros Hc Hdis Ho Hdone (t & [i Ht]%list_elem_of_lookup & Hnd).
  destruct (thread_step iso c (held_by_others i (cf_threads w)) (cf_db w) t) as [[d' t']|] eqn:Hstep.
  { eexists i, _. unfold turn. rewrite Ht. cbn. rewrite Hstep. reflexivity. }
  destruct (thread_step_none _ _ _ _ Hc (Forall_lookup_1 _ _ _ _ Ho Ht) Hstep) as [[r Hr] | (k & _ & Hk & _)].
  { by destruct (Hnd r). }
  apply held_by_others_spec in Hk as (j & u & _ & Hu & Hku).
  eapply (chain_moves c w Hc Hdis Ho Hdone top j u k Hu Hku). lia.
Qed.

(** Every thread stays orderly. *)
Lemma steps_orderly (program : Q -> M A) w w' :
  (forall q, orderly rank (program q) None released) -> rtc (conf_step iso program) w w' ->
  Forall thread_orderly (cf_threads w) -> Forall thread_orderly (cf_threads w').
Proof.
  intros Hp. induction 1 as [w | w w1 w' Hs _ IH]; [done |]. intros Hw. apply IH.
  destruct Hs as [q w | i c w w1 H]; cbn [arrive cf_threads].
  - apply Forall_app. split; [done |]. apply Forall_singleton, Hp.
  - unfold turn in H. apply bind_Some in H as (t & Ht & H). apply bind_Some in H as ([d' t'] & H & [= <-]).
    cbn [cf_threads]. apply Forall_insert; [done |]. eapply thread_step_orderly; [exact H |].
    by eapply Forall_lookup_1.
Qed.
End Deadlock.

(** ** The order of the services *)

(** An order request locks its idempotency record, the product and the new order;
    a callback the new payment, the order, the account, the flow and the message; a
    reconciliation the batch and then the numbering of the differences. *)
Definition lock_rank (k : row_key) : nat :=
  match k with
  | KIdempotent _ => 0
  | KProduct _ => 1
  | KPaymentNo _ | KTrade _ _ => 2
  | KOrderNo _ | KOrderRequest _ => 3
  | KAccount _ => 4
  | KFlow _ _ => 5
  | KMessage _ => 6
  | KNotifyNo _ | KNotifyMessage _ | KBatchNo _ | KBatchDay _ _ | KDiff _ => 7
  | KDiffAuto => 8
  end.

Lemma lock_rank_top k : (lock_rank k < 9)%nat.
Proof. destruct k; cbn; lia. Qed.

(** Membership in concrete lists of keys, and comparison of their ranks. *)
Ltac climb :=
  let k := fresh "k" in let h := fresh "h" in
  intros k; cbn [app]; rewrite ?elem_of_cons, ?elem_of_nil;
  intros Hk; repeat destruct Hk as [-> | Hk]; try done;
  first [left; tauto
    | right; intros h; rewrite ?elem_of_cons, ?elem_of_nil; intros Hh;
      repeat destruct Hh as [-> | Hh]; try done; cbn; lia].

Ltac orderly_step :=
  match goal with
  | |- orderly _ (_ ≫= _) _ _ => apply orderly_bind
  | |- orderly _ (mret _) _ _ => apply orderly_ret
  | |- orderly _ (throw _) _ _ => apply orderly_throw
  | |- orderly _ (exec _ _) _ _ => apply orderly_exec; [climb | try done | intros ?]
  | |- orderly _ (query _) _ _ => apply orderly_query; [try done | intros ?]
  | |- orderly _ (exec_client _ _) None _ => apply orderly_client; [try done | intros ?]
  | |- orderly _ guard_commit _ _ => apply orderly_commit; [intros ?; try done | ]
  | |- orderly _ next_id _ _ => apply orderly_next_id; [intros ? | try done | try done]
  | |- orderly _ read_clock _ _ => apply orderly_read_clock; intros ?
  | |- orderly _ (or_throw _) _ _ => apply orderly_or_throw; [intros ? | try done]
  | |- orderly _ (deref _) _ _ => apply orderly_deref; [intros ? | try done]
  | |- orderly _ (match ?x with _ => _ end) _ _ => destruct x
  end.
Ltac orderly_steps := repeat (cbn beta iota; orderly_step); try done.

Section Programs.
Context {D : MySql} {J : JsonCpp} {O : OpenSsl} {Ro : Router} (customConfig : jvalue) (open_file : string -> option string).

(** Any answer will do. *)
Abbreviation any_end := (fun _ _ => True).

Lemma orderly_order_body req : orderly lock_rank (createOrder_body req) (Some []) any_end.
Proof.
  unfold createOrder_body, tryAcquire, createOrder_execute, createOrder_place, getById, deductStock, order_insert, idem_markSuccess.
  orderly_steps.
Qed.

Lemma orderly_callback_body req raw : orderly lock_rank (callback_body customConfig req raw) (Some []) any_end.
Proof.
  unfold callback_body, callback_record, callback_settle, callback_debit, callback_notify, getByOrderNo,
    payment_insertWithDedup, getByChannelTradeNo, markPaid, getByUserId, deduct, insertFlow, message_insert.
  orderly_steps.
Qed.

(** The differences are inserted under the lock of the batch. *)
Lemma orderly_insert_diffs batchNo classified held : (forall k, k ∈ held -> k = KDiffAuto \/ (lock_rank k <= 7)%nat) ->
  orderly lock_rank (insert_diffs batchNo classified) (Some held) any_end.
Proof.
  revert held. induction classified as [|c rest IH]; intros held Hh; cbn [insert_diffs]; [done |].
  apply orderly_bind, orderly_exec; [| done |].
  - intros k ->%list_elem_of_singleton. destruct (decide (KDiffAuto ∈ held)) as [Hin | Hin]; [by left | right].
    intros h Hk. destruct (Hh h Hk) as [-> | Hle]; [done | cbn; lia].
  - intros _. apply IH. intros k [Hk | ->%list_elem_of_singleton]%elem_of_app; [by apply Hh | by left].
Qed.

Lemma orderly_run_body billDate channelRows : orderly lock_rank (run_body billDate channelRows) (Some []) any_end.
Proof.
  unfold run_body, hasBatchForDate, insertBatch. apply orderly_bind, orderly_client_read; [| done |].
  { by intros now d d' x [-> _]%read_inv. }
  intros [|]; [done |]. orderly_steps.
  eapply orderly_mono; [apply orderly_insert_diffs |].
  - intros k. cbn [app batch_locks build_batch b_batchNo b_billDate b_channel]. unfold batch_locks.
    destruct (parse_date _) as [day|]; rewrite !elem_of_cons, ?elem_of_nil; intros Hk; right;
      repeat destruct Hk as [-> | Hk]; try done; cbn; lia.
  - intros [] held _; [orderly_steps | done..].
Qed.

(** The locks are gone at the end of the scope of the guard. *)
Lemma orderly_guard {A} (body : M A) : orderly lock_rank body (Some []) any_end ->
  orderly lock_rank (with_guard body) None (fun r held => match r with Ret _ | Throw _ => held = None | _ => True end).
Proof. intros H. apply orderly_with_guard; [done |]. eapply orderly_mono; [exact H |]. by intros []. Qed.

Lemma orderly_createOrder req : orderly lock_rank (createOrder req) None released.
Proof.
  unfold createOrder. destruct (_ || _); [done |].
  apply orderly_try_catch. eapply orderly_mono; [apply orderly_guard, orderly_order_body |]. by intros [].
Qed.

Lemma orderly_handleCallback req raw : orderly lock_rank (handleCallback customConfig req raw) None released.
Proof.
  unfold handleCallback. destruct (negb _); [done |]. orderly_steps.
  apply orderly_try_catch. eapply orderly_mono; [apply orderly_guard, orderly_callback_body |]. by intros [].
Qed.

Lemma orderly_handleDiff id action remark : orderly lock_rank (handleDiff id action remark) None released.
Proof. unfold handleDiff, getDiffById, dao_handleDiff. orderly_steps. Qed.

Lemma orderly_run billDate : orderly lock_rank (run open_file billDate) None released.
Proof.
  unfold run. destruct (open_file _) as [content|]; [| done].
  destruct (parse_bill content) as [channelRows|]; [| done].
  apply orderly_try_catch. eapply orderly_mono; [apply orderly_guard, orderly_run_body |]. by intros [].
Qed.

Lemma orderly_bind_released {A B} (m : M A) (k : A -> M B) : orderly lock_rank m None released ->
  (forall a, orderly lock_rank (k a) None released) -> orderly lock_rank (a ← m; k a) None released.
Proof.
  intros Hm Hk. apply orderly_bind. eapply orderly_mono; [exact Hm |].
  intros [a | e | |] held H; cbn [released] in H; [subst held; apply Hk | done..].
Qed.

Lemma job_orderly j : orderly lock_rank (job_program customConfig open_file j) None released.
Proof.
  destruct j as [req | req raw | | msg delivered | mid no url | no body success | id action remark | billDate |];
    cbn [job_program]; apply orderly_bind_released; try done.
  - apply orderly_createOrder.
  - apply orderly_handleCallback.
  - unfold scanPending. orderly_steps.
  - unfold record_result, markAcked, markGiveUp, msg_markFailed. orderly_steps.
  - unfold notify_insertWithDedup. orderly_steps.
  - unfold record_reply, notify_markSuccess, notify_markFailed. orderly_steps.
  - apply orderly_handleDiff.
  - apply orderly_run.
  - unfold checkAndRun, today, hasBatchForDate. orderly_steps. eapply orderly_mono; [apply orderly_run |]. by intros [] held H.
Qed.

Lemma orderly_task running (work : M HttpResponse) rid : orderly lock_rank work None released ->
  orderly lock_rank (submit_task running work rid) None released.
Proof.
  intros H. unfold submit_task. destruct running; [| done]. apply orderly_try_catch.
  apply orderly_bind. eapply orderly_mono; [exact H |]. by intros [].
Qed.

Lemma orderly_parsed {X} (o : option (option X)) bad (k : X -> M (option HttpResponse)) :
  (forall x, orderly lock_rank (k x) None released) ->
  orderly lock_rank (p ← or_throw o; match p with None => mret (Some bad) | Some x => k x end) None released.
Proof. intros Hk. by destruct o as [[x|]|]; [apply Hk | |]. Qed.

Lemma handler_orderly (running : bool) args req :
  Forall (fun rt => orderly lock_rank (rt_handler rt args req) None released) (routes customConfig open_file running).
Proof.
  unfold routes, admin_routes, health_routes, mock_routes, order_routes, callback_routes.
  repeat apply List.Forall_cons; [.. | constructor]; cbn [rt_handler].
  - apply orderly_parsed. intros billDate. apply orderly_task, orderly_bind_released; [apply orderly_run | done].
  - unfold listDiffs_endpoint. case_bool_decide; [done |]. apply orderly_task, orderly_bind_released; [| done].
    unfold listDiffs, dao_listDiffs. apply orderly_try_catch. orderly_steps.
  - unfold handleDiff_handler. destruct args as [|arg [|]]; [done | | done]. destruct (path_int64 arg); [| done].
    apply (orderly_parsed _ _ (fun '(action, remark) => submitToPool _ _ _)). intros [action remark].
    apply orderly_task, orderly_bind_released; [apply orderly_handleDiff | done].
  - done.
  - by destruct (mock_notify req).
  - apply orderly_parsed. intros oreq. apply orderly_task, orderly_bind_released; [apply orderly_createOrder | done].
  - apply orderly_parsed. intros creq. apply orderly_task, orderly_bind_released; [apply orderly_handleCallback | done].
Qed.

Lemma program_orderly v : orderly lock_rank (program customConfig open_file v) None released.
Proof.
  destruct v as [j | running path req]; cbn [program]; apply orderly_bind_released; try done; [apply job_orderly |].
  unfold handle_request. destruct (route_for _ _ _) as [[i args]|]; cbn [mbind option_bind]; [| done].
  destruct (routes _ _ running !! i) as [rt|] eqn:Hi; cbn [mbind option_bind]; [| done].
  pose proof (fun req => Forall_lookup_1 _ _ _ _ (handler_orderly running args req) Hi) as Ho. cbn beta in Ho.
  unfold serve. destruct (rt_filtered rt); [| apply Ho]. by destruct (doFilter req); [apply Ho |].
Qed.
End Programs.

(** ** The properties *)

Section Properties.
Context {D : MySql} {J : JsonCpp} {O : OpenSsl} {L : MySqlLaws} {Ro : Router} (iso : isolation) (customConfig : jvalue)
  (open_file : string -> option string).

(** Some thread can move. *)
Lemma threads_move d w c : runs iso customConfig open_file d w -> db_wf d -> ch_ok c = true ->
  (forall t, t ∈ cf_threads w -> th_prog t = Done Hang -> tx_locks (th_tx t) = []) ->
  (exists t, t ∈ cf_threads w /\ forall r, th_prog t <> Done r) ->
  exists j w', turn iso j c w = Some w'.
Proof.
  intros Hw Hd Hc Hhang Hlive.
  assert (Ho : Forall (thread_orderly lock_rank) (cf_threads w)).
  { eapply (steps_orderly lock_rank iso _ _ _ (program_orderly customConfig open_file) Hw). constructor. }
  apply (some_thread_moves lock_rank 9 lock_rank_top iso c w Hc); [| done | | done].
  - intros i t k Ht. by apply (runs_disjoint iso customConfig open_file d w Hw Hd i t Ht).
  - intros t r Hin Hr. destruct (runs_safe iso customConfig open_file d w Hd Hw) as (_ & _ & Hends).
    specialize (Hends t r Hin Hr). rewrite Forall_forall in Ho. specialize (Ho t Hin).
    unfold thread_orderly in Ho. rewrite Hr in Ho. cbn in Ho.
    destruct r as [a | e | |]; cbn [released] in Ho; [| | by apply Hhang | by destruct (th_request t)].
    + by destruct (th_tx t).
    + by destruct (th_tx t).
Qed.

(** The services never deadlock on their rows: whenever a request has not ended,
    some thread can send its next command and get its answer, unless a thread hangs
    in [waitNextMs] in the middle of a transaction. *)
Theorem no_deadlock d w c : runs iso customConfig open_file d w -> db_wf d -> ch_ok c = true ->
  (forall t, t ∈ cf_threads w -> th_prog t = Done Hang -> tx_locks (th_tx t) = []) ->
  (exists t, t ∈ cf_threads w /\ forall r, th_prog t <> Done r) ->
  exists j w', turn iso j c w = Some w'.
Proof. apply threads_move. Qed.

(** Every request comes to an end: whatever the interleaving, the answers and the
    failures, there is no endless sequence of commands without new requests. *)
Theorem requests_end (w : Conf visit answer) : Acc (moves iso) w.
Proof. apply moves_wf. Qed.
End Properties.

(** ** Witness: the second request waits for the first *)

(** The first request has paid the order; the second one is about to insert the
    same payment. *)
Definition waiting : Conf (visit (J := Tree.lib)) (answer (J := Tree.lib)) := after RepeatableRead (second 2 ++ first 7 ++ second 1).

Definition running (t : Thread (visit (J := Tree.lib)) (answer (J := Tree.lib))) : bool :=
  match th_prog t with Done _ => false | _ => true end.

Lemma running_spec t : running t = true -> forall r, th_prog t <> Done r.
Proof. unfold running. by destruct (th_prog t). Qed.

Lemma all_running (w : Conf (visit (J := Tree.lib)) (answer (J := Tree.lib))) :
  forallb running (cf_threads w) && negb (Nat.eqb (length (cf_threads w)) 0) = true ->
  (forall t, t ∈ cf_threads w -> forall r, th_prog t <> Done r)
  /\ exists t, t ∈ cf_threads w /\ forall r, th_prog t <> Done r.
Proof.
  intros [H Hne]%andb_true_iff. rewrite forallb_forall in H.
  assert (Hall : forall t, t ∈ cf_threads w -> forall r, th_prog t <> Done r).
  { intros t Ht. by apply running_spec, H, list_elem_of_In. }
  split; [done |]. destruct (cf_threads w) as [|t l]; [done |]. exists t. split; [by left | apply Hall; by left].
Qed.

Lemma waiting_running : forallb running (cf_threads waiting) && negb (Nat.eqb (length (cf_threads waiting)) 0) = true.
Proof. by vm_compute. Qed.

Lemma waiting_scheduled : isSome (schedule RepeatableRead (second 2 ++ first 7 ++ second 1) two_callbacks) = true.
Proof. by vm_compute. Qed.

Lemma no_deadlock_witness :
  isSome (turn RepeatableRead 1 (luck "901") waiting) = false
  /\ exists j w', turn RepeatableRead j (luck "901") waiting = Some w'.
Proof.
  split; [by vm_compute |]. destruct (all_running _ waiting_running) as [Hall Hlive].
  exact (no_deadlock (D := Server.lib) (J := Tree.lib) (O := SignUtil.Plain.lib) (Ro := Paths.router) (L := Server.lib_laws)
    RepeatableRead sample_config sample_files Server.ordered_shop waiting (luck "901") (after_runs _ _ waiting_scheduled)
    Server.ordered_shop_wf eq_refl (fun t Ht Hr => match Hall t Ht _ Hr with end) Hlive).
Defined.
