(* ===== verification/Alone.v ===== *)
(** * Alone: one thread on an idle server

    The theorems on the services (OrderService, PaymentService, MessageRelay, ...)
    are about [run_alone], where the program reads its transaction's own view of the
    database and nobody else writes.  Here that interpreter is related to the
    interleaving of threads: a thread that has the server for itself does, command by
    command, what [run_alone] does, at either isolation level. *)

From stdpp Require Import relations.
From S2P Require Import Prelude MoneyUtil IdGenerator JsonValue Result RequestId BeijingTime SignUtil Models.
From S2P Require Import Database Transaction Daos Invariant Locks Interleaving RelyGuarantee Server OrderService PaymentService Books.
From S2P Require Import Reconcile ReconcileService MqClient MessageRelay NotifyConsumer Controllers Routes System.
From S2P Require Import Concurrency Backoffice Jobs Frontdoor Workload Progress.

(** ** The simulation *)

Section Alone.
Context {D : MySql} {P : Protocol} {E : Env} (iso : isolation) (rank : row_key -> nat).
Context (inv_keys : forall d, db_inv d -> keys_wf d).
Context {Q A : Type} (q : Q).

(** The state of the interpreter and that of a thread that is alone. *)
Definition same_tx (v : TxState Db) (x : TxState Tx) (d : Db) : Prop :=
  match v, x with
  | NoTx, NoTx | TxFinished, TxFinished | TxAborted, TxAborted => True
  | TxOpen v, TxOpen x => replays (tx_log x) d v /\ (tx_snapshot x = None \/ tx_snapshot x = Some d)
  | _, _ => False
  end.

Definition alone (st : St) (m : M A) (x : TxState Tx) (cs : list (Db * Db)) : Conf Q A :=
  mkConf (committed st) [mkThread q m x cs].

(** The luck that the oracles of [run_alone] give to the next command. *)
Definition next_chance (st : St) : chance := {|
  ch_clock := system_clock (readings st);
  ch_id := (run_id st).1;
  ch_now := db_now (stmts st);
  ch_client := db_configured;
  ch_ok := stmt_ok (stmts st);
  ch_fate := fate (stmts st)
|}.

Lemma turn_alone c st m x cs d' t' :
  thread_step iso c [] (committed st) (mkThread q m x cs) = Some (d', t') ->
  turn iso 0 c (alone st m x cs) = Some (mkConf d' [t']).
Proof. intros H. unfold turn, alone. cbn -[thread_step]. by rewrite H. Qed.

Lemma unlocked_nil L : unlocked L [] = true.
Proof. unfold unlocked. apply forallb_forall. intros k _. by apply bool_decide_eq_true_2, not_elem_of_nil. Qed.

(** Some schedule brings the thread from [m] to the end of [run_alone]. *)
Definition arrives (m : M A) (st : St) (x : TxState Tx) (cs : list (Db * Db)) : Prop :=
  exists turns x' cs', schedule iso turns (alone st m x cs)
    = Some (alone (run_alone m st).2 (Done (run_alone m st).1) x' cs').

Lemma arrives_step c m st x cs m1 st1 x1 cs1 :
  thread_step iso c [] (committed st) (mkThread q m x cs) = Some (committed st1, mkThread q m1 x1 cs1) ->
  run_alone m st = run_alone m1 st1 -> arrives m1 st1 x1 cs1 -> arrives m st x cs.
Proof.
  intros Hs Hr (turns & x' & cs' & H). exists ((0%nat, c) :: turns), x', cs'. cbn [schedule].
  rewrite (turn_alone _ _ _ _ _ _ _ Hs), Hr. exact H.
Qed.

Lemma rely_here x d : db_inv d -> rely x d d.
Proof. intros Hi. by apply rely_refl. Qed.

(** A statement of an open transaction. *)
Lemma exec_alone {X} L (f : Z -> Db -> option (Db * X)) (k : option X -> M A) st v x cs : tx st = TxOpen v ->
  replays (tx_log x) (committed st) v ->
  thread_step iso (next_chance st) [] (committed st) (mkThread q (Exec L f k) (TxOpen x) cs)
  = Some (committed st, mkThread q (k (run_exec f st).1)
      (match (run_exec f st).1 with
       | Some a => TxOpen (push L (f (db_now (stmts st))) a x)
       | None => TxAborted
       end) cs)
  /\ committed (run_exec f st).2 = committed st
  /\ match (run_exec f st).1 with
     | Some a => exists v', tx (run_exec f st).2 = TxOpen v' /\ f (db_now (stmts st)) v = Some (v', a)
     | None => tx (run_exec f st).2 = TxAborted
     end.
Proof.
  intros Htx Hw. unfold run_exec, thread_step. cbn [th_prog th_tx th_request th_commits next_chance ch_ok ch_now].
  rewrite Htx, unlocked_nil, (replays_replay _ _ _ Hw). cbn [mbind option_bind].
  destruct (stmt_ok (stmts st)); cbn [negb]; [| by split_and!].
  destruct (f (db_now (stmts st)) v) as [[v' a]|] eqn:Hf; [| by split_and!].
  split_and!; [done.. |]. by exists v'.
Qed.

Lemma query_alone {X} (g : Db -> option X) (k : option X -> M A) st v x cs : tx st = TxOpen v ->
  replays (tx_log x) (committed st) v -> tx_snapshot x = None \/ tx_snapshot x = Some (committed st) ->
  keys_wf (committed st) ->
  thread_step iso (next_chance st) [] (committed st) (mkThread q (Query g k) (TxOpen x) cs)
  = Some (committed st, mkThread q (k (run_exec (read g) st).1)
      (match (run_exec (read g) st).1 with
       | Some _ => TxOpen (mkTx (Some (snapshot_of iso x (committed st))) (tx_log x))
       | None => TxAborted
       end) cs)
  /\ committed (run_exec (read g) st).2 = committed st
  /\ snapshot_of iso x (committed st) = committed st
  /\ match (run_exec (read g) st).1 with
     | Some a => tx (run_exec (read g) st).2 = TxOpen v
                 /\ g (overlay (snapshot_of iso x (committed st)) (committed st) v) = Some a
     | None => tx (run_exec (read g) st).2 = TxAborted
     end.
Proof.
  intros Htx Hw Hsnap Hk. unfold run_exec, thread_step, read. cbn [th_prog th_tx th_request th_commits next_chance ch_ok].
  assert (Hs : snapshot_of iso x (committed st) = committed st) by (by unfold snapshot_of; destruct iso; [destruct Hsnap as [-> | ->] |]).
  rewrite Htx, Hs, (replays_replay _ _ _ Hw). cbn [mbind option_bind]. rewrite overlay_same by done.
  destruct (stmt_ok (stmts st)); [| by split_and!].
  destruct (g v) as [a|]; cbn; by split_and!.
Qed.

(** Outside an open transaction a statement is refused. *)
Lemma exec_closed {X} (f : Z -> Db -> option (Db * X)) st : (forall v, tx st <> TxOpen v) ->
  run_exec f st = (None, sent st).
Proof. intros H. unfold run_exec. destruct (tx st) as [| v | |] eqn:Htx; [done | by destruct (H v) | done..]. Qed.

Lemma same_tx_closed v x d : same_tx v x d -> (forall x', x <> TxOpen x') -> forall v', v <> TxOpen v'.
Proof. destruct v, x; try done. intros _ H. by destruct (H v0). Qed.

(** A command that leaves the committed database as it is. *)
Lemma exec_arrives {X} R S L (f : Z -> Db -> option (Db * X)) k st x cs :
  (forall a st x cs, db_inv (committed st) -> same_tx (tx st) x (committed st) ->
     safe iso (k a) x cs (committed st) R -> orderly rank (k a) (held_of x) S -> arrives (k a) st x cs) ->
  db_inv (committed st) -> same_tx (tx st) x (committed st) ->
  safe iso (Exec L f k) x cs (committed st) R -> orderly rank (Exec L f k) (held_of x) S ->
  arrives (Exec L f k) st x cs.
Proof.
  intros IH Hi Hx Hs [Hof Ho].
  assert (Hrun : run_alone (Exec L f k) st = run_alone (k (run_exec f st).1) (run_exec f st).2)
    by (cbn; by destruct (run_exec f st)).
  destruct x as [| x | |]; cbn [held_of] in *.
  2: { destruct (tx st) as [| v | |] eqn:Htx; try done. destruct Hx as [Hw Hsnap]. destruct Hs as [Hfail Hok], Ho as [_ Hoo].
       destruct (exec_alone L f k st v x cs Htx Hw) as (Hstep & Hcm & Hres). rewrite <- Hcm in Hstep at 2.
       eapply arrives_step; [exact Hstep | exact Hrun |].
       destruct (run_exec f st) as [[a|] st1]; cbn [fst snd] in *; apply IH; rewrite ?Hcm; try done.
       - destruct Hres as (v' & -> & Hf). cbn. split; [| exact Hsnap]. apply replays_snoc. by exists v.
       - destruct Hres as (v' & _ & Hf). by apply (Hok _ v _ v' a (rely_here _ _ Hi) Hw Hf).
       - cbn. rewrite flat_map_app. cbn. rewrite app_nil_r. apply Hoo.
       - by rewrite Hres. }
  all: rewrite exec_closed in Hrun by (by destruct (tx st)); cbn [fst snd] in Hrun;
    (eapply (arrives_step (next_chance st) _ _ _ _ (k None) (sent st)); [by destruct (tx st) | exact Hrun |]); by apply IH.
Qed.

Lemma query_arrives {X} R S (g : Db -> option X) k st x cs :
  (forall a st x cs, db_inv (committed st) -> same_tx (tx st) x (committed st) ->
     safe iso (k a) x cs (committed st) R -> orderly rank (k a) (held_of x) S -> arrives (k a) st x cs) ->
  db_inv (committed st) -> same_tx (tx st) x (committed st) ->
  safe iso (Query g k) x cs (committed st) R -> orderly rank (Query g k) (held_of x) S ->
  arrives (Query g k) st x cs.
Proof.
  intros IH Hi Hx Hs [Hof Ho].
  assert (Hrun : run_alone (Query g k) st = run_alone (k (run_exec (read g) st).1) (run_exec (read g) st).2)
    by (cbn; by destruct (run_exec (read g) st)).
  destruct x as [| x | |]; cbn [held_of] in *.
  2: { destruct (tx st) as [| v | |] eqn:Htx; try done. destruct Hx as [Hw Hsnap]. destruct Hs as [Hfail Hok].
       destruct (query_alone g k st v x cs Htx Hw Hsnap (inv_keys _ Hi)) as (Hstep & Hcm & Hnew & Hres).
       rewrite <- Hcm in Hstep at 2.
       eapply arrives_step; [exact Hstep | exact Hrun |].
       destruct (run_exec (read g) st) as [[a|] st1]; cbn [fst snd] in *; apply IH; rewrite ?Hcm; try done.
       - destruct Hres as (-> & Hf). cbn. rewrite Hnew. by split; [| right].
       - destruct Hres as (_ & Hf). by apply (Hok _ v a (rely_here _ _ Hi) Hw).
       - by rewrite Hres. }
  all: rewrite exec_closed in Hrun by (by destruct (tx st)); cbn [fst snd] in Hrun;
    (eapply (arrives_step (next_chance st) _ _ _ _ (k None) (sent st)); [by destruct (tx st) | exact Hrun |]); by apply IH.
Qed.
Lemma same_tx_elsewhere v x d d' : same_tx v x d -> held_of x = None -> same_tx v x d'.
Proof. by destruct v, x. Qed.

(** The oracles decide the command as the chance does. *)
Ltac by_luck :=
  cbn [run_alone]; unfold thread_step, run_client, run_begin, run_commit;
  cbn [th_prog th_tx th_request th_commits next_chance ch_ok ch_now ch_fate ch_client];
  repeat match goal with H : ?x = _ |- context [?x] => rewrite H end; done.

Lemma client_arrives {X} R S L (f : Z -> Db -> option (Db * X)) k st x cs :
  (forall a st x cs, db_inv (committed st) -> same_tx (tx st) x (committed st) ->
     safe iso (k a) x cs (committed st) R -> orderly rank (k a) (held_of x) S -> arrives (k a) st x cs) ->
  db_inv (committed st) -> same_tx (tx st) x (committed st) ->
  safe iso (Client L f k) x cs (committed st) R -> orderly rank (Client L f k) (held_of x) S ->
  arrives (Client L f k) st x cs.
Proof.
  intros IH Hi Hx [Hfail Hok] [Hnone Ho].
  assert (Hun : unlocked L (tx_locks x ++ []) = true).
  { assert (tx_locks x = []) as -> by (destruct Hnone as [Hn | [Hn _]], x; cbn in *; congruence). apply unlocked_nil. }
  assert (Hmove : forall d1 a, f (db_now (stmts st)) (committed st) = Some (d1, a) -> same_tx (tx st) x d1).
  { intros d1 a Hf. destruct Hnone as [Hn | [_ Hr]]; [by eapply same_tx_elsewhere | by rewrite (Hr _ _ _ _ Hf)]. }
  pose proof (fun d1 a => Hok (committed st) (db_now (stmts st)) d1 a (rely_here _ _ Hi)) as Hcommit.
  assert (Hstay : arrives (k None) (sent st) x cs) by (apply IH; [done.. | apply Ho]).
  destruct (stmt_ok (stmts st)) eqn:Hst; [destruct (f (db_now (stmts st)) (committed st)) as [[d1 a]|] eqn:Hf |].
  - destruct (Hcommit d1 a eq_refl) as (_ & Hc & Hret & Hlost). pose proof (may_commit_inv _ _ Hi Hc) as Hi1.
    destruct (fate (stmts st)) eqn:Hfate.
    + apply (arrives_step (next_chance st) _ _ _ _ (k (Some a)) (set_committed d1 (sent st)) x (cs ++ [(committed st, d1)]));
        [by_luck | by_luck |]. apply IH; [done | by eapply Hmove | done | apply Ho].
    + by apply (arrives_step (next_chance st) _ _ _ _ (k None) (sent st) x cs); [by_luck | by_luck |].
    + apply (arrives_step (next_chance st) _ _ _ _ (k None) (set_committed d1 (sent st)) x (cs ++ [(committed st, d1)]));
        [by_luck | by_luck |]. apply IH; [done | by eapply Hmove | done | apply Ho].
  - by apply (arrives_step (next_chance st) _ _ _ _ (k None) (sent st) x cs); [by_luck | by_luck |].
  - by apply (arrives_step (next_chance st) _ _ _ _ (k None) (sent st) x cs); [by_luck | by_luck |].
Qed.

Lemma begin_arrives R S k st x cs :
  (forall a st x cs, db_inv (committed st) -> same_tx (tx st) x (committed st) ->
     safe iso (k a) x cs (committed st) R -> orderly rank (k a) (held_of x) S -> arrives (k a) st x cs) ->
  db_inv (committed st) -> same_tx (tx st) x (committed st) ->
  safe iso (Begin k) x cs (committed st) R -> orderly rank (Begin k) (held_of x) S ->
  arrives (Begin k) st x cs.
Proof.
  intros IH Hi Hx (Hstd & Hdb & Hok) [Hofail Ho].
  destruct db_configured eqn:Hconf; [destruct (stmt_ok (stmts st)) eqn:Hst |].
  - apply (arrives_step (next_chance st) _ _ _ _ (k None) (set_tx (TxOpen (committed st)) (sent st)) (TxOpen tx_begin) cs);
      [by_luck | by_luck |]. apply IH; [done | by split; [| left] | done | done].
  - apply (arrives_step (next_chance st) _ _ _ _ (k (Some DbException)) (sent st) x cs); [by_luck | by_luck |].
    by apply IH.
  - apply (arrives_step (next_chance st) _ _ _ _ (k (Some StdException)) st x cs); [by_luck | by_luck |].
    by apply IH.
Qed.

Lemma commit_arrives R S k st x cs :
  (forall a st x cs, db_inv (committed st) -> same_tx (tx st) x (committed st) ->
     safe iso (k a) x cs (committed st) R -> orderly rank (k a) (held_of x) S -> arrives (k a) st x cs) ->
  db_inv (committed st) -> same_tx (tx st) x (committed st) ->
  safe iso (Commit k) x cs (committed st) R -> orderly rank (Commit k) (held_of x) S ->
  arrives (Commit k) st x cs.
Proof.
  intros IH Hi Hx Hs Ho. destruct x as [| x | |], (tx st) as [| v | |] eqn:Htx; try done.
  - apply (arrives_step (next_chance st) _ _ _ _ (k (Some StdException)) st NoTx cs); [by_luck | by_luck |].
    apply IH; [done | by rewrite Htx | done | apply Ho].
  - destruct Hx as [Hw _]. destruct Hs as [Hfail Hok].
    destruct (Hok _ v (rely_here _ _ Hi) Hw) as (Hc & Hret & Hlost). pose proof (may_commit_inv _ _ Hi Hc) as Hi1.
    pose proof (replays_replay _ _ _ Hw) as Hrep. destruct (fate (stmts st)) eqn:Hfate.
    + apply (arrives_step (next_chance st) _ _ _ _ (k None) (set_tx TxFinished (set_committed v (sent st))) TxFinished
        (cs ++ [(committed st, v)])); [by_luck | by_luck |]. by apply IH; [| | | apply Ho].
    + apply (arrives_step (next_chance st) _ _ _ _ (k (Some DbException)) (set_tx TxAborted (sent st)) TxAborted cs);
        [by_luck | by_luck |]. by apply IH; [| | | apply Ho].
    + apply (arrives_step (next_chance st) _ _ _ _ (k (Some DbException)) (set_tx TxAborted (set_committed v (sent st)))
        TxAborted (cs ++ [(committed st, v)])); [by_luck | by_luck |]. by apply IH; [| | | apply Ho].
  - apply (arrives_step (next_chance st) _ _ _ _ (k (Some StdException)) st TxFinished cs); [by_luck | by_luck |].
    apply IH; [done | by rewrite Htx | done | apply Ho].
  - apply (arrives_step (next_chance st) _ _ _ _ (k (Some DbException)) (sent st) TxAborted cs); [by_luck | by_luck |].
    apply IH; [done | by cbn; rewrite Htx | done | apply Ho].
Qed.

Lemma alone_arrives R S m : forall st x cs, db_inv (committed st) -> same_tx (tx st) x (committed st) ->
  safe iso m x cs (committed st) R -> orderly rank m (held_of x) S -> arrives m st x cs.
Proof.
  induction m as [r | k IH | k IH | X L f k IH | X g k IH | X L f k IH | k IH | k IH | k IH];
    intros st x cs Hi Hx Hs Ho.
  - by exists [], x, cs.
  - apply (arrives_step (next_chance st) _ _ _ _ (k (run_clock st).1) (run_clock st).2 x cs); [done | done |].
    by apply IH; [| | apply Hs | apply Ho].
  - pose proof (surjective_pairing (run_id st)) as Hid.
    assert (Hsame : committed (run_id st).2 = committed st /\ tx (run_id st).2 = tx st)
      by (unfold run_id; by destruct (nextId _ _ _ _) as [[? ?] ?]).
    destruct Hsame as [Hcm Htx].
    apply (arrives_step (next_chance st) _ _ _ _ (k (run_id st).1) (run_id st).2 x cs).
    + by rewrite Hcm.
    + cbn [run_alone]. by rewrite Hid at 1.
    + apply IH; rewrite ?Hcm, ?Htx; [done | done | apply Hs | apply Ho].
  - by eapply exec_arrives.
  - by eapply query_arrives.
  - by eapply client_arrives.
  - by eapply begin_arrives.
  - by eapply commit_arrives.
  - apply (arrives_step (next_chance st) _ _ _ _ k (set_tx NoTx st) NoTx cs); [done | done |]. by apply IH.
Qed.
End Alone.

Section Services.
Context {D : MySql} {J : JsonCpp} {O : OpenSsl} {L : MySqlLaws} {Ro : Router} {E : Env} (iso : isolation) (customConfig : jvalue)
  (open_file : string -> option string).

(** A check of the model: its two semantics agree. A request that has the server for itself is
    answered, and leaves the committed database, as the interpreter of single
    requests says, with the same clocks, identifiers and failures; so what is proved
    of a service run alone holds of its thread. *)
Theorem alone_agrees j st : db_wf (committed st) -> tx st = NoTx ->
  let '(r, st') := run_alone (program customConfig open_file j) st in
  exists turns x cs,
    schedule iso turns (mkConf (committed st) [mkThread j (program customConfig open_file j) NoTx []])
    = Some (mkConf (committed st') [mkThread j (Done r) x cs]).
Proof.
  intros Hd Htx. rewrite (surjective_pairing (run_alone _ st)).
  apply (alone_arrives (P := services) iso lock_rank (fun d (Hi : db_wf d) => proj1 Hi) j (ends (visit_ends customConfig open_file) j) released); [done | by rewrite Htx | |].
  - by apply program_safe.
  - apply program_orderly.
Qed.
End Services.

(** ** Witness: an order on the small shop *)

Definition tea_visit : visit (J := Tree.lib) := Internal (JobOrder Server.tea_request).

Lemma alone_agrees_witness :
  let x := run_alone (E := Server.calm) (shop_program tea_visit) Server.open_shop in
  map pr_stock (t_product (committed x.2)) = [7; 3]
  /\ exists turns y cs,
       schedule ReadCommitted turns
         (mkConf Server.shop [mkThread tea_visit (shop_program tea_visit) NoTx []])
       = Some (mkConf (committed x.2) [mkThread tea_visit (Done x.1) y cs]).
Proof.
  split; [by vm_compute |].
  pose proof (alone_agrees (D := Server.lib) (J := Tree.lib) (O := SignUtil.Plain.lib) (Ro := Paths.router) (L := Server.lib_laws)
    (E := Server.calm) ReadCommitted sample_config sample_files tea_visit Server.open_shop
    Server.shop_wf eq_refl) as H.
  rewrite (surjective_pairing (run_alone _ _)) in H. exact H.
Defined.
