(* ===== verification/Agents.v ===== *)
(** * Agents: the relay and the consumer, cut at their calls

    [MessageRelayTask::relay] and [NotifyConsumer::process] alternate between the
    database, the broker and the merchant.  Here each is a program of jobs, publishes
    and posts, so that anything may happen between two of them.  Run in one go, the
    programs are the functions of [MessageRelay] and [NotifyConsumer]; [asafe] is the
    verification condition of such a program among others. *)

From stdpp Require Import relations.
From S2P Require Import Prelude MoneyUtil IdGenerator JsonValue Result RequestId BeijingTime SignUtil Models.
From S2P Require Import Database Transaction Daos Invariant Locks Interleaving RelyGuarantee Server OrderService PaymentService Books.
From S2P Require Import Reconcile ReconcileService MqClient MessageRelay NotifyConsumer Controllers Routes System EndToEnd.
From S2P Require Import Concurrency Backoffice Jobs Frontdoor.

(** ** The programs *)

Inductive agent {J : JsonCpp} (A : Type) :=
  | Return (r : outcome A)
  | Work (j : job) (k : outcome reply -> agent A)
  | Publish (exchange routingKey payload : string) (k : bool -> agent A)
  | Post (req : HttpReq) (k : HttpReply -> agent A).
Arguments Return {J A} _.
Arguments Work {J A} _ _.
Arguments Publish {J A} _ _ _ _.
Arguments Post {J A} _ _.

Section Programs.
Context {J : JsonCpp}.

(** A job that has no answer. *)
Definition no_answer {A} (r : outcome reply) : agent A :=
  Return match r with Throw e => Throw e | Hang => Hang | _ => Undefined end.

(** The loop of [relay]: an exception ends an iteration, not the batch. *)
Fixpoint relay_messages (messages : list LocalMessage) : agent unit :=
  match messages with
  | [] => Return (Ret tt)
  | msg :: rest =>
      Publish (m_exchange msg) (m_routingKey msg) (m_payload msg) (fun delivered =>
        Work (JobDelivery msg delivered) (fun _ => relay_messages rest))
  end.

(** [MessageRelayTask::relay], from the scan on. *)
Definition relay_agent : agent unit :=
  Work JobScan (fun r => match r with Ret (RScan messages) => relay_messages messages | r => no_answer r end).

(** The member [mqClient_], created by the first round; [None] is an exception of
    [loadMqConfig]. *)
Definition relay_client (customConfig : jvalue) (client : option mq_state) : option mq_state :=
  match client with Some mq => Some mq | None => _ ← loadMqConfig customConfig; Some mq_init end.

(** The consumer's member [notifyBaseUrl_]. *)
Context (notifyBaseUrl : string).

(** The last statement of [process], and its answer. *)
Definition notify_reply (notifyNo body : string) (success : bool) : agent bool :=
  Work (JobReply notifyNo body success) (fun r => match r with Ret RDone => Return (Ret success) | r => no_answer r end).

(** The loop of [process], from [attempt] on. *)
Fixpoint notify_posts (fuel : nat) (attempt : Z) (notifyNo orderNo amount : string) : agent bool :=
  match fuel with
  | O => Return Hang
  | S fuel' =>
      Post (merchant_request notifyBaseUrl notifyNo orderNo amount) (fun r =>
        if reply_ok r then notify_reply notifyNo (reply_body r) true
        else
          let attempt' := attempt + 1 in
          if kMaxInProcessRetries <? attempt' then notify_reply notifyNo (reply_body r) false
          else notify_posts fuel' attempt' notifyNo orderNo amount)
  end.

(** [NotifyConsumer::process]. *)
Definition process_agent (body : string) : agent bool :=
  match parse_message body with
  | None => Return (Throw StdException)
  | Some None => Return (Ret false)
  | Some (Some (messageId, orderNo, amount)) =>
      Work (JobNotify messageId orderNo (notifyBaseUrl +:+ kNotifyPath)) (fun r =>
        match r with
        | Ret (RNotify kNotifyDuplicate) => Return (Ret true)
        | Ret (RNotify (kNotifyInserted notifyNo)) =>
            notify_posts (Z.to_nat (kMaxInProcessRetries + 1)) 0 notifyNo orderNo amount
        | r => no_answer r
        end)
  end.
End Programs.

(** ** In one go *)

Section Sequential.
Context {D : MySql} {J : JsonCpp} {O : OpenSsl} {E : Env} {B : Broker} {Mc : Merchant}.
Context (customConfig : jvalue) (open_file : string -> option string) (notifyBaseUrl : string).

(** The server, the relay's client, the requests sent. *)
Definition Field : Type := St * mq_state * list HttpReq.

Fixpoint run_agent {A} (p : agent A) (w : Field) : outcome A * Field :=
  let '(st, mq, log) := w in
  match p with
  | Return r => (r, w)
  | Work j k => let '(r, st') := run_alone (job_program customConfig open_file j) st in run_agent (k r) (st', mq, log)
  | Publish x key b k => let '(ok, mq') := publish x key b mq in run_agent (k ok) (st, mq', log)
  | Post q k => run_agent (k (http_reply (length log) q)) (st, mq, log ++ [q])
  end.

Lemma run_messages messages : forall st mq log,
  run_agent (relay_messages messages) (st, mq, log)
  = let '(st', mq') := fold_left relay_one messages (st, mq) in (Ret tt, (st', mq', log)).
Proof.
  induction messages as [|msg rest IH]; intros st mq log; [done |].
  cbn [relay_messages run_agent fold_left relay_one].
  destruct (publish _ _ _ mq) as [ok mq']. cbn [job_program]. rewrite run_bind.
  by destruct (run_alone (record_result msg ok) st) as [[u | e | |] st']; cbn [snd]; rewrite <- IH.
Qed.

Lemma run_relay st client log : relay customConfig st client
  = match relay_client customConfig client with
    | None => (Throw StdException, st, None)
    | Some mq => let '(r, (st', mq', _)) := run_agent relay_agent (st, mq, log) in (r, st', Some mq')
    end.
Proof.
  unfold relay. fold (relay_client customConfig client). destruct (relay_client _ _) as [mq|]; [| done].
  unfold relay_agent. cbn [run_agent job_program]. rewrite run_bind.
  destruct (run_alone (scanPending kBatchLimit) st) as [[ms | e | |] st1]; try done.
  cbn [run_alone mret M_ret]. rewrite run_messages. by destruct (fold_left _ _ _).
Qed.

Lemma run_reply no body ok st mq log :
  run_agent (notify_reply no body ok) (st, mq, log)
  = let '(r, (st', log')) := (lift (record_reply no body ok);; mret ok) (st, log) in (r, (st', mq, log')).
Proof.
  unfold notify_reply. cbn [run_agent job_program]. rewrite run_bind. unfold mbind, C_bind, lift. cbn [fst snd].
  by destruct (run_alone (record_reply no body ok) st) as [[[] | e | |] st'].
Qed.

Lemma run_posts no orderNo amount : forall fuel attempt st mq log, Z.of_nat fuel + attempt = 3 ->
  run_agent (notify_posts notifyBaseUrl fuel attempt no orderNo amount) (st, mq, log)
  = let '(r, (st', log')) := notify_loop notifyBaseUrl fuel attempt no orderNo amount (st, log) in (r, (st', mq, log')).
Proof.
  induction fuel as [|fuel IH]; intros attempt st mq log Hf; [done |].
  cbn [notify_posts run_agent notify_loop]. unfold mbind at 1, C_bind at 1, sendRequest. cbn [fst snd].
  destruct (reply_ok _); [apply run_reply |].
  destruct (Z.ltb_spec kMaxInProcessRetries (attempt + 1)) as [Hmax | Hmax]; [| apply IH; lia].
  rewrite run_reply. unfold record_reply. unfold kMaxInProcessRetries in Hmax.
  destruct fuel; [| lia]. by replace (attempt + 1) with 3 by lia.
Qed.

Lemma run_process body st mq log :
  run_agent (process_agent notifyBaseUrl body) (st, mq, log)
  = let '(r, (st', log')) := process notifyBaseUrl body (st, log) in (r, (st', mq, log')).
Proof.
  unfold process_agent, process. unfold mbind at 1, C_bind at 1, lift at 1, or_throw at 1. cbn [fst snd].
  destruct (parse_message body) as [[[[mid no] am]|]|]; [| done | done].
  rewrite run_mret. cbn [run_agent job_program]. rewrite run_bind. unfold mbind at 1, C_bind at 1, lift at 1. cbn [fst snd].
  destruct (run_alone (notify_insertWithDedup _ _ _) st) as [[[n|] | e | |] st1]; [| done..].
  cbn [run_alone mret M_ret]. by apply run_posts.
Qed.

(** A check of the model: cut at their calls and run in one go, with the same database, clocks, broker
    and merchant, the two programs are [MessageRelayTask::relay] and
    [NotifyConsumer::process]: the same answers, the same tables, the same client and
    the same requests. *)
Theorem agents_agree st client mq log body :
  relay customConfig st client
  = match relay_client customConfig client with
    | None => (Throw StdException, st, None)
    | Some mq => let '(r, (st', mq', _)) := run_agent relay_agent (st, mq, log) in (r, st', Some mq')
    end
  /\ run_agent (process_agent notifyBaseUrl body) (st, mq, log)
     = let '(r, (st', log')) := process notifyBaseUrl body (st, log) in (r, (st', mq, log')).
Proof. split; [apply run_relay | apply run_process]. Qed.
End Sequential.

(** ** Safe agents *)

(** The requests under one notification number. *)
Definition sent_under (no : string) (log : list HttpReq) : nat :=
  length (filter (fun q => rq_request_id q = no) log).

Lemma sent_under_snoc no log q : sent_under no (log ++ [q])
  = (sent_under no log + if decide (rq_request_id q = no) then 1 else 0)%nat.
Proof. unfold sent_under. rewrite filter_app, length_app, filter_cons. by destruct (decide _). Qed.

Lemma sent_under_unused no log : Forall (fun q => rq_request_id q <> no) log -> sent_under no log = 0%nat.
Proof. unfold sent_under. induction 1 as [|q log Hq _ IH]; [done |]. by rewrite filter_cons_False. Qed.

Section Safe.
Context {D : MySql} {J : JsonCpp} {Ov : Oversight} {O : OpenSsl} {L : MySqlLaws}.
Context (customConfig : jvalue) (open_file : string -> option string) (notifyBaseUrl : string).

(** The request tells a message of the outbox under the number of its row. *)
Definition heard (d : Db) (q : HttpReq) : Prop :=
  exists r n, In r (t_local_message d) /\ In n (t_notify_record d) /\ tells notifyBaseUrl q r n.

Lemma heard_later d d' q : later d d' -> heard d q -> heard d' q.
Proof.
  intros Hl (r & n & Hr & Hn & am & Hp & ->).
  destruct (later_message _ _ Hl r Hr) as (r' & Hr' & _ & _ & _ & _ & _ & Hpay).
  destruct (later_notify _ _ Hl n Hn) as (n' & Hn' & E1 & E2 & E3).
  exists r', n'. split; [done |]. split; [done |]. exists am. rewrite E1, E2, E3. unfold wire in *. cbn [snd] in *.
  by rewrite Hpay.
Qed.

(** What is asked of the agent [p] when the committed database is [d] and [log] has
    been sent: its jobs are allowed, it publishes rows of the outbox, it posts what a
    row says, at most three times under one number. *)
Fixpoint asafe {A} (p : agent A) (d : Db) (log : list HttpReq) : Prop :=
  match p with
  | Return _ => True
  | Work j k => allowed j d /\ forall r cs d', db_wf d' -> later d d' -> Forall (fun c => later d c.1) cs ->
      job_ends customConfig open_file j r cs d' -> asafe (k r) d' log
  | Publish x key b k =>
      (exists r, In r (t_local_message d) /\ wire r = (c_str x, c_str key, c_str b))
      /\ asafe (k false) d log /\ (confirmed_msg (c_str x, c_str key, c_str b) -> asafe (k true) d log)
  | Post q k => heard d q /\ (sent_under (rq_request_id q) log < 3)%nat /\ forall r, asafe (k r) d (log ++ [q])
  end.

(** What the others commit leaves an agent safe. *)
Lemma asafe_later {A} (p : agent A) : forall d d' log, later d d' -> asafe p d log -> asafe p d' log.
Proof.
  induction p as [r | j k IH | x key b k IH | q k IH]; intros d d' log Hl; cbn [asafe].
  - done.
  - intros [Ha Hk]. split; [by eapply allowed_later |]. intros r cs d2 Hwf Hl2 Hcs. apply (Hk r cs d2 Hwf).
    + by etransitivity.
    + eapply Forall_impl; [exact Hcs |]. intros c Hc. by etransitivity.
  - intros ((r & Hr & Hw) & H1 & H2). split.
    + destruct (later_message _ _ Hl r Hr) as (r' & Hr' & _ & _ & _ & E1 & E2 & E3). exists r'. split; [done |].
      rewrite <- Hw. unfold wire. by rewrite E1, E2, E3.
    + split; [by eapply IH | intros Hc; eapply IH; [exact Hl | by apply H2]].
  - intros (Hh & Hc & Hk). split; [by eapply heard_later |]. split; [done |]. intros r. by eapply IH.
Qed.

Lemma no_answer_safe {A} (r : outcome reply) d log : asafe (no_answer (A := A) r) d log.
Proof. done. Qed.

Lemma relay_messages_safe messages : forall d log, from_outbox messages d -> asafe (relay_messages messages) d log.
Proof.
  induction messages as [|msg rest IH]; intros d log Hs; [done |].
  apply Forall_cons in Hs as [(r & r' & -> & Hin & Hsame) Hs].
  assert (Hwire : wire r' = wire r).
  { destruct Hsame as (_ & _ & _ & E1 & E2 & E3). unfold wire. by rewrite E1, E2, E3. }
  assert (Hrest : forall (j : job), allowed j d -> asafe (Work j (fun _ => relay_messages rest)) d log).
  { intros j Hj. split; [done |]. intros x cs d' _ Hl _ _. apply IH. by eapply from_outbox_later. }
  cbn [relay_messages asafe]. split; [by exists r' |]. split; [by apply Hrest |]. intros Hc.
  apply Hrest. eapply (confirmed_row_intro _ r'); [done | | by rewrite Hwire]. symmetry. apply Hsame.
Qed.

Lemma relay_agent_safe d log : asafe relay_agent d log.
Proof.
  split; [done |]. intros r cs d' _ _ _ H.
  destruct r as [[| | | | ms | |] | e | |]; try by apply no_answer_safe. apply relay_messages_safe, H.
Qed.

Lemma notify_reply_safe no body ok d log : asafe (notify_reply no body ok) d log.
Proof.
  split; [done |]. intros r cs d' _ _ _ _. by destruct r as [[] | e | |].
Qed.

(** The loop is safe when [attempt] requests have been sent. *)
Lemma notify_posts_safe no orderNo amount : forall fuel attempt d log,
  heard d (merchant_request notifyBaseUrl no orderNo amount) ->
  (fuel + sent_under no log <= 3)%nat -> asafe (notify_posts notifyBaseUrl fuel attempt no orderNo amount) d log.
Proof.
  induction fuel as [|fuel IH]; intros attempt d log Hh Hc; [done |].
  cbn [notify_posts asafe]. split; [done |]. cbn [rq_request_id merchant_request]. split; [lia |]. intros r.
  destruct (reply_ok r); [apply notify_reply_safe |].
  destruct (kMaxInProcessRetries <? attempt + 1); [apply notify_reply_safe |].
  apply IH; [done |]. rewrite sent_under_snoc. cbn [rq_request_id merchant_request].
  rewrite decide_True by done. lia.
Qed.

(** The request goes under the number of a notification. *)
Definition numbered (d : Db) (q : HttpReq) : Prop :=
  exists n, In n (t_notify_record d) /\ rq_request_id q = nr_notify_no n.

Lemma heard_numbered d q : heard d q -> numbered d q.
Proof. intros (r & n & _ & Hn & am & _ & ->). by exists n. Qed.

Lemma numbered_later d d' q : later d d' -> numbered d q -> numbered d' q.
Proof.
  intros Hl (n & Hn & Hq). destruct (later_notify _ _ Hl n Hn) as (n' & Hn' & E & _). exists n'. by rewrite E.
Qed.

(** A number that is new has not been used. *)
Lemma noted_unused mid orderNo no cs d d' log : Forall (numbered d) log -> Forall (fun c => later d c.1) cs ->
  noted mid orderNo no cs d' -> sent_under no log = 0%nat.
Proof.
  intros Hlog Hcs (d0 & d1 & url & -> & Hnew & _). apply Forall_cons in Hcs as [Hcs _]. cbn [fst] in Hcs.
  apply sent_under_unused. eapply Forall_impl; [exact Hlog |].
  intros q Hq. cbn. intros Hno. apply (numbered_later _ _ _ Hcs) in Hq as (n & Hn & Hq).
  apply existsb_false in Hnew. rewrite List.Forall_forall in Hnew.
  specialize (Hnew n Hn). unfold notify_conflict in Hnew. apply orb_false_iff in Hnew as [Hnew _].
  cbn [nr_notify_no] in Hnew. by rewrite <- Hq, Hno, sql_eq_refl in Hnew.
Qed.

(** The consumer is safe on a message of the outbox, whatever was sent before. *)
Lemma process_agent_safe r d log : In r (t_local_message d) -> Forall (numbered d) log ->
  asafe (process_agent notifyBaseUrl (wire r).2) d log.
Proof.
  intros Hr Hlog. unfold process_agent.
  destruct (parse_message (wire r).2) as [[[[mid no] am]|]|] eqn:Hp; [| done | done].
  split; [done |]. intros x cs d' _ Hl Hcs H.
  destruct x as [[| | | | | [n|] |] | e | |]; try exact I.
  cbn [job_ends] in H. apply notify_posts_safe; [| rewrite (noted_unused mid no n cs d d') by done; reflexivity].
  destruct H as (d0 & d1 & url & _ & _ & row & Hrow & E1 & E2 & E3). cbn [nr_notify_no nr_order_no nr_message_id] in *.
  destruct (later_message _ _ Hl r Hr) as (r' & Hr' & _ & _ & _ & _ & _ & Hpay).
  exists r', row. split; [done |]. split; [done |]. exists am. rewrite E1, E2, E3. split; [| done].
  unfold wire in *. cbn [snd] in *. by rewrite Hpay.
Qed.
End Safe.
