(* ===== verification/Site.v ===== *)
(** * Site: the whole installation, with crashes

    One process of the server - the threads that serve HTTP, the timers, the relay,
    the consumer - with its database, the broker and the merchant, where everything may
    happen between two commands: the relay is publishing while orders are paid, the
    consumer is telling the merchant while the relay marks its messages, and the
    process may die at any point and be started again.  The database, the broker and
    the merchant survive; threads, transactions, connections and the progress of
    the relay and of the consumer do not. *)

From stdpp Require Import relations.
From S2P Require Import Prelude MoneyUtil IdGenerator JsonValue Result RequestId BeijingTime SignUtil Models.
From S2P Require Import Database Transaction Daos Invariant Locks Interleaving RelyGuarantee Server OrderService PaymentService Books.
From S2P Require Import Reconcile ReconcileService MqClient MessageRelay NotifyConsumer Controllers Routes System EndToEnd.
From S2P Require Import Concurrency Backoffice Jobs Frontdoor Workload Agents.

Section Site.
Context {D : MySql} {J : JsonCpp} {O : OpenSsl} {Ro : Router} (iso : isolation).
Context (customConfig : jvalue) (open_file : string -> option string) (notifyBaseUrl : string).

(** ** The moves *)

(** What the relay, or the consumer, is doing: nothing; its own code; or it waits for
    the statements of a job, which thread [i] executes. *)
Inductive slot (A : Type) :=
  | Free
  | Ready (p : agent A)
  | Await (i : nat) (k : outcome reply -> agent A).
Arguments Free {A}.
Arguments Ready {A} _.
Arguments Await {A} _ _.

Record Site := mkSite {
  server : Conf visit answer;          (* the database, and the threads of the process *)
  mqClient_ : option mq_state;         (* of the relay *)
  relaying : slot unit;
  consuming : slot bool;
  past_confirmed : list mq_message;    (* confirmed by the broker to earlier processes *)
  published : list mq_message;         (* handed to the broker, ever *)
  posted : list HttpReq                (* sent to the merchant, ever *)
}.

Definition db_now (s : Site) : Db := cf_db (server s).

(** What the broker has confirmed, ever. *)
Definition broker_confirmed (s : Site) : list mq_message := past_confirmed s ++ client_confirmed (mqClient_ s).

Definition set_server (w : Conf visit answer) (s : Site) : Site :=
  mkSite w (mqClient_ s) (relaying s) (consuming s) (past_confirmed s) (published s) (posted s).
Definition set_relay (client : option mq_state) (sl : slot unit) (s : Site) : Site :=
  mkSite (server s) client sl (consuming s) (past_confirmed s) (published s) (posted s).
Definition set_consumer (sl : slot bool) (s : Site) : Site :=
  mkSite (server s) (mqClient_ s) (relaying s) sl (past_confirmed s) (published s) (posted s).
Definition add_published (m : mq_message) (s : Site) : Site :=
  mkSite (server s) (mqClient_ s) (relaying s) (consuming s) (past_confirmed s) (published s ++ [m]) (posted s).
Definition add_posted (q : HttpReq) (s : Site) : Site :=
  mkSite (server s) (mqClient_ s) (relaying s) (consuming s) (past_confirmed s) (published s) (posted s ++ [q]).

(** How the thread of a job has ended. *)
Definition job_reply (r : outcome answer) : outcome reply :=
  match r with
  | Ret (Done_job rep) => Ret rep
  | Ret (Response _) => Undefined
  | Throw e => Throw e
  | Hang => Hang
  | Undefined => Undefined
  end.

(** An agent starts the thread of a job, or goes on when it has ended. *)
Definition job_move {A} (w : Conf visit answer) (sl : slot A) : option (Conf visit answer * slot A) :=
  match sl with
  | Ready (Work j k) =>
      Some (arrive (program customConfig open_file) (Internal j) w, Await (length (cf_threads w)) k)
  | Await i k =>
      t ← cf_threads w !! i;
      match th_prog t with Done r => Some (w, Ready (k (job_reply r))) | _ => None end
  | _ => None
  end.

(** From outside come the HTTP requests and the ticks of the daily task. *)
Definition from_outside (v : visit) : bool :=
  match v with Http _ _ _ | Internal JobDaily => true | Internal _ => false end.

(** [Tick]: the timer of the relay submits a round; [Relay], [Consume]: the relay, the
    consumer take one step, with what the broker, the merchant answer; [Deliver]: the
    broker delivers a message that it was handed, at any time and any number of times;
    [Crash]: the process ends, for whatever reason, and is started again. *)
Inductive move :=
  | Arrive (v : visit)
  | Turn (i : nat) (c : chance)
  | Tick
  | Relay (B : Broker)
  | Deliver (n : nat)
  | Consume (reply : HttpReply)
  | Crash.

Definition site_move (mv : move) (s : Site) : option Site :=
  match mv with
  | Arrive v =>
      if from_outside v then Some (set_server (arrive (program customConfig open_file) v (server s)) s) else None
  | Turn i c => w ← turn iso i c (server s); Some (set_server w s)
  | Tick =>
      match relaying s with
      | Free =>
          match relay_client customConfig (mqClient_ s) with
          | Some mq => Some (set_relay (Some mq) (Ready relay_agent) s)
          | None => Some (set_relay None (Ready (Return (Throw StdException))) s)
          end
      | _ => None
      end
  | Relay B =>
      match relaying s with
      | Ready (Publish x key b k) =>
          mq ← mqClient_ s;
          let '(ok, mq') := publish x key b mq in
          Some (add_published (c_str x, c_str key, c_str b) (set_relay (Some mq') (Ready (k ok)) s))
      | Ready (Return (Ret _)) => Some (set_relay (mqClient_ s) Free s)
      | sl => '(w, sl') ← job_move (server s) sl; Some (set_relay (mqClient_ s) sl' (set_server w s))
      end
  | Deliver n =>
      match consuming s with
      | Free => m ← published s !! n; Some (set_consumer (Ready (process_agent notifyBaseUrl m.2)) s)
      | _ => None
      end
  | Consume reply =>
      match consuming s with
      | Ready (Post q k) => Some (add_posted q (set_consumer (Ready (k reply)) s))
      | Ready (Return (Ret _)) => Some (set_consumer Free s)
      | sl => '(w, sl') ← job_move (server s) sl; Some (set_consumer sl' (set_server w s))
      end
  | Crash =>
      Some (mkSite (mkConf (db_now s) []) None Free Free (broker_confirmed s) (published s) (posted s))
  end.

Definition site_step (s s' : Site) : Prop := exists mv, site_move mv s = Some s'.

(** A story: the moves one after the other. *)
Fixpoint site_run (story : list move) (s : Site) : option Site :=
  match story with
  | [] => Some s
  | mv :: rest => s' ← site_move mv s; site_run rest s'
  end.

Lemma site_run_rtc story : forall s s', site_run story s = Some s' -> rtc site_step s s'.
Proof.
  induction story as [|mv rest IH]; intros s s'; cbn [site_run]; [by intros [= ->] |].
  intros H. apply bind_Some in H as (u & Hu & H). eapply rtc_l; [by exists mv | auto].
Qed.

(** The first start of the process, on a database. *)
Definition first_start (d : Db) : Site := mkSite (mkConf d []) None Free Free [] [] [].

Definition happens (d : Db) (s : Site) : Prop := rtc site_step (first_start d) s.
End Site.
Arguments Free {J A}.
Arguments Ready {J A} _.
Arguments Await {J A} _ _.

(** ** What commits preserve *)

Section Commits.
Context {D : MySql} {J : JsonCpp} {Ov : Oversight} {L : MySqlLaws}.

(** The messages that are marked as acknowledged have been confirmed, and none has been
    retried too often. *)
Definition outbox_sound (d : Db) : Prop :=
  forall r, In r (t_local_message d) ->
    (mr_status r = kMsgAcked -> confirmed_msg (wire r)) /\ 0 <= mr_retry_count r < kMaxRetries.

Lemma wire_same r r' : same_message r r' -> wire r' = wire r.
Proof. intros (_ & _ & _ & E1 & E2 & E3). unfold wire. by rewrite E1, E2, E3. Qed.

Lemma commit_sound d d' : service_commit d d' -> outbox_sound d -> outbox_sound d'.
Proof.
  intros H Ha. destruct H as [req o d0 d1 H | req raw d0 d1 H | d0 t Hm Hok | d0 t Hl H1 H2
    | id act rem s d0 d1 H | day lo ch b d0 d1 H | d0]; try done.
  - by destruct H.
  - destruct H. intros r [Hr | [<- | []]]%in_app_iff; [by apply Ha | done].
  - intros r' Hr'. destruct (Forall2_In_r _ _ _ r' Hm Hr') as (r & Hr & Hsame & Hack & Hretry).
    destruct (Ha r Hr) as [Hold Hcount]. split; [| by destruct Hretry as [-> |]].
    intros Hs. rewrite (wire_same _ _ Hsame). destruct (Hack Hs) as [Hs' | Hc]; [by apply Hold | done].
  - by destruct H.
  - by destruct H.
Qed.

(** The outbox tells of paid orders. *)
Lemma commit_outbox_true d d' : db_wf d -> service_commit d d' -> outbox_true d -> outbox_true d'.
Proof.
  intros Hwf Hc Ho. pose proof (books_orders _ _ (commit_books _ _ Hc)) as Hkept.
  assert (Hold : forall r r', In r (t_local_message d) -> same_message r r' -> exists o, In o (t_order d') /\ vouches o r').
  { intros r r' Hr (E1 & _ & E2 & _ & _ & E3). destruct (Ho r Hr) as (o & Hin & Hv). exists o.
    split; [eapply orders_kept_paid; [exact Hkept | done | apply Hv] | by eapply vouches_same]. }
  assert (Hsame : t_local_message d' = t_local_message d -> outbox_true d').
  { intros E r Hr. rewrite E in Hr. by apply (Hold r). }
  destruct Hc as [req o d0 d1 H | req raw d0 d1 H | d0 t Hm Hok | d0 t Hl H1 H2
    | id act rem s d0 d1 H | day lo ch b d0 d1 H | d0]; try (by apply Hsame).
  - apply Hsame. by destruct H.
  - destruct H as [d0 o1 o o2 a1 a a2 amount now now' cbt pno mid ex rk py Hto Hno Hpend Hamt Htot Hpos
      Hta Hu Hst Hbal Htime Hpy Hpc fr Hfc Hm].
    intros r [Hr | [<- | []]]%in_app_iff; [by apply (Hold r) |].
    exists (paid_row now o). split; [apply in_app_iff; right; by left |].
    assert (Hok : order_ok o).
    { pose proof (wf_orders _ (proj2 Hwf)) as Hall. rewrite List.Forall_forall in Hall. apply Hall.
      rewrite Hto. apply in_app_iff. right. by left. }
    destruct (order_ok_i64 _ Hok). apply sql_eq_iff in Hno.
    split; [done | by symmetry | by exists (order_of_row o)].
  - intros r' Hr'. destruct (Forall2_In_r _ _ _ r' Hm Hr') as (r & Hr & Hsm & _). by apply (Hold r).
  - apply Hsame. by destruct H.
  - apply Hsame. by destruct H.
Qed.

Lemma commits_books d d' : rtc service_commit d d' -> rtc books_step d d'.
Proof. induction 1 as [d | d u d' H _ IH]; [apply rtc_refl |]. eapply rtc_l; [by apply commit_books | done]. Qed.

(** Every commit keeps what is known of the outbox. *)
Lemma commits_outbox d d' : db_wf d -> rtc service_commit d d' -> outbox_sound d -> outbox_true d ->
  outbox_sound d' /\ outbox_true d'.
Proof.
  intros Hwf H. revert Hwf. induction H as [d | d u d' Hc _ IH]; [done |]. intros Hwf Ha Ho.
  apply IH; [by eapply service_commit_wf | by eapply commit_sound | by eapply commit_outbox_true].
Qed.
End Commits.

(** ** The invariant *)

Lemma thread_step_request {Q A} iso c held d (t : Thread Q A) d' t' :
  thread_step iso c held d t = Some (d', t') -> th_request t' = th_request t.
Proof.
  unfold thread_step. intros H. destruct (th_prog t); repeat case_match; try discriminate H; by injection H as _ <-.
Qed.

Section Invariant.
Context {D : MySql} {J : JsonCpp} {Ov : Oversight} {O : OpenSsl} {L : MySqlLaws} {Ro : Router} (iso : isolation).
Context (customConfig : jvalue) (open_file : string -> option string) (notifyBaseUrl : string).

#[local] Abbreviation asafe := (asafe customConfig open_file notifyBaseUrl).
#[local] Abbreviation conf_ok := (conf_ok iso (visit_ends customConfig open_file)).

(** An agent is safe, now or when the job that it waits for was given. *)
Definition slot_ok {A} (w : Conf visit answer) (log : list HttpReq) (sl : slot A) : Prop :=
  match sl with
  | Free => True
  | Ready p => asafe p (cf_db w) log
  | Await i k =>
      exists t j d0, cf_threads w !! i = Some t /\ th_request t = Internal j /\ later d0 (cf_db w)
        /\ Forall (fun c => later d0 c.1) (th_commits t) /\ asafe (Work j k) d0 log
  end.

Lemma slot_ok_arrive {A} v w log (sl : slot A) : slot_ok w log sl ->
  slot_ok (arrive (program customConfig open_file) v w) log sl.
Proof.
  destruct sl as [| p | i k]; cbn [slot_ok]; try done. intros (t & j & d0 & Ht & H). exists t, j, d0. split; [| exact H].
  by apply lookup_app_l_Some.
Qed.

Lemma slot_ok_turn {A} i c w w' log (sl : slot A) : turn iso i c w = Some w' -> later (cf_db w) (cf_db w') ->
  slot_ok w log sl -> slot_ok w' log sl.
Proof.
  intros Hturn Hl. destruct sl as [| p | n k]; cbn [slot_ok]; [done | by apply asafe_later |].
  intros (t & j & d0 & Ht & Hq & Hd0 & Hcs & Hsafe). unfold turn in Hturn.
  apply bind_Some in Hturn as (u & Hu & Hturn). apply bind_Some in Hturn as ([d' u'] & Hstep & [= <-]).
  cbn [cf_db cf_threads] in *. destruct (decide (n = i)) as [-> | Hne].
  - assert (u = t) as -> by congruence. exists u', j, d0. split.
    { apply list_lookup_insert_eq, (lookup_lt_Some _ _ _ Ht). }
    split; [by rewrite (thread_step_request _ _ _ _ _ _ _ Hstep) |]. split; [by etransitivity |]. split; [| done].
    destruct (thread_step_commits _ _ _ _ _ _ _ Hstep) as [[_ ->] | ->]; [done |].
    apply Forall_app. split; [done |]. by apply Forall_singleton.
  - exists t, j, d0. split; [by rewrite list_lookup_insert_ne |]. split; [done |]. split; [by etransitivity | done].
Qed.

(** A move of one agent, and what the other sees of it. *)
Lemma job_move_ok {A} w log (sl : slot A) w' sl' : conf_ok w -> slot_ok w log sl ->
  job_move customConfig open_file w sl = Some (w', sl') ->
  conf_ok w' /\ slot_ok w' log sl' /\ cf_db w' = cf_db w
  /\ forall B log2 (sl2 : slot B), slot_ok w log2 sl2 -> slot_ok w' log2 sl2.
Proof.
  intros Hw Hsl. destruct sl as [| [r | j k | x key b k | q k] | i k]; cbn [job_move]; try done.
  - intros [= <- <-]. cbn [slot_ok] in Hsl. destruct Hsl as [Ha Hk].
    split; [apply arrive_ok; [by apply visit_safe | done] |]. split.
    + eexists _, j, (cf_db w). cbn [arrive cf_threads cf_db]. split; [by rewrite lookup_app_r, Nat.sub_diag |].
      split; [done |]. split; [reflexivity |]. split; [constructor | by split].
    + split; [done |]. intros. by apply slot_ok_arrive.
  - destruct Hsl as (t & j & d0 & Ht & Hq & Hd0 & Hcs & Ha & Hk). rewrite Ht. cbn [mbind option_bind].
    destruct (th_prog t) as [r | | | | | | | |] eqn:Hp; try done. intros [= <- <-].
    split; [done |]. split; [| by split]. cbn [slot_ok]. destruct Hw as [Hwf Hts].
    destruct (Hts i t Ht) as [[Hends _] _]. rewrite Hp, Hq in Hends. cbn [safe] in Hends.
    apply (Hk _ (th_commits t)); [done.. |].
    unfold ends in Hends. destruct r as [[rep | resp] | e | |]; cbn [visit_ends job_reply] in *; done.
Qed.

Record site_ok (s : Site) : Prop := {
  so_server : conf_ok (server s);
  so_client : client_inv (mqClient_ s);
  so_relay : forall log, slot_ok (server s) log (relaying s);
  so_consumer : slot_ok (server s) (posted s) (consuming s);
  so_sound : outbox_sound (db_now s);
  so_outbox : outbox_true (db_now s);
  so_published : forall m, In m (published s) -> exists r, In r (t_local_message (db_now s)) /\ wire r = m;
  so_confirmed : forall m, In m (broker_confirmed s) -> In m (published s);
  so_posted : Forall (heard notifyBaseUrl (db_now s)) (posted s);
  so_thrice : forall no, (sent_under no (posted s) <= 3)%nat
}.

#[local] Abbreviation site_move := (site_move iso customConfig open_file notifyBaseUrl).

(** Threads have moved. *)
Lemma site_ok_server w s : conf_ok w -> rtc service_commit (db_now s) (cf_db w) ->
  (forall A log (sl : slot A), slot_ok (server s) log sl -> slot_ok w log sl) ->
  site_ok s -> site_ok (set_server w s).
Proof.
  intros Hw Hr Hsl [Hs Hc Hrel Hcon Ha Ho Hp Hcf Hq Ht].
  destruct (commits_outbox _ _ (proj1 Hs) Hr Ha Ho) as [Ha' Ho']. pose proof (commits_later _ _ Hr) as Hl.
  split; cbn; try done; [intros log; by apply Hsl | by apply Hsl | |].
  - intros m (r & Hin & <-)%Hp. destruct (later_message _ _ Hl r Hin) as (r' & Hin' & Hsame).
    exists r'. split; [done | by apply wire_same].
  - eapply Forall_impl; [exact Hq |]. intros q. by apply heard_later.
Qed.

(** The relay has moved, or its client. *)
Lemma site_ok_relay client sl s : client_inv client -> (forall log, slot_ok (server s) log sl) ->
  (forall m, In m (client_confirmed client) -> In m (published s)) ->
  site_ok s -> site_ok (set_relay client sl s).
Proof.
  intros Hc' Hsl Hcf' [Hs Hc Hrel Hcon Ha Ho Hp Hcf Hq Ht]. split; try done. cbn. unfold broker_confirmed in *. cbn.
  intros m [Hm | Hm]%in_app_iff; [apply Hcf, in_app_iff; by left | auto].
Qed.

Lemma client_published s m : site_ok s -> In m (client_confirmed (mqClient_ s)) -> In m (published s).
Proof. intros Hs Hm. apply (so_confirmed _ Hs), in_app_iff. by right. Qed.

Lemma site_ok_consumer sl s : slot_ok (server s) (posted s) sl -> site_ok s -> site_ok (set_consumer sl s).
Proof. intros Hsl [Hs Hc Hrel Hcon Ha Ho Hp Hcf Hq Ht]. by split. Qed.

(** A publish, with the broker's answer. *)
Lemma publish_ok (B : Broker) x key b k mq s : site_ok s -> relaying s = Ready (Publish x key b k) ->
  mqClient_ s = Some mq -> (forall m, In m (confirmed (publish x key b mq).2) -> confirmed_msg m) ->
  site_ok (let '(ok, mq') := publish x key b mq in
           add_published (c_str x, c_str key, c_str b) (set_relay (Some mq') (Ready (k ok)) s)).
Proof.
  intros Hok Hsl Hmq Hconf. destruct Hok as [Hs Hc Hrel Hcon Ha Ho Hp Hcf Hq Ht].
  rewrite Hmq in Hc. pose proof (publish_step x key b mq Hc) as Hstep.
  destruct (publish x key b mq) as [ok mq']. destruct Hstep as (Hinv & Hconf' & _). cbn [snd] in Hconf.
  assert (Hmine : exists r, In r (t_local_message (db_now s)) /\ wire r = (c_str x, c_str key, c_str b)).
  { specialize (Hrel []). rewrite Hsl in Hrel. apply Hrel. }
  split; cbn; try done.
  - intros log. specialize (Hrel log). rewrite Hsl in Hrel. destruct Hrel as (_ & Hf & Ht').
    destruct ok; [apply Ht', Hconf | exact Hf]. rewrite Hconf'. apply in_app_iff. right. by left.
  - intros m [Hm | [<- | []]]%in_app_iff; auto.
  - intros m. unfold broker_confirmed. cbn. rewrite !in_app_iff, Hconf', in_app_iff.
    assert (Hold : forall m, In m (past_confirmed s) \/ In m (confirmed mq) -> In m (published s)).
    { intros m' Hm'. apply Hcf. unfold broker_confirmed. rewrite in_app_iff, Hmq. exact Hm'. }
    destruct ok; cbn; intuition.
Qed.

(** A request to the merchant. *)
Lemma post_ok q k reply s : site_ok s -> consuming s = Ready (Post q k) ->
  site_ok (add_posted q (set_consumer (Ready (k reply)) s)).
Proof.
  intros [Hs Hc Hrel Hcon Ha Ho Hp Hcf Hq Ht] Hsl. rewrite Hsl in Hcon. destruct Hcon as (Hheard & Hlt & Hk).
  split; cbn; try done; [by apply Forall_app; split; [| apply Forall_singleton] |].
  intros no. change (sent_under no (posted s ++ [q]) <= 3)%nat. rewrite sent_under_snoc. specialize (Ht no). case_decide as Heq; [subst no |]; lia.
Qed.

Lemma crash_ok s : site_ok s -> site_ok (mkSite (mkConf (db_now s) []) None Free Free (broker_confirmed s) (published s) (posted s)).
Proof.
  intros [Hs Hc Hrel Hcon Ha Ho Hp Hcf Hq Ht]. split; try done; [split; [apply Hs | by intros [] t] |].
  cbn. unfold broker_confirmed at 1. cbn. by rewrite app_nil_r.
Qed.

(** Every move keeps the invariant, and changes the database by a commit of a thread,
    as long as the broker's confirmations are among those that may be trusted. *)
Lemma site_move_ok mv s s' : site_move mv s = Some s' -> (forall m, In m (broker_confirmed s') -> confirmed_msg m) ->
  site_ok s -> site_ok s' /\ rtc service_commit (db_now s) (db_now s').
Proof.
  intros Hmv Hconf Hok. destruct mv as [v | i c | | B | n | reply |]; cbn [Site.site_move] in Hmv.
  - destruct (from_outside v) eqn:Hv; [| done]. injection Hmv as <-. split; [| apply rtc_refl].
    apply site_ok_server; [| apply rtc_refl | intros; by apply slot_ok_arrive | done].
    apply arrive_ok; [apply visit_safe; by destruct v as [[] |] | apply Hok].
  - apply bind_Some in Hmv as (w & Hturn & [= <-]).
    destruct (turn_ok iso _ (visit_ends_stable customConfig open_file) _ _ _ _ (so_server _ Hok) Hturn) as [Hw Hr].
    split; [| exact Hr]. apply site_ok_server; [done | done | | done].
    intros. eapply slot_ok_turn; [exact Hturn | by apply commits_later | done].
  - destruct (relaying s) eqn:Hsl; try done.
    destruct (relay_client customConfig (mqClient_ s)) as [mq|] eqn:Hcl; injection Hmv as <-; (split; [| apply rtc_refl]).
    + assert (Hc : client_inv (Some mq) /\ forall m, In m (client_confirmed (Some mq)) -> In m (published s)).
      { pose proof (so_client _ Hok) as Hinv. pose proof (fun m => client_published s m Hok) as Hcp. unfold relay_client in Hcl.
        destruct (mqClient_ s) as [mq0|]; [by injection Hcl as <- |].
        apply bind_Some in Hcl as (? & _ & [= <-]). by split. }
      apply site_ok_relay; [apply Hc | intros log; apply relay_agent_safe | apply Hc | done].
    + by apply site_ok_relay.
  - assert (Hjob : forall w sl', job_move customConfig open_file (server s) (relaying s) = Some (w, sl') ->
      site_ok (set_relay (mqClient_ s) sl' (set_server w s)) /\ cf_db w = db_now s).
    { intros w sl' Hj.
      assert (H : forall log, _) by (intros log; exact (job_move_ok _ log _ _ _ (so_server _ Hok) (so_relay _ Hok log) Hj)).
      destruct (H []) as (Hw & _ & Hd & Hother). split; [| done]. apply site_ok_relay.
      - apply (so_client _ Hok).
      - intros log. destruct (H log) as (_ & Hx & _). exact Hx.
      - intros m. by apply client_published.
      - apply site_ok_server; [done | rewrite Hd; apply rtc_refl | done | done]. }
    assert (Hgo : ('(w, sl') ← job_move customConfig open_file (server s) (relaying s);
      Some (set_relay (mqClient_ s) sl' (set_server w s))) = Some s' -> site_ok s' /\ rtc service_commit (db_now s) (db_now s')).
    { intros H. apply bind_Some in H as ([w sl'] & Hj & [= <-]). destruct (Hjob w sl' Hj) as [H Hd].
      split; [done |]. unfold db_now at 2. cbn. rewrite Hd. apply rtc_refl. }
    destruct (relaying s) as [| [[u | e | |] | j k | x key b k | q k] | i k] eqn:Hsl; try (by apply Hgo).
    + injection Hmv as <-. split; [| apply rtc_refl].
      apply site_ok_relay; [apply Hok | done | intros m; by apply client_published | done].
    + apply bind_Some in Hmv as (mq & Hmq & Hmv). destruct (publish x key b mq) as [ok mq'] eqn:Hpub.
      injection Hmv as <-. split; [| apply rtc_refl].
      pose proof (publish_ok B x key b k mq s Hok Hsl Hmq) as H. rewrite Hpub in H. apply H.
      intros m Hm. apply Hconf. unfold broker_confirmed. cbn. apply in_app_iff. by right.
  - destruct (consuming s) eqn:Hsl; try done. apply bind_Some in Hmv as (m & Hm & [= <-]).
    split; [| apply rtc_refl]. apply site_ok_consumer; [| done]. cbn [slot_ok].
    apply list_elem_of_lookup_2, list_elem_of_In, (so_published _ Hok) in Hm as (r & Hr & <-).
    apply process_agent_safe; [done |]. eapply Forall_impl; [apply (so_posted _ Hok) | apply heard_numbered].
  - assert (Hgo : ('(w, sl') ← job_move customConfig open_file (server s) (consuming s);
      Some (set_consumer sl' (set_server w s))) = Some s' -> site_ok s' /\ rtc service_commit (db_now s) (db_now s')).
    { intros H. apply bind_Some in H as ([w sl'] & Hj & [= <-]).
      destruct (job_move_ok _ _ _ _ _ (so_server _ Hok) (so_consumer _ Hok) Hj) as (Hw & Hsl' & Hd & Hother).
      split; [| unfold db_now at 2; cbn; rewrite Hd; apply rtc_refl].
      apply site_ok_consumer; [done |]. apply site_ok_server; [done | rewrite Hd; apply rtc_refl | done | done]. }
    destruct (consuming s) as [| [[u | e | |] | j k | x key b k | q k] | i k] eqn:Hsl; try (by apply Hgo).
    + injection Hmv as <-. split; [| apply rtc_refl]. by apply site_ok_consumer.
    + injection Hmv as <-. split; [| apply rtc_refl]. by apply post_ok.
  - injection Hmv as <-. split; [by apply crash_ok | apply rtc_refl].
Qed.
End Invariant.
