(* ===== verification/SiteSafety.v ===== *)
(** * SiteSafety: what the installation never does

    From the first day of a shop on, whatever arrives, however the threads, the relay
    and the consumer interleave, whatever the broker and the merchant answer, and
    wherever the process dies and is started again: the books balance, only paid
    orders are published, and the merchant hears nothing but the truth. *)

From stdpp Require Import relations.
From S2P Require Import Prelude MoneyUtil IdGenerator JsonValue Result RequestId BeijingTime SignUtil Models.
From S2P Require Import Database Transaction Daos Invariant Locks Interleaving RelyGuarantee Server OrderService PaymentService Books.
From S2P Require Import Reconcile ReconcileService MqClient MessageRelay NotifyConsumer Controllers Routes System EndToEnd.
From S2P Require Import Concurrency Backoffice Jobs Frontdoor Workload Agents Site.

(** The database of a shop that has sold nothing yet, or whose payments are all still to
    come: well formed, its books balanced, its outbox empty. *)
Record first_day {D : MySql} (d : Db) : Prop := {
  fd_wf : db_wf d;
  fd_ledger : ledger_inv d;
  fd_outbox : t_local_message d = []
}.

Section Runs.
Context {D : MySql} {J : JsonCpp} {O : OpenSsl} {L : MySqlLaws} {Ro : Router} (iso : isolation).
Context (customConfig : jvalue) (open_file : string -> option string) (notifyBaseUrl : string).

#[local] Abbreviation site_move := (site_move iso customConfig open_file notifyBaseUrl).
#[local] Abbreviation site_step := (site_step iso customConfig open_file notifyBaseUrl).
#[local] Abbreviation site_ok := (site_ok iso customConfig open_file notifyBaseUrl).
#[local] Abbreviation happens := (happens iso customConfig open_file notifyBaseUrl).

(** ** Confirmations accumulate *)

Lemma site_move_confirmed mv s s' : site_move mv s = Some s' -> client_inv (mqClient_ s) ->
  client_inv (mqClient_ s') /\ forall m, In m (broker_confirmed s) -> In m (broker_confirmed s').
Proof.
  intros Hmv Hc. destruct mv as [v | i c | | B | n | reply |]; cbn [Site.site_move] in Hmv.
  - destruct (from_outside v); [| done]. by injection Hmv as <-.
  - apply bind_Some in Hmv as (w & _ & [= <-]). done.
  - destruct (relaying s); try done. unfold relay_client in Hmv. unfold broker_confirmed.
    destruct (mqClient_ s) as [mq|]; [by injection Hmv as <- |].
    destruct (loadMqConfig customConfig); injection Hmv as <-; by split.
  - assert (Hgo : forall sl, ('(w, sl') ← job_move customConfig open_file (server s) sl;
      Some (set_relay (mqClient_ s) sl' (set_server w s))) = Some s' ->
      client_inv (mqClient_ s') /\ forall m, In m (broker_confirmed s) -> In m (broker_confirmed s')).
    { intros sl H. apply bind_Some in H as ([w sl'] & _ & [= <-]). by split. }
    destruct (relaying s) as [| [[u | e | |] | j k | x key b k | q k] | i k]; try by eapply Hgo.
    + by injection Hmv as <-.
    + apply bind_Some in Hmv as (mq & Hmq & Hmv). rewrite Hmq in Hc.
      pose proof (publish_step x key b mq Hc) as Hstep. destruct (publish x key b mq) as [ok mq'].
      destruct Hstep as (Hinv & Hconf & _). injection Hmv as <-. split; [done |].
      intros m. unfold broker_confirmed. cbn. rewrite Hmq, Hconf, !in_app_iff. cbn. tauto.
  - destruct (consuming s); try done. apply bind_Some in Hmv as (m & _ & [= <-]). done.
  - assert (Hgo : forall sl, ('(w, sl') ← job_move customConfig open_file (server s) sl;
      Some (set_consumer sl' (set_server w s))) = Some s' ->
      client_inv (mqClient_ s') /\ forall m, In m (broker_confirmed s) -> In m (broker_confirmed s')).
    { intros sl H. apply bind_Some in H as ([w sl'] & _ & [= <-]). by split. }
    destruct (consuming s) as [| [[u | e | |] | j k | x key b k | q k] | i k]; try by eapply Hgo.
    + by injection Hmv as <-.
    + by injection Hmv as <-.
  - injection Hmv as <-. split; [done |]. intros m Hm. unfold broker_confirmed at 1. cbn. apply in_app_iff. by left.
Qed.

Lemma site_steps_confirmed s s' : rtc site_step s s' -> client_inv (mqClient_ s) ->
  forall m, In m (broker_confirmed s) -> In m (broker_confirmed s').
Proof.
  induction 1 as [s | s u s' [mv Hmv] _ IH]; [done |]. intros Hc m Hm.
  destruct (site_move_confirmed mv s u Hmv Hc) as [Hc' Hmono]. by apply IH, Hmono.
Qed.

(** ** Runs keep the invariant *)

(** What the broker will have confirmed in the end may be trusted all along. *)
Lemma site_steps_ok {Ov : Oversight} s s' : rtc site_step s s' ->
  (forall m, In m (broker_confirmed s') -> confirmed_msg m) -> site_ok s ->
  site_ok s' /\ rtc service_commit (db_now s) (db_now s').
Proof.
  induction 1 as [s | s u s' [mv Hmv] Hr IH]; intros Hconf Hok; [by split; [| apply rtc_refl] |].
  destruct (site_move_confirmed mv s u Hmv (so_client _ _ _ _ _ Hok)) as [Hc _].
  destruct (site_move_ok iso customConfig open_file notifyBaseUrl mv s u Hmv) as [Hu Hdb]; [| done |].
  - intros m Hm. apply Hconf. by eapply site_steps_confirmed.
  - destruct (IH Hconf Hu) as [Hs' Hdb']. split; [done | by etransitivity].
Qed.

Lemma first_ok {Ov : Oversight} d : first_day d -> site_ok (first_start d).
Proof.
  intros [Hwf _ Hout].
  assert (Hnone : forall r, ~ In r (t_local_message d)) by (rewrite Hout; by intros r []).
  split; try done; [intros r Hr; destruct (Hnone r Hr).. | intros no; apply Nat.le_0_l].
Qed.

(** The confirmations of the broker, in the end. *)
Definition in_the_end (s : Site) : Oversight := {| confirmed_msg := fun m => In m (broker_confirmed s) |}.

Lemma happens_ok d s : happens d s -> first_day d ->
  Site.site_ok (Ov := in_the_end s) iso customConfig open_file notifyBaseUrl s
  /\ rtc (service_commit (Ov := in_the_end s)) d (db_now s) /\ ledger_inv (db_now s).
Proof.
  intros Hh Hd. destruct (site_steps_ok (Ov := in_the_end s) _ _ Hh) as [Hs Hr]; [done | by apply first_ok |].
  split; [done |]. split; [done |]. eapply books_steps_ledger; [exact (commits_books _ _ Hr) | apply (fd_ledger _ Hd)].
Qed.

(** The same at an instant on the way, with what will be confirmed in the end. *)
Lemma happens_ok_until d s s' : happens d s -> first_day d -> rtc site_step s s' ->
  Site.site_ok (Ov := in_the_end s') iso customConfig open_file notifyBaseUrl s
  /\ rtc (service_commit (Ov := in_the_end s')) (db_now s) (db_now s').
Proof.
  intros Hh Hd Hr.
  assert (Hok : Site.site_ok (Ov := in_the_end s') iso customConfig open_file notifyBaseUrl s).
  { apply (site_steps_ok (Ov := in_the_end s') _ _ Hh); [| by apply first_ok].
    intros m. by apply (site_steps_confirmed s s' Hr), (so_client (Ov := in_the_end s) _ _ _ _ _ (proj1 (happens_ok d s Hh Hd))). }
  split; [done |]. by apply (site_steps_ok (Ov := in_the_end s') s s' Hr).
Qed.

(** ** The properties *)

(** C13. At every instant the tables keep what the schema promises - unique keys (order
    and request numbers, one payment per channel trade number, one flow per request,
    one batch per day and channel, one notification per message), stock and balances
    in range and never negative, totals equal to price times quantity - and the
    relay's connection, if it has one, has its exchange declared, is in confirm mode
    and owes no acknowledgement. *)
Theorem site_wf d s : happens d s -> first_day d -> db_wf (db_now s) /\ client_inv (mqClient_ s).
Proof. intros Hh Hd. destruct (happens_ok d s Hh Hd) as ([[Hwf _] Hc _ _ _ _ _ _ _ _] & _). by split. Qed.

Lemma happens_books d s : happens d s -> first_day d -> db_wf (db_now s) /\ rtc books_step d (db_now s).
Proof. intros Hh Hd. destruct (happens_ok d s Hh Hd) as ([[Hwf _] _ _ _ _ _ _ _ _ _] & Hb%commits_books & _). by split. Qed.

(** C1. The books of the installation: whatever arrives, however the requests, the
    relay, the consumer and the timers interleave, at either isolation level, whatever
    fails and wherever the process dies, no product is oversold, money is conserved
    and no account overdrawn, and orders never disappear or change except to become
    paid. *)
Theorem site_books d s pid uid : happens d s -> first_day d ->
  in_stock pid (db_now s) + in_orders pid (db_now s) = in_stock pid d + in_orders pid d
  /\ 0 <= in_stock pid (db_now s)
  /\ balance_of uid (db_now s) + spent uid (db_now s) = balance_of uid d + spent uid d
  /\ 0 <= balance_of uid (db_now s)
  /\ orders_kept (t_order d) (t_order (db_now s)).
Proof.
  intros Hh Hd. destruct (happens_books d s Hh Hd) as [Hwf Hb].
  split; [by apply books_steps_stock |]. split; [by apply stock_nonneg |].
  split; [by apply books_steps_money |]. split; [by apply balance_nonneg | by apply books_steps_orders].
Qed.

(** C5. Paid exactly once, crashes included: each order number has at every instant as
    many payments, account flows and outbox messages as paid orders, of the same
    amounts, and that number is at most one, however often the channel repeats its
    callback and the process is started again. *)
Theorem site_paid_once d s w : happens d s -> first_day d ->
  ledger_inv (db_now s) /\ 0 <= payments w (fun _ => 1) (db_now s) <= 1
  /\ 0 <= flows w (fun _ => 1) (db_now s) <= 1 /\ 0 <= messages w (db_now s) <= 1.
Proof.
  intros Hh Hd. destruct (happens_books d s Hh Hd) as [Hwf Hb].
  pose proof (books_steps_ledger _ _ Hb (fd_ledger _ Hd)) as Hl. split; [done |].
  destruct (Hl w) as (-> & -> & -> & _). pose proof (paid_at_most_once w _ Hwf). done.
Qed.

(** A confirmation of the broker is of an order that has been paid. *)
Lemma published_vouched {Ov : Oversight} s m : site_ok s -> In m (published s) ->
  exists r o, In r (t_local_message (db_now s)) /\ wire r = m /\ In o (t_order (db_now s)) /\ vouches o r.
Proof.
  intros Hs (r & Hr & <-)%(so_published _ _ _ _ _ Hs). destruct (so_outbox _ _ _ _ _ Hs r Hr) as (o & Ho & Hv).
  by exists r, o.
Qed.

(** The message of a paid order is in the outbox. *)
Lemma paid_has_message d o : db_wf d -> ledger_inv d -> outbox_true d -> In o (t_order d) -> or_status o = kPaid ->
  exists r, In r (t_local_message d) /\ vouches o r.
Proof.
  intros Hwf Hl Ho Hin Hp. set (w := weight (or_order_no o)).
  assert (Hone : 1 <= messages w d).
  { destruct (Hl w) as (_ & _ & -> & _). apply (sum_of_member (fun o => of_order w (or_order_no o) && bool_decide (or_status o = kPaid)) _ o); [done |].
    unfold of_order. by rewrite !bool_decide_eq_true_2. }
  apply sum_of_some in Hone as (r & Hr & Hw). exists r. split; [done |].
  destruct (Ho r Hr) as (o' & Ho' & Hv). unfold of_order in Hw. apply bool_decide_eq_true in Hw.
  assert (o' = o) as ->; [| done].
  eapply (key_unique (fun o => weight (or_order_no o))); [apply Hwf | done | done |].
  by rewrite <- (vo_biz _ _ Hv), Hw.
Qed.

(** C3. From the payment to the broker, crashes included: what is published is the
    message of an order that has been paid and committed; what the broker confirms
    has been published; a message is marked as acknowledged only after the broker has
    confirmed it, to this process or to an earlier one; no message is rescheduled more
    than seven times; and every paid order has its
    one message in the outbox, so it has been confirmed, is still to be sent, or has
    been given up. *)
Theorem site_outbox d s : happens d s -> first_day d ->
  (forall m, In m (published s) -> exists r o,
     In r (t_local_message (db_now s)) /\ wire r = m /\ In o (t_order (db_now s)) /\ vouches o r)
  /\ (forall m, In m (broker_confirmed s) -> In m (published s))
  /\ (forall r, In r (t_local_message (db_now s)) ->
        (mr_status r = kMsgAcked -> In (wire r) (broker_confirmed s)) /\ 0 <= mr_retry_count r < kMaxRetries)
  /\ forall o, In o (t_order (db_now s)) -> or_status o = kPaid ->
       exists r, In r (t_local_message (db_now s)) /\ vouches o r
         /\ forall r', In r' (t_local_message (db_now s)) -> vouches o r' -> r' = r.
Proof.
  intros Hh Hd. destruct (happens_ok d s Hh Hd) as (Hs & _ & Hl).
  assert (Hwf : db_wf (db_now s)) by apply Hs.
  split; [intros m; by apply (published_vouched (Ov := in_the_end s)) |].
  split; [apply Hs |]. split; [apply (so_sound (Ov := in_the_end s) _ _ _ _ _ Hs) |].
  intros o Ho Hp. destruct (paid_has_message _ o Hwf Hl (so_outbox (Ov := in_the_end s) _ _ _ _ _ Hs) Ho Hp) as (r & Hr & Hv).
  exists r. split; [done |]. split; [done |]. intros r' Hr' Hv'. by eapply one_message.
Qed.

(** C2. From the payment to the merchant, crashes included: every request tells the
    number and the amount of an order that has been paid; the requests that tell of one
    order are all the same request, under one notification number; and under one number at
    most three are ever sent, however often the relay publishes the message again, the broker
    delivers it again and the process dies. *)
Theorem site_merchant {JL : JsonCppLaws} d s : happens d s -> first_day d -> printed (db_now s) ->
  (forall q, In q (posted s) -> exists o n,
     In o (t_order (db_now s)) /\ or_status o = kPaid /\ told notifyBaseUrl (db_now s) q o
     /\ q = merchant_request notifyBaseUrl n (or_order_no o) (fenToYuanString (or_total_amount o)))
  /\ (forall o q q', told notifyBaseUrl (db_now s) q o -> told notifyBaseUrl (db_now s) q' o -> q = q')
  /\ forall no, (sent_under no (posted s) <= 3)%nat.
Proof.
  intros Hh Hd Hprint. destruct (happens_ok d s Hh Hd) as (Hs & _ & Hl).
  assert (Hwf : db_wf (db_now s)) by apply Hs. split; [| split].
  - intros q Hq.
    refine (heard_told notifyBaseUrl (db_now s) q (so_outbox (Ov := in_the_end s) _ _ _ _ _ Hs) Hprint _).
    pose proof (so_posted (Ov := in_the_end s) _ _ _ _ _ Hs) as H. rewrite List.Forall_forall in H. by apply H.
  - intros o q q'. by apply told_once.
  - apply (so_thrice (Ov := in_the_end s) _ _ _ _ _ Hs).
Qed.
End Runs.

(** ** Witness: the process dies while it tells the merchant

    A callback pays the order; the relay scans and publishes the message, and before it
    has marked it the broker delivers it, the consumer records it and posts, and is
    refused.  Then the process dies.  The next one publishes the message again - it was
    still pending - and marks it; the second delivery finds its record and is
    acknowledged. *)

Definition site_luck (i n : nat) (id : string) : list (move (J := Tree.lib)) := repeat (Turn i (luck id)) n.

Definition unreachable : HttpReply := mkHttpReply false None.

Definition before_the_crash : list (move (J := Tree.lib)) :=
  Arrive (Http true "/api/v1/payment/callback" callback_post) :: site_luck 0 13 "900"
  ++ [Tick; Relay willing] ++ site_luck 1 1 "" ++ [Relay willing; Relay willing; Deliver 0]
  ++ [Consume unreachable; Relay willing] ++ site_luck 2 2 "901" ++ [Consume unreachable; Consume unreachable].

Definition after_the_crash : list (move (J := Tree.lib)) :=
  [Tick; Relay willing] ++ site_luck 0 1 "" ++ [Relay willing; Relay willing; Relay willing]
  ++ site_luck 1 1 "" ++ [Relay willing; Relay willing; Deliver 1; Consume unreachable]
  ++ site_luck 2 2 "902" ++ [Consume unreachable; Consume unreachable].

Definition site_story (story : list (move (J := Tree.lib))) : option (Site (J := Tree.lib)) :=
  site_run (D := Server.lib) (J := Tree.lib) (O := SignUtil.Plain.lib) (Ro := Paths.router) RepeatableRead
    sample_config sample_files "http://localhost:8080" story (first_start Server.ordered_shop).

Definition restarted : Site (J := Tree.lib) :=
  default (first_start Server.ordered_shop) (site_story (before_the_crash ++ Crash :: after_the_crash)).

Lemma restarted_story : isSome (site_story (before_the_crash ++ Crash :: after_the_crash)) = true.
Proof. by vm_compute. Qed.

Lemma story_happens story : isSome (site_story story) = true ->
  happens (D := Server.lib) (J := Tree.lib) (O := SignUtil.Plain.lib) (Ro := Paths.router)
    RepeatableRead sample_config sample_files "http://localhost:8080" Server.ordered_shop
    (default (first_start Server.ordered_shop) (site_story story)).
Proof.
  intros H. apply (site_run_rtc (D := Server.lib) (J := Tree.lib) (O := SignUtil.Plain.lib) (Ro := Paths.router)
    RepeatableRead sample_config sample_files "http://localhost:8080" story).
  fold (site_story story). by destruct (site_story story).
Qed.

Lemma restarted_happens : happens (D := Server.lib) (J := Tree.lib) (O := SignUtil.Plain.lib) (Ro := Paths.router)
  RepeatableRead sample_config sample_files "http://localhost:8080" Server.ordered_shop restarted.
Proof. exact (story_happens _ restarted_story). Qed.

Lemma ordered_first_day : first_day (D := Server.lib) Server.ordered_shop.
Proof. split; [exact Server.ordered_shop_wf | exact ordered_shop_ledger | reflexivity]. Qed.

Lemma restarted_printed : printed (db_now restarted).
Proof. apply printed_check. by vm_compute. Qed.

Lemma site_books_witness :
  spent 7 (db_now restarted) = 5997 /\ balance_of 7 (db_now restarted) + spent 7 (db_now restarted) = 100000.
Proof.
  split; [by vm_compute |].
  destruct (site_books (D := Server.lib) (J := Tree.lib) (O := SignUtil.Plain.lib) (L := Server.lib_laws) (Ro := Paths.router)
    RepeatableRead sample_config sample_files "http://localhost:8080" Server.ordered_shop restarted 1 7
    restarted_happens ordered_first_day) as (_ & _ & H & _).
  exact H.
Defined.

Lemma site_paid_once_witness :
  map or_status (t_order (db_now restarted)) = [kPaid]
  /\ 0 <= @payments Server.lib (@weight Server.lib "132633958813929472") (fun _ => 1) (db_now restarted) <= 1.
Proof.
  split; [by vm_compute |].
  exact (proj1 (proj2 (site_paid_once (D := Server.lib) (J := Tree.lib) (O := SignUtil.Plain.lib) (L := Server.lib_laws)
    (Ro := Paths.router) RepeatableRead sample_config sample_files "http://localhost:8080" Server.ordered_shop restarted
    (@weight Server.lib "132633958813929472") restarted_happens ordered_first_day))).
Defined.

Lemma site_wf_witness : length (t_notify_record (db_now restarted)) = 1%nat /\ db_wf (D := Server.lib) (db_now restarted).
Proof.
  split; [by vm_compute |].
  exact (proj1 (site_wf (D := Server.lib) (J := Tree.lib) (O := SignUtil.Plain.lib) (L := Server.lib_laws)
    (Ro := Paths.router) RepeatableRead sample_config sample_files "http://localhost:8080" Server.ordered_shop restarted
    restarted_happens ordered_first_day)).
Defined.

Lemma site_outbox_witness :
  length (published restarted) = 2%nat /\ map mr_status (t_local_message (db_now restarted)) = [kMsgAcked]
  /\ forall r, In r (t_local_message (db_now restarted)) ->
       (mr_status r = kMsgAcked -> In (wire r) (broker_confirmed restarted)) /\ 0 <= mr_retry_count r < kMaxRetries.
Proof.
  split; [by vm_compute |]. split; [by vm_compute |].
  exact (proj1 (proj2 (proj2 (site_outbox (D := Server.lib) (J := Tree.lib) (O := SignUtil.Plain.lib) (L := Server.lib_laws)
    (Ro := Paths.router) RepeatableRead sample_config sample_files "http://localhost:8080" Server.ordered_shop restarted
    restarted_happens ordered_first_day)))).
Defined.

Lemma site_merchant_witness :
  length (posted restarted) = 1%nat /\ map nr_status (t_notify_record (db_now restarted)) = [0]
  /\ forall q, In q (posted restarted) -> exists o n, In o (t_order (db_now restarted)) /\ or_status o = kPaid
       /\ told (D := Server.lib) (J := Tree.lib) "http://localhost:8080" (db_now restarted) q o
       /\ q = merchant_request (J := Tree.lib) "http://localhost:8080" n (or_order_no o) (fenToYuanString (or_total_amount o)).
Proof.
  split; [by vm_compute |]. split; [by vm_compute |].
  exact (proj1 (site_merchant (D := Server.lib) (J := Tree.lib) (O := SignUtil.Plain.lib) (L := Server.lib_laws)
    (Ro := Paths.router) RepeatableRead sample_config sample_files "http://localhost:8080" (JL := Tree.lib_laws)
    Server.ordered_shop restarted restarted_happens ordered_first_day restarted_printed)).
Defined.
