(* ===== verification/SiteRecords.v ===== *)
(** * SiteRecords: what the installation remembers

    Two pairs of tables grow together, through all interleavings and crashes: every
    order placed has its record of idempotency with the bytes of its response, and
    every batch has all of its differences.  So a client whose response was lost may
    ask again at any time, and gets it. *)

From stdpp Require Import relations.
From S2P Require Import Prelude MoneyUtil IdGenerator JsonValue Result RequestId BeijingTime SignUtil Models.
From S2P Require Import Database Transaction Daos Invariant Locks Interleaving RelyGuarantee Server OrderService PaymentService Books.
From S2P Require Import Reconcile ReconcileService MqClient MessageRelay NotifyConsumer Controllers Routes System EndToEnd.
From S2P Require Import Concurrency Backoffice Jobs Frontdoor Workload Agents Site SiteSafety.

(** ** Tables that grow together *)

Section Grown.
Context {R S : Type} (later : R -> R -> Prop) (fits : S -> list R -> Prop).

(** The rows of the first table are kept, each in a later version, and the rows of the
    second as they are; what the second has in addition fits, row by row, the groups
    of rows that the first has in addition. *)
Definition grown (a b : list R * list S) : Prop :=
  exists kept added groups, b.1 = kept ++ concat groups /\ Forall2 later a.1 kept
    /\ b.2 = a.2 ++ added /\ Forall2 fits added groups.

Lemma Forall2_concat_inv (gs : list (list R)) : forall t, Forall2 later (concat gs) t ->
  exists hs, t = concat hs /\ Forall2 (Forall2 later) gs hs.
Proof.
  induction gs as [|g gs IH]; intros t; cbn [concat].
  - intros ->%Forall2_nil_inv_l. by exists [].
  - intros (h & u & Hh & Hu & ->)%Forall2_app_inv_l. destruct (IH u Hu) as (hs & -> & Hhs).
    exists (h :: hs). split; [done | by constructor].
Qed.

Context `{!PreOrder later, !Proper (eq ==> Forall2 later ==> impl) fits}.

#[export] Instance grown_preorder : PreOrder grown.
Proof.
  split.
  - intros [t u]. exists t, [], []. cbn. rewrite !app_nil_r. split_and!; [done | reflexivity | done | done].
  - intros [t1 u1] [t2 u2] [t3 u3] (k1 & a1 & g1 & E1 & H1 & F1 & Ha1) (k2 & a2 & g2 & E2 & H2 & F2 & Ha2).
    cbn in *. subst. apply Forall2_app_inv_l in H2 as (k & l & Hk & Hl & ->).
    apply Forall2_concat_inv in Hl as (h1 & -> & Hh).
    exists k, (a1 ++ a2), (h1 ++ g2). split_and!.
    + by rewrite concat_app, app_assoc.
    + by etransitivity.
    + by rewrite app_assoc.
    + apply Forall2_app; [| done]. clear -Ha1 Hh Proper0. revert h1 Hh.
      induction Ha1 as [|x g xs gs Hx _ IH]; intros h1 Hh.
      * apply Forall2_nil_inv_l in Hh as ->. constructor.
      * apply Forall2_cons_inv_l in Hh as (h & hs & Hg & Hhs & ->).
        constructor; [by apply (Proper0 x x eq_refl g h Hg) | by apply IH].
Qed.

(** Nothing new; a row with its group. *)
Lemma grown_same t t' u : Forall2 later t t' -> grown (t, u) (t', u).
Proof. intros H. exists t', [], []. cbn. rewrite !app_nil_r. split_and!; done. Qed.

Lemma grown_by t u x g : fits x g -> grown (t, u) (t ++ g, u ++ [x]).
Proof.
  intros H. exists t, [x], [g]. cbn. rewrite app_nil_r. split_and!; [done | reflexivity | done | by repeat constructor].
Qed.
End Grown.

(** ** Orders and their records *)

Section Orders.
Context {D : MySql} {J : JsonCpp}.

(** [x] is the record of the order [r]: of its request, successful, with the bytes of
    the response that announced the order as it was placed. *)
Definition placed (x : IdempotentRow) (r : OrderRow) : Prop :=
  id_request_id x = or_request_id r /\ id_status x = kIdemSuccess
  /\ exists o r0, order_row o = Some r0 /\ order_later r0 r
    /\ id_response_body x = Some (response_snapshot (ok o (or_request_id r))).

Lemma order_later_request r r' : order_later r r' -> or_request_id r' = or_request_id r.
Proof. by intros [-> | [_ [now ->]]]. Qed.

Lemma placed_later x r r' : placed x r -> order_later r r' -> placed x r'.
Proof.
  intros (E & Hs & o & r0 & Ho & H0 & Hb) Hl. unfold placed. rewrite (order_later_request _ _ Hl).
  split; [done |]. split; [done |]. exists o, r0. split; [done |]. split; [by etransitivity | done].
Qed.

Definition remembers (x : IdempotentRow) (g : list OrderRow) : Prop := exists r, g = [r] /\ placed x r.

#[export] Instance remembers_proper : Proper (eq ==> Forall2 order_later ==> impl) remembers.
Proof.
  intros x ? <- g g' Hg (r & -> & Hr). apply Forall2_cons_inv_l in Hg as (r' & ? & Hl & ->%Forall2_nil_inv_l & ->).
  exists r'. split; [done | by eapply placed_later].
Qed.

Lemma remembers_rows xs gs : Forall2 remembers xs gs -> Forall2 placed xs (concat gs).
Proof. induction 1 as [|x g xs gs (r & -> & Hr) _ IH]; cbn; [done | by constructor]. Qed.

Lemma commit_records {Ov : Oversight} d d' : service_commit d d' ->
  grown order_later remembers (t_order d, t_idempotent d) (t_order d', t_idempotent d').
Proof.
  intros [req o d0 d1 H | req raw d0 d1 H | d0 t Hm Hok | d0 t Hl H1 H2
    | id act rem s d0 d1 H | day lo ch b d0 d1 H | d0]; try (by apply grown_same).
  - destruct H as [d0 t1 p t2 no ms orow irow Hq Ht Hid Hs Hst oo Hrow Hc Hi Hist Hb Hf]. cbn.
    apply (grown_by order_later remembers). exists orow. split; [done |].
    pose proof (order_row_inv _ _ Hrow) as (_ & Erid & _). cbn in Erid.
    split; [congruence |]. split; [done |]. exists oo, orow.
    split; [done |]. split; [reflexivity |]. by rewrite Erid.
  - pose proof (books_orders d0 d1 (BooksPayment _ _ _ _ H)) as (kept & new & E & Hk).
    destruct H as [d0 o1 o o2 a1 a a2 amount now now' cbt pno mid ex rk py Hto Hno Hpend Hamt Htot Hpos
      Hta Hu Hst Hbal Htime Hpy Hpc fr Hfc Hm]. cbn in *.
    apply grown_same. rewrite E, Hto in *. assert (new = []) as ->.
    { apply nil_length_inv. pose proof (Forall2_length _ _ _ Hk) as Hlen. apply (f_equal length) in E.
      rewrite !length_app in *. cbn in *. lia. }
    by rewrite app_nil_r.
  - destruct H. by apply grown_same.
  - destruct H. by apply grown_same.
Qed.

Lemma commits_records {Ov : Oversight} d d' : rtc service_commit d d' ->
  grown order_later remembers (t_order d, t_idempotent d) (t_order d', t_idempotent d').
Proof. induction 1 as [d | d u d' H _ IH]; [reflexivity |]. etransitivity; [by apply commit_records | done]. Qed.
End Orders.

(** ** Batches and their differences *)

Section Batches.
Context {D : MySql} {J : JsonCpp}.

(** A difference between two instants: unchanged, or a pending one that was handled. *)
Definition handled_later (x y : DiffRow) : Prop :=
  y = x \/ (dr_handle_status x = kHandlePending /\ exists s remark now, s <> kHandlePending /\ y = handled s remark now x).

#[export] Instance handled_later_preorder : PreOrder handled_later.
Proof.
  split; [by left |]. intros x y z [-> | [Hx (s & remark & now & Hs & ->)]] [-> | [Hy Hz]]; [by left | by right | | done].
  right. split; [done |]. by exists s, remark, now.
Qed.

(** What handling does not change. *)
Lemma handled_later_batch x y : handled_later x y -> dr_batch_no y = dr_batch_no x.
Proof. by intros [-> | [_ (s & remark & now & _ & ->)]]. Qed.

(** [b] is the row of the comparison of two lists of payments, [g] its differences, each
    as it was found or handled since. *)
Definition explained (b : BatchRow) (g : list DiffRow) : Prop :=
  exists billDate batchNo localRows channelRows id found,
    let classified := classifyReconcileDiffs localRows channelRows in
    batch_row (build_batch batchNo billDate localRows channelRows classified) = Some b
    /\ diff_rows id batchNo classified = Some found /\ Forall2 handled_later found g.

#[export] Instance explained_proper : Proper (eq ==> Forall2 handled_later ==> impl) explained.
Proof.
  intros b ? <- g g' Hg (day & no & lo & ch & id & found & Hb & Hd & Hf).
  exists day, no, lo, ch, id, found. split; [done |]. split; [done | by etransitivity].
Qed.

Lemma commit_batches {Ov : Oversight} d d' : service_commit d d' ->
  grown handled_later explained (t_reconcile_diff d, t_reconcile_batch d) (t_reconcile_diff d', t_reconcile_batch d').
Proof.
  intros [req o d0 d1 H | req raw d0 d1 H | d0 t Hm Hok | d0 t Hl H1 H2
    | id act rem s d0 d1 H | day lo ch b d0 d1 H | d0]; try (by apply grown_same).
  - destruct H. by apply grown_same.
  - destruct H. by apply grown_same.
  - destruct H as [s d0 t1 x t2 now Ha Ht Hid Hp]. cbn. apply grown_same. rewrite Ht.
    apply Forall2_app; [done |]. constructor; [| done]. right. split; [done |]. exists s, rem, now.
    split; [| done]. unfold action_status in Ha. by repeat case_match; simplify_eq.
  - destruct H as [d0 no brow drows classified batch Hb Hc Hd]. cbn. apply (grown_by handled_later explained).
    by exists day, no, lo, ch, (t_reconcile_diff_auto d0), drows.
Qed.

Lemma commits_batches {Ov : Oversight} d d' : rtc service_commit d d' ->
  grown handled_later explained (t_reconcile_diff d, t_reconcile_batch d) (t_reconcile_diff d', t_reconcile_batch d').
Proof. induction 1 as [d | d u d' H _ IH]; [reflexivity |]. etransitivity; [by apply commit_batches | done]. Qed.

Lemma diff_rows_batch batchNo cs : forall id found, diff_rows id batchNo cs = Some found ->
  length found = length cs /\ Forall (fun x => dr_batch_no x = batchNo) found.
Proof.
  induction cs as [|c cs IH]; intros id found H; cbn [diff_rows] in H; [injection H as <-; by split |].
  apply bind_Some in H as (r & Hr & H). apply bind_Some in H as (rs & Hrs & H). injection H as <-.
  destruct (IH _ _ Hrs) as [Hl Hall]. cbn. split; [by rewrite Hl |]. constructor; [| done].
  unfold diff_row in Hr. by simplify_opt.
Qed.

(** The counters of an explained batch are true of its differences. *)
Lemma explained_counts b g : explained b g ->
  br_diff_count b = Z.of_nat (length g) /\ (br_status b = kBalanced <-> g = [])
  /\ Forall (fun x => dr_batch_no x = br_batch_no b) g.
Proof.
  intros (day & no & lo & ch & id & found & Hb & Hd & Hg). apply diff_rows_batch in Hd as [Hlen Hall].
  unfold batch_row in Hb. simplify_opt. cbn in *. rewrite <- (Forall2_length _ _ _ Hg), Hlen. split; [done |]. split.
  - destruct (classifyReconcileDiffs lo ch), found; try done; by destruct Hg.
  - clear -Hall Hg. induction Hg as [|x y l k Hxy _ IH]; [done |]. apply Forall_cons in Hall as [Hx Hl].
    constructor; [| by apply IH]. rewrite (handled_later_batch _ _ Hxy). done.
Qed.

(** The SELECT of the differences of a batch. *)
Definition differences_of (b : BatchRow) : list DiffRow -> list DiffRow :=
  sql_select (fun x => sql_eq (dr_batch_no x) (br_batch_no b)).

Lemma select_own b g : Forall (fun x => dr_batch_no x = br_batch_no b) g -> differences_of b g = g.
Proof.
  intros H. unfold differences_of, sql_select. induction H as [|x g Hx _ IH]; [done |]. cbn.
  by rewrite Hx, sql_eq_refl, IH.
Qed.

Lemma select_other b c g : weight (br_batch_no c) <> weight (br_batch_no b) ->
  Forall (fun x => dr_batch_no x = br_batch_no c) g -> differences_of b g = [].
Proof.
  intros Hne H. apply sql_select_none, existsb_false. eapply Forall_impl; [exact H |]. intros x Hx. cbn in *.
  rewrite Hx. apply not_true_iff_false. by intros E%sql_eq_iff.
Qed.

Lemma select_group bs gs b : NoDup (map (fun b => weight (br_batch_no b)) bs) -> Forall2 explained bs gs ->
  In b bs -> explained b (differences_of b (concat gs)).
Proof.
  intros Hnd H Hin. induction H as [|c g bs gs Hc H IH]; [done |].
  apply NoDup_cons in Hnd as [Hnew Hnd]. cbn [concat]. unfold differences_of, sql_select. rewrite List.filter_app.
  fold (sql_select (fun x => sql_eq (dr_batch_no x) (br_batch_no b)) g) (differences_of b g)
    (sql_select (fun x => sql_eq (dr_batch_no x) (br_batch_no b)) (concat gs)) (differences_of b (concat gs)).
  pose proof (explained_counts c g Hc) as (_ & _ & Hown). destruct Hin as [<- | Hin].
  - rewrite (select_own c g Hown). replace (differences_of c (concat gs)) with (@nil DiffRow); [by rewrite app_nil_r |].
    symmetry. clear -Hnew H. induction H as [|c' g' bs gs Hc' _ IH]; [done |]. cbn [map concat] in *.
    apply not_elem_of_cons in Hnew as [Hne Hnew].
    unfold differences_of, sql_select in *. rewrite List.filter_app, IH by done. rewrite app_nil_r.
    apply (select_other c c' g'); [congruence | apply (explained_counts c' g' Hc')].
  - rewrite (select_other b c g); [by apply IH | | done]. intros E. apply Hnew. rewrite E.
    by apply list_elem_of_In, (in_map (fun b => weight (br_batch_no b))).
Qed.

Lemma group_owner bs gs x : Forall2 explained bs gs -> In x (concat gs) ->
  exists b, In b bs /\ dr_batch_no x = br_batch_no b.
Proof.
  induction 1 as [|b g bs gs Hb _ IH]; [done |]. cbn [concat]. intros [Hx | Hx]%in_app_iff.
  - pose proof (explained_counts b g Hb) as (_ & _ & Hown). rewrite List.Forall_forall in Hown.
    exists b. split; [by left | by apply Hown].
  - destruct (IH Hx) as (b' & Hb' & E). exists b'. split; [by right | done].
Qed.
End Batches.

(** ** The properties *)

Section Runs.
Context {D : MySql} {J : JsonCpp} {O : OpenSsl} {L : MySqlLaws} {Ro : Router} (iso : isolation).
Context (customConfig : jvalue) (open_file : string -> option string) (notifyBaseUrl : string).

#[local] Abbreviation happens := (happens iso customConfig open_file notifyBaseUrl).

(** C6. Ordered exactly once, crashes included: at every instant the orders placed since
    the first day and the records of idempotency added since then stand one to one,
    in the order in which they were committed; each record is of the request of its
    order and holds the bytes of the response that announced it, whether or not the
    client ever received them; no order is there without its record, no record is left
    half done, and no two orders are of the same request. *)
Theorem site_ordered_once d s : happens d s -> first_day d ->
  (exists kept new records,
     t_order (db_now s) = kept ++ new /\ Forall2 order_later (t_order d) kept
     /\ t_idempotent (db_now s) = t_idempotent d ++ records /\ Forall2 placed records new)
  /\ forall r r', In r (t_order (db_now s)) -> In r' (t_order (db_now s)) ->
       sql_eq (or_request_id r) (or_request_id r') = true -> r = r'.
Proof.
  intros Hh Hd. destruct (happens_ok _ _ _ _ d s Hh Hd) as (Hs & Hr & _). split.
  - apply commits_records in Hr as (kept & records & gs & E & Hk & E' & Hg).
    exists kept, (concat gs), records. split_and!; [done.. | by apply remembers_rows].
  - intros r r' H H' E%sql_eq_iff. apply (key_unique (fun o => weight (or_request_id o)) (t_order (db_now s))); [apply Hs | done..].
Qed.

(** An order placed since the first day has its record. *)
Lemma order_record d s r : happens d s -> first_day d -> In r (t_order (db_now s)) ->
  (forall r0, In r0 (t_order d) -> or_request_id r0 <> or_request_id r) ->
  exists x, In x (t_idempotent (db_now s)) /\ placed x r.
Proof.
  intros Hh Hd Hin Hnew. destruct (happens_ok _ _ _ _ d s Hh Hd) as (_ & Hr & _).
  apply commits_records in Hr as (kept & records & gs & E & Hk & E' & Hg%remembers_rows). cbn in *.
  rewrite E in Hin. apply in_app_iff in Hin as [Hin | Hin].
  - destruct (Forall2_In_r _ _ _ r Hk Hin) as (r0 & H0 & Hl). destruct (Hnew r0 H0).
    symmetry. by apply order_later_request.
  - destruct (Forall2_In_r _ _ _ r Hg Hin) as (x & Hx & Hp). exists x. rewrite E'. split; [| done].
    apply in_app_iff. by right.
Qed.

(** C16. A response that was lost can be had again: whatever has happened since - the
    process may have died between the commit and the answer, or many times - a POST with
    the identifier of an order that was placed, on a server without faults, is answered
    with the bytes that announced the order, and changes nothing, whatever the body
    of the POST says. *)
Theorem site_retry {E : Env} d s r st req oreq : happens d s -> first_day d ->
  In r (t_order (db_now s)) -> (forall r0, In r0 (t_order d) -> or_request_id r0 <> or_request_id r) ->
  no_fault -> committed st = db_now s -> method req = RequestId.Post -> isValidRequestId (header_rid req) = true ->
  sql_eq (or_request_id r) (header_rid req) = true ->
  order_request (set_attr (header_rid req) req) = Some (Some oreq) -> cr_quantity oreq <= kMaxQuantity ->
  is_Some (idempotent_row (buildIdempotentRecord (system_clock (readings st)) oreq)) ->
  exists o r0 st', order_row o = Some r0 /\ order_later r0 r
    /\ run_alone (serve (createOrder_endpoint true) req) st
       = (Ret (Some (mkResponse 200 (jwriteCompact (toJson (ok o (or_request_id r)))))), st')
    /\ committed st' = committed st.
Proof.
  intros Hh Hd Hin Hnew Hnf Hst Hm Hv Hid Hreq Hq Hrow.
  destruct (order_record d s r Hh Hd Hin Hnew) as (x & Hx & Ex & Hsx & o & r0 & Ho & Hl & Hb).
  destruct (happens_ok _ _ _ _ d s Hh Hd) as ([[[K _] _] _ _ _ _ _ _ _ _] & _).
  pose proof (order_request_inv _ _ Hreq) as (Erid & _ & Hpos).
  destruct (createOrder_cached oreq st x (response_snapshot (ok o (or_request_id r)))) as (st' & Hrun & Hc); try done.
  - rewrite Hst. apply K.
  - by rewrite Hst.
  - by rewrite Ex, Erid.
  - exists o, r0, st'. split; [done |]. split; [done |]. split; [| done].
    by rewrite (order_endpoint_run true req oreq st Hm Hv Hreq eq_refl), Hrun.
Qed.

(** The order of a payment. *)
Lemma sum_of_none {R : Type} (p : R -> bool) f t : sum_of (fun r => if p r then 1 else 0) t <= 0 ->
  sum_of (fun r => if p r then f r else 0) t = 0.
Proof.
  induction t as [|a t IH]; [done |]. intros H. change (a :: t) with ([] ++ a :: t) in *.
  rewrite sum_of_split in H |- *. change (sum_of _ []) with 0 in *.
  assert (0 <= sum_of (fun r => if p r then 1 else 0) t) by (apply sum_of_nonneg; intros r _; by destruct (p r)).
  rewrite IH by (destruct (p a); lia). destruct (p a); lia.
Qed.

Lemma sum_of_only {R : Type} (p : R -> bool) f t x : sum_of (fun r => if p r then 1 else 0) t <= 1 ->
  In x t -> p x = true -> sum_of (fun r => if p r then f r else 0) t = f x.
Proof.
  intros Hs Hin Hp. apply in_split in Hin as (t1 & t2 & ->). rewrite sum_of_split, Hp in Hs |- *.
  assert (H : forall t, 0 <= sum_of (fun r => if p r then 1 else 0) t)
    by (intros u; apply sum_of_nonneg; intros r _; by destruct (p r)).
  pose proof (H t1). pose proof (H t2). rewrite !sum_of_none by lia. lia.
Qed.

Lemma payment_order d p : db_wf d -> ledger_inv d -> In p (t_payment d) ->
  exists o, In o (t_order d) /\ sql_eq (or_order_no o) (py_order_no p) = true /\ or_status o = kPaid
    /\ or_total_amount o = py_amount p.
Proof.
  intros Hwf Hl Hin. set (w := weight (py_order_no p)). destruct (Hl w) as (H1 & _ & _ & Ha & _).
  pose proof (paid_at_most_once w d Hwf) as Hone. unfold payments, paid_orders in *.
  assert (Hp : of_order w (py_order_no p) = true) by (by apply bool_decide_eq_true).
  pose proof (sum_of_member (fun p => of_order w (py_order_no p)) _ p Hin Hp) as Hpos.
  destruct (sum_of_some (fun o => of_order w (or_order_no o) && bool_decide (or_status o = kPaid)) (t_order d)) as (o & Ho & Hpo);
    [lia |]. exists o. split; [done |].
  pose proof Hpo as [Hw%bool_decide_eq_true Hpaid%bool_decide_eq_true]%andb_true_iff.
  split; [by apply sql_eq_iff |]. split; [done |].
  rewrite (sum_of_only (fun p => of_order w (py_order_no p)) py_amount _ p) in Ha by (done || lia).
  rewrite (sum_of_only (fun o => of_order w (or_order_no o) && bool_decide (or_status o = kPaid)) or_total_amount _ o) in Ha
    by (done || lia). done.
Qed.

(** C17. A callback may be repeated for ever: whatever has happened since - the process may
    have died between the commit and the answer - a genuine callback of a payment that is
    recorded, on a server without faults, is answered success, and changes nothing. *)
Theorem site_callback_again {E : Env} d s p st req rawBody id ids' n' callbackTime : happens d s -> first_day d ->
  In p (t_payment (db_now s)) -> no_fault -> committed st = db_now s -> genuine customConfig req ->
  sql_eq (py_channel p) (cb_channel req) = true -> sql_eq (py_channel_trade_no p) (cb_channelTradeNo req) = true ->
  py_order_no p = cb_orderNo req -> yuanStringToFen (cb_amount req) = Some (py_amount p) ->
  epochToBeijing (cb_timestamp req) = Some callbackTime ->
  nextId system_clock spin_fuel (readings st) (ids st) = (IdOk id, ids', n') ->
  is_Some (payment_row (mkPayment id (cb_orderNo req) (cb_channel req) (cb_channelTradeNo req) (py_amount p)
    kPaySuccess callbackTime rawBody)) ->
  exists st', run_alone (handleCallback customConfig req rawBody) st = (Ret (ok jnull (cb_requestId req)), st')
    /\ committed st' = committed st.
Proof.
  intros Hh Hd Hin Hnf Hst Hgen Hch Htn Hno Ham Htime Hnext Hrow.
  destruct (happens_ok _ _ _ _ d s Hh Hd) as ([[Hwf _] _ _ _ _ _ _ _ _] & _ & Hl).
  destruct (payment_order _ p Hwf Hl Hin) as (o & Ho & Hon & _ & Htot).
  destruct (callback_replayed customConfig req rawBody st p) as (st' & Hrun & Hc); rewrite ?Hst; try done; [apply Hwf | |].
  - split; rewrite ?Hst.
    + exists o. rewrite <- Hno, Htot. done.
    + by exists id, ids', n', callbackTime, (py_amount p).
  - exists st'. unfold replay_answer in Hrun. rewrite bool_decide_eq_true_2 in Hrun by done. by rewrite Hc.
Qed.

(** C22. The reconciliation at every instant, crashes included: each batch is there
    with all of its differences - those that the comparison of two lists of
    payments gives, each as it was found or handled once since - which are what the
    administrator who lists them gets; its counter is their number, it is balanced exactly
    when there is none, every difference is of a batch, and there is one batch a day
    and channel. *)
Theorem site_batches d s : happens d s -> first_day d -> t_reconcile_batch d = [] -> t_reconcile_diff d = [] ->
  (forall b, In b (t_reconcile_batch (db_now s)) ->
     let g := differences_of b (t_reconcile_diff (db_now s)) in
     explained b g /\ br_diff_count b = Z.of_nat (length g) /\ (br_status b = kBalanced <-> g = [])
     /\ forall limit, listDiffs_sql (br_batch_no b) (-1) limit (db_now s) = Some (map (diff_of_row true) (take limit g)))
  /\ (forall x, In x (t_reconcile_diff (db_now s)) ->
        exists b, In b (t_reconcile_batch (db_now s)) /\ dr_batch_no x = br_batch_no b)
  /\ NoDup (map (fun b => (br_bill_date b, weight (br_channel b))) (t_reconcile_batch (db_now s))).
Proof.
  intros Hh Hd Eb Ed. destruct (happens_ok _ _ _ _ d s Hh Hd) as ([[[K _] _] _ _ _ _ _ _ _ _] & Hr & _).
  apply commits_batches in Hr as (kept & bs & gs & E & Hk & E' & Hg). cbn in *.
  rewrite Ed in Hk. apply Forall2_nil_inv_l in Hk as ->. rewrite Eb in E'. cbn in *.
  pose proof (wf_batch_no _ K) as Hno. pose proof (wf_batch_date _ K) as Hdate.
  fold (db_now s) in Hno, Hdate. rewrite E' in Hno, Hdate |- *. rewrite E. split; [| split; [| exact Hdate]].
  - intros b Hb. cbn zeta. set (g := differences_of b (concat gs)).
    assert (Hx : explained b g) by exact (select_group bs gs b Hno Hg Hb).
    destruct (explained_counts b g Hx) as (Hn & Hbal & _). split; [done |]. split; [done |]. split; [done |].
    intros limit. unfold listDiffs_sql. rewrite E. do 3 f_equal. unfold g, differences_of, sql_select.
    apply List.filter_ext. intros y. by rewrite andb_true_r.
  - intros x Hx. by apply (group_owner bs gs).
Qed.
End Runs.

(** ** Witness: the process dies before it can answer

    A POST places an order, and the process dies between the commit and the response.
    The client sends the same identifier again, with another body, and gets the response it
    has missed. *)

Lemma shop_first_day : first_day (D := Server.lib) Server.shop.
Proof. split; [exact Server.shop_wf | intros w; by split_and! | reflexivity]. Qed.

Definition shop_story (story : list (move (J := Tree.lib))) : option (Site (J := Tree.lib)) :=
  site_run (D := Server.lib) (J := Tree.lib) (O := SignUtil.Plain.lib) (Ro := Paths.router) RepeatableRead
    sample_config sample_files "http://localhost:8080" story (first_start Server.shop).

Definition unanswered_order : list (move (J := Tree.lib)) :=
  Arrive (Http true "/api/v1/orders" (tea_post "x")) :: site_luck 0 10 "900" ++ [Crash].

Definition unanswered : Site (J := Tree.lib) := default (first_start Server.shop) (shop_story unanswered_order).

Lemma shop_happens story : isSome (shop_story story) = true ->
  happens (D := Server.lib) (J := Tree.lib) (O := SignUtil.Plain.lib) (Ro := Paths.router)
    RepeatableRead sample_config sample_files "http://localhost:8080" Server.shop
    (default (first_start Server.shop) (shop_story story)).
Proof.
  intros H. apply (site_run_rtc (D := Server.lib) (J := Tree.lib) (O := SignUtil.Plain.lib) (Ro := Paths.router)
    RepeatableRead sample_config sample_files "http://localhost:8080" story).
  fold (shop_story story). by destruct (shop_story story).
Qed.

Lemma unanswered_story : isSome (shop_story unanswered_order) = true.
Proof. by vm_compute. Qed.

Lemma unanswered_happens : happens (D := Server.lib) (J := Tree.lib) (O := SignUtil.Plain.lib) (Ro := Paths.router)
  RepeatableRead sample_config sample_files "http://localhost:8080" Server.shop unanswered.
Proof. exact (shop_happens _ unanswered_story). Qed.

Lemma site_ordered_once_witness :
  length (t_order (db_now unanswered)) = 1%nat
  /\ exists kept new records,
     t_order (db_now unanswered) = kept ++ new /\ Forall2 order_later [] kept
     /\ t_idempotent (db_now unanswered) = [] ++ records /\ Forall2 (placed (J := Tree.lib) (D := Server.lib)) records new.
Proof.
  split; [by vm_compute |].
  exact (proj1 (site_ordered_once (D := Server.lib) (J := Tree.lib) (O := SignUtil.Plain.lib) (L := Server.lib_laws)
    (Ro := Paths.router) RepeatableRead sample_config sample_files "http://localhost:8080" Server.shop unanswered
    unanswered_happens shop_first_day)).
Defined.

Definition the_order : OrderRow :=
  default (mkOrderRow "" "" 0 0 0 0 0 kPendingPayment 0 None) (head (t_order (db_now unanswered))).

Lemma site_retry_witness :
  or_quantity the_order = 3
  /\ exists o r0 st', order_row (D := Server.lib) o = Some r0 /\ order_later r0 the_order
     /\ serve_order (tea_post "y") (Server.fresh_state (db_now unanswered))
        = (Ret (Some (mkResponse 200 (jwriteCompact (JsonCpp := Tree.lib) (toJson (J := Tree.lib) (ok o "aaaabbbbccccdddd"))))), st')
     /\ committed st' = db_now unanswered.
Proof.
  split; [by vm_compute |].
  assert (Hin : In the_order (t_order (db_now unanswered))) by (vm_compute; by left).
  assert (Hid : or_request_id the_order = "aaaabbbbccccdddd") by (by vm_compute).
  pose proof unanswered_happens as Hh. revert Hh Hin Hid. generalize the_order unanswered. intros r s Hh Hin Hid.
  destruct (site_retry (D := Server.lib) (J := Tree.lib) (O := SignUtil.Plain.lib) (L := Server.lib_laws) (Ro := Paths.router)
    RepeatableRead sample_config sample_files "http://localhost:8080" (E := Server.calm) Server.shop s r
    (Server.fresh_state (db_now s)) (tea_post "y") (tea_req "79") Hh shop_first_day Hin
    ltac:(done) Server.calm_no_fault eq_refl eq_refl ltac:(by vm_compute) ltac:(by rewrite Hid) ltac:(by vm_compute)
    ltac:(by vm_compute) ltac:(eexists; vm_compute; reflexivity)) as (o & r0 & st' & Ho & Hl & Hrun & Hc).
  rewrite Hid in Hrun. exists o, r0, st'. split; [exact Ho |]. split; [exact Hl |]. split; [exact Hrun | exact Hc].
Defined.

(** A day is reconciled: the process dies when both differences are inserted and nothing
    is committed; the next one adds the batch, and a difference is verified. *)
Definition reconciled_day : list (move (J := Tree.lib)) :=
  Arrive (Http true "/api/v1/payment/callback" callback_post) :: site_luck 0 13 "900"
  ++ Arrive (Internal JobDaily) :: site_luck 1 9 "901" ++ Crash :: Arrive (Internal JobDaily) :: site_luck 0 11 "902"
  ++ Arrive (Http true "/api/v1/reconcile/diffs/1/handle" verify_post) :: site_luck 1 2 "".

Definition reconciled : Site (J := Tree.lib) := default (first_start Server.ordered_shop) (site_story reconciled_day).

Lemma site_batches_witness :
  map dr_handle_status (t_reconcile_diff (db_now reconciled)) = [kHandleVerified; kHandlePending]
  /\ forall b, In b (t_reconcile_batch (db_now reconciled)) ->
       br_diff_count b = Z.of_nat (length (differences_of (D := Server.lib) b (t_reconcile_diff (db_now reconciled)))).
Proof.
  split; [by vm_compute |]. intros b Hb.
  destruct (site_batches (D := Server.lib) (J := Tree.lib) (O := SignUtil.Plain.lib) (L := Server.lib_laws)
    (Ro := Paths.router) RepeatableRead sample_config sample_files "http://localhost:8080" Server.ordered_shop reconciled
    (story_happens reconciled_day ltac:(by vm_compute)) ordered_first_day eq_refl eq_refl) as (H & _).
  exact (proj1 (proj2 (H b Hb))).
Defined.

(** The same with a callback: the process dies when the payment is committed, and the
    channel, which has no answer, repeats it. *)
Definition unanswered_callback : list (move (J := Tree.lib)) :=
  Arrive (Http true "/api/v1/payment/callback" callback_post) :: site_luck 0 12 "900" ++ [Crash].

Definition unanswered_payment : Site (J := Tree.lib) := default (first_start Server.ordered_shop) (site_story unanswered_callback).

Definition the_payment : PaymentRow :=
  default (mkPaymentRow "" "" "" "" 0 kPaySuccess 0 "") (head (t_payment (db_now unanswered_payment))).

Lemma unanswered_callback_story : isSome (site_story unanswered_callback) = true.
Proof. by vm_compute. Qed.

Lemma unanswered_payment_happens : happens (D := Server.lib) (J := Tree.lib) (O := SignUtil.Plain.lib) (Ro := Paths.router)
  RepeatableRead sample_config sample_files "http://localhost:8080" Server.ordered_shop unanswered_payment.
Proof. exact (story_happens _ unanswered_callback_story). Qed.

Lemma site_callback_again_witness :
  py_amount the_payment = 5997
  /\ exists st', run_callback sample_callback (Server.fresh_state (db_now unanswered_payment))
     = (Ret (ok (jnull (JsonCpp := Tree.lib)) "ffff0000ffff0000"), st') /\ committed st' = db_now unanswered_payment.
Proof.
  split; [by vm_compute |].
  assert (Hin : In the_payment (t_payment (db_now unanswered_payment))) by (vm_compute; by left).
  assert (Hrow : (py_channel the_payment, py_channel_trade_no the_payment, py_order_no the_payment, py_amount the_payment)
    = ("MOCK", "T100", "132633958813929472", 5997)) by (by vm_compute).
  pose proof unanswered_payment_happens as Hh. revert Hh Hin Hrow. generalize the_payment unanswered_payment. intros p s Hh Hin Hrow.
  injection Hrow as Hch Htn Hno Ham.
  destruct (site_callback_again (D := Server.lib) (J := Tree.lib) (O := SignUtil.Plain.lib) (L := Server.lib_laws) (Ro := Paths.router)
    RepeatableRead sample_config sample_files "http://localhost:8080" (E := Server.calm) Server.ordered_shop s p
    (Server.fresh_state (db_now s)) sample_callback "{}" _ _ _ _ Hh ordered_first_day Hin Server.calm_no_fault eq_refl
    ltac:(split; [done |]; exists "s3cr3t"; by vm_compute)
    ltac:(by rewrite Hch) ltac:(by rewrite Htn) Hno ltac:(rewrite Ham; by vm_compute)
    ltac:(vm_compute; reflexivity) ltac:(vm_compute; reflexivity) ltac:(rewrite Ham; eexists; vm_compute; reflexivity))
    as (st' & Hrun & Hc).
  exists st'. split; [exact Hrun | exact Hc].
Defined.
