(* ===== verification/SiteProgress.v ===== *)
(** * SiteProgress: the installation keeps moving, and comes to rest

    Between two crashes the process is a run of [Workload], so what is proved of the
    requests holds in the installation.  When nothing new arrives, the threads, the
    relay and the consumer go on until all have ended, or a round or a delivery has
    thrown. *)

From stdpp Require Import relations.
From S2P Require Import Prelude MoneyUtil IdGenerator JsonValue Result RequestId BeijingTime SignUtil Models.
From S2P Require Import Database Transaction Daos Invariant Locks Interleaving RelyGuarantee Server OrderService PaymentService Books.
From S2P Require Import Reconcile ReconcileService MqClient MessageRelay NotifyConsumer Controllers Routes System EndToEnd.
From S2P Require Import Concurrency Backoffice Jobs Frontdoor Workload Progress Agents Site SiteSafety.

(** ** The shape of the two agents *)

(** The agent publishes, posts only if it may, and does not undo its own shape. *)
Fixpoint shaped {J : JsonCpp} (publishes posts : bool) {A} (p : agent A) : Prop :=
  match p with
  | Return _ => True
  | Work _ k => forall r, shaped publishes posts (k r)
  | Publish _ _ _ k => publishes = true /\ forall ok, shaped publishes posts (k ok)
  | Post _ k => posts = true /\ forall r, shaped publishes posts (k r)
  end.

Definition slot_shaped {J : JsonCpp} (publishes posts : bool) {A} (sl : slot A) : Prop :=
  match sl with
  | Free => True
  | Ready p => shaped publishes posts p
  | Await _ k => forall r, shaped publishes posts (k r)
  end.

Lemma relay_messages_shaped {J : JsonCpp} messages : shaped true false (relay_messages messages).
Proof. induction messages as [|m rest IH]; [done |]. split; [done |]. intros ok r. exact IH. Qed.

Lemma relay_agent_shaped {J : JsonCpp} : shaped true false relay_agent.
Proof. intros [[| | | | ms | |] | e | |]; try done. apply relay_messages_shaped. Qed.

Lemma notify_reply_shaped {J : JsonCpp} no body ok : shaped false true (notify_reply no body ok).
Proof. by intros [[] | e | |]. Qed.

Lemma notify_posts_shaped {J : JsonCpp} base no orderNo amount : forall fuel attempt,
  shaped false true (notify_posts base fuel attempt no orderNo amount).
Proof.
  induction fuel as [|fuel IH]; intros attempt; [done |]. split; [done |]. intros r.
  destruct (reply_ok r); [apply notify_reply_shaped |]. cbv zeta.
  destruct (kMaxInProcessRetries <? attempt + 1); [apply notify_reply_shaped | apply IH].
Qed.

Lemma process_agent_shaped {J : JsonCpp} base body : shaped false true (process_agent base body).
Proof.
  unfold process_agent. destruct (parse_message body) as [[[[mid no] am]|]|]; [| done | done].
  intros [[| | | | | [n|] |] | e | |]; try done. apply notify_posts_shaped.
Qed.

Section Progress.
Context {D : MySql} {J : JsonCpp} {O : OpenSsl} {L : MySqlLaws} {Ro : Router} (iso : isolation).
Context (customConfig : jvalue) (open_file : string -> option string) (notifyBaseUrl : string).

#[local] Abbreviation site_move := (site_move iso customConfig open_file notifyBaseUrl).
#[local] Abbreviation site_step := (site_step iso customConfig open_file notifyBaseUrl).
#[local] Abbreviation happens := (happens iso customConfig open_file notifyBaseUrl).
#[local] Abbreviation conf_step := (conf_step iso (program customConfig open_file)).

(** ** Between two crashes *)

(** What a move makes of the process: it starts again, or moves on. *)
Lemma site_move_server mv s s' : site_move mv s = Some s' ->
  (mv = Crash /\ server s' = mkConf (db_now s) []) \/ rtc conf_step (server s) (server s').
Proof.
  intros Hmv.
  assert (Hjob : forall A (sl : slot A) w sl', job_move customConfig open_file (server s) sl = Some (w, sl') ->
    rtc conf_step (server s) w).
  { intros A sl w sl'. destruct sl as [| [r | j k | x key b k | q k] | i k]; cbn [job_move]; try done.
    - intros [= <- _]. apply rtc_once, CfArrive.
    - intros H. apply bind_Some in H as (t & _ & H). destruct (th_prog t); try done. by injection H as <- _. }
  destruct mv as [v | i c | | B | n | reply |]; cbn [Site.site_move] in Hmv; [right.. | by left; injection Hmv as <-].
  - destruct (from_outside v); [| done]. injection Hmv as <-. apply rtc_once, CfArrive.
  - apply bind_Some in Hmv as (w & Hw & [= <-]). by eapply rtc_once, CfTurn.
  - destruct (relaying s); try done. by destruct (relay_client _ _); injection Hmv as <-.
  - destruct (relaying s) as [| [[u | e | |] | j k | x key b k | q k] | i k]; try discriminate Hmv;
      try (apply bind_Some in Hmv as ([w sl'] & Hj & [= <-]); by eapply Hjob).
    + by injection Hmv as <-.
    + apply bind_Some in Hmv as (mq & _ & Hmv). destruct (publish _ _ _ _). by injection Hmv as <-.
  - destruct (consuming s); try done. apply bind_Some in Hmv as (m & _ & [= <-]). done.
  - destruct (consuming s) as [| [[u | e | |] | j k | x key b k | q k] | i k]; try discriminate Hmv;
      try (apply bind_Some in Hmv as ([w sl'] & Hj & [= <-]); by eapply Hjob).
    + by injection Hmv as <-.
    + by injection Hmv as <-.
Qed.

Definition running_from (w : Conf visit answer) : Prop := exists d0, db_wf d0 /\ runs iso customConfig open_file d0 w.

Lemma site_steps_runs s s' : rtc site_step s s' -> running_from (server s) -> running_from (server s').
Proof.
  induction 1 as [s | s u s' [mv Hmv] _ IH]; [done |]. intros (d0 & Hd0 & Hr). apply IH.
  destruct (site_move_server mv s u Hmv) as [[_ ->] | Hs].
  - exists (db_now s). split; [| apply rtc_refl]. apply (runs_safe iso customConfig open_file d0 _ Hd0 Hr).
  - exists d0. split; [done |]. unfold runs in *. by etransitivity.
Qed.

(** The process is a run of the services, from the database that the last crash left. *)
Lemma happens_runs d s : happens d s -> first_day d -> running_from (server s).
Proof. intros Hh Hd. apply (site_steps_runs _ _ Hh). exists d. split; [apply Hd | apply rtc_refl]. Qed.

(** ** What the agents may be at *)

(** The relay publishes with a client, and never posts; the consumer never publishes. *)
Definition shape_ok (s : Site) : Prop :=
  slot_shaped true false (relaying s) /\ slot_shaped false true (consuming s)
  /\ match relaying s with
     | Free | Ready (Return _) => True
     | _ => is_Some (mqClient_ s)
     end.

Lemma job_move_shaped publishes posts {A} w (sl : slot A) w' sl' : slot_shaped publishes posts sl ->
  job_move customConfig open_file w sl = Some (w', sl') -> slot_shaped publishes posts sl'.
Proof.
  destruct sl as [| [r | j k | x key b k | q k] | i k]; cbn [job_move]; try done.
  - by intros Hk [= _ <-].
  - intros Hk H. apply bind_Some in H as (t & _ & H). destruct (th_prog t); try done. injection H as _ <-. apply Hk.
Qed.

Lemma job_move_busy {A} w (sl : slot A) w' sl' : job_move customConfig open_file w sl = Some (w', sl') ->
  match sl with Free | Ready (Return _) => False | _ => True end.
Proof. by destruct sl as [| [] |]. Qed.

Lemma site_move_shape mv s s' : site_move mv s = Some s' -> shape_ok s -> shape_ok s'.
Proof.
  intros Hmv (Hr & Hc & Hcl). destruct mv as [v | i c | | B | n | reply |]; cbn [Site.site_move] in Hmv.
  - destruct (from_outside v); [| done]. by injection Hmv as <-.
  - apply bind_Some in Hmv as (w & _ & [= <-]). done.
  - destruct (relaying s); try done.
    destruct (relay_client _ _); injection Hmv as <-; (split; [| split; [done |]]); try done; [apply relay_agent_shaped | by eexists].
  - assert (Hgo : ('(w, sl') ← job_move customConfig open_file (server s) (relaying s);
      Some (set_relay (mqClient_ s) sl' (set_server w s))) = Some s' -> shape_ok s').
    { intros H. apply bind_Some in H as ([w sl'] & Hj & [= <-]).
      pose proof (job_move_busy _ _ _ _ Hj) as Hb. split; [by eapply job_move_shaped | split; [done |]]. cbn.
      destruct (relaying s) as [| [] |]; try done; by destruct sl' as [| [] |]. }
    destruct (relaying s) as [| [[u | e | |] | j k | x key b k | q k] | i k]; try (by apply Hgo).
    + by injection Hmv as <-.
    + apply bind_Some in Hmv as (mq & _ & Hmv). destruct (publish _ _ _ _) as [ok mq']. injection Hmv as <-.
      split; [apply Hr |]. split; [done |]. cbn. destruct (k ok); try done; by eexists.
  - destruct (consuming s); try done. apply bind_Some in Hmv as (m & _ & [= <-]).
    split; [done |]. split; [apply process_agent_shaped | done].
  - assert (Hgo : ('(w, sl') ← job_move customConfig open_file (server s) (consuming s);
      Some (set_consumer sl' (set_server w s))) = Some s' -> shape_ok s').
    { intros H. apply bind_Some in H as ([w sl'] & Hj & [= <-]).
      split; [done |]. split; [by eapply job_move_shaped | done]. }
    destruct (consuming s) as [| [[u | e | |] | j k | x key b k | q k] | i k]; try (by apply Hgo).
    + by injection Hmv as <-.
    + injection Hmv as <-. split; [done |]. split; [apply Hc | done].
  - by injection Hmv as <-.
Qed.

Lemma happens_shape d s : happens d s -> shape_ok s.
Proof.
  intros Hh. unfold Site.happens in Hh. assert (H0 : shape_ok (first_start d)) by done. revert H0.
  induction Hh as [u | u v w [mv Hmv] _ IH]; [done |]. intros H. apply IH. by eapply site_move_shape.
Qed.

(** ** The installation keeps moving *)

(** The relay, or the consumer, has nothing more to do: it is idle, or its last round,
    its last delivery, has thrown. *)
Definition slot_ended {A} (sl : slot A) : Prop :=
  match sl with Free | Ready (Return (Throw _ | Hang | Undefined)) => True | _ => False end.

Definition at_rest (s : Site) : Prop :=
  (forall t, t ∈ cf_threads (server s) -> exists r, th_prog t = Done r)
  /\ slot_ended (relaying s) /\ slot_ended (consuming s).

(** A job that has been given has a thread. *)
Lemma job_move_goes {A} (w : Conf visit answer) (sl : slot A) :
  (forall t, t ∈ cf_threads w -> exists r, th_prog t = Done r) ->
  match sl with Ready (Work _ _) => True | Await i _ => is_Some (cf_threads w !! i) | _ => False end ->
  is_Some (job_move customConfig open_file w sl).
Proof.
  intros Hdone. destruct sl as [| [] | i k]; cbn [job_move]; try done.
  intros [t Ht]. rewrite Ht. cbn. destruct (Hdone t (list_elem_of_lookup_2 _ _ _ Ht)) as [r ->]. by eexists.
Qed.

Lemma bind_is_Some {X Y : Type} (o : option X) (f : X -> option Y) : is_Some o -> (forall x, is_Some (f x)) ->
  is_Some (o ≫= f).
Proof. intros [x ->] Hf. apply Hf. Qed.

Lemma relay_goes s B : shape_ok s -> (forall t, t ∈ cf_threads (server s) -> exists r, th_prog t = Done r) ->
  (forall i k, relaying s = Await i k -> is_Some (cf_threads (server s) !! i)) -> ~ slot_ended (relaying s) ->
  is_Some (site_move (Relay B) s).
Proof.
  intros (Hr & _ & Hcl) Hdone Hth Hne. cbn [Site.site_move].
  destruct (relaying s) as [| [[u | e | |] | j k | x key b k | q k] | i k] eqn:Hsl; try done.
  - apply bind_is_Some; [done |]. intros mq. destruct (publish _ _ _ _). by eexists.
  - by destruct Hr.
  - apply bind_is_Some; [| by intros [w sl]; eexists]. apply job_move_goes; [done |]. by eapply Hth.
Qed.

Lemma consumer_goes s reply : shape_ok s -> (forall t, t ∈ cf_threads (server s) -> exists r, th_prog t = Done r) ->
  (forall i k, consuming s = Await i k -> is_Some (cf_threads (server s) !! i)) -> ~ slot_ended (consuming s) ->
  is_Some (site_move (Consume reply) s).
Proof.
  intros (_ & Hc & _) Hdone Hth Hne. cbn [Site.site_move].
  destruct (consuming s) as [| [[u | e | |] | j k | x key b k | q k] | i k] eqn:Hsl; try done.
  - by destruct Hc.
  - apply bind_is_Some; [| by intros [w sl]; eexists]. apply job_move_goes; [done |]. by eapply Hth.
Qed.

Lemma unfinished (ts : list (Thread visit answer)) : (forall t, t ∈ ts -> exists r, th_prog t = Done r)
  \/ exists t, t ∈ ts /\ forall r, th_prog t <> Done r.
Proof.
  induction ts as [|t ts [IH | (u & Hu & H)]]; [by left; intros t ?%elem_of_nil | | right; exists u; by split; [right |]].
  assert (Hdec : (exists r, th_prog t = Done r) \/ forall r, th_prog t <> Done r)
    by (destruct (th_prog t); first [by left; eexists | by right]).
  destruct Hdec as [Hd | Hd]; [left | right; exists t; by split; [left |]].
  intros u [-> | Hu]%elem_of_cons; [done | by apply IH].
Qed.

(** Something can move. *)
Lemma site_moves_on d s c : happens d s -> first_day d -> ch_ok c = true ->
  (forall t, t ∈ cf_threads (server s) -> th_prog t = Done Hang -> tx_locks (th_tx t) = []) ->
  at_rest s
  \/ (exists i s', site_move (Turn i c) s = Some s')
  \/ (forall B, is_Some (site_move (Relay B) s))
  \/ (forall reply, is_Some (site_move (Consume reply) s)).
Proof.
  intros Hh Hd Hc Hhang. destruct (happens_runs d s Hh Hd) as (d0 & Hd0 & Hr).
  pose proof (happens_shape d s Hh) as Hshape.
  destruct (unfinished (cf_threads (server s))) as [Hdone | Hlive].
  2: { right. left. destruct (threads_move iso customConfig open_file d0 (server s) c Hr Hd0 Hc Hhang Hlive) as (i & w & Hw).
       exists i, (set_server w s). cbn [Site.site_move]. by rewrite Hw. }
  assert (Hdec : forall A (sl : slot A), slot_ended sl \/ ~ slot_ended sl).
  { intros A [| [[] | | |] |]; try (by left); right; intros []. }
  destruct (happens_ok iso customConfig open_file notifyBaseUrl d s Hh Hd) as ([_ _ Hrel Hcon _ _ _ _ _ _] & _).
  destruct (Hdec _ (relaying s)) as [He | Hne].
  2: { right; right; left. intros B. apply relay_goes; try done. intros i k Hsl. specialize (Hrel []).
       rewrite Hsl in Hrel. destruct Hrel as (t & j & d1 & Ht & _). by rewrite Ht. }
  destruct (Hdec _ (consuming s)) as [He' | Hne]; [by left |].
  right; right; right. intros reply. apply consumer_goes; try done. intros i k Hsl.
  rewrite Hsl in Hcon. destruct Hcon as (t & j & d1 & Ht & _). by rewrite Ht.
Qed.

(** C14. The installation never stops in the middle: at every instant some thread can
    send its next command and get its answer, or the relay, or the consumer, can take
    its next step whatever it is answered, unless everything has ended (a round or a
    delivery that threw included) or a thread hangs in [waitNextMs] in the middle of a
    transaction. *)
Theorem site_live d s c : happens d s -> first_day d -> ch_ok c = true ->
  (forall t, t ∈ cf_threads (server s) -> th_prog t = Done Hang -> tx_locks (th_tx t) = []) ->
  at_rest s
  \/ (exists i s', site_move (Turn i c) s = Some s')
  \/ (forall B, is_Some (site_move (Relay B) s))
  \/ (forall reply, is_Some (site_move (Consume reply) s)).
Proof. apply site_moves_on. Qed.

(** ** The installation comes to rest *)

(** A move of what is inside. *)
Definition own_step (s' s : Site) : Prop :=
  exists mv, match mv with Turn _ _ | Relay _ | Consume _ => True | _ => False end /\ site_move mv s = Some s'.

Definition next_slot {A} (sl' sl : slot A) : Prop :=
  match sl with
  | Free => False
  | Ready (Return _) => sl' = Free
  | Ready (Work _ k) => exists i, sl' = Await i k
  | Ready (Publish _ _ _ k) => exists ok, sl' = Ready (k ok)
  | Ready (Post _ k) => exists r, sl' = Ready (k r)
  | Await _ k => exists r, sl' = Ready (k r)
  end.

Lemma next_slot_wf {A} (sl : slot A) : Acc next_slot sl.
Proof.
  assert (Hfree : Acc next_slot (@Free _ A)) by (by constructor).
  assert (Hready : forall p : agent A, Acc next_slot (Ready p)).
  { induction p as [r | j k IH | x key b k IH | q k IH]; constructor; cbn.
    - by intros sl' ->.
    - intros sl' [i ->]. constructor. intros sl' [r ->]. apply IH.
    - intros sl' [ok ->]. apply IH.
    - intros sl' [r ->]. apply IH. }
  destruct sl as [| p | i k]; [done | done |]. constructor. intros sl' [r ->]. apply Hready.
Qed.

Lemma job_move_next {A} w (sl : slot A) w' sl' : job_move customConfig open_file w sl = Some (w', sl') -> next_slot sl' sl.
Proof.
  destruct sl as [| [r | j k | x key b k | q k] | i k]; cbn [job_move]; try done.
  - intros [= _ <-]. by eexists.
  - intros H. apply bind_Some in H as (t & _ & H). destruct (th_prog t); try done. injection H as _ <-. by eexists.
Qed.

(** An own step is one of a thread, of the relay or of the consumer. *)
Lemma own_step_cases s' s : own_step s' s ->
  (relaying s' = relaying s /\ consuming s' = consuming s /\ moves iso (server s') (server s))
  \/ next_slot (relaying s') (relaying s)
  \/ (relaying s' = relaying s /\ next_slot (consuming s') (consuming s)).
Proof.
  intros ([v | i c | | B | n | reply |] & Hown & Hmv); try done; cbn [Site.site_move] in Hmv.
  - left. apply bind_Some in Hmv as (w & Hw & [= <-]). split; [done |]. split; [done |]. by exists i, c.
  - right; left. destruct (relaying s) as [| [[u | e | |] | j k | x key b k | q k] | i k];
      try (by apply bind_Some in Hmv as ([w sl'] & Hj & [= <-]); eapply job_move_next).
    + by injection Hmv as <-.
    + apply bind_Some in Hmv as (mq & _ & Hmv). destruct (publish _ _ _ _) as [ok mq']. injection Hmv as <-. by eexists.
  - right; right. destruct (consuming s) as [| [[u | e | |] | j k | x key b k | q k] | i k];
      try (by apply bind_Some in Hmv as ([w sl'] & Hj & [= <-]); split; [done | eapply job_move_next]).
    + by injection Hmv as <-.
    + injection Hmv as <-. split; [done | by eexists].
Qed.

Lemma own_step_wf s : Acc own_step s.
Proof.
  pose proof (next_slot_wf (relaying s)) as Hr. remember (relaying s) as sl1 eqn:E1. revert s E1.
  induction Hr as [sl1 _ IHr]. intros s E1.
  pose proof (next_slot_wf (consuming s)) as Hc. remember (consuming s) as sl2 eqn:E2. revert s E1 E2.
  induction Hc as [sl2 _ IHc]. intros s E1 E2.
  pose proof (moves_wf iso (server s)) as Hm. remember (server s) as w eqn:E3. revert s E1 E2 E3.
  induction Hm as [w _ IHm]. intros s -> -> ->. constructor.
  intros s' [(H1 & H2 & H3) | [H | (H1 & H)]]%own_step_cases.
  - by eapply (IHm (server s')).
  - by eapply (IHr (relaying s')).
  - by eapply (IHc (consuming s')).
Qed.

Lemma own_step_happens d s s' : happens d s -> own_step s' s -> happens d s'.
Proof. intros Hh (mv & _ & Hmv). eapply rtc_r; [exact Hh | by exists mv]. Qed.

(** A thread hangs in [waitNextMs] in the middle of a transaction. *)
Definition hung (s : Site) : Prop :=
  exists t, t ∈ cf_threads (server s) /\ th_prog t = Done Hang /\ tx_locks (th_tx t) <> [].

Lemma hung_or_not s : hung s \/ forall t, t ∈ cf_threads (server s) -> th_prog t = Done Hang -> tx_locks (th_tx t) = [].
Proof.
  unfold hung. induction (cf_threads (server s)) as [|t ts [(u & Hu & H) | IH]]; [by right; intros t ?%elem_of_nil | |].
  - left. exists u. split; [by right | done].
  - assert (Hdec : (th_prog t = Done Hang /\ tx_locks (th_tx t) <> []) \/ (th_prog t = Done Hang -> tx_locks (th_tx t) = [])).
    { destruct (th_prog t) as [[] | | | | | | | |]; try (by right). destruct (tx_locks (th_tx t)); [by right | by left]. }
    destruct Hdec as [Hh | Hh]; [left; exists t; by split; [left |] | right].
    intros u [-> | Hu]%elem_of_cons; [done | by apply IH].
Qed.

(** With [site_live] and since every program is a finite tree: without a new request,
    tick or delivery the steps of the threads, of the relay and of the consumer lead,
    in whatever order, to where each has ended or hangs outside a transaction, unless
    a thread hangs in a transaction. *)
Theorem site_settles d s : happens d s -> first_day d ->
  Acc own_step s /\ exists s', rtc (flip own_step) s s' /\ (at_rest s' \/ hung s').
Proof.
  intros Hh Hd. split; [apply own_step_wf |].
  induction (own_step_wf s) as [s _ IH].
  assert (Hgo : forall s1, own_step s1 s -> exists s', rtc (flip own_step) s s' /\ (at_rest s' \/ hung s')).
  { intros s1 H1. destruct (IH s1 H1) as (s' & Hs' & Hend); [by eapply own_step_happens |].
    exists s'. split; [by eapply rtc_l | done]. }
  destruct (hung_or_not s) as [Hhung | Hfree]; [exists s; split; [apply rtc_refl | by right] |].
  destruct (site_moves_on d s (mkChance 0 (IdOk "") 0 true true CommitApplied) Hh Hd eq_refl Hfree)
    as [Hrest | [(i & s1 & Hs1) | [Hr | Hc]]].
  - exists s. split; [apply rtc_refl | by left].
  - apply (Hgo s1). eexists. split; [| exact Hs1]. done.
  - destruct (Hr willing) as [s1 Hs1]. apply (Hgo s1). eexists. split; [| exact Hs1]. done.
  - destruct (Hc (mkHttpReply false None)) as [s1 Hs1]. apply (Hgo s1). eexists. split; [| exact Hs1]. done.
Qed.
End Progress.

(** ** Witnesses: the moment before the crash, and the day after *)

Definition interrupted : Site (J := Tree.lib) := default (first_start Server.ordered_shop) (site_story before_the_crash).

Lemma interrupted_happens : happens (D := Server.lib) (J := Tree.lib) (O := SignUtil.Plain.lib) (Ro := Paths.router)
  RepeatableRead sample_config sample_files "http://localhost:8080" Server.ordered_shop interrupted.
Proof.
  apply story_happens. by vm_compute.
Qed.

(** Neither the relay nor the consumer has ended. *)
Definition busy_slot {A} (sl : slot (J := Tree.lib) A) : bool :=
  match sl with Free | Ready (Return (Throw _ | Hang | Undefined)) => false | _ => true end.

Definition no_hang (s : Site (J := Tree.lib)) : bool :=
  forallb (fun t => match th_prog t with Done Hang => false | _ => true end) (cf_threads (server s)).

Lemma no_hang_spec s : no_hang s = true ->
  forall t, t ∈ cf_threads (server s) -> th_prog t = Done Hang -> tx_locks (th_tx t) = [].
Proof.
  unfold no_hang. rewrite forallb_forall. intros H t Ht Hp. apply list_elem_of_In, H in Ht. by rewrite Hp in Ht.
Qed.

Lemma busy_not_at_rest s : busy_slot (relaying s) = true -> ~ at_rest s.
Proof. intros Hb (_ & Hr & _). by destruct (relaying s) as [| [[] | | |] |]. Qed.

Lemma site_live_witness :
  (busy_slot (relaying interrupted), busy_slot (consuming interrupted)) = (true, true)
  /\ ~ at_rest interrupted
  /\ ((exists i s', site_move (D := Server.lib) (J := Tree.lib) (O := SignUtil.Plain.lib) (Ro := Paths.router) RepeatableRead
         sample_config sample_files "http://localhost:8080" (Turn i (luck "1")) interrupted = Some s')
      \/ (forall B, is_Some (site_move (D := Server.lib) (J := Tree.lib) (O := SignUtil.Plain.lib) (Ro := Paths.router)
           RepeatableRead sample_config sample_files "http://localhost:8080" (Relay B) interrupted))
      \/ (forall reply, is_Some (site_move (D := Server.lib) (J := Tree.lib) (O := SignUtil.Plain.lib) (Ro := Paths.router)
           RepeatableRead sample_config sample_files "http://localhost:8080" (Consume reply) interrupted))).
Proof.
  assert (Hb : busy_slot (relaying interrupted) = true) by (by vm_compute).
  assert (Hn : no_hang interrupted = true) by (by vm_compute).
  split; [by vm_compute |]. split; [exact (busy_not_at_rest _ Hb) |].
  destruct (site_live (D := Server.lib) (J := Tree.lib) (O := SignUtil.Plain.lib) (L := Server.lib_laws) (Ro := Paths.router)
    RepeatableRead sample_config sample_files "http://localhost:8080" Server.ordered_shop interrupted (luck "1")
    interrupted_happens ordered_first_day eq_refl (no_hang_spec _ Hn)) as [H | H]; [destruct (busy_not_at_rest _ Hb H) | exact H].
Defined.

Lemma site_settles_witness : length (cf_threads (server restarted)) = 3%nat
  /\ exists s', rtc (flip (own_step (D := Server.lib) (J := Tree.lib) (O := SignUtil.Plain.lib) (Ro := Paths.router) RepeatableRead
         sample_config sample_files "http://localhost:8080")) restarted s' /\ (at_rest s' \/ hung s').
Proof.
  split; [by vm_compute |].
  exact (proj2 (site_settles (D := Server.lib) (J := Tree.lib) (O := SignUtil.Plain.lib) (L := Server.lib_laws) (Ro := Paths.router)
    RepeatableRead sample_config sample_files "http://localhost:8080" Server.ordered_shop restarted
    restarted_happens ordered_first_day)).
Defined.
