(* ===== verification/SiteAnswers.v ===== *)
(** * SiteAnswers: what has been answered stands

    A success that a client, the channel or an administrator has been told is never
    undone: whatever happens afterwards, crashes included, the order, the payment, the
    batch or the handled difference is in the database. *)

From stdpp Require Import relations.
From S2P Require Import Prelude MoneyUtil IdGenerator JsonValue Result RequestId BeijingTime SignUtil Models.
From S2P Require Import Database Transaction Daos Invariant Locks Interleaving RelyGuarantee Server OrderService PaymentService Books.
From S2P Require Import Reconcile ReconcileService MqClient MessageRelay NotifyConsumer Controllers Routes System EndToEnd.
From S2P Require Import Concurrency Backoffice Jobs Frontdoor Workload Agents Site SiteSafety SiteRecords SiteProgress.

(** ** What an answer says *)

Section Stands.
Context {D : MySql} {J : JsonCpp}.

(** The order [o], as it was announced, is the row [r] of the database. *)
Definition announced (o : Order) (r : OrderRow) (d : Db) : Prop :=
  In r (t_order d) /\ exists r0, order_row o = Some r0 /\ order_later r0 r.

(** What a success says of the database: the order is there, the order of the callback is
    paid, the difference is handled the way it was asked, the batch of the day is there.
    Failures say nothing.  The reply is that of the job: an order is not answered with
    the reply of a callback.  Only the jobs of the outbox and of the timer have no client. *)
Definition stands (j : job) (rep : reply) (d : Db) : Prop :=
  match j, rep with
  | JobOrder req, ROrder (kExecuted res) => isOk res = true ->
      exists o r, res = ok o (cr_requestId req) /\ or_request_id r = cr_requestId req /\ announced o r d
  | JobOrder req, ROrder (kCached body) =>
      exists o r, body = response_snapshot (ok o (or_request_id r))
        /\ sql_eq (or_request_id r) (cr_requestId req) = true /\ announced o r d
  | JobCallback req _, RCallback res => isOk res = true ->
      exists o, In o (t_order d) /\ sql_eq (or_order_no o) (cb_orderNo req) = true /\ or_status o = kPaid
  | JobHandle id action _, RHandle res => isOk res = true ->
      exists s x, action_status action = Some s /\ In x (t_reconcile_diff d) /\ dr_id x = id /\ dr_handle_status x = s
  | JobRun billDate, RRun res => isOk res = true ->
      exists batch b, res = ok (batch_data batch) billDate /\ batch_row batch = Some b /\ In b (t_reconcile_batch d)
        /\ b_billDate batch = billDate
  | JobOrder _, _ | JobCallback _ _, _ | JobHandle _ _ _, _ | JobRun _, _ => False
  | JobScan, _ | JobDelivery _ _, _ | JobNotify _ _ _, _ | JobReply _ _ _, _ | JobDaily, _ => True
  end.

Lemma announced_later o r d d' : later d d' -> announced o r d ->
  exists r', announced o r' d' /\ or_request_id r' = or_request_id r.
Proof.
  intros Hl [Hin (r0 & Ho & H0)]. destruct (later_order _ _ Hl r Hin) as (r' & Hin' & Hr').
  exists r'. split; [| by apply order_later_request]. split; [done |]. exists r0. split; [done | by etransitivity].
Qed.

Lemma action_status_handled action s : action_status action = Some s -> s <> kHandlePending.
Proof. unfold action_status. by repeat case_match; intros [= <-]. Qed.

Lemma stands_later j rep d d' : later d d' -> stands j rep d -> stands j rep d'.
Proof.
  intros Hl. destruct j as [req | req raw | | msg ok' | mid no url | no bytes success | id action remark | billDate |],
    rep as [[res | cached] | res | res | res | | |]; cbn [stands]; try done.
  - intros H Hok. destruct (H Hok) as (o & r & -> & Hr & Ha). destruct (announced_later o r d d' Hl Ha) as (r' & Ha' & E).
    exists o, r'. rewrite E. done.
  - intros (o & r & -> & Hr & Ha). destruct (announced_later o r d d' Hl Ha) as (r' & Ha' & E).
    exists o, r'. rewrite E. done.
  - intros H Hok. destruct (H Hok) as (o & Hin & Hno & Hp). exists o. split; [by eapply paid_later | done].
  - intros H Hok. destruct (H Hok) as (s & x & Hs & Hin & Hid & Hh).
    destruct (later_diff _ _ Hl x Hin) as (y & Hy & Hyid & Hxy). exists s, y. split; [done |]. split; [done |].
    split; [congruence |]. destruct Hxy as [-> | Hp]; [done |]. destruct (action_status_handled _ _ Hs). congruence.
  - intros H Hok. destruct (H Hok) as (batch & b & -> & Hb & Hin & Hd). exists batch, b.
    destruct (later_batch _ _ Hl b Hin) as (b' & Hin' & <-). done.
Qed.
End Stands.

(** ** A success is about what is there *)

Section Ends.
Context {D : MySql} {J : JsonCpp} {Ov : Oversight} {O : OpenSsl} {L : MySqlLaws}.
Context (customConfig : jvalue) (open_file : string -> option string).

(** Every record of idempotency is of an order. *)
Definition recorded (d : Db) : Prop := forall x, In x (t_idempotent d) -> exists r, In r (t_order d) /\ placed x r.

Lemma order_effect_announced req o d d' : order_effect req o d d' ->
  exists r, or_request_id r = cr_requestId req /\ announced o r d'.
Proof.
  intros [d0 t1 p t2 no ms orow irow Hq Ht Hid Hs Hst oo Hrow Hc Hi Hist Hb Hf].
  pose proof (order_row_inv _ _ Hrow) as (_ & Erid & _). exists orow. split; [exact Erid |].
  split; [cbn; apply in_app_iff; right; by left |]. exists orow. split; [done | reflexivity].
Qed.

Lemma payment_effect_paid req raw d d' : payment_effect req raw d d' ->
  exists o, In o (t_order d') /\ sql_eq (or_order_no o) (cb_orderNo req) = true /\ or_status o = kPaid.
Proof.
  intros [d0 o1 o o2 a1 a a2 amount now now' cbt pno mid ex rk py Hto Hno Hpend Hamt Htot Hpos
      Hta Hu Hst Hbal Htime Hpy Hpc fr Hfc Hm].
  exists (paid_row now o). split; [cbn; apply in_app_iff; right; by left | done].
Qed.

Lemma already_processed_paid req d : db_wf d -> ledger_inv d -> already_processed req d ->
  exists o, In o (t_order d) /\ sql_eq (or_order_no o) (cb_orderNo req) = true /\ or_status o = kPaid.
Proof.
  intros Hwf Hl [(p & Hin & _ & _ & Hno) | H]; [| exact H].
  destruct (payment_order d p Hwf Hl Hin) as (o & Ho & Hon & Hp & _). exists o. by rewrite <- Hno.
Qed.

Lemma ends_stand j rep cs d : db_wf d -> ledger_inv d -> recorded d -> (forall c, c ∈ cs -> later c.2 d) ->
  job_ends customConfig open_file j (Ret rep) cs d -> stands j rep d.
Proof.
  intros Hwf Hl Hrec Hpast. destruct j as [req | req raw | | msg ok' | mid no url | no bytes success | id action remark | billDate |],
    rep as [[res | cached] | res | res | res | | |]; cbn [job_ends stands]; try done.
  - cbn [order_ends]. intros H Hok. rewrite Hok in H. destruct H as (o & -> & d0 & d1 & -> & Heff).
    destruct (order_effect_announced _ _ _ _ Heff) as (r & Hr & Ha).
    destruct (announced_later o r d1 d) as (r' & Ha' & E); [by apply (Hpast (d0, d1)); left | done |].
    exists o, r'. by rewrite E.
  - cbn [order_ends]. intros (_ & x & Hx & Hid & _ & ->). destruct (Hrec x Hx) as (r & Hr & E & _ & o & r0 & Ho & H0 & Hb).
    exists o, r. rewrite Hb, <- E. split; [done |]. split; [done |]. split; [done | by exists r0].
  - cbn [callback_ends]. intros H Hok. rewrite Hok in H.
    destruct H as (_ & [(_ & _ & Ha) | (_ & d0 & d1 & -> & Heff)]); [by apply already_processed_paid |].
    destruct (payment_effect_paid _ _ _ _ Heff) as (o & Hin & Hno & Hp). exists o. split; [| done].
    eapply paid_later; [exact Hin | by apply (Hpast (d0, d1)); left | done].
  - cbn [handle_ends]. intros H Hok. rewrite Hok in H. destruct H as (s & (before & d0 & d1 & -> & _ & Heff) & _).
    assert (Hd1 : later d1 d) by (apply (Hpast (d0, d1)), elem_of_app; right; by left).
    eapply (stands_later (JobHandle id action remark) (RHandle res) d1 d Hd1); [| done]. intros _.
    destruct Heff as [s d0 t1 x t2 now Ha Ht Hid Hp]. exists s, (handled s remark now x).
    split; [done |]. split; [cbn; apply in_app_iff; right; by left | done].
  - cbn [run_ends]. intros H Hok. rewrite Hok in H.
    destruct H as (content & channelRows & batch & _ & _ & Hres & e & s & d0 & d1 & localRows & -> & _ & _ & _ & Heff).
    assert (Hd1 : later d1 d) by (apply (Hpast (d0, d1)); right; by left).
    eapply (stands_later (JobRun billDate) (RRun res) d1 d Hd1); [| done]. intros _. rewrite Hres.
    destruct Heff as [d0 no brow drows classified batch Hb Hc Hd]. exists batch, brow.
    split; [done |]. split; [done |]. split; [cbn; apply in_app_iff; right; by left | done].
Qed.
End Ends.

(** ** The property *)

Section Runs.
Context {D : MySql} {J : JsonCpp} {O : OpenSsl} {L : MySqlLaws} {Ro : Router} (iso : isolation).
Context (customConfig : jvalue) (open_file : string -> option string) (notifyBaseUrl : string).

#[local] Abbreviation site_step := (site_step iso customConfig open_file notifyBaseUrl).
#[local] Abbreviation happens := (happens iso customConfig open_file notifyBaseUrl).

(** The rows of an instant are there, in a later version, at every later one. *)
Lemma happens_later d s s' : happens d s -> first_day d -> rtc site_step s s' -> later (db_now s) (db_now s').
Proof.
  intros Hh Hd Hr. eapply (commits_later (Ov := in_the_end s')).
  exact (proj2 (happens_ok_until iso customConfig open_file notifyBaseUrl d s s' Hh Hd Hr)).
Qed.

Lemma happens_recorded d s : happens d s -> first_day d -> t_idempotent d = [] -> recorded (db_now s).
Proof.
  intros Hh Hd Hnone x Hx. destruct (happens_ok _ _ _ _ d s Hh Hd) as (_ & Hr & _).
  apply commits_records in Hr as (kept & records & gs & E & _ & E' & Hg%remembers_rows). cbn in *.
  rewrite Hnone in E'. cbn in E'. rewrite E' in Hx. destruct (Forall2_In_l _ _ _ x Hg Hx) as (r & Hr & Hp).
  exists r. split; [| done]. rewrite E. apply in_app_iff. by right.
Qed.

(** What the job of a thread has answered is true now. *)
Lemma answers_stand d s t j rep : happens d s -> first_day d -> t_idempotent d = [] ->
  t ∈ cf_threads (server s) ->
  job_ends customConfig open_file j (Ret rep) (th_commits t) (db_now s) -> stands j rep (db_now s).
Proof.
  intros Hh Hd Hnone Ht Hends. destruct (happens_ok _ _ _ _ d s Hh Hd) as ([[Hwf _] _ _ _ _ _ _ _ _] & _ & Hl).
  apply (ends_stand customConfig open_file j rep (th_commits t)); [done.. | by eapply happens_recorded | | exact Hends].
  intros c Hc. destruct (happens_runs _ _ _ _ d s Hh Hd) as (d0 & Hd0 & Hruns).
  destruct (runs_history _ _ _ d0 _ Hruns Hd0) as [Hpast _].
  apply list_elem_of_lookup in Ht as [i Hi]. eapply commits_later. by apply (Hpast i t c Hi Hc).
Qed.

(** C7. What has been answered stands.  When a thread of the server has ended - a request
    over HTTP with a response, or one of the server's own jobs - what a success of
    its job says is true of the database at that moment and at every later one, through
    all interleavings, failures and crashes: the order that was announced, with those
    bytes or executed anew, is there; the order of the callback is paid; the difference is handled
    as the administrator asked; the batch of the day is there.  A response over HTTP is
    that of such a job, or of a request that asked for none. *)
Theorem site_durable d s s' t r : happens d s -> first_day d -> t_idempotent d = [] -> rtc site_step s s' ->
  t ∈ cf_threads (server s) -> th_prog t = Done r ->
  match th_request t, r with
  | Http running path req, Ret (Response (Some resp)) =>
      match requested customConfig open_file running path req with
      | Some j => exists rep, resp = render rep /\ stands j rep (db_now s')
      | None => idle (th_commits t)
      end
  | Internal j, Ret (Done_job rep) => stands j rep (db_now s')
  | _, _ => True
  end.
Proof.
  intros Hh Hd Hnone Hr Ht Hp. pose proof (happens_later d s s' Hh Hd Hr) as Hlater.
  destruct (happens_runs _ _ _ _ d s Hh Hd) as (d0 & Hd0 & Hruns).
  destruct (runs_safe _ _ _ d0 _ Hd0 Hruns) as (_ & _ & Hends). specialize (Hends t r Ht Hp).
  pose proof (fun j rep => answers_stand d s t j rep Hh Hd Hnone Ht) as Hstand.
  destruct (th_request t) as [j | running path req], r as [[rep | [resp|]] | e | |]; try done; cbn [visit_ends] in Hends.
  - eapply stands_later; [exact Hlater | by apply Hstand].
  - unfold http_ends, answered in Hends. destruct (requested _ _ _ _ _) as [j|]; [| by destruct Hends].
    destruct Hends as ([rep | e | |] & Hends & E); try discriminate E. injection E as ->.
    exists rep. split; [done |]. eapply stands_later; [exact Hlater | by apply Hstand].
Qed.
End Runs.

(** ** Witness: an order, a crash, and the same order again *)

Definition answered_order : list (move (J := Tree.lib)) :=
  Arrive (Http true "/api/v1/orders" (tea_post "x")) :: site_luck 0 11 "900".

Definition asked_again : list (move (J := Tree.lib)) :=
  Crash :: Arrive (Http true "/api/v1/orders" (tea_post "y")) :: site_luck 0 5 "".

Definition served : Site (J := Tree.lib) := default (first_start Server.shop) (shop_story answered_order).

Definition served_again : Site (J := Tree.lib) := default served
  (site_run (D := Server.lib) (J := Tree.lib) (O := SignUtil.Plain.lib) (Ro := Paths.router) RepeatableRead
    sample_config sample_files "http://localhost:8080" asked_again served).

(** The order that a thread was asked for, and its response. *)
Definition order_served (t : Thread (visit (J := Tree.lib)) (answer (J := Tree.lib))) : option (CreateOrderReq * HttpResponse) :=
  match th_request t, th_prog t with
  | Http running path req, Done (Ret (Response (Some resp))) =>
      match requested (J := Tree.lib) (O := SignUtil.Plain.lib) (D := Server.lib) (Ro := Paths.router)
        sample_config sample_files running path req with
      | Some (JobOrder oreq) => Some (oreq, resp)
      | _ => None
      end
  | _, _ => None
  end.

Lemma order_served_spec t oreq resp : order_served t = Some (oreq, resp) -> exists running path req,
  th_request t = Http running path req /\ th_prog t = Done (Ret (Response (Some resp)))
  /\ requested (J := Tree.lib) (O := SignUtil.Plain.lib) (D := Server.lib) (Ro := Paths.router)
       sample_config sample_files running path req = Some (JobOrder oreq).
Proof.
  unfold order_served. destruct (th_request t) as [|running path req]; [done |].
  destruct (th_prog t) as [[[|[resp'|]] | | |] | | | | | | | |]; try done.
  destruct (requested _ _ _ _ _) as [[]|] eqn:E; try done. intros [= -> ->]. by exists running, path, req.
Qed.

Lemma served_happens : happens (D := Server.lib) (J := Tree.lib) (O := SignUtil.Plain.lib) (Ro := Paths.router)
  RepeatableRead sample_config sample_files "http://localhost:8080" Server.shop served.
Proof. apply shop_happens. by vm_compute. Qed.

Lemma again_runs story s : isSome (site_run (D := Server.lib) (J := Tree.lib) (O := SignUtil.Plain.lib) (Ro := Paths.router)
    RepeatableRead sample_config sample_files "http://localhost:8080" story s) = true ->
  rtc (site_step (D := Server.lib) (J := Tree.lib) (O := SignUtil.Plain.lib) (Ro := Paths.router)
    RepeatableRead sample_config sample_files "http://localhost:8080") s
    (default s (site_run (D := Server.lib) (J := Tree.lib) (O := SignUtil.Plain.lib) (Ro := Paths.router)
      RepeatableRead sample_config sample_files "http://localhost:8080" story s)).
Proof.
  intros H. apply (site_run_rtc (D := Server.lib) (J := Tree.lib) (O := SignUtil.Plain.lib) (Ro := Paths.router)
    RepeatableRead sample_config sample_files "http://localhost:8080" story).
  by destruct (site_run _ _ _ _ story s).
Qed.

Lemma served_again_later : rtc (site_step (D := Server.lib) (J := Tree.lib) (O := SignUtil.Plain.lib) (Ro := Paths.router)
  RepeatableRead sample_config sample_files "http://localhost:8080") served served_again.
Proof. apply again_runs. by vm_compute. Qed.

(** The first response stands after the crash, and the second one has its bytes. *)
Lemma site_durable_witness :
  map (fun t => resp_body ∘ snd <$> order_served t) (cf_threads (server served_again))
  = map (fun t => resp_body ∘ snd <$> order_served t) (cf_threads (server served))
  /\ exists resp rep, statusCode resp = 200 /\ resp = render (J := Tree.lib) rep
     /\ stands (D := Server.lib) (J := Tree.lib) (JobOrder (tea_req "78")) rep (db_now served_again).
Proof.
  split; [by vm_compute |].
  assert (Hall : map (fun t => (fun x => (x.1, statusCode x.2)) <$> order_served t) (cf_threads (server served))
    = [Some (tea_req "78", 200)]) by (by vm_compute).
  pose proof served_happens as Hh. pose proof served_again_later as Hr. revert Hh Hr Hall.
  generalize served served_again. intros s s' Hh Hr Hall.
  destruct (cf_threads (server s)) as [|t [|]] eqn:Hts; try done. injection Hall as Hall.
  destruct (order_served t) as [[oreq resp]|] eqn:Ho; [| done]. injection Hall as -> Hcode.
  apply order_served_spec in Ho as (running & path & req & Hq & Hp & Hreq).
  pose proof (site_durable (D := Server.lib) (J := Tree.lib) (O := SignUtil.Plain.lib) (L := Server.lib_laws) (Ro := Paths.router)
    RepeatableRead sample_config sample_files "http://localhost:8080" Server.shop s s' t _ Hh shop_first_day eq_refl Hr
    ltac:(rewrite Hts; by left) Hp) as H.
  rewrite Hq, Hreq in H. destruct H as (rep & -> & H). by exists (render rep), rep.
Defined.
