(* ===== verification/Recovery.v ===== *)
(** * Recovery: what a restart mends

    Whatever has happened - failures, lost replies, crashes in the middle of anything -
    an idle or restarted installation with a healthy broker, database and merchant
    gets every pending message of the outbox to the broker, and every message the
    broker has confirmed to the merchant.  Two things stay lost, and the theorem says
    which: the messages that had been given up, and those that the consumer had
    recorded without telling the merchant. *)

From stdpp Require Import relations.
From S2P Require Import Prelude MoneyUtil IdGenerator JsonValue Result RequestId BeijingTime SignUtil Models.
From S2P Require Import Database Transaction Daos Invariant Locks Interleaving RelyGuarantee Server OrderService PaymentService Books.
From S2P Require Import Reconcile ReconcileService MqClient MessageRelay NotifyConsumer Controllers Routes System EndToEnd.
From S2P Require Import Concurrency Backoffice Jobs Frontdoor Workload Progress Alone Agents Site SiteSafety SiteProgress.

(** ** A thread among threads that have ended *)

(** The commands of a thread, one after the other, when nobody holds a lock. *)
Fixpoint solo {Q A} (iso : isolation) (luck : list chance) (d : Db) (t : Thread Q A) : option (Db * Thread Q A) :=
  match luck with
  | [] => Some (d, t)
  | c :: luck' => '(d', t') ← thread_step iso c [] d t; solo iso luck' d' t'
  end.

Definition ended {Q A} (t : Thread Q A) : Prop := (exists r, th_prog t = Done r) /\ tx_locks (th_tx t) = [].

Section Last.
Context (iso : isolation) {Q A : Type}.
Implicit Types (ts : list (Thread Q A)) (t : Thread Q A).

Lemma held_by_ended ts t : Forall ended ts -> held_by_others (length ts) (ts ++ [t]) = [].
Proof.
  intros H. unfold held_by_others. rewrite take_app_length, drop_ge, app_nil_r by (rewrite length_app; cbn; lia).
  induction H as [|u ts [_ Hu] _ IH]; [done |]. cbn. by rewrite Hu.
Qed.

Lemma turn_last c d ts t d' t' : Forall ended ts -> thread_step iso c [] d t = Some (d', t') ->
  turn iso (length ts) c (mkConf d (ts ++ [t])) = Some (mkConf d' (ts ++ [t'])).
Proof.
  intros Hts Hstep. unfold turn. cbn [cf_db cf_threads].
  rewrite list_lookup_middle by done. cbn [mbind option_bind].
  rewrite held_by_ended, Hstep by done. cbn [mbind option_bind]. f_equal. f_equal.
  by rewrite insert_app_r_alt, Nat.sub_diag by lia.
Qed.
End Last.

Section Recovery.
Context {D : MySql} {J : JsonCpp} {O : OpenSsl} {L : MySqlLaws} {Ro : Router} (iso : isolation).
Context (customConfig : jvalue) (open_file : string -> option string) (notifyBaseUrl : string).

#[local] Abbreviation program := (program customConfig open_file).
#[local] Abbreviation site_move := (site_move iso customConfig open_file notifyBaseUrl).
#[local] Abbreviation site_step := (site_step iso customConfig open_file notifyBaseUrl).
#[local] Abbreviation happens := (happens iso customConfig open_file notifyBaseUrl).

(** What the merchant answers. *)
Context (body : string).

Definition thanks : HttpReply := mkHttpReply true (Some (200, body)).

(** ** Healthy moves *)

(** Statements execute, commits are applied, the broker accepts, the merchant answers
    200; nothing arrives and nothing crashes. *)
Definition healthy (mv : move) : Prop :=
  match mv with
  | Turn _ c => ch_ok c = true /\ ch_fate c = CommitApplied
  | Relay B => B = willing
  | Consume reply => reply = thanks
  | Tick | Deliver _ => True
  | Arrive _ | Crash => False
  end.

Definition mend_step (s s' : Site) : Prop := exists mv, healthy mv /\ site_move mv s = Some s'.

Lemma mend_once mv s s' : healthy mv -> site_move mv s = Some s' -> rtc mend_step s s'.
Proof. intros H Hs. apply rtc_once. by exists mv. Qed.

Lemma mend_happens d s s' : happens d s -> rtc mend_step s s' -> happens d s'.
Proof.
  intros Hh Hr. unfold Site.happens in *. etransitivity; [exact Hh |].
  eapply rtc_subrel; [| exact Hr]. intros u v (mv & _ & H). by exists mv.
Qed.

(** Nothing is in progress. *)
Record idle (s : Site) : Prop := {
  idle_relay : relaying s = Free;
  idle_consumer : consuming s = Free;
  idle_threads : Forall ended (cf_threads (server s))
}.

Lemma crash_idle s s' : site_move Crash s = Some s' -> idle s'.
Proof. intros [= <-]. by split; [| | constructor]. Qed.

(** ** A job of an agent *)

(** A job that a thread completes, when nobody is in its way. *)
Definition job_does (j : job) (d : Db) (rep : reply) (d' : Db) : Prop :=
  exists luck t', Forall (fun c => ch_ok c = true /\ ch_fate c = CommitApplied) luck
    /\ solo iso luck d (mkThread (Internal j) (program (Internal j)) NoTx []) = Some (d', t')
    /\ th_prog t' = Done (Ret (Done_job rep)) /\ tx_locks (th_tx t') = [].

Lemma threads_solo luck : forall s d ts t d' t', Forall (fun c => ch_ok c = true /\ ch_fate c = CommitApplied) luck ->
  Forall ended ts -> solo iso luck d t = Some (d', t') ->
  rtc mend_step (set_server (mkConf d (ts ++ [t])) s) (set_server (mkConf d' (ts ++ [t'])) s).
Proof.
  induction luck as [|c luck IH]; intros s d ts t d' t' Hl Hts; cbn [solo]; [by intros [= <- <-] |].
  apply Forall_cons in Hl as [Hc Hl]. intros H. apply bind_Some in H as ([d1 t1] & Hstep & H).
  etransitivity; [| by eapply IH]. apply (mend_once (Turn (length ts) c)); [done |].
  cbn [Site.site_move set_server server]. by rewrite (turn_last iso c d ts t d1 t1 Hts Hstep).
Qed.

Lemma last_thread {X} (ts : list X) t : (ts ++ [t]) !! length ts = Some t.
Proof. by apply list_lookup_middle. Qed.

(** The configuration when a job has been done. *)
Lemma job_turns w s j d' rep : Forall ended (cf_threads w) -> job_does j (cf_db w) rep d' ->
  exists t', ended t' /\ th_prog t' = Done (Ret (Done_job rep))
    /\ rtc mend_step (set_server (arrive program (Internal j) w) s)
         (set_server (mkConf d' (cf_threads w ++ [t'])) s).
Proof.
  intros Hts (luck & t' & Hl & Hsolo & Hp & Hx). exists t'. split; [by split; [eexists |] |]. split; [done |].
  unfold arrive. by eapply threads_solo.
Qed.

(** The slot that waits for the last thread goes on when the thread has ended. *)
Lemma job_move_last {A} d ts t rep (k : outcome reply -> agent A) : th_prog t = Done (Ret (Done_job rep)) ->
  job_move customConfig open_file (mkConf d (ts ++ [t])) (Await (length ts) k)
  = Some (mkConf d (ts ++ [t]), Ready (k (Ret rep))).
Proof. intros Hp. cbn [job_move cf_threads]. rewrite last_thread. cbn [mbind option_bind]. by rewrite Hp. Qed.

Lemma relay_job s j k rep d' : Forall ended (cf_threads (server s)) -> relaying s = Ready (Work j k) ->
  job_does j (db_now s) rep d' ->
  exists ts, Forall ended ts
    /\ rtc mend_step s (set_relay (mqClient_ s) (Ready (k (Ret rep))) (set_server (mkConf d' ts) s)).
Proof.
  intros Hts Hsl Hj.
  destruct (job_turns (server s) (set_relay (mqClient_ s) (Await (length (cf_threads (server s))) k) s) j d' rep Hts Hj)
    as (t' & Ht' & Hp & Hr). exists (cf_threads (server s) ++ [t']).
  split; [by apply Forall_app; split; [| apply Forall_singleton] |].
  etransitivity; [| etransitivity; [exact Hr |]].
  - apply (mend_once (Relay willing)); [done |]. cbn [Site.site_move]. by rewrite Hsl.
  - apply (mend_once (Relay willing)); [done |]. cbn [Site.site_move relaying set_server set_relay server].
    by rewrite (job_move_last _ _ _ _ _ Hp).
Qed.

Lemma consumer_job s j k rep d' : Forall ended (cf_threads (server s)) -> consuming s = Ready (Work j k) ->
  job_does j (db_now s) rep d' ->
  exists ts, Forall ended ts
    /\ rtc mend_step s (set_consumer (Ready (k (Ret rep))) (set_server (mkConf d' ts) s)).
Proof.
  intros Hts Hsl Hj.
  destruct (job_turns (server s) (set_consumer (Await (length (cf_threads (server s))) k) s) j d' rep Hts Hj)
    as (t' & Ht' & Hp & Hr). exists (cf_threads (server s) ++ [t']).
  split; [by apply Forall_app; split; [| apply Forall_singleton] |].
  etransitivity; [| etransitivity; [exact Hr |]].
  - apply (mend_once (Consume thanks)); [done |]. cbn [Site.site_move]. by rewrite Hsl.
  - apply (mend_once (Consume thanks)); [done |]. cbn [Site.site_move consuming set_server set_consumer server].
    by rewrite (job_move_last _ _ _ _ _ Hp).
Qed.

(** ** What the jobs of the relay and of the consumer do *)

Definition good (now : Z) (id : string) : chance := mkChance 0 (IdOk id) now true true CommitApplied.

Lemma job_scans now d : job_does JobScan d (RScan (map message_of_row (scanned now d))) d.
Proof. exists [good now ""]. eexists. split; [by apply Forall_singleton |]. by split_and!. Qed.

Lemma sql_set_total {R : Type} (p : R -> bool) g t : sql_set p (fun r => Some (g r)) t = Some (map (fun r => if p r then g r else r) t).
Proof. induction t as [|r t IH]; [done |]. cbn. destruct (p r); cbn; by rewrite IH. Qed.

(** The statement of [markAcked], on a row. *)
Definition ack_row (id : string) (r : MessageRow) : MessageRow :=
  if sql_eq (mr_message_id r) id && bool_decide (mr_status r = kMsgPending) then with_status kMsgAcked r else r.

Definition ack_db (id : string) (d : Db) : Db := set_local_message (map (ack_row id) (t_local_message d)) d.

Lemma job_acks msg d : job_does (JobDelivery msg true) d RDone (ack_db (m_messageId msg) d).
Proof.
  exists [good 0 ""]. eexists. split; [by apply Forall_singleton |]. split.
  - cbn [solo]. unfold thread_step. cbn -[unlocked markAcked_sql]. rewrite unlocked_nil.
    unfold markAcked_sql, update_messages, sql_update. by rewrite sql_set_total.
  - by split.
Qed.

(** The notification of a message: new, or recorded already. *)
Lemma job_notes mid orderNo no d row : notify_row no orderNo (notifyBaseUrl +:+ kNotifyPath) mid = Some row ->
  job_does (JobNotify mid orderNo (notifyBaseUrl +:+ kNotifyPath)) d
    (RNotify (if existsb (notify_conflict row) (t_notify_record d) then kNotifyDuplicate else kNotifyInserted no))
    (if existsb (notify_conflict row) (t_notify_record d) then d else add_notify row d).
Proof.
  intros Hrow.
  assert (Hins : notify_insert_sql no orderNo (notifyBaseUrl +:+ kNotifyPath) mid 0 d
    = Some (if existsb (notify_conflict row) (t_notify_record d) then (d, 0%nat) else (add_notify row d, 1%nat))).
  { unfold notify_insert_sql. rewrite Hrow. cbn -[notify_conflict]. unfold sql_insert_noop.
    destruct (existsb _ _); [by destruct d | done]. }
  destruct (existsb _ _); exists [good 0 no; good 0 no]; eexists; (split; [by repeat constructor |]); split.
  1,3: cbn [solo]; unfold thread_step; cbn -[unlocked notify_insert_sql]; rewrite unlocked_nil, Hins; reflexivity.
  all: by split.
Qed.

(** The row of the notification [row] that the merchant has answered. *)
Definition answered_row (row : NotifyRow) : NotifyRow :=
  mkNotifyRow (nr_notify_no row) (nr_order_no row) (nr_target_url row) (Some body) 1 (nr_retry_count row) (nr_message_id row).

Lemma job_replies d t row : text_ok body = true -> uint_ok (nr_retry_count row) = true ->
  t_notify_record d = t ++ [row] -> existsb (fun n => sql_eq (nr_notify_no n) (nr_notify_no row)) t = false ->
  job_does (JobReply (nr_notify_no row) body true) d RDone (set_notify_record (t ++ [answered_row row]) d).
Proof.
  intros Hb Hu Ht Hnew. exists [good 0 ""]. eexists. split; [by apply Forall_singleton |]. split.
  - cbn [solo]. unfold thread_step. cbn -[unlocked update_notify]. rewrite unlocked_nil.
    unfold update_notify, sql_update. rewrite Ht, sql_set_split by (done || apply sql_eq_refl).
    unfold notify_done. by rewrite Hb, Hu.
  - by split.
Qed.

(** ** Rounds of the relay *)

(** The outbox before and after some acknowledgements. *)
Definition acked_later (r r' : MessageRow) : Prop :=
  r' = r \/ (mr_status r = kMsgPending /\ r' = with_status kMsgAcked r).

#[local] Instance acked_later_preorder : PreOrder acked_later.
Proof.
  split; [by left |]. intros r1 r2 r3 [-> | [H ->]] [-> | [H' ->]]; [by left | by right | by right |].
  cbn in H'. discriminate H'.
Qed.

Lemma ack_row_later id r : acked_later r (ack_row id r).
Proof.
  unfold ack_row. destruct (_ && _) eqn:H; [right | by left]. apply andb_true_iff in H as [_ H].
  split; [by apply bool_decide_eq_true in H | done].
Qed.

Lemma ack_db_later id d : Forall2 acked_later (t_local_message d) (t_local_message (ack_db id d)).
Proof. cbn. induction (t_local_message d) as [|r t IH]; constructor; [apply ack_row_later | done]. Qed.

(** The message [m] is not pending. *)
Definition done_with (t : list MessageRow) (m : LocalMessage) : Prop :=
  forall r, In r t -> sql_eq (mr_message_id r) (m_messageId m) = true -> mr_status r <> kMsgPending.

Lemma done_with_ack msg d : done_with (t_local_message (ack_db (m_messageId msg) d)) msg.
Proof.
  intros r Hr Hid Hp. cbn in Hr. apply in_map_iff in Hr as (x & <- & _). unfold ack_row in *.
  destruct (_ && _) eqn:H; [discriminate Hp |]. rewrite Hid, Hp in H. discriminate H.
Qed.

Lemma done_with_later m t t' : Forall2 acked_later t t' -> done_with t m -> done_with t' m.
Proof.
  intros H Hd r' Hr'. destruct (Forall2_In_r _ _ _ r' H Hr') as (r & Hr & [-> | [_ ->]]); [by apply Hd | done].
Qed.

(** The broker accepts. *)
Lemma willing_publish x key b mq : mq_inv mq -> (publish (B := willing) x key b mq).1 = true.
Proof.
  intros Hinv. pose proof (publish_step (B := willing) x key b mq Hinv) as H.
  destruct (publish x key b mq) as [[] mq']; [done |]. destruct H as (_ & _ & H).
  destruct (H eq_refl) as (_ & [[n Hn] | [n Hn]]); [discriminate Hn | by destruct Hn].
Qed.

(** What a relay that goes on leaves as it is. *)
Record relayed_site (s s' : Site) : Prop := {
  rs_outbox : Forall2 acked_later (t_local_message (db_now s)) (t_local_message (db_now s'));
  rs_rest : same_but_outbox (db_now s) (db_now s');
  rs_posted : posted s' = posted s;
  rs_consumer : consuming s' = consuming s
}.

#[local] Instance relayed_site_preorder : PreOrder relayed_site.
Proof.
  split; [intros s; split; [reflexivity | unfold same_but_outbox; by destruct (db_now s) | done..] |].
  intros s1 s2 s3 [H1 H2 H3 H4] [K1 K2 K3 K4]. split; [by etransitivity | | congruence..].
  unfold same_but_outbox in *. by rewrite K2, H2.
Qed.

Lemma relayed_slot client sl s : relayed_site s (set_relay client sl s).
Proof. split; [cbn; reflexivity | apply (rs_rest s s); reflexivity | done..]. Qed.

(** The loop of a round. *)
Lemma loop_mends d0 ms : forall s, happens d0 s -> first_day d0 -> Forall ended (cf_threads (server s)) ->
  relaying s = Ready (relay_messages ms) -> is_Some (mqClient_ s) ->
  exists s', rtc mend_step s s' /\ relaying s' = Free /\ Forall ended (cf_threads (server s'))
    /\ relayed_site s s' /\ Forall (done_with (t_local_message (db_now s'))) ms.
Proof.
  induction ms as [|msg ms IH]; intros s Hh Hd Hts Hsl [mq Hmq].
  { exists (set_relay (mqClient_ s) Free s). split; [| by split_and!; [.. | apply relayed_slot | constructor]].
    apply (mend_once (Relay willing)); [done |]. cbn [Site.site_move]. by rewrite Hsl. }
  destruct (happens_ok iso customConfig open_file notifyBaseUrl d0 s Hh Hd) as ([_ Hc _ _ _ _ _ _ _ _] & _).
  rewrite Hmq in Hc. pose proof (willing_publish (m_exchange msg) (m_routingKey msg) (m_payload msg) mq Hc) as Hok.
  destruct (publish (B := willing) (m_exchange msg) (m_routingKey msg) (m_payload msg) mq) as [ok mq1] eqn:Hpub.
  cbn [fst] in Hok. subst ok.
  set (s1 := add_published (c_str (m_exchange msg), c_str (m_routingKey msg), c_str (m_payload msg))
    (set_relay (Some mq1) (Ready (Work (JobDelivery msg true) (fun _ => relay_messages ms))) s)).
  assert (H1 : rtc mend_step s s1).
  { apply (mend_once (Relay willing)); [done |]. cbn [Site.site_move]. rewrite Hsl. cbn [relay_messages].
    rewrite Hmq. cbn [mbind option_bind]. by rewrite Hpub. }
  destruct (relay_job s1 _ _ _ _ Hts eq_refl (job_acks msg (db_now s1))) as (ts & Hts2 & H2). cbn beta in H2.
  set (s2 := set_relay _ _ _) in H2.
  destruct (IH s2) as (s' & H3 & Hfree & Hts' & Hrel & Hdone); [| done | done | done | by eexists |].
  { eapply mend_happens; [| exact H2]. by eapply mend_happens. }
  exists s'. split; [by etransitivity; [| etransitivity] |]. split; [done |]. split; [done |].
  assert (Hs2 : relayed_site s s2) by (split; [apply ack_db_later | done..]).
  split; [by etransitivity |]. constructor; [| done].
  eapply done_with_later; [apply (rs_outbox _ _ Hrel) | apply done_with_ack].
Qed.

Definition pending (t : list MessageRow) : nat := length (filter (fun r => mr_status r = kMsgPending) t).

Lemma acked_fewer t t' : Forall2 acked_later t t' -> t' = t \/ (pending t' < pending t)%nat.
Proof.
  unfold pending. induction 1 as [|r r' t t' Hr _ IH]; [by left |].
  destruct Hr as [-> | [Hp ->]]; rewrite !filter_cons.
  - destruct IH as [-> | IH]; [by left | right]. case_decide; cbn; lia.
  - right. rewrite decide_False, decide_True by done. cbn. destruct IH as [-> | IH]; lia.
Qed.

Lemma pending_row t : (0 < pending t)%nat -> exists r, In r t /\ mr_status r = kMsgPending.
Proof.
  unfold pending. destruct (filter _ t) as [|r u] eqn:Hf; [cbn; lia |]. intros _.
  assert (Hr : r ∈ filter (fun r => mr_status r = kMsgPending) t) by (rewrite Hf; by left).
  apply list_elem_of_filter in Hr as [Hp Hr]. exists r. by split; [apply list_elem_of_In |].
Qed.

Lemma all_due (t : list MessageRow) : exists now, Forall (fun r => mr_next_retry_time r <= now) t.
Proof.
  induction t as [|r t [now IH]]; [by exists 0 |]. exists (Z.max now (mr_next_retry_time r)). constructor; [lia |].
  eapply Forall_impl; [exact IH |]. cbn. intros x Hx. lia.
Qed.

(** A scan finds a message as long as one is pending and due. *)
Lemma scan_finds now d : Forall (fun r => mr_next_retry_time r <= now) (t_local_message d) ->
  (0 < pending (t_local_message d))%nat -> exists r, In r (scanned now d).
Proof.
  intros Hnow (r & Hr & Hp)%pending_row. unfold scanned.
  assert (Hin : In r (sql_select (message_due now) (t_local_message d))).
  { apply filter_In. split; [done |]. unfold message_due. rewrite bool_decide_true by done.
    rewrite List.Forall_forall in Hnow. by apply Z.leb_le, Hnow. }
  destruct (sql_select _ _) as [|x rest]; [done |]. exists x. by left.
Qed.

Section Healthy.
Context (loads : is_Some (loadMqConfig customConfig)).

Lemma client_ready client : is_Some (relay_client customConfig client).
Proof. unfold relay_client. destruct client; [by eexists |]. destruct loads as [c ->]. by eexists. Qed.

(** A round gets at least one message away. *)
Lemma round_mends d0 s : happens d0 s -> first_day d0 -> idle s ->
  (0 < pending (t_local_message (db_now s)))%nat ->
  exists s', rtc mend_step s s' /\ idle s' /\ relayed_site s s'
    /\ (pending (t_local_message (db_now s')) < pending (t_local_message (db_now s)))%nat.
Proof.
  intros Hh Hd [Hrel Hcon Hts] Hpend. destruct (all_due (t_local_message (db_now s))) as [now Hnow].
  destruct (client_ready (mqClient_ s)) as [mq Hmq].
  set (s1 := set_relay (Some mq) (Ready relay_agent) s).
  assert (H1 : rtc mend_step s s1).
  { apply (mend_once Tick); [done |]. cbn [Site.site_move]. by rewrite Hrel, Hmq. }
  destruct (relay_job s1 _ _ _ _ Hts eq_refl (job_scans now (db_now s1))) as (ts & Hts2 & H2). cbn beta iota in H2.
  set (s2 := set_relay _ _ _) in H2.
  destruct (loop_mends d0 (map message_of_row (scanned now (db_now s))) s2) as (s' & H3 & Hfree & Hts' & Hrs & Hdone);
    [| done | done | done | by eexists |].
  { eapply mend_happens; [| exact H2]. by eapply mend_happens. }
  assert (Hs2 : relayed_site s s2) by (split; [reflexivity | apply (rs_rest s s); reflexivity | done..]).
  assert (Hs' : relayed_site s s') by (by etransitivity).
  exists s'. split; [by etransitivity; [| etransitivity] |]. split; [split; [done | by rewrite (rs_consumer _ _ Hs') | done] |].
  split; [done |]. destruct (acked_fewer _ _ (rs_outbox _ _ Hs')) as [Heq | Hlt]; [exfalso | done].
  destruct (scan_finds now _ Hnow Hpend) as [r Hr]. rewrite List.Forall_forall in Hdone.
  destruct (scanned_pending now (db_now s) r Hr) as [Hin Hp].
  apply (Hdone (message_of_row r) (in_map _ _ _ Hr) r); [by rewrite Heq | apply sql_eq_refl | done].
Qed.

(** All of them, in the end. *)
Lemma rounds_mend d0 : forall n s, (pending (t_local_message (db_now s)) <= n)%nat ->
  happens d0 s -> first_day d0 -> idle s ->
  exists s', rtc mend_step s s' /\ idle s' /\ relayed_site s s'
    /\ forall r, In r (t_local_message (db_now s')) -> mr_status r <> kMsgPending.
Proof.
  induction n as [|n IH]; intros s Hn Hh Hd Hs;
    (destruct (decide (pending (t_local_message (db_now s)) = 0%nat)) as [Hz | Hnz];
     [exists s; split; [apply rtc_refl |]; split; [done |]; split; [reflexivity |]; intros r Hr Hp |]).
  1,3: unfold pending in Hz; apply nil_length_inv in Hz;
    assert (Hin : r ∈ filter (fun r => mr_status r = kMsgPending) (t_local_message (db_now s)))
      by (apply list_elem_of_filter; split; [done | by apply list_elem_of_In]);
    rewrite Hz in Hin; by apply elem_of_nil in Hin.
  - lia.
  - destruct (round_mends d0 s Hh Hd Hs ltac:(lia)) as (s1 & H1 & Hs1 & Hr1 & Hlt).
    destruct (IH s1 ltac:(lia) (mend_happens _ _ _ Hh H1) Hd Hs1) as (s' & H2 & Hs' & Hr2 & Hnone).
    exists s'. split; [by etransitivity |]. split; [done |]. split; [by etransitivity | done].
Qed.
End Healthy.

(** ** Deliveries *)

(** What the notifications need: the texts fit their columns and survive JSON. *)
Record tellable (d : Db) : Prop := {
  tb_printed : printed d;
  tb_target : varchar_ok 255 (notifyBaseUrl +:+ kNotifyPath) = true;
  tb_orders : Forall (fun o => varchar_ok 32 (or_order_no o) = true) (t_order d);
  tb_messages : Forall (fun r => varchar_ok 64 (mr_message_id r) = true) (t_local_message d)
}.

(** A number that no row has. *)
Lemma fresh_number (t : list NotifyRow) : Z.of_nat (length t) < 10 ^ 18 ->
  exists no, varchar_ok 32 no = true /\ existsb (fun n => sql_eq (nr_notify_no n) no) t = false.
Proof.
  intros Hlen. set (names := map (fun i => dec (Z.of_nat i)) (seq 0 (S (length t)))).
  set (ws := map (fun n => weight (nr_notify_no n)) t).
  assert (Hnames : forall x, x ∈ names -> exists i, (i <= length t)%nat /\ x = dec (Z.of_nat i)).
  { intros x (i & <- & Hi%in_seq)%list_elem_of_In%in_map_iff. exists i. split; [lia | done]. }
  destruct (decide (Forall (fun x => weight x ∈ ws) names)) as [Hall | Hsome].
  - exfalso. assert (Hnd : NoDup (map weight names)).
    { apply NoDup_fmap_2_strong; [| apply NoDup_fmap_2_strong; [| apply NoDup_seq]].
      - intros x y (i & _ & ->)%Hnames (k & _ & ->)%Hnames. apply weight_digits; apply dec_digits; lia.
      - intros i k _ _ H%dec_inj; lia. }
    assert (Hsub : map weight names ⊆+ ws).
    { apply NoDup_submseteq; [done |]. intros w (x & <- & Hx)%list_elem_of_In%in_map_iff.
      rewrite Forall_forall in Hall. by apply Hall, list_elem_of_In. }
    apply submseteq_length in Hsub. unfold ws, names in Hsub. rewrite !length_map, length_seq in Hsub. lia.
  - apply not_Forall_Exists, Exists_exists in Hsome as (x & Hx & Hw); [| apply _]. exists x.
    destruct (Hnames x Hx) as (i & Hi & ->). split.
    + apply varchar_ascii; [eapply str_all_impl; [apply digit_printable | apply dec_digits; lia] |].
      etransitivity; [apply (dec_length_le _ 18); lia | lia].
    + apply existsb_false, List.Forall_forall. intros n Hn. apply bool_decide_eq_false_2. intros He. apply Hw.
      rewrite <- He. unfold ws. by apply list_elem_of_In, (in_map (fun n => weight (nr_notify_no n))).
Qed.

(** The delivery of the message [r]: recorded already, or told to the merchant, who
    has answered. *)
Definition told_now (s : Site) (r : MessageRow) (n : NotifyRow) (q : HttpReq) : Prop :=
  In n (t_notify_record (db_now s)) /\ In q (posted s) /\ tells notifyBaseUrl q r n
  /\ nr_message_id n = mr_message_id r /\ nr_status n = 1.

Record delivered (s s' : Site) (r : MessageRow) : Prop := {
  dl_rest : db_now s' = set_notify_record (t_notify_record (db_now s')) (db_now s);
  dl_told : (t_notify_record (db_now s') = t_notify_record (db_now s) /\ posted s' = posted s
             /\ recorded (mr_message_id r) (db_now s) = true)
    \/ exists n q, t_notify_record (db_now s') = t_notify_record (db_now s) ++ [n] /\ posted s' = posted s ++ [q]
         /\ told_now s' r n q
}.

Lemma new_notification mid orderNo no d (t := t_notify_record d) :
  existsb (fun n => sql_eq (nr_notify_no n) no) t = false ->
  existsb (notify_conflict (mkNotifyRow no orderNo (notifyBaseUrl +:+ kNotifyPath) None 0 0 mid)) t = recorded mid d.
Proof.
  unfold recorded. fold t. induction t as [|n u IH]; [done |]. cbn [existsb]. intros [Hn Hu]%orb_false_iff.
  rewrite IH by done. unfold notify_conflict at 1. cbn [nr_notify_no nr_message_id]. by rewrite Hn.
Qed.

Context (answered_ok : text_ok body = true).

(** The consumer takes the last step of a delivery. *)
Lemma delivery_ends s : consuming s = Ready (Return (Ret true)) -> rtc mend_step s (set_consumer Free s).
Proof. intros Hsl. apply (mend_once (Consume thanks)); [done |]. cbn [Site.site_move]. by rewrite Hsl. Qed.

(** The consumer has recorded the message, and tells it. *)
Lemma posts_mend s t row amount : Forall ended (cf_threads (server s)) ->
  t_notify_record (db_now s) = t ++ [row] -> existsb (fun n => sql_eq (nr_notify_no n) (nr_notify_no row)) t = false ->
  uint_ok (nr_retry_count row) = true ->
  consuming s = Ready (notify_posts notifyBaseUrl 3 0 (nr_notify_no row) (nr_order_no row) amount) ->
  exists ts, Forall ended ts /\ rtc mend_step s (add_posted (merchant_request notifyBaseUrl (nr_notify_no row) (nr_order_no row) amount)
      (set_consumer Free (set_server (mkConf (set_notify_record (t ++ [answered_row row]) (db_now s)) ts) s))).
Proof.
  intros Hts Ht Hnew Hu Hsl. set (q := merchant_request _ _ _ _).
  set (s1 := add_posted q (set_consumer (Ready (notify_reply (nr_notify_no row) body true)) s)).
  assert (H1 : rtc mend_step s s1).
  { apply (mend_once (Consume thanks)); [done |]. cbn [Site.site_move]. rewrite Hsl. done. }
  destruct (consumer_job s1 _ _ _ _ Hts eq_refl (job_replies (db_now s1) t row answered_ok Hu Ht Hnew)) as (ts & Hts2 & H2).
  exists ts. split; [done |]. etransitivity; [exact H1 |]. etransitivity; [exact H2 |]. by apply delivery_ends.
Qed.

(** What the consumer does with a message that it can read. *)
Lemma process_parsed text mid no am : parse_message text = Some (Some (mid, no, am)) ->
  exists k, process_agent notifyBaseUrl text = Work (JobNotify mid no (notifyBaseUrl +:+ kNotifyPath)) k
    /\ k (Ret (RNotify kNotifyDuplicate)) = Return (Ret true)
    /\ forall n, k (Ret (RNotify (kNotifyInserted n))) = notify_posts notifyBaseUrl 3 0 n no am.
Proof. unfold process_agent. intros ->. eexists. by split. Qed.

Lemma delivery_mends {JL : JsonCppLaws} s r o : idle s -> In (wire r) (published s) ->
  In r (t_local_message (db_now s)) -> In o (t_order (db_now s)) -> vouches o r -> tellable (db_now s) ->
  Z.of_nat (length (t_notify_record (db_now s))) < 10 ^ 18 ->
  exists s', rtc mend_step s s' /\ idle s' /\ delivered s s' r.
Proof.
  intros [Hrel Hcon Hts] Hpub Hr Ho Hv Htell Hlen.
  pose proof (vouches_parse (db_now s) o r (tb_printed _ Htell) Ho Hr Hv) as Hparse.
  set (mid := mr_message_id r) in *. set (am := fenToYuanString _) in *.
  apply list_elem_of_In, list_elem_of_lookup in Hpub as [i Hi].
  destruct (fresh_number _ Hlen) as (no & Hno & Hfresh).
  set (row := mkNotifyRow no (or_order_no o) (notifyBaseUrl +:+ kNotifyPath) None 0 0 mid).
  assert (Hrow : notify_row no (or_order_no o) (notifyBaseUrl +:+ kNotifyPath) mid = Some row).
  { destruct Htell as [_ Hurl Hos Hms]. rewrite List.Forall_forall in Hos, Hms.
    unfold notify_row, mid. by rewrite Hno, Hurl, (Hos o Ho), (Hms r Hr). }
  set (s1 := set_consumer (Ready (process_agent notifyBaseUrl (wire r).2)) s).
  assert (H1 : rtc mend_step s s1).
  { apply (mend_once (Deliver i)); [done |]. cbn [Site.site_move]. rewrite Hcon. unfold mq_message in *. by rewrite Hi. }
  pose proof (job_notes mid (or_order_no o) no (db_now s1) row Hrow) as Hjob.
  change row with (mkNotifyRow no (or_order_no o) (notifyBaseUrl +:+ kNotifyPath) None 0 0 mid) in Hjob at 1 2.
  rewrite !(new_notification _ _ _ (db_now s1) Hfresh) in Hjob.
  destruct (process_parsed _ _ _ _ Hparse) as (k & Hk & Hk1 & Hk2).
  assert (Hsl : consuming s1 = Ready (Work (JobNotify mid (or_order_no o) (notifyBaseUrl +:+ kNotifyPath)) k))
    by (unfold s1; cbn [set_consumer consuming]; by rewrite Hk).
  destruct (consumer_job s1 _ k _ _ Hts Hsl Hjob) as (ts & Hts2 & H2).
  destruct (recorded mid (db_now s1)) eqn:Hrec.
  - rewrite Hk1 in H2. exists (set_consumer Free (set_server (mkConf (db_now s) ts) s)).
    split; [etransitivity; [exact H1 |]; etransitivity; [exact H2 |]; exact (delivery_ends (set_consumer _ (set_server (mkConf (db_now s) ts) s)) eq_refl) |].
    split; [by split |]. split; [cbn; by destruct (db_now s) | by left].
  - rewrite Hk2 in H2. set (s2 := set_consumer _ _) in H2.
    destruct (posts_mend s2 (t_notify_record (db_now s)) row am Hts2 eq_refl Hfresh eq_refl eq_refl) as (ts' & Hts' & H3).
    eexists. split; [etransitivity; [exact H1 |]; etransitivity; [exact H2 | exact H3] |].
    split; [by split |]. split; [done |]. right. exists (answered_row row), (merchant_request notifyBaseUrl no (or_order_no o) am).
    split; [done |]. split; [done |].
    split; [apply in_app_iff; right; by left |]. split; [apply in_app_iff; right; by left |].
    split; [by exists am | done].
Qed.

(** ** All the deliveries *)

Lemma told_now_later s s' r r1 n q : delivered s s' r1 -> told_now s r n q -> told_now s' r n q.
Proof.
  intros [_ [(En & Ep & _) | (n1 & q1 & En & Ep & _)]] (H1 & H2 & H); unfold told_now; rewrite En, Ep; [done |].
  rewrite !in_app_iff. split; [by left |]. split; [by left | done].
Qed.

(** Since [s0], the notifications that are new have been told. *)
Record deliveries (s0 s : Site) : Prop := {
  dv_rest : db_now s = set_notify_record (t_notify_record (db_now s)) (db_now s0);
  dv_new : exists new, t_notify_record (db_now s) = t_notify_record (db_now s0) ++ new
    /\ forall n, In n new -> exists r q, In r (t_local_message (db_now s0)) /\ told_now s r n q
}.

Lemma deliveries_refl s : deliveries s s.
Proof. split; [by destruct (db_now s) |]. exists []. by rewrite app_nil_r. Qed.

Lemma deliveries_messages s0 s : deliveries s0 s ->
  t_local_message (db_now s) = t_local_message (db_now s0) /\ t_order (db_now s) = t_order (db_now s0).
Proof. intros [-> _]. done. Qed.

Lemma deliveries_step s0 s s' r : deliveries s0 s -> In r (t_local_message (db_now s0)) -> delivered s s' r -> deliveries s0 s'.
Proof.
  intros [Hrest (new & Hn & Hnew)] Hr Hd. pose proof Hd as [Hrest' Hcase].
  split; [rewrite Hrest', Hrest; done |].
  assert (Hold : forall n, In n new -> exists r q, In r (t_local_message (db_now s0)) /\ told_now s' r n q).
  { intros n (x & q & Hx & Ht)%Hnew. exists x, q. split; [done |]. by eapply told_now_later. }
  destruct Hcase as [(En & _ & _) | (n1 & q1 & En & _ & Ht)].
  - exists new. by rewrite En.
  - exists (new ++ [n1]). rewrite En, Hn, app_assoc. split; [done |].
    intros n [Hin | [<- | []]]%in_app_iff; [by apply Hold | by exists r, q1].
Qed.

(** A message that is recorded was recorded before, or has been told. *)
Lemma deliveries_recorded s0 s r : deliveries s0 s -> db_wf (db_now s0) -> In r (t_local_message (db_now s0)) ->
  recorded (mr_message_id r) (db_now s) = true ->
  recorded (mr_message_id r) (db_now s0) = true \/ exists n q, told_now s r n q.
Proof.
  intros [_ (new & Hn & Hnew)] [K _] Hr. unfold recorded. rewrite Hn, existsb_app. intros [H | H]%orb_true_iff; [by left | right].
  apply existsb_exists in H as (n & Hin & Hid). destruct (Hnew n Hin) as (x & q & Hx & Ht). exists n, q.
  assert (x = r) as <-; [| done].
  eapply (key_unique (fun m => weight (mr_message_id m))); [apply (wf_message _ K) | done | done |].
  apply sql_eq_iff in Hid. by destruct Ht as (_ & _ & _ & <- & _).
Qed.

(** Numbers and records are never taken back. *)
Lemma recorded_prefix d d' id : t_notify_record d `prefix_of` t_notify_record d' -> recorded id d = true -> recorded id d' = true.
Proof. intros [new H]. unfold recorded. rewrite H, existsb_app. by intros ->. Qed.

Lemma delivered_recorded s s' r : delivered s s' r ->
  t_notify_record (db_now s) `prefix_of` t_notify_record (db_now s')
  /\ (length (t_notify_record (db_now s')) <= S (length (t_notify_record (db_now s))))%nat
  /\ recorded (mr_message_id r) (db_now s') = true.
Proof.
  intros [_ [(En & _ & Hrec) | (n & q & En & _ & (Hn & _ & _ & Hid & _))]].
  - unfold recorded in *. rewrite En. split; [done |]. split; [lia | done].
  - rewrite En at 1 2. split; [by eexists |]. rewrite length_app. cbn. split; [lia |].
    apply existsb_exists. exists n. split; [done |]. rewrite Hid. apply sql_eq_refl.
Qed.

Lemma deliveries_mend {JL : JsonCppLaws} d0 s0 rs : forall s, happens d0 s -> first_day d0 -> idle s -> deliveries s0 s ->
  tellable (db_now s0) ->
  (forall r, In r rs -> In r (t_local_message (db_now s0)) /\ mr_status r = kMsgAcked) ->
  Z.of_nat (length (t_notify_record (db_now s)) + length rs) < 10 ^ 18 ->
  exists s', rtc mend_step s s' /\ idle s' /\ deliveries s0 s'
    /\ t_notify_record (db_now s) `prefix_of` t_notify_record (db_now s')
    /\ forall r, In r rs -> recorded (mr_message_id r) (db_now s') = true.
Proof.
  induction rs as [|r rs IH]; intros s Hh Hd0 Hs Hdv Htell Hrs Hlen.
  { exists s. split; [apply rtc_refl |]. by split_and!. }
  destruct (happens_ok iso customConfig open_file notifyBaseUrl d0 s Hh Hd0) as (Hok & _).
  destruct (deliveries_messages _ _ Hdv) as [Em Eo]. destruct (Hrs r (or_introl eq_refl)) as [Hr0 Hacked].
  assert (Hr : In r (t_local_message (db_now s))) by congruence. cbn [length] in Hlen.
  pose proof (proj1 (so_sound (Ov := in_the_end s) _ _ _ _ _ Hok r Hr) Hacked) as Hconf.
  destruct (so_outbox (Ov := in_the_end s) _ _ _ _ _ Hok r Hr) as (o & Ho & Hv).
  assert (Htell' : tellable (db_now s)) by (destruct Htell as [[P1 P2] T1 T2 T3]; split; [split | |..]; congruence).
  destruct (delivery_mends s r o Hs (so_confirmed (Ov := in_the_end s) _ _ _ _ _ Hok _ Hconf) Hr Ho Hv Htell' ltac:(lia))
    as (s1 & H1 & Hs1 & Hd1). destruct (delivered_recorded _ _ _ Hd1) as (Hpre & Hcount & Hrec).
  destruct (IH s1) as (s' & H2 & Hs' & Hdv' & Hpre' & Hall); try done.
  - by eapply mend_happens.
  - by eapply deliveries_step.
  - intros x Hx. apply Hrs. by right.
  - lia.
  - exists s'. split; [by etransitivity |]. split; [done |]. split; [done |]. split; [by etransitivity |].
    intros x [<- | Hx]; [by eapply recorded_prefix | by apply Hall].
Qed.

(** ** Recovery *)

(** A row when its message has got away. *)
Definition settled (r : MessageRow) : MessageRow :=
  if bool_decide (mr_status r = kMsgPending) then with_status kMsgAcked r else r.

Lemma settled_same r : mr_message_id (settled r) = mr_message_id r /\ wire (settled r) = wire r
  /\ mr_payload (settled r) = mr_payload r.
Proof. unfold settled. by destruct (bool_decide _). Qed.

Lemma settled_all t t' : Forall2 acked_later t t' -> (forall r, In r t' -> mr_status r <> kMsgPending) -> t' = map settled t.
Proof.
  induction 1 as [|r r' t t' Hr _ IH]; [done |]. intros Hnone. cbn [map]. rewrite <- IH by (intros x Hx; apply Hnone; by right).
  f_equal. specialize (Hnone r' (or_introl eq_refl)). unfold settled.
  destruct Hr as [-> | [Hp ->]]; [by rewrite bool_decide_false | by rewrite bool_decide_true].
Qed.

Lemma tellable_settled d d' : t_order d' = t_order d -> t_local_message d' = map settled (t_local_message d) ->
  tellable d -> tellable d'.
Proof.
  intros Eo Em [[P1 P2] T1 T2 T3].
  assert (Hmap : forall P : MessageRow -> Prop, (forall r, P r -> P (settled r)) -> Forall P (t_local_message d) ->
    Forall P (t_local_message d')).
  { intros P Hset H. rewrite Em. apply Forall_map. eapply Forall_impl; [exact H |]. exact Hset. }
  split; [split | | |]; rewrite ?Eo; try done; apply Hmap; try done; intros r; destruct (settled_same r) as (E1 & _ & E3);
    rewrite E1, ?E3; done.
Qed.

Lemma told_settled s r n q : told_now s (settled r) n q -> told_now s r n q.
Proof. unfold told_now, tells. destruct (settled_same r) as (-> & -> & _). done. Qed.

(** Where the mending starts. *)
Lemma start_idle d s s1 : happens d s -> (idle s /\ s1 = s) \/ site_move Crash s = Some s1 ->
  happens d s1 /\ idle s1 /\ db_now s1 = db_now s.
Proof.
  intros Hh [[Hi ->] | Hcrash]; [done |]. split; [| split; [by eapply crash_idle | by injection Hcrash as <-]].
  eapply rtc_r; [exact Hh | by exists Crash].
Qed.

(** C15. What a restart mends: whatever has happened before, an installation that is
    idle, or that has just been restarted, can with a healthy broker, database and
    merchant get every message of its outbox away, whatever failed and wherever the
    process died; nothing else changes but the notifications.  Every message that has
    not been given up is then confirmed by the broker, and the merchant has been told
    it, and has answered, under the number of its notification - except for what the
    consumer had recorded before without telling it. *)
Theorem site_recovers {JL : JsonCppLaws} d s s1 : happens d s -> first_day d ->
  (idle s /\ s1 = s) \/ site_move Crash s = Some s1 ->
  is_Some (loadMqConfig customConfig) -> tellable (db_now s) ->
  Z.of_nat (length (t_notify_record (db_now s)) + length (t_local_message (db_now s))) < 10 ^ 18 ->
  exists s', rtc mend_step s1 s' /\ idle s'
    /\ db_now s' = set_notify_record (t_notify_record (db_now s'))
         (set_local_message (map settled (t_local_message (db_now s))) (db_now s))
    /\ forall r, In r (t_local_message (db_now s)) -> mr_status r = kMsgPending \/ mr_status r = kMsgAcked ->
         In (wire r) (broker_confirmed s')
         /\ (recorded (mr_message_id r) (db_now s) = true \/ exists n q, told_now s' r n q).
Proof.
  intros Hh Hd Hstart Hcfg Htell Hlen. destruct (start_idle d s s1 Hh Hstart) as (Hh1 & Hi1 & E1).
  rewrite <- E1 in Htell, Hlen |- *. clear Hstart Hh s E1.
  destruct (rounds_mend Hcfg d _ s1 (le_n _) Hh1 Hd Hi1) as (s2 & H2 & Hi2 & [Hbox Hrest _ _] & Hnone).
  pose proof (settled_all _ _ Hbox Hnone) as Em. unfold same_but_outbox in Hrest. rewrite Em in Hrest.
  assert (Hn2 : t_notify_record (db_now s2) = t_notify_record (db_now s1)) by (by rewrite Hrest).
  assert (Htell2 : tellable (db_now s2)) by (eapply tellable_settled; [| exact Em | exact Htell]; by rewrite Hrest).
  pose proof (mend_happens _ _ _ Hh1 H2) as Hh2.
  destruct (deliveries_mend d s2 (filter (fun r => mr_status r = kMsgAcked) (t_local_message (db_now s2))) s2 Hh2 Hd Hi2
    (deliveries_refl s2) Htell2) as (s' & H3 & Hi' & Hdv & _ & Hall).
  { intros r [Ha Hr]%list_elem_of_In%list_elem_of_filter. by split; [apply list_elem_of_In |]. }
  { rewrite Hn2. pose proof (length_filter (fun r => mr_status r = kMsgAcked) (t_local_message (db_now s2))) as Hf.
    rewrite Em, length_map in Hf. rewrite Em. lia. }
  exists s'. split; [by etransitivity |]. split; [done |].
  split; [rewrite <- Hrest; apply (dv_rest _ _ Hdv) |].
  intros r Hr Hst. pose proof (mend_happens _ _ _ Hh2 H3) as Hh'.
  destruct (happens_ok iso customConfig open_file notifyBaseUrl d s' Hh' Hd) as (Hok & _).
  destruct (happens_ok iso customConfig open_file notifyBaseUrl d s2 Hh2 Hd) as (Hok2 & _).
  destruct (deliveries_messages _ _ Hdv) as [Em' _]. destruct (settled_same r) as (Eid & Ew & _).
  assert (Hr2 : In (settled r) (t_local_message (db_now s2))) by (rewrite Em; by apply in_map).
  assert (Ha : mr_status (settled r) = kMsgAcked)
    by (unfold settled; destruct Hst as [Hst | Hst]; rewrite Hst; done).
  split.
  - rewrite <- Ew. apply (so_sound (Ov := in_the_end s') _ _ _ _ _ Hok); [by rewrite Em' | done].
  - assert (Hrec : recorded (mr_message_id (settled r)) (db_now s') = true).
    { apply Hall, list_elem_of_In, list_elem_of_filter. by split; [| apply list_elem_of_In]. }
    destruct (deliveries_recorded _ _ _ Hdv (proj1 (so_server (Ov := in_the_end s2) _ _ _ _ _ Hok2)) Hr2 Hrec) as [H | (n & q & H)].
    + left. revert H. unfold recorded. by rewrite Hn2, Eid.
    + right. exists n, q. by apply told_settled.
Qed.
End Recovery.

(** ** Witness: the process dies between the payment and the relay *)

Definition paid_then_dead : Site (J := Tree.lib) := default (first_start Server.ordered_shop)
  (site_story (Arrive (Http true "/api/v1/payment/callback" callback_post) :: site_luck 0 13 "900")).

Definition dead_restarted : Site (J := Tree.lib) :=
  mkSite (mkConf (db_now paid_then_dead) []) None Free Free (broker_confirmed paid_then_dead)
    (published paid_then_dead) (posted paid_then_dead).

Lemma paid_happens : happens (D := Server.lib) (J := Tree.lib) (O := SignUtil.Plain.lib) (Ro := Paths.router)
  RepeatableRead sample_config sample_files "http://localhost:8080" Server.ordered_shop paid_then_dead.
Proof. apply story_happens. by vm_compute. Qed.

Definition tellable_dec {D : MySql} (notifyBaseUrl : string) (d : Db) : bool :=
  printed_dec d && varchar_ok 255 (notifyBaseUrl +:+ kNotifyPath)
  && forallb (fun o => varchar_ok 32 (or_order_no o)) (t_order d)
  && forallb (fun r => varchar_ok 64 (mr_message_id r)) (t_local_message d).

Lemma tellable_check {D : MySql} notifyBaseUrl d : tellable_dec notifyBaseUrl d = true -> tellable notifyBaseUrl d.
Proof.
  unfold tellable_dec. rewrite !andb_true_iff, !forallb_forall, <- !List.Forall_forall.
  intros (((H1%printed_check & H2) & H3) & H4). by split.
Qed.

Lemma paid_tellable : tellable (D := Server.lib) "http://localhost:8080" (db_now paid_then_dead).
Proof. apply tellable_check. by vm_compute. Qed.

Lemma paid_rows : Z.of_nat (length (t_notify_record (db_now paid_then_dead)) + length (t_local_message (db_now paid_then_dead))) < 10 ^ 18.
Proof. by vm_compute. Qed.

Lemma sample_loads : is_Some (loadMqConfig (J := Tree.lib) sample_config).
Proof. by eexists; vm_compute. Qed.

(** One paid order, its message pending, nothing recorded. *)
Lemma paid_pending : match t_local_message (db_now paid_then_dead) with
  | [r] => bool_decide (mr_status r = kMsgPending) && negb (recorded (D := Server.lib) (mr_message_id r) (db_now paid_then_dead))
  | _ => false
  end = true.
Proof. by vm_compute. Qed.

Lemma site_recovers_witness :
  exists s' r n q, rtc (mend_step (D := Server.lib) (J := Tree.lib) (O := SignUtil.Plain.lib) (Ro := Paths.router) RepeatableRead
      sample_config sample_files "http://localhost:8080" "OK") dead_restarted s'
    /\ t_local_message (db_now paid_then_dead) = [r] /\ mr_status r = kMsgPending
    /\ told_now (J := Tree.lib) "http://localhost:8080" s' r n q.
Proof.
  destruct (site_recovers (D := Server.lib) (J := Tree.lib) (O := SignUtil.Plain.lib) (L := Server.lib_laws) (Ro := Paths.router)
    RepeatableRead sample_config sample_files "http://localhost:8080" "OK" eq_refl (JL := Tree.lib_laws)
    Server.ordered_shop paid_then_dead dead_restarted paid_happens ordered_first_day (or_intror eq_refl) sample_loads
    paid_tellable paid_rows) as (s' & Hr & _ & _ & H).
  pose proof paid_pending as Hp. destruct (t_local_message (db_now paid_then_dead)) as [|r [|]]; try discriminate Hp.
  apply andb_true_iff in Hp as [Hp Hrec]. apply bool_decide_eq_true in Hp. apply negb_true_iff in Hrec.
  destruct (H r (or_introl eq_refl) (or_introl Hp)) as [_ [Hold | (n & q & Ht)]]; [congruence |].
  exists s', r, n, q. split; [exact Hr |]. split; [reflexivity |]. split; [exact Hp | exact Ht].
Defined.
