(* ===== verification/Lost.v ===== *)
(** * Lost: what no later delivery repairs

    The other half of [Recovery].  A delivery is the only occasion on which the merchant
    is told under the number of its notification: when the consumer is no longer at
    it, because it has ended or the process has died, the requests under that
    number are counted for good.  So a message that was recorded, and not told, when
    the process died is never told, whatever happens afterwards. *)

From stdpp Require Import relations.
From S2P Require Import Prelude MoneyUtil IdGenerator JsonValue Result RequestId BeijingTime SignUtil Models.
From S2P Require Import Database Transaction Daos Invariant Locks Interleaving RelyGuarantee Server OrderService PaymentService Books.
From S2P Require Import Reconcile ReconcileService MqClient MessageRelay NotifyConsumer Controllers Routes System EndToEnd.
From S2P Require Import Concurrency Backoffice Jobs Frontdoor Workload Progress Alone Agents Site SiteSafety SiteProgress.

(** Three requests under the number [no]: an agent that is safe after them sends no
    other. *)
Definition used_up (no : string) : list HttpReq := replicate 3 (mkHttpReq "" "" no "").

Lemma used_up_app no log : sent_under no (used_up no ++ log) = (3 + sent_under no log)%nat.
Proof.
  assert (H3 : sent_under no (used_up no) = 3%nat)
    by (unfold sent_under, used_up; cbn [replicate]; rewrite !filter_cons_True by done; done).
  unfold sent_under in *. by rewrite filter_app, length_app, H3.
Qed.

Section Lost.
Context {D : MySql} {J : JsonCpp} {O : OpenSsl} {L : MySqlLaws} {Ro : Router} (iso : isolation).
Context (customConfig : jvalue) (open_file : string -> option string) (notifyBaseUrl : string).

#[local] Abbreviation site_move := (site_move iso customConfig open_file notifyBaseUrl).
#[local] Abbreviation site_step := (site_step iso customConfig open_file notifyBaseUrl).
#[local] Abbreviation happens := (happens iso customConfig open_file notifyBaseUrl).

(** The consumer is not telling under the number [no]. *)
Definition shuns {Ov : Oversight} (no : string) (s : Site) : Prop :=
  slot_ok customConfig open_file notifyBaseUrl (server s) (used_up no ++ posted s) (consuming s).

Lemma used_up_numbered {Ov : Oversight} d n log : In n (t_notify_record d) -> Forall (heard notifyBaseUrl d) log ->
  Forall (numbered d) (used_up (nr_notify_no n) ++ log).
Proof.
  intros Hn Hlog. apply Forall_app. split.
  - apply Forall_replicate. by exists n.
  - eapply Forall_impl; [exact Hlog | apply heard_numbered].
Qed.

(** The part of a move that is a job's. *)
Lemma job_shuns {Ov : Oversight} {A} s log (sl : slot A) w sl' no : site_ok iso customConfig open_file notifyBaseUrl s ->
  slot_ok customConfig open_file notifyBaseUrl (server s) log sl ->
  job_move customConfig open_file (server s) sl = Some (w, sl') ->
  slot_ok customConfig open_file notifyBaseUrl w log sl' /\ (shuns no s -> slot_ok customConfig open_file notifyBaseUrl w (used_up no ++ posted s) (consuming s)).
Proof.
  intros Hok Hsl Hj.
  destruct (job_move_ok iso customConfig open_file notifyBaseUrl _ _ _ _ _ (so_server _ _ _ _ _ Hok) Hsl Hj) as (_ & H & _ & Hother).
  split; [done | apply Hother].
Qed.

(** A move of the consumer. *)
Lemma consume_shuns {Ov : Oversight} reply s s' no : site_ok iso customConfig open_file notifyBaseUrl s -> shuns no s ->
  site_move (Consume reply) s = Some s' -> shuns no s' /\ sent_under no (posted s') = sent_under no (posted s).
Proof.
  intros Hok Hs Hmv. cbn [Site.site_move] in Hmv.
  assert (Hgo : ('(w, sl') ← job_move customConfig open_file (server s) (consuming s);
    Some (set_consumer sl' (set_server w s))) = Some s' -> shuns no s' /\ sent_under no (posted s') = sent_under no (posted s)).
  { intros H. apply bind_Some in H as ([w sl'] & Hj & [= <-]). split; [| done].
    exact (proj1 (job_shuns s _ _ w sl' no Hok Hs Hj)). }
  unfold shuns in Hs.
  destruct (consuming s) as [| [[u | e | |] | j k | x key b k | q k] | i k] eqn:Hsl; try (by apply Hgo).
  - by injection Hmv as <-.
  - injection Hmv as <-. cbn [slot_ok Agents.asafe] in Hs. destruct Hs as (_ & Hlt & Hk).
    assert (Hne : rq_request_id q <> no) by (intros <-; rewrite used_up_app in Hlt; lia).
    split; [unfold shuns; cbn [server posted consuming add_posted set_consumer slot_ok]; rewrite app_assoc; apply Hk |].
    cbn [posted add_posted set_consumer]. rewrite sent_under_snoc. rewrite decide_False by done. lia.
Qed.

(** What any move leaves of it, for the number of a notification. *)
Lemma move_shuns {Ov : Oversight} mv s s' n : site_ok iso customConfig open_file notifyBaseUrl s ->
  rtc service_commit (db_now s) (db_now s') -> In n (t_notify_record (db_now s)) -> shuns (nr_notify_no n) s ->
  site_move mv s = Some s' ->
  shuns (nr_notify_no n) s' /\ sent_under (nr_notify_no n) (posted s') = sent_under (nr_notify_no n) (posted s).
Proof.
  intros Hok Hr Hn Hs Hmv. set (no := nr_notify_no n) in *.
  destruct mv as [v | i c | | B | m | reply |]; [cbn [Site.site_move] in Hmv.. | by eapply consume_shuns | by injection Hmv as <-].
  - destruct (from_outside v); [| done]. injection Hmv as <-. split; [by apply slot_ok_arrive | done].
  - apply bind_Some in Hmv as (w & Hturn & [= <-]). split; [| done].
    eapply slot_ok_turn; [exact Hturn | by apply commits_later | done].
  - destruct (relaying s); try done. by destruct (relay_client _ _); injection Hmv as <-.
  - assert (Hgo : ('(w, sl') ← job_move customConfig open_file (server s) (relaying s);
      Some (set_relay (mqClient_ s) sl' (set_server w s))) = Some s' -> shuns no s' /\ sent_under no (posted s') = sent_under no (posted s)).
    { intros H. apply bind_Some in H as ([w sl'] & Hj & [= <-]). split; [| done].
      exact (proj2 (job_shuns s [] _ w sl' no Hok (so_relay _ _ _ _ _ Hok []) Hj) Hs). }
    destruct (relaying s) as [| [[u | e | |] | j k | x key b k | q k] | i k]; try (by apply Hgo).
    + by injection Hmv as <-.
    + apply bind_Some in Hmv as (mq & _ & Hmv). destruct (publish _ _ _ _) as [ok mq']. by injection Hmv as <-.
  - destruct (consuming s) eqn:Hsl; try done. apply bind_Some in Hmv as (msg & Hm & [= <-]). split; [| done].
    apply list_elem_of_lookup_2, list_elem_of_In, (so_published _ _ _ _ _ Hok) in Hm as (r & Hin & <-).
    apply process_agent_safe; [done |]. apply used_up_numbered; [done | apply (so_posted _ _ _ _ _ Hok)].
Qed.

Lemma steps_shuns {Ov : Oversight} s s' : rtc site_step s s' -> (forall m, In m (broker_confirmed s') -> confirmed_msg m) ->
  site_ok iso customConfig open_file notifyBaseUrl s ->
  forall n, In n (t_notify_record (db_now s)) -> shuns (nr_notify_no n) s ->
  sent_under (nr_notify_no n) (posted s') = sent_under (nr_notify_no n) (posted s).
Proof.
  induction 1 as [s | s u s' [mv Hmv] Hr IH]; [done |]. intros Hconf Hok n Hn Hs.
  destruct (site_move_confirmed _ _ _ _ mv s u Hmv (so_client _ _ _ _ _ Hok)) as [Hc _].
  destruct (site_move_ok iso customConfig open_file notifyBaseUrl mv s u Hmv) as [Hu Hdb]; [| done |].
  { intros m Hm. apply Hconf. by eapply site_steps_confirmed. }
  destruct (move_shuns mv s u n Hok Hdb Hn Hs Hmv) as [Hs' <-].
  destruct (later_notify _ _ (commits_later _ _ Hdb) n Hn) as (n' & Hn' & E & _). rewrite <- E in *. by apply IH.
Qed.

(** The requests under the number of a notification are counted for good once the
    consumer is idle, the process restarted included. *)
Theorem requests_final d s s' n : happens d s -> first_day d -> rtc site_step s s' ->
  consuming s = Free -> In n (t_notify_record (db_now s)) ->
  sent_under (nr_notify_no n) (posted s') = sent_under (nr_notify_no n) (posted s).
Proof.
  intros Hh Hd Hr Hfree Hn.
  destruct (happens_ok_until iso customConfig open_file notifyBaseUrl d s s' Hh Hd Hr) as [Hok _].
  apply (steps_shuns (Ov := in_the_end s') s s' Hr); [done | exact Hok | exact Hn |].
  unfold shuns. by rewrite Hfree.
Qed.

(** What was recorded and not told when the process died is never told: the merchant
    does not hear of that paid order, although its message is in the outbox, the
    broker may deliver it again and the consumer acknowledges it. *)
Theorem recorded_never_told {JL : JsonCppLaws} d s s1 s' n r o : happens d s -> first_day d ->
  site_move Crash s = Some s1 -> rtc site_step s1 s' -> printed (db_now s') ->
  In n (t_notify_record (db_now s)) -> sent_under (nr_notify_no n) (posted s) = 0%nat ->
  In o (t_order (db_now s')) -> In r (t_local_message (db_now s')) -> vouches o r ->
  sql_eq (mr_message_id r) (nr_message_id n) = true ->
  ~ exists q, In q (posted s') /\ told notifyBaseUrl (db_now s') q o.
Proof.
  intros Hh Hd Hcrash Hr Hprint Hn Hnone Ho Hin Hv Hid%sql_eq_iff (q & Hq & r2 & n2 & Hr2 & Hv2 & Hn2 & am & Hp & ->).
  assert (Hh1 : happens d s1) by (eapply rtc_r; [exact Hh | by exists Crash]). injection Hcrash as <-. set (s1 := mkSite _ _ _ _ _ _ _) in *.
  assert (Hh' : happens d s') by (unfold Site.happens in *; by etransitivity).
  destruct (happens_ok iso customConfig open_file notifyBaseUrl d s' Hh' Hd) as ([[Hwf _] _ _ _ _ _ _ _ _ _] & _ & Hl).
  destruct (one_message (db_now s') o r r2 Hwf Hl Hin Hv Hr2 Hv2).
  rewrite (vouches_parse (db_now s') o r Hprint Ho Hin Hv) in Hp. injection Hp as Hmid _ _.
  assert (Hok1 : Site.site_ok (Ov := in_the_end s') iso customConfig open_file notifyBaseUrl s1
    /\ forall m, In m (broker_confirmed s1) -> In m (broker_confirmed s')).
  { assert (Hmono := site_steps_confirmed iso customConfig open_file notifyBaseUrl s1 s' Hr I). split; [| exact Hmono].
    by apply (site_steps_ok (Ov := in_the_end s') iso customConfig open_file notifyBaseUrl _ _ Hh1); [| apply first_ok]. }
  destruct (site_steps_ok (Ov := in_the_end s') iso customConfig open_file notifyBaseUrl s1 s' Hr) as [_ Hdb]; [done | apply Hok1 |].
  destruct (later_notify _ _ (commits_later (Ov := in_the_end s') _ _ Hdb) n Hn) as (n' & Hn' & E1 & _ & E3).
  assert (n2 = n') as ->.
  { eapply (key_unique (fun n => weight (nr_message_id n))); [apply (wf_notify_message _ (proj1 Hwf)) | done | done |].
    by rewrite <- Hmid, E3. }
  pose proof (requests_final d s1 s' n Hh1 Hd Hr eq_refl Hn) as Hcount. change (posted s1) with (posted s) in Hcount.
  rewrite Hnone in Hcount. unfold sent_under in Hcount. apply nil_length_inv in Hcount.
  refine (filter_nil_not_elem_of _ _ _ Hcount _ (proj2 (list_elem_of_In _ _) Hq)). by rewrite <- E1.
Qed.

Lemma outbox_vouched d s r : happens d s -> first_day d -> In r (t_local_message (db_now s)) ->
  exists o, In o (t_order (db_now s)) /\ vouches o r.
Proof.
  intros Hh Hd. destruct (happens_ok iso customConfig open_file notifyBaseUrl d s Hh Hd) as (Hs & _).
  apply (so_outbox (Ov := in_the_end s) _ _ _ _ _ Hs).
Qed.
End Lost.

(** ** Witness: the process dies between the record and the request *)

Definition recorded_then_dead : Site (J := Tree.lib) := default (first_start Server.ordered_shop)
  (site_story (removelast before_the_crash)).

Definition reopened : Site (J := Tree.lib) :=
  mkSite (mkConf (db_now recorded_then_dead) []) None Free Free (broker_confirmed recorded_then_dead)
    (published recorded_then_dead) (posted recorded_then_dead).

(** The relay publishes the message again, the broker delivers it again. *)
Definition delivered_again : Site (J := Tree.lib) := default reopened
  (site_run (D := Server.lib) (J := Tree.lib) (O := SignUtil.Plain.lib) (Ro := Paths.router) RepeatableRead
    sample_config sample_files "http://localhost:8080" after_the_crash reopened).

Lemma recorded_happens : happens (D := Server.lib) (J := Tree.lib) (O := SignUtil.Plain.lib) (Ro := Paths.router)
  RepeatableRead sample_config sample_files "http://localhost:8080" Server.ordered_shop recorded_then_dead.
Proof. apply story_happens. by vm_compute. Qed.

Lemma again_steps : rtc (site_step (D := Server.lib) (J := Tree.lib) (O := SignUtil.Plain.lib) (Ro := Paths.router)
  RepeatableRead sample_config sample_files "http://localhost:8080") reopened delivered_again.
Proof.
  apply (site_run_rtc (D := Server.lib) (J := Tree.lib) (O := SignUtil.Plain.lib) (Ro := Paths.router)
    RepeatableRead sample_config sample_files "http://localhost:8080" after_the_crash).
  assert (H : isSome (site_run (D := Server.lib) (J := Tree.lib) (O := SignUtil.Plain.lib) (Ro := Paths.router) RepeatableRead
    sample_config sample_files "http://localhost:8080" after_the_crash reopened) = true) by (by vm_compute).
  unfold delivered_again. by destruct (site_run _ _ _ _ after_the_crash reopened).
Qed.

Lemma again_happens : happens (D := Server.lib) (J := Tree.lib) (O := SignUtil.Plain.lib) (Ro := Paths.router)
  RepeatableRead sample_config sample_files "http://localhost:8080" Server.ordered_shop delivered_again.
Proof.
  unfold happens. etransitivity; [exact recorded_happens |]. eapply rtc_l; [by exists Crash | exact again_steps].
Qed.

Lemma only_row {X Y : Type} (f : X -> Y) l y : map f l = [y] -> exists x, In x l /\ f x = y.
Proof. destruct l as [|x [|]]; try discriminate. intros [= <-]. exists x. by split; [left |]. Qed.

(** The message is acknowledged, the notification is in the table, untold. *)
Lemma again_message : map (fun r => (mr_status r, mr_message_id r)) (t_local_message (db_now delivered_again)) = [(kMsgAcked, "900")].
Proof. by vm_compute. Qed.

Lemma dead_notification : map nr_message_id (t_notify_record (db_now recorded_then_dead)) = ["900"].
Proof. by vm_compute. Qed.

Lemma dead_posted : posted recorded_then_dead = [].
Proof. by vm_compute. Qed.

Lemma dead_silent no : sent_under no (posted recorded_then_dead) = 0%nat.
Proof. by rewrite dead_posted. Qed.

Lemma again_printed : printed (db_now delivered_again).
Proof. apply printed_check. by vm_compute. Qed.

Lemma recorded_never_told_witness : exists r o,
  In r (t_local_message (db_now delivered_again)) /\ mr_status r = kMsgAcked
  /\ In o (t_order (db_now delivered_again)) /\ or_status o = kPaid
  /\ ~ exists q, In q (posted delivered_again)
      /\ told (D := Server.lib) (J := Tree.lib) "http://localhost:8080" (db_now delivered_again) q o.
Proof.
  destruct (only_row _ _ _ again_message) as (r & Hr & Hrow). injection Hrow as Hst Hid.
  destruct (only_row _ _ _ dead_notification) as (n & Hn & Hmid).
  destruct (outbox_vouched (D := Server.lib) (J := Tree.lib) (O := SignUtil.Plain.lib) (L := Server.lib_laws) (Ro := Paths.router)
    RepeatableRead sample_config sample_files "http://localhost:8080" Server.ordered_shop delivered_again r
    again_happens ordered_first_day Hr) as (o & Ho & Hv).
  assert (Hsame : sql_eq (D := Server.lib) (mr_message_id r) (nr_message_id n) = true) by (rewrite Hid, Hmid; reflexivity).
  exists r, o. split; [exact Hr |]. split; [exact Hst |]. split; [exact Ho |]. split; [exact (vo_paid _ _ Hv) |].
  exact (recorded_never_told (D := Server.lib) (J := Tree.lib) (O := SignUtil.Plain.lib) (L := Server.lib_laws) (Ro := Paths.router)
    RepeatableRead sample_config sample_files "http://localhost:8080" (JL := Tree.lib_laws) Server.ordered_shop
    recorded_then_dead reopened delivered_again n r o recorded_happens ordered_first_day eq_refl again_steps again_printed
    Hn (dead_silent _) Ho Hr Hv Hsame).
Defined.
