(* ===== verification/Startup.v ===== *)
(** * Startup: the life of the process

    [src/main.cc]: the command line, the order in which the parts are started, and
    what is left when the event loop has returned.  [loadConfigFile] and [run] of
    drogon are parameters: what the configuration file holds, and what happens to the
    process while it serves. *)

From S2P Require Import Prelude MoneyUtil IdGenerator BeijingTime JsonValue Result Models Database RequestId Logger ThreadPool.
From S2P Require Import Daos Server OrderService PaymentService MqClient MessageRelay NotifyConsumer.

(** ** The command line *)

(** The loop over [argv], from [argv[1]] on: an option needs a value after it. *)
Fixpoint scan_args (args : list string) (path : string) : string :=
  match args with
  | a :: ((v :: rest') as rest) => if String.eqb a "--config" then scan_args rest' v else scan_args rest path
  | _ => path
  end.

Definition parseConfigPath (argv : list string) : string := scan_args (tail argv) "./config/config.json".

(** The default applies when the option is absent or has no value. *)
Lemma parseConfigPath_default prog args : Forall (fun a => a <> "--config") args ->
  parseConfigPath (prog :: args) = "./config/config.json"
  /\ parseConfigPath (prog :: args ++ ["--config"]) = "./config/config.json".
Proof.
  intros H. unfold parseConfigPath. cbn [tail].
  assert (Hscan : forall rest path, (rest = [] \/ rest = ["--config"]) -> scan_args (args ++ rest) path = path).
  { intros rest path Hr. induction H as [|a args Ha _ IH]; [by destruct Hr as [-> | ->] |].
    cbn [app scan_args]. destruct (args ++ rest) as [|v rest'] eqn:He; [done |].
    destruct (String.eqb_spec a "--config") as [-> | _]; [done | exact IH]. }
  split; [| by apply Hscan; right]. pose proof (Hscan [] "./config/config.json" (or_introl eq_refl)) as Hs.
  by rewrite app_nil_r in Hs.
Qed.

(** The last option wins, and a path equal to the option's name is not an option. *)
Example parseConfigPath_last :
  parseConfigPath ["server"; "--config"; "--config"; "x"; "--config"; "b.json"; "--config"] = "b.json".
Proof. reflexivity. Qed.

(** ** The process *)

Inductive timer := RelayTimer | ReconcileTimer.

Section Main.
Context {J : JsonCpp}.

(** The logger; whether drogon's own log goes to it; the pool's singleton; what
    drogon has been told: the custom configuration, the number of event-loop
    threads, the timers with their periods in seconds; the base URL of the consumer
    thread, once it runs. *)
Record process := mkProcess {
  p_log : log_state;
  p_redirected : bool;
  p_pool : option pool;
  p_customConfig : option jvalue;
  p_threadNum : Z;
  p_timers : list (timer * Z);
  p_consumer : option string
}.

(** Before [main]; drogon's default is one event-loop thread. *)
Definition process_init : process := mkProcess log_init false None None 1 [] None.

Definition kIoThreads : Z := 4.
Definition kPoolThreads : nat := 8.
Definition kScanIntervalSeconds : Z := 5.
Definition kCheckIntervalSeconds : Z := 60.

Definition with_log (s : log_state) (p : process) : process :=
  mkProcess s (p_redirected p) (p_pool p) (p_customConfig p) (p_threadNum p) (p_timers p) (p_consumer p).

Context (file_ok : bool).

(** [common::Logger::get()], for its effect. *)
Definition touch_log (p : process) : process := with_log (get file_ok (p_log p)).2 p.

(** [utils::globalThreadPool()]: the singleton, made at the first call. *)
Definition globalThreadPool (p : process) : process :=
  mkProcess (p_log p) (p_redirected p)
    (match p_pool p with Some q => Some q | None => Some (pool_new kPoolThreads) end)
    (p_customConfig p) (p_threadNum p) (p_timers p) (p_consumer p).

(** [drogon::app().getLoop()->runEvery(...)]. *)
Definition start_timer (t : timer) (seconds : Z) (p : process) : process :=
  mkProcess (p_log p) (p_redirected p) (p_pool p) (p_customConfig p) (p_threadNum p)
    (p_timers p ++ [(t, seconds)]) (p_consumer p).

(** [MessageRelayTask::start], [ReconcileTask::start]. *)
Definition start_relay : process -> process := start_timer RelayTimer kScanIntervalSeconds.
Definition start_reconcile : process -> process := start_timer ReconcileTimer kCheckIntervalSeconds.

(** [NotifyConsumer::start]: [None] when the configured URL is not a string, whose
    exception leaves [main]. *)
Definition start_consumer (p : process) : option process :=
  url ← notify_base_url (default jnull (p_customConfig p));
  Some (touch_log (mkProcess (p_log p) (p_redirected p) (p_pool p) (p_customConfig p) (p_threadNum p)
    (p_timers p) (Some url))).

(** What a file makes of the custom configuration and of the number of threads;
    [None] when it cannot be loaded, which ends the process. *)
Context (loadConfigFile : string -> option (jvalue * Z)).

Definition load_config (path : string) (p : process) : option process :=
  '(cfg, n) ← loadConfigFile path;
  Some (mkProcess (p_log p) (p_redirected p) (p_pool p) (Some cfg) n (p_timers p) (p_consumer p)).

Definition set_threadNum (n : Z) (p : process) : process :=
  mkProcess (p_log p) (p_redirected p) (p_pool p) (p_customConfig p) n (p_timers p) (p_consumer p).

Definition redirect (p : process) : process :=
  mkProcess (p_log p) true (p_pool p) (p_customConfig p) (p_threadNum p) (p_timers p) (p_consumer p).

(** [main] up to [drogon::app().run()]: steps 1 to 9. *)
Definition startup (argv : list string) (p : process) : option process :=
  let p1 := touch_log (with_log (init file_ok LDebug (p_log p)) p) in
  let p2 := globalThreadPool (redirect p1) in
  p3 ← load_config (parseConfigPath argv) p2;
  let p4 := start_relay (set_threadNum kIoThreads p3) in
  p5 ← start_consumer p4;
  Some (globalThreadPool (start_reconcile p5)).

(** [drogon::app().run()], and step 11. *)
Context (run : process -> process).

Definition main (argv : list string) (p : process) : option process :=
  p1 ← startup argv p;
  let p2 := run p1 in
  Some (with_log (shutdown (p_log p2)) p2).

(** The process that enters the event loop. *)
Definition serving (cfg : jvalue) (url : string) : process :=
  mkProcess (calls file_ok [CallInit LDebug]) true (Some (pool_new kPoolThreads)) (Some cfg) kIoThreads
    [(RelayTimer, kScanIntervalSeconds); (ReconcileTimer, kCheckIntervalSeconds)] (Some url).

Lemma startup_eq argv : startup argv process_init =
  '(cfg, _) ← loadConfigFile (parseConfigPath argv); url ← notify_base_url cfg; Some (serving cfg url).
Proof.
  unfold startup, load_config, start_consumer. destruct (loadConfigFile _) as [[cfg n]|]; [| done]. cbn.
  by destruct (notify_base_url cfg).
Qed.

(** C32. The start and the end of the process.  The server serves exactly when the file
    of the last [--config] option (or the default one) loads and names the
    merchant by a string, if at all; it then has the logger in use, eight ready
    workers, four event-loop threads whatever the file says, both timers and the
    consumer.  At the end the logger is released, while the pool is left as it was:
    a task that still waits in it finds no logger, and its first call, with a
    request identifier, goes through a null pointer. *)
Theorem main_spec argv cs :
  (forall p, p_log (run p) = fold_left (fun s c => call file_ok c s) cs (p_log p)) ->
  match main argv process_init with
  | Some p =>
      exists cfg n url, loadConfigFile (parseConfigPath argv) = Some (cfg, n) /\ notify_base_url cfg = Some url
        /\ (get file_ok (p_log (serving cfg url))).1 = Some (global_logger file_ok)
        /\ p_pool p = p_pool (run (serving cfg url))
        /\ get file_ok (p_log p) = (None, p_log p)
        /\ forall rid, rid <> "" -> withRequestId file_ok rid (p_log p) = (Undefined, p_log p)
  | None =>
      match loadConfigFile (parseConfigPath argv) with
      | None => True
      | Some (cfg, _) => notify_base_url cfg = None
      end
  end.
Proof.
  intros Hrun. unfold main. rewrite startup_eq. destruct (loadConfigFile _) as [[cfg n]|]; [| done]. cbn [mbind option_bind].
  destruct (notify_base_url cfg) as [url|] eqn:Hurl; [| done]. cbn [mbind option_bind].
  exists cfg, n, url. split; [done |]. split; [done |]. split; [done |]. split; [done |].
  assert (Hd : dead (shutdown (p_log (run (serving cfg url))))).
  { split; [done |]. split; [done |]. cbn. rewrite Hrun. by apply initFlag_calls. }
  by split; [apply dead_get | intros rid Hrid; apply dead_withRequestId].
Qed.
End Main.

(** ** Witness: the server is stopped while a task waits *)

Definition busy_loop (p : process (J := Tree.lib)) : process (J := Tree.lib) :=
  mkProcess (fold_left (fun s c => call true c s) [CallWithRequestId "00ff"; CallGet] (p_log p)) (p_redirected p)
    ((fun q => (submit (Some 1%nat) q).2) <$> p_pool p) (p_customConfig p) (p_threadNum p) (p_timers p) (p_consumer p).

Definition sample_file (path : string) : option (Tree.json * Z) :=
  if String.eqb path "my.json" then Some (sample_config, 2) else None.

Definition stopped : option (process (J := Tree.lib)) :=
  main (J := Tree.lib) true sample_file busy_loop ["server"; "--config"; "my.json"] (process_init (J := Tree.lib)).

Lemma main_spec_witness :
  (p ← stopped; q ← p_pool p; Some (tasks_ q)) = Some [1%nat]
  /\ match stopped with
     | Some p => forall rid, rid <> "" -> withRequestId true rid (p_log p) = (Undefined, p_log p)
     | None => False
     end.
Proof.
  split; [reflexivity |].
  destruct (main_spec (J := Tree.lib) true sample_file busy_loop ["server"; "--config"; "my.json"]
    [CallWithRequestId "00ff"; CallGet] (fun p => eq_refl)) as (cfg & n & url & _ & _ & _ & _ & _ & H).
  exact H.
Defined.
